(* ===== verification/_CoqProject ===== *)
-Q . S2P
Prelude.v
CString.v
CFloat.v
CFloatFacts.v
CFormat.v
Sys.v
SimOS.v
Utils.v
StorageStats.v
Daemon.v
DaemonProps.v
DaemonAsync.v
Ipc.v
SimNet.v
IpcProps.v
Backup.v
BackupProps.v
Checksum.v
Raid.v
Lvm.v
RaidProps.v
LvmProps.v
Fs.v
Memory.v
Security.v
Perf.v
Monitor.v
Cli.v
FsProps.v
MemoryProps.v
SecurityProps.v
PerfProps.v
BenchProps.v
MonitorProps.v
CliProps.v
Plans.v
Listings.v
DaemonMain.v
DaemonMainProps.v
StartProps.v
FinishProps.v
