(* ===== verification/Prelude.v ===== *)
(** * Storage Manager: a verification of the C sources

    The program is a storage manager for Linux: a daemon with a worker table
    and an IPC server, a set of managers that drive mdadm, LVM, mkfs, mount,
    swap, ACL and LUKS commands through the shell, a monitor and a backup
    engine that keep SQLite databases, a command line client, and a kernel
    module that counts I/O per device.  This library translates those parts
    into executable Rocq definitions and proves what makes them correct.

    ** How the code is modelled

    A C function is a function in the monad [M W A] of this file: a state
    transformer over the outside world [W] that may run into undefined
    behaviour ([None]: a write past a buffer, a read outside an array or of
    memory that was never set).  The operating system is not part of the
    repository; it appears as type classes over [W], one per family of calls
    ([Sys]: [Shell], [Files], [Clock], [Procs]; [Ipc]: [Net]; [Backup]: [Db];
    [Checksum]: [Sha256]; [Fs]: [Mounts]; [Security]: [Secure]; [Perf]:
    [Bench]; [Monitor]: [HistDb]; [DaemonMain]: [Session]), with the documented
    behaviour a theorem relies on in a second class ([FilesLaws], [ProcsLaws],
    [NetLaws], [DbLaws], [ShellTrace], [BenchLaws], [AuditLaws], [StartLaws],
    [FinishLaws], ...).
    [ShellTrace] is a log of the commands given to the shell, which states
    what a manager ran.  [SimOS], [SimNet] and the instances at the end of the
    property files are concrete systems that satisfy the laws; every theorem
    with hypotheses is applied to one of them by its witness.

    Integers are [Z] with the wrap-around of their type written out ([u32],
    [u64], [i32]); strings are [string]s, cut where the code cuts them;
    [printf] and [scanf] interpret the format strings of the sources
    ([CFormat]); [float] and [double] are IEEE 754 numbers that are computed,
    converted, printed and read the way the C library does ([CFloat]).  A
    function whose purpose is a text gives that text; log and progress messages
    of the other functions are left out, except that a message which prints a
    buffer that no command has written is undefined behaviour.  That happens
    when [popen] cannot start the shell; [ShellStarts] is the class of systems
    where it can.  A pointer argument that the code compares with NULL first is
    a value here, and the error return for NULL is left out, unless some caller
    passes NULL (labels, mount options, the output of [execute_command]), in
    which case the argument is an [option].

    ** Files

    - [Prelude]: integers, the monad, loops, total-correctness triples, lists.
    - [CString], [CFormat], [CFloat], [CFloatFacts]: the C library: strings,
      [strtok], [fgets], conversions and their round trips, floating point with
      [strtod] and %f, and that its roundings are divisions to nearest even.
    - [Sys]: the system interfaces and the part of src/utils.c the managers
      call ([execute_command] with its 256-byte reads and bounded output,
      privilege and path checks, PID files).  [SimOS]: a concrete system.
    - [Utils]: the rest of src/utils.c: log lines, time stamps, and the two
      conversions of sizes, exact where they can be.
    - [StorageStats]: kernel_module/storage_stats.c.  The device table, its
      operations, and the update split into the steps processors interleave;
      refinement of a map from names to counters, conservation of the counts
      under every interleaving, the race on a new slot, slot exhaustion.
    - [Daemon], [DaemonProps]: src/daemon.c.  Worker table, signal handler,
      reaping, PID file, shutdown; the invariant of every run with the
      definedness of every operation, termination of the [waitpid] loop and the
      status it gives, the PID file with stale files and the fallback path,
      slots that are never reused.
    - [DaemonAsync]: the same operations split into single accesses to the
      worker table, with signal handlers run between any two of them: what is
      safe under every schedule, what is not (two races with SIGCHLD), and that
      without signals the split operations are those of [Daemon].
    - [Ipc], [SimNet], [IpcProps]: src/ipc_server.c and the client end of
      cli/storage_cli.c.  The table of clients and descriptors, the wire
      format as bytes, the select loop, shared page, semaphore, job queue; the
      server's invariant, the round trip of a request through client and
      server, life cycle, accept, shutdown request, order of jobs.
    - [Backup], [BackupProps]: src/backup_engine.c.  Creation, listing,
      verification, restoration, pruning, snapshots, scheduler; pruning keeps
      exactly the newest, creation is recorded with the result of its command,
      create then restore, removal of snapshots as lvcreate and mount ended,
      and the undefined cases.  [Checksum]: the SHA-256 checksum
      of a file, independent of the pieces it is read in.
    - [Raid], [Lvm], [RaidProps], [LvmProps]: src/raid_manager.c and
      src/lvm_manager.c.  Guards and exact commands, the exact condition under
      which the [strcat] buffers overflow and the command is cut, parsing of
      mdadm, pvs, vgs and lvs output (whatever lines it has besides, and however
      its columns are aligned) as round trips, the lost array name, which
      volumes are refused for removal and when the test sees nothing.
    - [Fs], [FsProps]: src/filesystem_ops.c.  Checks and repairs only on
      unmounted devices; sizes, equal to those of the monitor.
    - [Memory], [MemoryProps]: src/memory_manager.c.  The automatic swap on
      every branch, /proc/meminfo read back exactly, the documented ranges of
      the two ratios.
    - [Security], [SecurityProps]: src/security_manager.c.  Passphrases go
      through a temporary file that is removed; the audit log implements a list
      of entries, lost only when the file cannot be appended to; which attribute bits setting and unsetting leave.
    - [Perf], [PerfProps], [BenchProps]: src/performance_tuner.c.  Profiles are
      applied and read back, the scheduler from its brackets; the benchmarks end
      and measure what they should.
    - [Monitor], [MonitorProps]: src/monitor.c.  Samples are the exact
      differences; samples that are not written; the range of the disk usage.
    - [DaemonMain], [DaemonMainProps]: src/daemon_main.c and the process
      set-up of src/daemon.c.  Start-up, main loop and end, over one shared
      world; the invariants of worker table and IPC server hold together in
      every interleaving of turns, signals and outside moves, and only two
      signals end the main loop.  [StartProps]: how every start ends, and that
      one that reaches the loop establishes those invariants.  [FinishProps]:
      after SIGTERM or SIGINT the loop is left and the end of [main], run in
      single accesses with the signals it causes in between, leaves no worker,
      descriptor or PID file behind.
    - [Cli], [CliProps]: cli/storage_cli.c, the dispatch of [main] and what the
      commands print.  No manager acts for a caller that is not root, every one
      returns, with a documented code; what is not a command runs nothing;
      unknown file system names.
    - [Plans]: a table of what each of 33 management operations of the five
      managers checks and runs, its commands as words, how such a plan is
      carried out, and that the operations, and the command lines that ask for
      them, carry out their plans.
    - [Listings]: the output of getfacl, /proc/swaps and /proc/diskstats,
      printed from their entries and read back.

    ** Loops and fuel

    Loops over arrays, lines and lists are structural.  [reap_loop] takes fuel
    and is shown to end whenever the fuel exceeds the number of terminated
    children; [reap_code] and [shutdown_code] take the same fuel.
    [ipc_server_run] takes the number of turns of a loop that only a shutdown
    ends, [memory_monitor_continuous] the number of turns of a loop that nothing
    ends.  [read_loop] and [write_loop] of the benchmarks take fuel and say when
    it ran out; [benchmark_terminates] shows that enough fuel exists for every
    file and that the result does not depend on it.  [update_loop] of the
    checksum gets one turn per byte of the file and one more, which is enough.

    ** Not modelled

    The layout of the report of the kernel module (its numbers are): it is
    printed with %.2f, which [seq_printf] does not have; the log
    and progress messages of functions that do something else, what [syslog] is
    given by the daemon; threads other than as interleaved turns, so that the
    monitoring thread and the IPC thread are not stopped in the middle of one
    (the IPC thread and the main loop share only the flag [running], which each
    turn tests once);
    what the header files declare and no source file defines (random
    benchmarks, saved profiles, backup schedules, audit entries); tests,
    scripts and build files. *)

From stdpp Require Import base list gmap strings pretty.
From Stdlib Require Import ZArith Lia.

#[global] Open Scope Z_scope.

(** ** Machine integers *)

(** C integers are kept as [Z]; every operation whose result can leave the
    type's range is wrapped by the function of its type. *)
Definition u32 (z : Z) : Z := z mod 2 ^ 32.
Definition u64 (z : Z) : Z := z mod 2 ^ 64.
Definition i32 (z : Z) : Z := (z + 2 ^ 31) mod 2 ^ 32 - 2 ^ 31.
Definition i64 (z : Z) : Z := (z + 2 ^ 63) mod 2 ^ 64 - 2 ^ 63.

Definition in_u32 (z : Z) : Prop := 0 <= z < 2 ^ 32.
Definition in_u64 (z : Z) : Prop := 0 <= z < 2 ^ 64.
Definition in_i32 (z : Z) : Prop := - 2 ^ 31 <= z < 2 ^ 31.

Lemma u64_range z : in_u64 (u64 z).
Proof. apply Z.mod_pos_bound. lia. Qed.

Lemma u32_range z : in_u32 (u32 z).
Proof. apply Z.mod_pos_bound. lia. Qed.

Lemma u64_small z : in_u64 z -> u64 z = z.
Proof. apply Z.mod_small. Qed.

Lemma u32_small z : in_u32 z -> u32 z = z.
Proof. apply Z.mod_small. Qed.

Lemma i32_small z : in_i32 z -> i32 z = z.
Proof. unfold in_i32, i32. intros. rewrite Z.mod_small; lia. Qed.

Lemma u64_add_l a b : u64 (u64 a + b) = u64 (a + b).
Proof. apply Zplus_mod_idemp_l. Qed.

Lemma u64_add_r a b : u64 (a + u64 b) = u64 (a + b).
Proof. apply Zplus_mod_idemp_r. Qed.

Create HintDb cint.
Create Rewrite HintDb cint.
#[export] Hint Resolve u64_range u32_range : cint.
#[export] Hint Rewrite u64_add_l u64_add_r : cint.

(** ** Computations with undefined behaviour *)

(** A C function that acts on the outside world [W] is a state transformer
    that may also run into undefined behaviour: [None] is an execution the C
    standard gives no meaning to (a buffer written past its end, a read
    outside an array). *)
Definition M (W A : Type) : Type := W -> option (A * W).

Definition ret {W A} (a : A) : M W A := fun w => Some (a, w).
Definition bind {W A B} (c : M W A) (k : A -> M W B) : M W B :=
  fun w => match c w with Some (a, w') => k a w' | None => None end.
Definition ub {W A} : M W A := fun _ => None.
(** A call into the operating system. *)
Definition call {W A} (f : W -> A * W) : M W A := fun w => Some (f w).
(** A call that only reads the state of the operating system. *)
Definition reads {W A} (f : W -> A) : M W A := fun w => Some (f w, w).
(** The point of the code that is defined only when [b] holds. *)
Definition guard_ub {W} (b : bool) : M W unit := if b then ret tt else ub.

Declare Scope sys_scope.
Delimit Scope sys_scope with sys.
Notation "'let!' x ':=' c 'in' k" := (bind c (fun x => k))
  (at level 10, x pattern, c at level 100, k at level 200) : sys_scope.
Notation "c ;;! k" := (bind c (fun _ => k))
  (at level 199, right associativity) : sys_scope.
#[global] Open Scope sys_scope.

Lemma bind_Some {W A B} (c : M W A) (k : A -> M W B) w b w' :
  bind c k w = Some (b, w') <-> exists a w1, c w = Some (a, w1) /\ k a w1 = Some (b, w').
Proof.
  unfold bind. destruct (c w) as [[a w1]|]; split.
  - intros H. by exists a, w1.
  - by intros (? & ? & [= -> ->] & H).
  - done.
  - by intros (? & ? & ? & _).
Qed.

(** One step of an execution whose first part is known. *)
Lemma bind_step {W A B} {c : M W A} {k : A -> M W B} {w a w1} :
  c w = Some (a, w1) -> bind c k w = k a w1.
Proof. intros E. unfold bind. by rewrite E. Qed.

Lemma bind_assoc {W A B C} (c : M W A) (k : A -> M W B) (k' : B -> M W C) w :
  bind (bind c k) k' w = bind c (fun a => bind (k a) k') w.
Proof. unfold bind. by destruct (c w) as [[a w1]|]. Qed.

(** A computation is defined from every state, or leaves the state alone. *)
Definition safe {W A} (c : M W A) : Prop := forall w, exists a w', c w = Some (a, w').

Lemma safe_ret {W A} (a : A) : safe (W := W) (ret a).
Proof. intros w. by eexists _, _. Qed.
Lemma safe_call {W A} (f : W -> A * W) : safe (call f).
Proof. intros w. unfold call. destruct (f w). by eexists _, _. Qed.
Lemma safe_reads {W A} (f : W -> A) : safe (reads f).
Proof. intros w. by eexists _, _. Qed.
Lemma safe_bind {W A B} (c : M W A) (k : A -> M W B) :
  safe c -> (forall a, safe (k a)) -> safe (bind c k).
Proof.
  intros Hc Hk w. destruct (Hc w) as (a & w1 & E).
  destruct (Hk a w1) as (b & w2 & E2). exists b, w2.
  unfold bind. by rewrite E.
Qed.

Create HintDb sys.
#[export] Hint Resolve safe_ret safe_call safe_reads safe_bind : sys.

(** [safety] proves that a body made of the primitives above and of
    functions already known to be safe never runs into undefined behaviour. *)
Ltac safety :=
  repeat (first
    [ apply safe_ret | apply safe_call | apply safe_reads
    | apply safe_bind; [|intros]
    | solve [eauto 2 with sys nocore]
    | progress case_match | progress simpl ]).

(** [run] evaluates the head of a monadic execution. *)
Ltac run := unfold bind, ret, call, reads, guard_ub, ub in *; simpl in *.

(** [mcase] splits on the first test the goal or a hypothesis is stuck on. *)
Ltac mcase := repeat (case_match; simplify_eq/=; try done).

(** ** Lists *)

(** The index of the first element that satisfies a test: what a [for] loop
    with a [break] computes. *)
Fixpoint find_idx {A} (p : A -> bool) (l : list A) : option nat :=
  match l with
  | [] => None
  | x :: l' => if p x then Some 0%nat else S <$> find_idx p l'
  end.

Lemma find_idx_Some {A} (p : A -> bool) (l : list A) i :
  find_idx p l = Some i <->
  exists x, l !! i = Some x /\ p x = true /\
    forall j y, (j < i)%nat -> l !! j = Some y -> p y = false.
Proof.
  revert i. induction l as [|a l IH]; intros i; simpl.
  { split; [done|]. intros (x & H & _). by rewrite lookup_nil in H. }
  destruct (p a) eqn:Ha.
  - split.
    + intros [= <-]. exists a. split; [done|]. split; [done|]. intros; lia.
    + intros (x & Hx & Hp & Hj). destruct i as [|i]; [done|].
      specialize (Hj 0%nat a ltac:(lia) eq_refl). congruence.
  - destruct i as [|i].
    + split; [by destruct (find_idx p l)|].
      intros (x & Hx & Hp & _). simpl in Hx. congruence.
    + rewrite fmap_Some. split.
      * intros (i' & Hi' & [= ->]). apply IH in Hi' as (x & Hx & Hp & Hj).
        exists x. do 2 (split; [done|]). intros [|j] y Hlt Hy; [by simplify_eq/=|].
        apply (Hj j); [lia|done].
      * intros (x & Hx & Hp & Hj). exists i. split; [|done]. apply IH.
        exists x. do 2 (split; [done|]). intros j y Hlt Hy.
        apply (Hj (S j) y); [lia|done].
Qed.

Lemma find_idx_None {A} (p : A -> bool) (l : list A) :
  find_idx p l = None <-> forall x, x ∈ l -> p x = false.
Proof.
  induction l as [|a l IH]; simpl.
  { split; [|done]. intros _ x Hx. by apply elem_of_nil in Hx. }
  destruct (p a) eqn:Ha.
  - split; [done|]. intros H. rewrite (H a) in Ha; [done|left].
  - rewrite fmap_None, IH. split.
    + intros H x [->|Hx]%elem_of_cons; eauto.
    + intros H x Hx. apply H. by right.
Qed.

Lemma find_idx_lt {A} (p : A -> bool) (l : list A) i :
  find_idx p l = Some i -> (i < length l)%nat.
Proof.
  intros (x & Hx & _)%find_idx_Some. by eapply lookup_lt_Some.
Qed.

(** How many elements satisfy a test. *)
Fixpoint count {A} (p : A -> bool) (l : list A) : nat :=
  match l with
  | [] => 0
  | x :: l' => (if p x then 1 else 0) + count p l'
  end%nat.

Lemma count_app {A} (p : A -> bool) l1 l2 :
  count p (l1 ++ l2) = (count p l1 + count p l2)%nat.
Proof. induction l1 as [|x l1 IH]; simpl; [done|]. rewrite IH. lia. Qed.

Lemma count_le_length {A} (p : A -> bool) l : (count p l <= length l)%nat.
Proof. induction l as [|x l IH]; simpl; [lia|]. destruct (p x); lia. Qed.

Lemma count_all_false {A} (p : A -> bool) l :
  (forall x, x ∈ l -> p x = false) -> count p l = 0%nat.
Proof.
  induction l as [|x l IH]; simpl; intros H; [done|].
  rewrite (H x) by left. rewrite IH; [done|]. intros y Hy. apply H. by right.
Qed.

(** Writing one cell of an array changes a count by what the cell counted
    before and counts now. *)
Lemma count_insert {A} (p : A -> bool) l i x y :
  l !! i = Some x ->
  (count p (<[i:=y]> l) + (if p x then 1 else 0) =
   count p l + (if p y then 1 else 0))%nat.
Proof.
  revert i. induction l as [|a l IH]; intros [|i] H; simplify_eq/=; [lia|].
  specialize (IH _ H). lia.
Qed.

#[export] Hint Resolve Forall_insert : sys.

Lemma filter_all {A} (P : A -> Prop) `{!forall x, Decision (P x)} (l : list A) :
  Forall P l -> filter P l = l.
Proof.
  induction 1 as [|x l Hx Hl IH]; [done|]. rewrite filter_cons_True by done. by rewrite IH.
Qed.

Lemma filter_none {A} (P : A -> Prop) `{!forall x, Decision (P x)} (l : list A) :
  (forall x, x ∈ l -> ~ P x) -> filter P l = [].
Proof.
  induction l as [|x l IH]; intros Hn; [done|]. rewrite filter_cons_False by (apply Hn; left).
  apply IH. intros y Hy. apply Hn. by right.
Qed.

Lemma elem_of_dropped {A} (x : A) k (l : list A) : x ∈ drop k l -> x ∈ l.
Proof. intros Hx. rewrite <- (take_drop k l). apply elem_of_app. by right. Qed.

(** ** Loops *)

(** [for (i = 0; i < n; i++) acc = body(i, acc)] over the listed indices. *)
Fixpoint foldM {W A S} (f : S -> A -> M W S) (acc : S) (l : list A) : M W S :=
  match l with
  | [] => ret acc
  | x :: l' => let! acc' := f acc x in foldM f acc' l'
  end.

Definition forM {W A} (f : A -> M W unit) (l : list A) : M W unit :=
  foldM (fun _ x => f x) tt l.

(** An invariant of the body is an invariant of the loop. *)
Lemma foldM_inv {W A S} (I : S -> W -> Prop) (f : S -> A -> M W S) l :
  (forall s x w s' w', x ∈ l -> I s w -> f s x w = Some (s', w') -> I s' w') ->
  forall s w s' w', I s w -> foldM f s l w = Some (s', w') -> I s' w'.
Proof.
  induction l as [|x l IH]; intros Hf s w s' w' HI; simpl.
  { intros [= <- <-]. done. }
  intros (s1 & w1 & E1 & E2)%bind_Some. eapply IH; [| |exact E2].
  - intros. eapply Hf; [by right|done..].
  - eapply Hf; [left|done..].
Qed.

(** A loop whose body is defined wherever the invariant holds is defined. *)
Lemma foldM_safe {W A S} (I : S -> W -> Prop) (f : S -> A -> M W S) l :
  (forall s x w, x ∈ l -> I s w -> exists s' w', f s x w = Some (s', w') /\ I s' w') ->
  forall s w, I s w -> exists s' w', foldM f s l w = Some (s', w') /\ I s' w'.
Proof.
  induction l as [|x l IH]; intros Hf s w HI; simpl; [by eexists _, _|].
  destruct (Hf s x w) as (s1 & w1 & E1 & HI1); [left|done|].
  destruct (IH ltac:(intros; eapply Hf; [by right|done]) s1 w1 HI1) as (s2 & w2 & E2 & HI2).
  exists s2, w2. split; [|done]. unfold bind. by rewrite E1.
Qed.

(** ** Total-correctness triples *)

(** From every state that satisfies [P], [c] is defined and ends with a value
    and a state that satisfy [Q]. *)
Definition triple {W A} (P : W -> Prop) (c : M W A) (Q : A -> W -> Prop) : Prop :=
  forall w, P w -> exists a w', c w = Some (a, w') /\ Q a w'.

Lemma triple_ret {W A} (P : W -> Prop) (a : A) (Q : A -> W -> Prop) :
  (forall w, P w -> Q a w) -> triple P (ret a) Q.
Proof. intros HQ w HP. exists a, w. split; [done|auto]. Qed.

Lemma triple_bind {W A B} (P : W -> Prop) (c : M W A) (k : A -> M W B)
    (R : A -> W -> Prop) (Q : B -> W -> Prop) :
  triple P c R -> (forall a, triple (R a) (k a) Q) -> triple P (bind c k) Q.
Proof.
  intros Hc Hk w HP. destruct (Hc w HP) as (a & w1 & E & HR).
  destruct (Hk a w1 HR) as (b & w2 & E2 & HQ). exists b, w2.
  unfold bind. by rewrite E.
Qed.

Lemma triple_conseq {W A} (P P' : W -> Prop) (c : M W A) (Q Q' : A -> W -> Prop) :
  triple P' c Q' -> (forall w, P w -> P' w) -> (forall a w, Q' a w -> Q a w) -> triple P c Q.
Proof.
  intros Hc HP HQ w Hw. destruct (Hc w (HP w Hw)) as (a & w' & E & HR). eauto.
Qed.

(** A loop keeps what its body keeps of its accumulator and its state. *)
Lemma triple_foldM_acc {W A S} (I : S -> W -> Prop) (f : S -> A -> M W S) (l : list A) s :
  (forall s x, x ∈ l -> triple (I s) (f s x) I) -> triple (I s) (foldM f s l) I.
Proof.
  revert s. induction l as [|x l IH]; intros s Hf; simpl; [by apply triple_ret|].
  eapply triple_bind; [apply Hf; left|]. intros s'. apply IH.
  intros s2 y Hy. apply Hf. by right.
Qed.

Lemma triple_foldM {W A S} (I : W -> Prop) (f : S -> A -> M W S) (l : list A) s :
  (forall s x, x ∈ l -> triple I (f s x) (fun _ => I)) ->
  triple I (foldM f s l) (fun _ => I).
Proof. apply (triple_foldM_acc (fun _ => I)). Qed.

Lemma triple_forM {W A} (I : W -> Prop) (f : A -> M W unit) (l : list A) :
  (forall x, x ∈ l -> triple I (f x) (fun _ => I)) ->
  triple I (forM f l) (fun _ => I).
Proof. intros Hf. apply triple_foldM. auto. Qed.
