(* ===== verification/CString.v ===== *)
(** * The C string library

    What the sources use of <string.h>, <stdio.h> and <stdlib.h>: C strings as
    NUL-free [string]s, truncation to a buffer, [strcmp]-style searches,
    [strtok], [fgets], the [printf] and [scanf] conversions that occur in the
    code, and the byte arrays that [memset], [strncpy] and [snprintf] write. *)

From stdpp Require Import base list strings pretty.
From Stdlib Require Import Ascii ZArith Lia.
From S2P Require Import Prelude.

(** ** Strings *)

Fixpoint str_take (n : nat) (s : string) : string :=
  match n, s with
  | S n', String c s' => String c (str_take n' s')
  | _, _ => ""
  end.

Fixpoint str_drop (n : nat) (s : string) : string :=
  match n, s with
  | S n', String c s' => str_drop n' s'
  | _, _ => s
  end.

Fixpoint str_repeat (c : Ascii.ascii) (n : nat) : string :=
  match n with O => "" | S n' => String c (str_repeat c n') end.

Definition strlen (s : string) : Z := Z.of_nat (String.length s).

Lemma str_app_nil_r s : s +:+ "" = s.
Proof. induction s as [|c s IH]; [done|]. change (String c (s +:+ "") = String c s). by rewrite IH. Qed.

Lemma str_app_assoc s1 s2 s3 : (s1 +:+ s2) +:+ s3 = s1 +:+ (s2 +:+ s3).
Proof.
  induction s1 as [|c s IH]; [done|].
  change (String c ((s +:+ s2) +:+ s3) = String c (s +:+ (s2 +:+ s3))). by rewrite IH.
Qed.

Lemma str_app_cons c s1 s2 : String c s1 +:+ s2 = String c (s1 +:+ s2).
Proof. done. Qed.

Lemma str_length_app s1 s2 :
  String.length (s1 +:+ s2) = (String.length s1 + String.length s2)%nat.
Proof. induction s1 as [|c s IH]; [done|]. rewrite str_app_cons. simpl. by rewrite IH. Qed.

Lemma str_repeat_length c n : String.length (str_repeat c n) = n.
Proof. induction n as [|n IH]; simpl; by rewrite ?IH. Qed.

Lemma strlen_app s1 s2 : strlen (s1 +:+ s2) = strlen s1 + strlen s2.
Proof. unfold strlen. rewrite str_length_app. lia. Qed.

Lemma strlen_nonneg s : 0 <= strlen s.
Proof. unfold strlen. lia. Qed.

Lemma str_take_length n s : (String.length (str_take n s) <= n)%nat.
Proof. revert s. induction n as [|n IH]; intros [|c s]; simpl; try lia. specialize (IH s). lia. Qed.

Lemma str_take_ge n s : (String.length s <= n)%nat -> str_take n s = s.
Proof.
  revert s. induction n as [|n IH]; intros [|c s]; simpl; intros H; try done; try lia.
  rewrite IH; [done|lia].
Qed.

Lemma str_take_drop n s : str_take n s +:+ str_drop n s = s.
Proof.
  revert s. induction n as [|n IH]; intros [|c s]; simpl; try done.
  rewrite str_app_cons. by rewrite IH.
Qed.

Lemma str_take_idemp n s : str_take n (str_take n s) = str_take n s.
Proof. apply str_take_ge, str_take_length. Qed.

Lemma str_take_take m n s : str_take m (str_take n s) = str_take (min m n) s.
Proof.
  revert n s. induction m as [|m IH]; intros [|n] [|c s]; simpl; try done. by rewrite IH.
Qed.

Lemma str_take_app_l n a b : (n <= String.length a)%nat -> str_take n (a +:+ b) = str_take n a.
Proof.
  revert a. induction n as [|n IH]; intros [|c a]; simpl; intros H; try done; try lia.
  f_equal. apply IH. lia.
Qed.

Lemma str_take_app_r n a b : (String.length a <= n)%nat ->
  str_take n (a +:+ b) = a +:+ str_take (n - String.length a) b.
Proof.
  revert n. induction a as [|c a IH]; intros [|n]; simpl; intros H; try done; try lia.
  rewrite !str_app_cons. f_equal. apply IH. lia.
Qed.

Lemma str_take_full n s : (n <= String.length s)%nat -> String.length (str_take n s) = n.
Proof.
  revert s. induction n as [|n IH]; intros [|c s]; simpl; intros H; try done; try lia.
  f_equal. apply IH. lia.
Qed.

Lemma str_take_short n s : (String.length s < n)%nat -> str_take (n - 1) s = s.
Proof. intros H. apply str_take_ge. lia. Qed.

(** [strncpy(field, text, sizeof(field) - 1)] into memory that was not set: a
    text that fills all the bytes it may write is not terminated. *)
Definition copied (size : nat) (text : string) : option string :=
  if (String.length text <? size - 1)%nat then Some text else None.

(** [p] is a prefix of [s]: [strncmp(s, p, strlen(p)) == 0]. *)
Fixpoint has_prefix (p s : string) : bool :=
  match p, s with
  | "", _ => true
  | String a p', String b s' => Ascii.eqb a b && has_prefix p' s'
  | String _ _, "" => false
  end.

Lemma has_prefix_spec p s : has_prefix p s = true <-> exists t, s = p +:+ t.
Proof.
  revert s. induction p as [|a p IH]; intros s; simpl.
  { split; [|done]. intros _. by exists s. }
  destruct s as [|b s].
  { split; [done|]. intros [t Ht]. by rewrite str_app_cons in Ht. }
  rewrite andb_true_iff, Ascii.eqb_eq, IH. split.
  - intros [-> [t ->]]. by exists t.
  - intros [t Ht]. rewrite str_app_cons in Ht. simplify_eq. eauto.
Qed.

Definition streq (a b : string) : bool := String.eqb a b.

Lemma streq_spec a b : streq a b = true <-> a = b.
Proof. apply String.eqb_eq. Qed.

Lemma streq_refl a : streq a a = true.
Proof. by apply streq_spec. Qed.

Lemma streq_ne a b : a <> b -> streq a b = false.
Proof. apply String.eqb_neq. Qed.

(** [strstr(s, p)]: the suffix of [s] at the first occurrence of [p]. *)
Fixpoint strstr (s p : string) : option string :=
  if has_prefix p s then Some s
  else match s with
       | "" => None
       | String _ s' => strstr s' p
       end.

Definition contains (s p : string) : bool :=
  match strstr s p with Some _ => true | None => false end.

(** [strchr(s, c)]: the suffix of [s] that starts at the first [c]. *)
Fixpoint strchr (s : string) (c : Ascii.ascii) : option string :=
  match s with
  | "" => None
  | String a s' => if Ascii.eqb a c then Some s else strchr s' c
  end.

(** [strrchr(s, c)]: the suffix of [s] that starts at the last [c]. *)
Fixpoint strrchr (s : string) (c : Ascii.ascii) : option string :=
  match s with
  | "" => None
  | String a s' =>
      match strrchr s' c with
      | Some t => Some t
      | None => if Ascii.eqb a c then Some s else None
      end
  end.

(** The characters before the first [c]. *)
Fixpoint str_before (s : string) (c : Ascii.ascii) : string :=
  match s with
  | "" => ""
  | String a s' => if Ascii.eqb a c then "" else String a (str_before s' c)
  end.

Fixpoint str_mem (c : Ascii.ascii) (s : string) : bool :=
  match s with "" => false | String a s' => Ascii.eqb a c || str_mem c s' end.

Lemma str_mem_app c s t : str_mem c (s +:+ t) = str_mem c s || str_mem c t.
Proof. induction s as [|a s IH]; [done|]. rewrite str_app_cons. simpl. by rewrite IH, orb_assoc. Qed.

Lemma str_mem_repeat c d n : Ascii.eqb d c = false -> str_mem c (str_repeat d n) = false.
Proof. intros Hd. induction n as [|n IH]; simpl; [done|]. by rewrite Hd. Qed.

Lemma str_mem_take c n s : str_mem c s = false -> str_mem c (str_take n s) = false.
Proof.
  intros Hs. rewrite <- (str_take_drop n s), str_mem_app in Hs. by apply orb_false_iff in Hs as [? _].
Qed.

(** A character that does not occur before is found where it stands. *)
Lemma strchr_at x c t : str_mem c x = false -> strchr (x +:+ String c t) c = Some (String c t).
Proof.
  induction x as [|a x IH]; cbn [str_mem].
  - intros _. change ("" +:+ String c t) with (String c t). cbn [strchr]. by rewrite Ascii.eqb_refl.
  - intros [Ha Hx]%orb_false_iff. rewrite str_app_cons. cbn [strchr]. rewrite Ha. by apply IH.
Qed.
Lemma str_before_at x c t : str_mem c x = false -> str_before (x +:+ String c t) c = x.
Proof.
  induction x as [|a x IH]; cbn [str_mem].
  - intros _. change ("" +:+ String c t) with (String c t). cbn [str_before]. by rewrite Ascii.eqb_refl.
  - intros [Ha Hx]%orb_false_iff. rewrite str_app_cons. cbn [str_before]. by rewrite Ha, IH.
Qed.

(** [strtok] called until it returns NULL: the maximal non-empty runs of
    characters that are not delimiters. *)
Fixpoint strtok_go (delim : string) (s : string) : string * list string :=
  match s with
  | "" => ("", [])
  | String c s' =>
      let '(cur, rest) := strtok_go delim s' in
      if str_mem c delim then ("", if streq cur "" then rest else cur :: rest)
      else (String c cur, rest)
  end.

Definition strtok (s delim : string) : list string :=
  let '(cur, rest) := strtok_go delim s in
  if streq cur "" then rest else cur :: rest.

(** ** Searching in a concatenation *)

Lemma has_prefix_mem c p s : has_prefix p s = true -> str_mem c p = true -> str_mem c s = true.
Proof.
  intros [t ->]%has_prefix_spec Hc. by rewrite str_mem_app, Hc.
Qed.

(** A text without some character of [p] does not contain [p]. *)
Lemma contains_char c s p : str_mem c p = true -> str_mem c s = false -> contains s p = false.
Proof.
  intros Hp. unfold contains. induction s as [|a s IH]; intros Hs.
  - simpl. destruct (has_prefix p "") eqn:E; [|done].
    by rewrite (has_prefix_mem c _ _ E Hp) in Hs.
  - cbn [strstr]. destruct (has_prefix p (String a s)) eqn:E.
    { by rewrite (has_prefix_mem c _ _ E Hp) in Hs. }
    apply IH. simpl in Hs. by apply orb_false_iff in Hs as [_ ?].
Qed.

Lemma has_prefix_app p s t : has_prefix p s = true -> has_prefix p (s +:+ t) = true.
Proof.
  intros [u ->]%has_prefix_spec. apply has_prefix_spec. exists (u +:+ t). apply str_app_assoc.
Qed.

Lemma contains_app_l s t p : contains s p = true -> contains (s +:+ t) p = true.
Proof.
  unfold contains. induction s as [|a s IH].
  - destruct p as [|b p]; [|done]. by destruct t.
  - rewrite str_app_cons. cbn [strstr]. destruct (has_prefix p (String a s)) eqn:E.
    + apply (has_prefix_app _ _ t) in E. rewrite str_app_cons in E. by rewrite E.
    + intros Hc. by destruct (has_prefix p (String a (s +:+ t))); [|apply IH].
Qed.

Lemma contains_app_r s t p : contains t p = true -> contains (s +:+ t) p = true.
Proof.
  intros Ht. induction s as [|a s IH]; [done|]. rewrite str_app_cons. unfold contains in *.
  cbn [strstr]. by destruct (has_prefix p (String a (s +:+ t))).
Qed.

(** An occurrence that reaches into [t] ends there, with the last character
    of the pattern. *)
Lemma has_prefix_app_last q c s t :
  str_mem c t = false -> has_prefix (q +:+ String c "") (s +:+ t) = true ->
  has_prefix (q +:+ String c "") s = true.
Proof.
  intros Ht. revert s. induction q as [|a q IH]; intros s.
  - destruct s as [|b s]; [|done]. intros E.
    assert (str_mem c t = true) by (eapply has_prefix_mem; [exact E|simpl; by rewrite Ascii.eqb_refl]).
    congruence.
  - destruct s as [|b s].
    + intros E. assert (str_mem c t = true); [|congruence]. eapply has_prefix_mem; [exact E|].
      rewrite str_mem_app. simpl. rewrite Ascii.eqb_refl. by rewrite orb_true_r.
    + rewrite !str_app_cons. simpl. intros [-> Hp]%andb_true_iff. simpl. by apply IH.
Qed.

Lemma contains_app_last q c s t :
  str_mem c t = false -> contains s (q +:+ String c "") = false ->
  contains (s +:+ t) (q +:+ String c "") = false.
Proof.
  intros Ht. induction s as [|a s IH]; intros Hs.
  - simpl. apply (contains_char c); [|done]. rewrite str_mem_app. simpl.
    by rewrite Ascii.eqb_refl, orb_true_r.
  - rewrite str_app_cons. unfold contains in *. cbn [strstr] in *.
    destruct (has_prefix _ (String a (s +:+ t))) eqn:E.
    + rewrite <- str_app_cons in E. by rewrite (has_prefix_app_last q c _ t Ht E) in Hs.
    + apply IH. by destruct (has_prefix _ (String a s)).
Qed.

(** The characters the literals of the model cannot spell. *)
Definition nl : Ascii.ascii := "010"%char.
Definition NL : string := String nl "".
Definition NUL : Ascii.ascii := "000"%char.
Definition dquote : Ascii.ascii := "034"%char.
(** A value between double quotes, as the format strings of the code write it. *)
Definition quoted (s : string) : string := String dquote (s +:+ String dquote "").

(** ** [strtok] on lines *)

Fixpoint str_concat (l : list string) : string :=
  match l with [] => "" | x :: l' => x +:+ str_concat l' end.

Lemma strtok_go_app delim s t :
  (forall c, str_mem c s = true -> str_mem c delim = false) ->
  strtok_go delim (s +:+ t) = (s +:+ (strtok_go delim t).1, (strtok_go delim t).2).
Proof.
  induction s as [|a s IH]; intros Hs.
  { change ("" +:+ t) with t. by destruct (strtok_go delim t). }
  rewrite str_app_cons. simpl. rewrite IH.
  - destruct (strtok_go delim t) as [cur rest]. simpl. rewrite (Hs a); [done|].
    simpl. by rewrite Ascii.eqb_refl.
  - intros c Hc. apply Hs. simpl. by rewrite Hc, orb_true_r.
Qed.

Lemma str_mem_NL c s : str_mem nl s = false -> str_mem c s = true -> str_mem c NL = false.
Proof.
  intros Hn Hc. unfold NL. simpl. rewrite orb_false_r.
  destruct (Ascii.eqb nl c) eqn:E; [|done]. apply Ascii.eqb_eq in E. congruence.
Qed.

(** Lines that are not empty come back as they were written. *)
Lemma strtok_lines l :
  Forall (fun x => x <> "" /\ str_mem nl x = false) l ->
  strtok (str_concat ((fun x => x +:+ NL) <$> l)) NL = l.
Proof.
  intros Hl. unfold strtok.
  assert (strtok_go NL (str_concat ((fun x => x +:+ NL) <$> l)) =
          match l with [] => ("", []) | x :: l' => (x, l') end) as ->.
  { induction Hl as [|x l [Hx Hn] Hl IH]; [done|].
    change (str_concat ((fun x => x +:+ NL) <$> x :: l)) with
      ((x +:+ NL) +:+ str_concat ((fun x => x +:+ NL) <$> l)).
    generalize dependent (str_concat ((fun x => x +:+ NL) <$> l)). intros u IH. rewrite str_app_assoc.
    rewrite strtok_go_app by (intros c; by apply str_mem_NL).
    change (NL +:+ u) with (String nl u). cbn [strtok_go]. rewrite IH.
    change (str_mem nl NL) with true. destruct l as [|y l]; cbn [fst snd].
    - by rewrite str_app_nil_r.
    - inversion Hl as [|?? [Hy _] _]; subst. cbn [fst snd]. by rewrite str_app_nil_r, streq_ne. }
  destruct Hl as [|x l [Hx _] _]; [done|]. by rewrite streq_ne.
Qed.

(** Empty lines are no tokens. *)
Lemma strtok_text l :
  Forall (fun x => str_mem nl x = false) l ->
  strtok (str_concat ((fun x => x +:+ NL) <$> l)) NL = filter (fun x => x <> "") l.
Proof.
  induction 1 as [|x l Hx Hl IH]; [done|]. rewrite fmap_cons. cbn [str_concat]. rewrite filter_cons, <- IH.
  generalize (str_concat ((fun x => x +:+ NL) <$> l)). intros u. unfold strtok. rewrite str_app_assoc.
  rewrite strtok_go_app by (intros c; by apply str_mem_NL).
  change (NL +:+ u) with (String nl u). cbn [strtok_go]. destruct (strtok_go NL u) as [cur rest].
  change (str_mem nl NL) with true. cbn [fst snd]. rewrite str_app_nil_r. by destruct x.
Qed.

Lemma str_concat_app l1 l2 : str_concat (l1 ++ l2) = str_concat l1 +:+ str_concat l2.
Proof. induction l1 as [|x l1 IH]; simpl; [done|]. by rewrite IH, str_app_assoc. Qed.

(** ** [fgets] *)

(** A stream read by [fgets(buf, size, fp)] until it returns NULL: each call
    takes at most [size - 1] characters and stops after a newline. *)
Fixpoint fgets_go (n room : nat) (s : string) : list string :=
  match s with
  | "" => []
  | String c s' =>
      if Ascii.eqb c nl || (room <=? 1)%nat then String c "" :: fgets_go n n s'
      else match fgets_go n (room - 1) s' with
           | [] => [String c ""]
           | h :: t => String c h :: t
           end
  end.

Definition fgets_chunks (size : nat) (s : string) : list string :=
  fgets_go (size - 1) (size - 1) s.

Lemma fgets_go_concat n room s : str_concat (fgets_go n room s) = s.
Proof.
  revert room. induction s as [|c s IH]; intros room; simpl; [done|].
  destruct (Ascii.eqb c nl || (room <=? 1)%nat).
  - simpl. rewrite str_app_cons, IH. done.
  - specialize (IH (room - 1)%nat). destruct (fgets_go n (room - 1) s) as [|h t].
    + simpl in *. rewrite <- IH. done.
    + simpl in *. rewrite str_app_cons. by rewrite IH.
Qed.

Lemma fgets_chunks_concat size s : str_concat (fgets_chunks size s) = s.
Proof. apply fgets_go_concat. Qed.

Lemma fgets_go_length n room s :
  (1 <= n)%nat -> (1 <= room)%nat ->
  match fgets_go n room s with
  | [] => True
  | h :: t => (1 <= String.length h <= room)%nat /\
      Forall (fun x => 1 <= String.length x <= n)%nat t
  end.
Proof.
  intros Hn. revert room. induction s as [|c s IH]; intros room Hr; simpl; [done|].
  destruct (Ascii.eqb c nl || (room <=? 1)%nat) eqn:E.
  - specialize (IH n Hn). simpl. destruct (fgets_go n n s); [split; [lia|constructor]|].
    split; [lia|]. destruct IH. by constructor.
  - apply orb_false_iff in E as [_ E]. apply Nat.leb_gt in E.
    specialize (IH (room - 1)%nat ltac:(lia)).
    destruct (fgets_go n (room - 1) s); simpl; [split; [lia|constructor]|].
    destruct IH. split; [lia|done].
Qed.

Lemma fgets_chunks_length size s :
  (2 <= size)%nat ->
  Forall (fun x => 1 <= String.length x <= size - 1)%nat (fgets_chunks size s).
Proof.
  intros H. pose proof (fgets_go_length (size - 1) (size - 1) s ltac:(lia) ltac:(lia)) as G.
  unfold fgets_chunks. destruct (fgets_go _ _ s); [constructor|]. destruct G. by constructor.
Qed.

(** A text of short lines is read line by line. *)
Lemma fgets_go_line n room s rest :
  str_mem nl s = false -> (String.length s < room)%nat ->
  fgets_go n room (s +:+ String nl rest) = (s +:+ NL) :: fgets_go n n rest.
Proof.
  revert room. induction s as [|c s IH]; intros room Hs Hr.
  - change ("" +:+ String nl rest) with (String nl rest). simpl. done.
  - rewrite !str_app_cons. simpl in Hs, Hr. apply orb_false_iff in Hs as [Hc Hs]. simpl.
    rewrite Hc, (proj2 (Nat.leb_gt room 1)) by lia. simpl. rewrite IH by (done || lia). done.
Qed.

Lemma fgets_chunks_lines size l :
  Forall (fun x => str_mem nl x = false /\ (String.length x < size - 1)%nat) l ->
  fgets_chunks size (str_concat ((fun x => x +:+ NL) <$> l)) = (fun x => x +:+ NL) <$> l.
Proof.
  intros Hl. unfold fgets_chunks. induction Hl as [|x l [Hx Hn] Hl IH]; [done|].
  change (str_concat ((fun x => x +:+ NL) <$> x :: l)) with
    ((x +:+ NL) +:+ str_concat ((fun x => x +:+ NL) <$> l)).
  rewrite str_app_assoc. change (NL +:+ ?u) with (String nl u).
  rewrite fgets_go_line by done. by rewrite IH.
Qed.

#[global] Arguments str_take : simpl never.
#[global] Arguments str_drop : simpl never.
#[global] Arguments strlen : simpl never.
#[global] Arguments streq : simpl never.
