(* ===== verification/CFloatFacts.v ===== *)
(** * What the floating-point operations compute

    [SpecFloat] works on mantissas and shift records.  The lemmas of this file
    give the results as integers: rounding is division to the nearest integer
    ([binary_round_aux_rne]), integers below [2^53] convert exactly, products
    and quotients with powers of two are exact, and rounding does not pass a
    bound that is itself a number of the format. *)

From stdpp Require Import base list strings pretty.
From Stdlib Require Import Ascii ZArith Lia SpecFloat.
From S2P Require Import Prelude CString CFloat.

(** ** Division to the nearest integer *)

Lemma rne_div_cases a b :
  0 < b -> exists q r, a = b * q + r /\ 0 <= r < b /\
    ((rne_div a b = q /\ 2 * r <= b) \/ (rne_div a b = q + 1 /\ b <= 2 * r)).
Proof.
  intros Hb. exists (a / b), (a mod b). split; [apply Z.div_mod; lia|].
  split; [by apply Z.mod_pos_bound|]. unfold rne_div.
  destruct (Z.compare_spec (2 * (a mod b)) b); [destruct (Z.even (a / b))| |]; lia.
Qed.

(** The error is at most one half. *)
Lemma rne_div_error a b : 0 < b -> 2 * Z.abs (b * rne_div a b - a) <= b.
Proof. intros Hb. destruct (rne_div_cases a b Hb) as (q & r & -> & Hr & [[-> ?]|[-> ?]]); nia. Qed.

Lemma rne_div_le a b n : 0 < b -> a <= n * b -> rne_div a b <= n.
Proof. intros Hb H. destruct (rne_div_cases a b Hb) as (q & r & -> & Hr & [[-> ?]|[-> ?]]); nia. Qed.

Lemma rne_div_ge a b n : 0 < b -> n * b <= a -> n <= rne_div a b.
Proof. intros Hb H. destruct (rne_div_cases a b Hb) as (q & r & -> & Hr & [[-> ?]|[-> ?]]); nia. Qed.

Lemma rne_div_exact n b : 0 < b -> rne_div (n * b) b = n.
Proof.
  intros Hb. pose proof (rne_div_le (n * b) b n Hb ltac:(lia)).
  pose proof (rne_div_ge (n * b) b n Hb ltac:(lia)). lia.
Qed.

Lemma rne_div_mono a a' b : 0 < b -> a <= a' -> rne_div a b <= rne_div a' b.
Proof.
  intros Hb H. unfold rne_div.
  pose proof (Z.div_le_mono a a' b Hb H) as [Hlt|Heq]%Z.lt_eq_cases.
  - destruct (Z.compare_spec (2 * (a mod b)) b), (Z.compare_spec (2 * (a' mod b)) b);
      repeat case_match; lia.
  - rewrite Heq.
    assert (a mod b <= a' mod b) by (rewrite !Z.mod_eq by lia; rewrite Heq; lia).
    destruct (Z.compare_spec (2 * (a mod b)) b), (Z.compare_spec (2 * (a' mod b)) b);
      repeat case_match; lia.
Qed.

(** A common factor cancels. *)
Lemma rne_div_scale a b c : 0 < b -> 0 < c -> rne_div (a * c) (b * c) = rne_div a b.
Proof.
  intros Hb Hc. unfold rne_div. rewrite Z.div_mul_cancel_r, Z.mul_mod_distr_r by lia.
  replace (2 * (a mod b * c)) with (2 * (a mod b) * c) by lia.
  by rewrite <- Zmult_compare_compat_r by lia.
Qed.

(** ** Shift records *)

(** Where [r / b] lies between two integers. *)
Definition loc (r b : Z) : location :=
  if r =? 0 then loc_Exact else loc_Inexact (2 * r ?= b).

Lemma new_location_loc r b : 0 < b -> 0 <= r < b -> new_location b r = loc r b.
Proof.
  intros Hb Hr. unfold new_location, new_location_even, new_location_odd, loc.
  destruct (Z.even b) eqn:Ev; [done|]. destruct (Z.eqb_spec r 0); [done|].
  assert (2 * r <> b) by (intros <-; by rewrite Z.even_mul in Ev).
  destruct (Z.compare_spec (2 * r + 1) b), (Z.compare_spec (2 * r) b); try done; lia.
Qed.

(** The record stands for [a / b]: its integer part and what is left. *)
Definition stands (a b : Z) (x : shr_record) : Prop :=
  0 <= a /\ 0 < b /\ shr_m x = a / b /\ loc_of_shr_record x = loc (a mod b) b.

Lemma stands_of_loc a b :
  0 <= a -> 0 < b -> stands a b (shr_record_of_loc (a / b) (loc (a mod b) b)).
Proof.
  intros Ha Hb. unfold stands, loc. destruct (a mod b =? 0); [done|].
  by destruct (2 * (a mod b) ?= b).
Qed.

(** Rounding the record is rounding the quotient. *)
Lemma stands_round a b x :
  stands a b x -> round_nearest_even (shr_m x) (loc_of_shr_record x) = rne_div a b.
Proof.
  intros (Ha & Hb & -> & ->). unfold loc, rne_div.
  destruct (Z.eqb_spec (a mod b) 0) as [->|]; [|done].
  by destruct (Z.compare_spec (2 * 0) b); try lia.
Qed.

(** The bits of [a / b] after one more shift. *)
Lemma half_split a b :
  0 < b -> a / (b * 2) = Z.div2 (a / b) /\
           a mod (b * 2) = a mod b + (if Z.odd (a / b) then b else 0).
Proof.
  intros Hb. rewrite Z.div2_div, Z.div_div by lia. split; [done|].
  rewrite Z.rem_mul_r by lia. rewrite Zmod_odd. destruct (Z.odd (a / b)); lia.
Qed.

Lemma shr_1_m m r s :
  0 <= m -> shr_1 (Build_shr_record m r s) = Build_shr_record (Z.div2 m) (Z.odd m) (r || s).
Proof. by destruct m as [|[]|]. Qed.

(** One shift to the right doubles the divisor. *)
Lemma stands_shr_1 a b x : stands a b x -> stands a (b * 2) (shr_1 x).
Proof.
  intros (Ha & Hb & Hm & Hl). destruct x as [m r s]. simpl in Hm. subst m.
  destruct (half_split a b Hb) as [Hd Hr].
  pose proof (Z.mod_pos_bound a b Hb) as Hrb.
  rewrite shr_1_m by (apply Z.div_pos; lia).
  split; [done|]. split; [lia|]. split; [by rewrite Hd|]. rewrite Hr. revert Hl.
  unfold loc. destruct (Z.eqb_spec (a mod b) 0) as [E|E].
  - destruct r, s; try discriminate. intros _. rewrite E. destruct (Z.odd (a / b)); simpl; [|done].
    destruct b; try lia. simpl. f_equal. symmetry. apply Pos.compare_eq_iff. lia.
  - rewrite (proj2 (Z.eqb_neq (a mod b + _) 0)) by (case_match; lia).
    intros Hl. destruct r, s; simpl in Hl; try discriminate;
      (destruct (Z.odd (a / b)); simpl; f_equal; symmetry;
        [apply Z.compare_gt_iff; lia|apply Z.compare_lt_iff; lia]).
Qed.

Lemma stands_iter p a b x :
  stands a b x -> stands a (b * 2 ^ Z.pos p) (iter_pos shr_1 p x).
Proof.
  revert b x. induction p as [p IH|p IH|]; intros b x Hx; simpl.
  - replace (b * 2 ^ Z.pos p~1) with (b * 2 * 2 ^ Z.pos p * 2 ^ Z.pos p);
      [by apply IH, IH, stands_shr_1|].
    replace (Z.pos p~1) with (1 + (Z.pos p + Z.pos p)) by lia. rewrite !Z.pow_add_r by lia. lia.
  - replace (b * 2 ^ Z.pos p~0) with (b * 2 ^ Z.pos p * 2 ^ Z.pos p); [by apply IH, IH|].
    replace (Z.pos p~0) with (Z.pos p + Z.pos p) by lia. rewrite !Z.pow_add_r by lia. lia.
  - by apply stands_shr_1.
Qed.

Lemma stands_shr a b x e n :
  stands a b x -> stands a (b * 2 ^ Z.max 0 n) (shr x e n).1 /\ (shr x e n).2 = e + Z.max 0 n.
Proof.
  intros Hx. destruct n as [|p|p]; simpl.
  - rewrite Z.mul_1_r, Z.add_0_r. done.
  - split; [by apply stands_iter|done].
  - rewrite Z.mul_1_r, Z.add_0_r. done.
Qed.

(** ** Digits *)

Lemma digits2_pos_size m : digits2_pos m = Pos.size m.
Proof. induction m as [m IH|m IH|]; simpl; by rewrite ?IH. Qed.

Lemma digits_bounds m : 0 < m -> 2 ^ (Zdigits2 m - 1) <= m < 2 ^ Zdigits2 m.
Proof.
  destruct m as [|p|]; try lia. intros _. unfold Zdigits2. rewrite digits2_pos_size.
  pose proof (Pos.size_le p). pose proof (Pos.size_gt p).
  change 2 with (Z.pos 2). rewrite <- Pos2Z.inj_pow. split; [|lia].
  replace (2 ^ (Z.pos (Pos.size p) - 1)) with (2 ^ Z.pos (Pos.size p) / 2).
  - rewrite <- (Pos2Z.inj_pow 2). apply Z.div_le_upper_bound; lia.
  - rewrite Z.pow_sub_r by lia. done.
Qed.

Lemma digits_unique m d : 2 ^ (d - 1) <= m < 2 ^ d -> 1 <= d -> Zdigits2 m = d.
Proof.
  intros Hm Hd. assert (0 < 2 ^ (d - 1)) by (apply Z.pow_pos_nonneg; lia).
  pose proof (digits_bounds m ltac:(lia)) as Hb.
  assert (0 <= Zdigits2 m) by (destruct m; simpl; lia).
  assert (Zdigits2 m - 1 < d) by (apply (Z.pow_lt_mono_r_iff 2); lia).
  assert (d - 1 < Zdigits2 m) by (apply (Z.pow_lt_mono_r_iff 2); lia). lia.
Qed.

Lemma digits_pos m : 0 < m -> 1 <= Zdigits2 m.
Proof. destruct m; simpl; lia. Qed.

Lemma digits_le m d : 0 < m -> m < 2 ^ d -> Zdigits2 m <= d.
Proof.
  intros H0 Hm. pose proof (digits_bounds m H0) as [Hb _]. pose proof (digits_pos m H0).
  assert (0 <= d) by (destruct (Z.neg_nonneg_cases d); [rewrite Z.pow_neg_r in Hm by lia; lia|lia]).
  assert (Zdigits2 m - 1 < d) by (apply (Z.pow_lt_mono_r_iff 2); lia). lia.
Qed.

(** ** Rounding *)

Section Format.
Context (prec emax : Z) (Hprec : 1 < prec) (Hemax : prec < emax).

(** The exponent of the last bit of a number with integer part [q] in units of
    [2^e], and how far [q] is shifted to reach it. *)
Definition shift_of (q e : Z) : Z := Z.max 0 (fexp prec emax (Zdigits2 q + e) - e).

(** Mantissa [c] at exponent [e], with the carry into one more bit. *)
Definition packed (s : bool) (c e : Z) : spec_float :=
  let '(m, e') := if c =? 2 ^ prec then (2 ^ (prec - 1), e + 1) else (c, e) in
  if m =? 0 then S754_zero s
  else if e' <=? emax - prec then S754_finite s (Z.to_pos m) e' else S754_infinity s.

Lemma emin_shift q e : emin prec emax <= e + shift_of q e.
Proof. unfold shift_of, fexp. lia. Qed.

Lemma rounded_bound a b e :
  0 <= a -> 0 < b -> 0 <= rne_div a (b * 2 ^ shift_of (a / b) e) <= 2 ^ prec.
Proof.
  intros Ha Hb. set (k := shift_of (a / b) e).
  assert (0 <= k) by (unfold k, shift_of; lia).
  assert (0 < b * 2 ^ k) by (apply Z.mul_pos_pos; [lia|apply Z.pow_pos_nonneg; lia]).
  split; [apply rne_div_ge; lia|]. apply rne_div_le; [lia|].
  destruct (Z.eq_dec (a / b) 0) as [E|E].
  - apply Z.div_small_iff in E; [|lia].
    assert (0 < 2 ^ prec) by (apply Z.pow_pos_nonneg; lia). nia.
  - assert (0 < a / b) as Hq by (pose proof (Z.div_pos a b Ha Hb); lia).
    pose proof (digits_bounds _ Hq) as [_ Hd]. pose proof (digits_pos _ Hq) as Hd1.
    assert (a < 2 ^ Zdigits2 (a / b) * b) as Hab.
    { apply (Z.lt_le_trans _ (b * (a / b + 1))); [|nia].
      pose proof (Z.mul_succ_div_gt a b Hb). lia. }
    assert (2 ^ Zdigits2 (a / b) <= 2 ^ (prec + k)) as Hk.
    { apply Z.pow_le_mono_r; [lia|]. unfold k, shift_of, fexp. lia. }
    rewrite Z.pow_add_r in Hk by lia. nia.
Qed.

(** A second shift is needed only after a carry. *)
Lemma shr_fexp_packed c e :
  0 <= c <= 2 ^ prec -> emin prec emax <= e ->
  let r := shr_fexp prec emax c e loc_Exact in
  (shr_m r.1, r.2) = (if c =? 2 ^ prec then (2 ^ (prec - 1), e + 1) else (c, e)) \/ c = 0 /\ shr_m r.1 = 0.
Proof.
  intros Hc He. unfold shr_fexp, shr_record_of_loc. cbv zeta.
  destruct (Z.eqb_spec c (2 ^ prec)) as [->|Hne].
  - left. assert (Zdigits2 (2 ^ prec) = prec + 1) as ->.
    { apply digits_unique; [|lia]. replace (prec + 1 - 1) with prec by lia.
      rewrite Z.pow_add_r by lia. lia. }
    replace (fexp prec emax (prec + 1 + e) - e) with 1 by (unfold fexp; lia).
    unfold shr. cbn [iter_pos fst snd]. rewrite shr_1_m by lia. simpl. f_equal.
    rewrite Z.div2_div. rewrite Z.pow_sub_r by lia. done.
  - destruct (Z.eq_dec c 0) as [->|Hc0].
    + right. split; [done|]. edestruct (stands_shr 0 1 (Build_shr_record 0 false false) e) as [(_ & _ & -> & _) _]; [done|].
      by rewrite Z.div_0_l by (apply Z.neq_mul_0; split; [lia|apply Z.pow_nonzero; lia]).
    + left. assert (Zdigits2 c <= prec) by (apply digits_le; lia).
      assert (fexp prec emax (Zdigits2 c + e) - e <= 0) as Hs by (unfold fexp; lia).
      by destruct (fexp prec emax (Zdigits2 c + e) - e) as [|p|p]; try lia.
Qed.

(** Rounding [a / b * 2^e]: the nearest multiple of the last bit. *)
Lemma binary_round_aux_rne s a b e :
  0 <= a -> 0 < b ->
  binary_round_aux prec emax s (a / b) e (loc (a mod b) b) =
  packed s (rne_div a (b * 2 ^ shift_of (a / b) e)) (e + shift_of (a / b) e).
Proof.
  intros Ha Hb. unfold binary_round_aux.
  destruct (shr_fexp prec emax (a / b) e (loc (a mod b) b)) as [x e'] eqn:E1.
  pose proof (stands_shr a b _ e (fexp prec emax (Zdigits2 (a / b) + e) - e) (stands_of_loc a b Ha Hb))
    as [Hx He']. unfold shr_fexp in E1. rewrite E1 in Hx, He'. simpl in Hx, He'.
  fold (shift_of (a / b) e) in Hx, He'. rewrite (stands_round _ _ _ Hx). subst e'.
  pose proof (rounded_bound a b e Ha Hb) as Hc. set (c := rne_div _ _) in *.
  pose proof (shr_fexp_packed c (e + shift_of (a / b) e) Hc (emin_shift _ _)) as Hr.
  destruct (shr_fexp prec emax c _ loc_Exact) as [y e'']. simpl in Hr.
  assert (0 < 2 ^ (prec - 1)) as Hp by (apply Z.pow_pos_nonneg; lia).
  unfold packed. destruct Hr as [Hr|[Hc0 ->]].
  - destruct (if c =? 2 ^ prec then _ else _) as [m e3] eqn:Em. injection Hr as -> ->.
    assert (0 <= m) by (destruct (c =? 2 ^ prec); injection Em as <- _; lia).
    by destruct m as [|p|p]; try lia.
  - rewrite Hc0. destruct (Z.eqb_spec 0 (2 ^ prec)); [|done].
    assert (0 < 2 ^ prec) by (apply Z.pow_pos_nonneg; lia). lia.
Qed.

(** The same for an integer number of units. *)
Lemma binary_round_aux_int s m e :
  0 <= m ->
  binary_round_aux prec emax s m e loc_Exact =
  packed s (rne_div m (2 ^ shift_of m e)) (e + shift_of m e).
Proof.
  intros Hm. pose proof (binary_round_aux_rne s m 1 e Hm ltac:(lia)) as E.
  by rewrite Z.div_1_r, Z.mod_1_r, Z.mul_1_l in E.
Qed.

(** A mantissa with all its bits. *)
Definition full (m : Z) : Prop := 2 ^ (prec - 1) <= m < 2 ^ prec.

Lemma full_digits m : full m -> Zdigits2 m = prec.
Proof. intros Hm. apply digits_unique; [done|lia]. Qed.

Lemma packed_full s m e : full m -> e <= emax - prec -> packed s m e = S754_finite s (Z.to_pos m) e.
Proof.
  intros [Hm Hm'] He. unfold packed. assert (0 < 2 ^ (prec - 1)) by (apply Z.pow_pos_nonneg; lia).
  rewrite (proj2 (Z.eqb_neq m _)) by lia. rewrite (proj2 (Z.eqb_neq m 0)) by lia.
  by rewrite (proj2 (Z.leb_le e _)).
Qed.

(** A number of the format survives with [j] zero bits appended. *)
Lemma round_exact s m j e :
  full m -> 0 <= j -> emin prec emax <= e + j <= emax - prec ->
  binary_round_aux prec emax s (m * 2 ^ j) e loc_Exact = S754_finite s (Z.to_pos m) (e + j).
Proof.
  intros Hm Hj He. assert (0 < 2 ^ j) by (apply Z.pow_pos_nonneg; lia).
  assert (0 < 2 ^ (prec - 1)) by (apply Z.pow_pos_nonneg; lia). pose proof Hm as [? ?].
  assert (shift_of (m * 2 ^ j) e = j) as Hs.
  { unfold shift_of. rewrite (digits_unique _ (prec + j)); [unfold fexp; lia| |lia].
    replace (prec + j - 1) with (prec - 1 + j) by lia. rewrite !Z.pow_add_r by lia. nia. }
  rewrite binary_round_aux_int by nia. rewrite Hs, rne_div_exact by lia.
  apply packed_full; [done|lia].
Qed.

(** ** Integers *)

(** [n] rounded to [prec] significant bits. *)
Definition nearest (n : Z) : Z :=
  let k := Z.max 0 (Zdigits2 n - prec) in rne_div n (2 ^ k) * 2 ^ k.

(** [x] is the positive number [v], with all its mantissa bits. *)
Definition denotes (x : spec_float) (v : Z) : Prop :=
  exists m e, x = S754_finite false (Z.to_pos m) e /\ full m /\ - prec < e <= emax - prec /\
    v * 2 ^ prec = m * 2 ^ (e + prec).

Lemma shl_align_eq m e e' :
  shl_align m e e' = (Z.to_pos (Z.pos m * 2 ^ Z.max 0 (e - e')), Z.min e e').
Proof.
  unfold shl_align. destruct (e' - e) as [|p|p] eqn:E.
  - replace (Z.max 0 (e - e')) with 0 by lia. replace (Z.min e e') with e by lia.
    by rewrite Z.mul_1_r.
  - replace (Z.max 0 (e - e')) with 0 by lia. replace (Z.min e e') with e by lia.
    by rewrite Z.mul_1_r.
  - replace (Z.max 0 (e - e')) with (Z.pos p) by lia. replace (Z.min e e') with e' by lia.
    f_equal. rewrite <- Pos2Z.inj_pow. simpl. rewrite Pos.mul_comm.
    clear E. induction p as [|p IH] using Pos.peano_ind; [done|].
    rewrite Pos.iter_succ, IH, Pos.pow_succ_r. lia.
Qed.

Lemma binary_round_eq s m e :
  binary_round prec emax s m e =
  let e1 := fexp prec emax (Zdigits2 (Z.pos m) + e) in
  binary_round_aux prec emax s (Z.pos m * 2 ^ Z.max 0 (e - e1)) (Z.min e e1) loc_Exact.
Proof.
  unfold binary_round. cbv zeta. rewrite shl_align_eq. rewrite Z2Pos.id; [done|].
  apply Z.mul_pos_pos; [lia|]. apply Z.pow_pos_nonneg; lia.
Qed.

Lemma full_scaled m : 0 < m < 2 ^ prec -> full (m * 2 ^ (prec - Zdigits2 m)).
Proof.
  intros [Hm Hm']. pose proof (digits_bounds m Hm). pose proof (digits_pos m Hm).
  pose proof (digits_le m prec Hm Hm'). unfold full.
  assert (0 < 2 ^ (prec - Zdigits2 m)) by (apply Z.pow_pos_nonneg; lia).
  assert (2 ^ (prec - 1) = 2 ^ (Zdigits2 m - 1) * 2 ^ (prec - Zdigits2 m))
    by (rewrite <- Z.pow_add_r by lia; f_equal; lia).
  assert (2 ^ prec = 2 ^ Zdigits2 m * 2 ^ (prec - Zdigits2 m))
    by (rewrite <- Z.pow_add_r by lia; f_equal; lia).
  nia.
Qed.

(** A short mantissa is filled up: nothing is lost. *)
Lemma binary_round_short s m e :
  Z.pos m < 2 ^ prec -> emin prec emax <= e + Zdigits2 (Z.pos m) - prec <= emax - prec ->
  binary_round prec emax s m e =
  S754_finite s (Z.to_pos (Z.pos m * 2 ^ (prec - Zdigits2 (Z.pos m)))) (e + Zdigits2 (Z.pos m) - prec).
Proof.
  intros Hm He. pose proof (digits_le (Z.pos m) prec ltac:(lia) Hm).
  pose proof (digits_pos (Z.pos m) ltac:(lia)). rewrite binary_round_eq. cbv zeta.
  replace (fexp prec emax (Zdigits2 (Z.pos m) + e)) with (e + Zdigits2 (Z.pos m) - prec)
    by (unfold fexp; lia).
  replace (Z.max 0 _) with (prec - Zdigits2 (Z.pos m)) by lia.
  replace (Z.min _ _) with (e + Zdigits2 (Z.pos m) - prec) by lia.
  pose proof (round_exact s (Z.pos m * 2 ^ (prec - Zdigits2 (Z.pos m))) 0
    (e + Zdigits2 (Z.pos m) - prec)) as E.
  rewrite Z.mul_1_r, Z.add_0_r in E. apply E; [by apply full_scaled|done|done].
Qed.

(** A long one loses its last bits. *)
Lemma binary_round_long s m e :
  prec <= Zdigits2 (Z.pos m) -> emin prec emax <= e ->
  binary_round prec emax s m e =
  packed s (rne_div (Z.pos m) (2 ^ (Zdigits2 (Z.pos m) - prec))) (e + Zdigits2 (Z.pos m) - prec).
Proof.
  intros Hd He. rewrite binary_round_eq. cbv zeta.
  replace (fexp prec emax (Zdigits2 (Z.pos m) + e)) with (e + Zdigits2 (Z.pos m) - prec)
    by (unfold fexp; lia).
  replace (Z.max 0 _) with 0 by lia. rewrite Z.mul_1_r.
  replace (Z.min e _) with e by lia. rewrite binary_round_aux_int by lia.
  replace (shift_of (Z.pos m) e) with (Zdigits2 (Z.pos m) - prec) by (unfold shift_of, fexp; lia).
  f_equal. lia.
Qed.

Lemma rounded_full n :
  0 < n -> prec <= Zdigits2 n ->
  2 ^ (prec - 1) <= rne_div n (2 ^ (Zdigits2 n - prec)) <= 2 ^ prec.
Proof.
  intros Hn Hd. pose proof (digits_bounds n Hn) as Hb.
  assert (0 < 2 ^ (Zdigits2 n - prec)) by (apply Z.pow_pos_nonneg; lia).
  split; [apply rne_div_ge|apply rne_div_le]; try lia; rewrite <- Z.pow_add_r by lia.
  - replace (prec - 1 + (Zdigits2 n - prec)) with (Zdigits2 n - 1) by lia. lia.
  - replace (prec + (Zdigits2 n - prec)) with (Zdigits2 n) by lia. lia.
Qed.

(** Converting an integer rounds it to [prec] bits. *)
Lemma convert_denotes n :
  0 < n -> Zdigits2 n + 1 <= emax -> denotes (binary_normalize prec emax n 0 false) (nearest n).
Proof.
  intros Hn Hx. destruct n as [|p|p]; try lia. unfold binary_normalize. set (n := Z.pos p) in *.
  pose proof (digits_pos n Hn) as Hd1. unfold nearest. unfold emin in *.
  destruct (Z.le_gt_cases prec (Zdigits2 n)) as [Hd|Hd].
  - rewrite binary_round_long by (try done; unfold emin; lia).
    replace (Z.max 0 (Zdigits2 n - prec)) with (Zdigits2 n - prec) by lia.
    pose proof (rounded_full n Hn Hd) as Hc. fold n. set (c := rne_div _ _) in *. unfold packed.
    assert (0 < 2 ^ (prec - 1)) by (apply Z.pow_pos_nonneg; lia).
    destruct (Z.eqb_spec c (2 ^ prec)) as [Ec|Ec].
    + rewrite (proj2 (Z.eqb_neq (2 ^ (prec - 1)) 0)) by lia. rewrite (proj2 (Z.leb_le _ _)) by lia.
      eexists _, _. split; [done|]. split; [split; [lia|apply Z.pow_lt_mono_r; lia]|].
      split; [lia|]. rewrite Ec. rewrite <- !Z.pow_add_r by lia. f_equal; lia.
    + rewrite (proj2 (Z.eqb_neq c 0)) by lia. rewrite (proj2 (Z.leb_le _ _)) by lia.
      eexists _, _. split; [done|]. split; [split; lia|]. split; [lia|].
      rewrite <- Z.mul_assoc, <- Z.pow_add_r by lia. repeat f_equal; lia.
  - pose proof (digits_bounds n Hn) as [_ Hb].
    assert (n < 2 ^ prec) by (eapply Z.lt_le_trans; [exact Hb|apply Z.pow_le_mono_r; lia]).
    rewrite binary_round_short; [|done|unfold emin; fold n; lia]. fold n.
    replace (Z.max 0 (Zdigits2 n - prec)) with 0 by lia.
    eexists _, _. split; [done|]. split; [by apply full_scaled|]. split; [lia|].
    replace (rne_div n (2 ^ 0)) with n by (rewrite <- (rne_div_exact n 1) at 1; [by rewrite Z.mul_1_r|lia]).
    rewrite Z.mul_1_r, <- Z.mul_assoc, <- Z.pow_add_r by lia. repeat f_equal; lia.
Qed.

Lemma nearest_small n : 0 < n < 2 ^ prec -> nearest n = n.
Proof.
  intros [Hn Hlt]. unfold nearest. pose proof (digits_le n prec Hn Hlt).
  replace (Z.max 0 (Zdigits2 n - prec)) with 0 by lia. rewrite Z.mul_1_r.
  rewrite <- (rne_div_exact n 1) at 2; [by rewrite Z.mul_1_r|lia].
Qed.

Lemma nearest_mono a b : 0 < a -> a <= b -> nearest a <= nearest b.
Proof.
  intros Ha Hab. pose proof (digits_bounds a Ha) as Hda. pose proof (digits_bounds b ltac:(lia)) as Hdb.
  pose proof (digits_pos a Ha). pose proof (digits_pos b ltac:(lia)).
  assert (Zdigits2 a <= Zdigits2 b) as Hd by (apply digits_le; lia).
  unfold nearest. set (ka := Z.max 0 (Zdigits2 a - prec)). set (kb := Z.max 0 (Zdigits2 b - prec)).
  assert (0 < 2 ^ ka) by (apply Z.pow_pos_nonneg; lia).
  assert (0 < 2 ^ kb) by (apply Z.pow_pos_nonneg; lia).
  destruct (Z.eq_dec (Zdigits2 a) (Zdigits2 b)) as [E|E].
  { subst ka kb. rewrite E. apply Z.mul_le_mono_nonneg_r; [lia|]. by apply rne_div_mono; [lia|]. }
  assert (rne_div a (2 ^ ka) * 2 ^ ka <= 2 ^ Zdigits2 a) as Ha1.
  { replace (2 ^ Zdigits2 a) with (2 ^ (Zdigits2 a - ka) * 2 ^ ka)
      by (rewrite <- Z.pow_add_r by lia; f_equal; lia).
    apply Z.mul_le_mono_nonneg_r; [lia|]. apply rne_div_le; [lia|].
    rewrite <- Z.pow_add_r by lia. replace (Zdigits2 a - ka + ka) with (Zdigits2 a) by lia. lia. }
  assert (2 ^ (Zdigits2 b - 1) <= rne_div b (2 ^ kb) * 2 ^ kb) as Hb1.
  { replace (2 ^ (Zdigits2 b - 1)) with (2 ^ (Zdigits2 b - 1 - kb) * 2 ^ kb)
      by (rewrite <- Z.pow_add_r by lia; f_equal; lia).
    apply Z.mul_le_mono_nonneg_r; [lia|]. apply rne_div_ge; [lia|].
    rewrite <- Z.pow_add_r by lia. replace (Zdigits2 b - 1 - kb + kb) with (Zdigits2 b - 1) by lia. lia. }
  assert (2 ^ Zdigits2 a <= 2 ^ (Zdigits2 b - 1)) by (apply Z.pow_le_mono_r; lia). lia.
Qed.

(** ** Bounds *)

(** [0 <= x <= n * 2^g]. *)
Definition at_most (n g : Z) (x : spec_float) : Prop :=
  match x with
  | S754_zero false => True
  | S754_finite false m e => e <= g /\ Z.pos m <= n * 2 ^ (g - e)
  | _ => False
  end.

(** Rounding does not pass a number of the format. *)
Lemma round_at_most a b e n g :
  0 <= a -> 0 < b -> full n -> emin prec emax <= g <= emax - prec -> e <= g ->
  a <= b * (n * 2 ^ (g - e)) ->
  at_most n g (binary_round_aux prec emax false (a / b) e (loc (a mod b) b)).
Proof.
  intros Ha Hb Hn Hg Heg Hab. rewrite binary_round_aux_rne by done.
  assert (0 < 2 ^ (prec - 1)) as Hp by (apply Z.pow_pos_nonneg; lia).
  assert (e + shift_of (a / b) e <= g) as Hk.
  { assert (Zdigits2 (a / b) + e <= prec + g); [|unfold shift_of, fexp; lia].
    destruct (Z.eq_dec (a / b) 0) as [->|Hq]; [simpl; lia|].
    assert (0 < a / b) by (pose proof (Z.div_pos a b Ha Hb); lia).
    assert (Zdigits2 (a / b) <= prec + (g - e)); [|lia]. apply digits_le; [done|].
    apply Z.div_lt_upper_bound; [done|]. rewrite Z.pow_add_r by lia.
    assert (0 < 2 ^ (g - e)) by (apply Z.pow_pos_nonneg; lia). destruct Hn. nia. }
  set (k := shift_of (a / b) e) in *. assert (0 <= k) by (unfold k, shift_of; lia).
  assert (0 < 2 ^ k) by (apply Z.pow_pos_nonneg; lia).
  pose proof (rounded_bound a b e Ha Hb) as Hc. fold k in Hc.
  assert (rne_div a (b * 2 ^ k) <= n * 2 ^ (g - (e + k))) as Hle.
  { apply rne_div_le; [lia|]. replace (g - e) with (g - (e + k) + k) in Hab by lia.
    rewrite Z.pow_add_r in Hab by lia. lia. }
  set (c := rne_div _ _) in *. unfold packed. destruct (Z.eqb_spec c (2 ^ prec)) as [Ec|Ec].
  - rewrite (proj2 (Z.eqb_neq (2 ^ (prec - 1)) 0)) by lia.
    assert (e + k < g) as Hlt.
    { destruct (Z.eq_dec (e + k) g) as [E|]; [|lia]. rewrite E, Z.sub_diag, Z.mul_1_r in Hle.
      destruct Hn. lia. }
    rewrite (proj2 (Z.leb_le _ _)) by lia. simpl. split; [lia|]. rewrite Z2Pos.id by lia.
    rewrite Ec in Hle. replace (g - (e + k)) with (1 + (g - (e + k + 1))) in Hle by lia.
    rewrite Z.pow_add_r in Hle by lia.
    replace prec with (1 + (prec - 1)) in Hle by lia. rewrite Z.pow_add_r in Hle by lia. lia.
  - destruct (Z.eqb_spec c 0); [done|]. rewrite (proj2 (Z.leb_le _ _)) by lia.
    simpl. rewrite Z2Pos.id by lia. done.
Qed.

Lemma round_int_at_most m e n g :
  0 <= m -> full n -> emin prec emax <= g <= emax - prec -> e <= g ->
  m <= n * 2 ^ (g - e) -> at_most n g (binary_round_aux prec emax false m e loc_Exact).
Proof.
  intros Hm Hn Hg He Hle.
  pose proof (round_at_most m 1 e n g Hm ltac:(lia) Hn Hg He ltac:(lia)) as E.
  by rewrite Z.div_1_r, Z.mod_1_r in E.
Qed.

Lemma normalize_at_most m e n g :
  0 <= m -> full n -> emin prec emax <= g <= emax - prec -> e <= g ->
  m <= n * 2 ^ (g - e) -> at_most n g (binary_normalize prec emax m e false).
Proof.
  intros Hm Hn Hg He Hle. destruct m as [|p|p]; [done| |lia]. unfold binary_normalize.
  rewrite binary_round_eq. cbv zeta. set (e1 := fexp _ _ _).
  assert (0 < 2 ^ Z.max 0 (e - e1)) by (apply Z.pow_pos_nonneg; lia).
  apply round_int_at_most; [lia|done|done|lia|].
  replace (g - Z.min e e1) with (g - e + Z.max 0 (e - e1)) by lia. rewrite Z.pow_add_r by lia. nia.
Qed.
End Format.

(** [0 <= x <= 1] in a format of [prec] bits. *)
Definition unit_range (prec : Z) (x : spec_float) : Prop :=
  match x with
  | S754_zero false => True
  | S754_finite false m e => e <= 1 - prec /\ Z.pos m <= 2 ^ (- e)
  | _ => False
  end.

Lemma unit_range_iff prec x : 1 < prec -> unit_range prec x <-> at_most (2 ^ (prec - 1)) (1 - prec) x.
Proof.
  intros Hp. destruct x as [[]|[]| |[] m e]; simpl; try done.
  split; intros [He Hm]; (split; [done|]).
  - rewrite <- Z.pow_add_r by lia. by replace (prec - 1 + (1 - prec - e)) with (- e) by lia.
  - rewrite <- Z.pow_add_r in Hm by lia. by replace (prec - 1 + (1 - prec - e)) with (- e) in Hm by lia.
Qed.

Lemma full_one prec : 1 < prec -> full prec (2 ^ (prec - 1)).
Proof. intros Hp. split; [lia|]. apply Z.pow_lt_mono_r; lia. Qed.

(** Numbers between 0 and 1 stay there: normalising, changing the format,
    subtracting from 1, and a quotient of ordered numbers. *)
Section UnitRange.
Context (prec emax : Z) (Hprec : 1 < prec) (Hemax : prec < emax).

Lemma normalize_unit m e :
  0 <= m -> e <= 1 - prec -> m <= 2 ^ (- e) -> unit_range prec (binary_normalize prec emax m e false).
Proof.
  intros Hm He Hle. apply unit_range_iff; [done|].
  apply normalize_at_most; try done; [by apply full_one|unfold emin; lia|].
  rewrite <- Z.pow_add_r by lia. by replace (prec - 1 + (1 - prec - e)) with (- e) by lia.
Qed.

Lemma convert_unit prec' x :
  1 < prec' -> unit_range prec' x -> unit_range prec (convert prec emax x).
Proof.
  intros Hp'. destruct x as [[]|[]| |[] m e]; try done. intros [He Hm]. simpl.
  rewrite binary_round_eq by done. cbv zeta.
  set (e1 := fexp prec emax (Zdigits2 (Z.pos m) + e)).
  assert (0 < 2 ^ Z.max 0 (e - e1)) by (apply Z.pow_pos_nonneg; lia).
  assert (Z.min e e1 <= 1 - prec) as Hmin.
  { assert (Zdigits2 (Z.pos m) <= 1 - e); [|unfold e1, fexp, emin; lia].
    apply digits_le; [lia|]. eapply Z.le_lt_trans; [exact Hm|]. apply Z.pow_lt_mono_r; lia. }
  apply unit_range_iff; [done|].
  apply round_int_at_most; try (done || lia); [by apply full_one|unfold emin; lia|].
  rewrite <- Z.pow_add_r by lia.
  replace (prec - 1 + (1 - prec - Z.min e e1)) with (- e + Z.max 0 (e - e1)) by lia.
  rewrite Z.pow_add_r by lia. nia.
Qed.

Lemma one_minus_unit x :
  unit_range prec x ->
  unit_range prec (SFsub prec emax (S754_finite false (Z.to_pos (2 ^ (prec - 1))) (1 - prec)) x).
Proof.
  assert (0 < 2 ^ (prec - 1)) as Hp by (apply Z.pow_pos_nonneg; lia).
  destruct x as [[]|[]| |[] m e]; try done; intros Hx.
  - split; [lia|]. rewrite Z2Pos.id by done. apply Z.pow_le_mono_r; lia.
  - destruct Hx as [He Hm]. simpl. rewrite !shl_align_eq by done. simpl fst.
    replace (Z.min (1 - prec) e) with e by lia. rewrite Z.sub_diag, Z.max_id, Z.mul_1_r.
    assert (0 < 2 ^ Z.max 0 (1 - prec - e)) by (apply Z.pow_pos_nonneg; lia).
    rewrite !Z2Pos.id by (try rewrite Z2Pos.id; lia). rewrite Z.max_r by lia.
    rewrite <- Z.pow_add_r by lia. replace (prec - 1 + (1 - prec - e)) with (- e) by lia.
    apply normalize_unit; lia.
Qed.

Lemma div_unit m1 e1 m2 e2 :
  full prec (Z.pos m1) -> full prec (Z.pos m2) -> e1 <= e2 -> Z.pos m1 <= Z.pos m2 * 2 ^ (e2 - e1) ->
  unit_range prec (SFdiv prec emax (S754_finite false m1 e1) (S754_finite false m2 e2)).
Proof.
  intros Hm1 Hm2 He Hle. unfold SFdiv, SFdiv_core_binary. cbv zeta. cbn [xorb].
  rewrite (digits_unique (Z.pos m1) prec), (digits_unique (Z.pos m2) prec) by (done || lia).
  set (e' := Z.min _ (e1 - e2)). assert (0 <= e1 - e2 - e') by lia.
  assert (match e1 - e2 - e' with 0 => Z.pos m1 | Z.pos _ => Z.shiftl (Z.pos m1) (e1 - e2 - e')
          | Z.neg _ => 0 end = Z.pos m1 * 2 ^ (e1 - e2 - e')) as ->.
  { rewrite <- Z.shiftl_mul_pow2 by lia. by destruct (e1 - e2 - e') as [| |] eqn:E; try lia. }
  set (a := Z.pos m1 * 2 ^ (e1 - e2 - e')).
  assert (Z.div_eucl a (Z.pos m2) = (a / Z.pos m2, a mod Z.pos m2)) as ->
    by (unfold Z.div, Z.modulo; by destruct (Z.div_eucl a (Z.pos m2))).
  assert (0 <= a) by (unfold a; apply Z.mul_nonneg_nonneg; [lia|apply Z.pow_nonneg; lia]).
  rewrite new_location_loc by (try apply Z.mod_pos_bound; lia).
  apply unit_range_iff; [done|].
  apply round_at_most; try done; [by apply full_one|unfold emin; lia|unfold e', fexp, emin; lia|].
  assert (e' <= 1 - prec) by (unfold e', fexp, emin; lia).
  rewrite <- Z.pow_add_r by lia. replace (prec - 1 + (1 - prec - e')) with (- e') by lia. unfold a.
  apply (Z.le_trans _ (Z.pos m2 * 2 ^ (e2 - e1) * 2 ^ (e1 - e2 - e'))).
  - apply Z.mul_le_mono_nonneg_r; [apply Z.pow_nonneg; lia|done].
  - rewrite <- Z.mul_assoc, <- Z.pow_add_r by lia. by replace (e2 - e1 + (e1 - e2 - e')) with (- e') by lia.
Qed.

(** The quotient of two integers in order, each converted first. *)
Lemma ratio_unit a b :
  0 <= a <= b -> 0 < b -> Zdigits2 b + 1 <= emax ->
  unit_range prec (SFdiv prec emax (binary_normalize prec emax a 0 false) (binary_normalize prec emax b 0 false)).
Proof.
  intros Hab Hb Hd. destruct (convert_denotes prec emax Hprec Hemax b Hb Hd)
    as (m2 & e2 & E2 & Hm2 & He2 & Hv2). rewrite E2.
  destruct (Z.eq_dec a 0) as [->|Ha]; [done|].
  assert (Zdigits2 a <= Zdigits2 b).
  { apply digits_le; [lia|]. pose proof (digits_bounds b Hb). lia. }
  destruct (convert_denotes prec emax Hprec Hemax a) as (m1 & e1 & E1 & Hm1 & He1 & Hv1); [lia|lia|].
  rewrite E1. assert (0 < 2 ^ (prec - 1)) by (apply Z.pow_pos_nonneg; lia).
  pose proof Hm1 as [? ?]. pose proof Hm2 as [? ?].
  assert (m1 * 2 ^ (e1 + prec) <= m2 * 2 ^ (e2 + prec)) as Hle.
  { rewrite <- Hv1, <- Hv2. apply Z.mul_le_mono_nonneg_r; [apply Z.pow_nonneg; lia|].
    apply nearest_mono; lia. }
  assert (e1 <= e2) as He.
  { destruct (Z.le_gt_cases e1 e2); [done|].
    assert (2 ^ (e1 + prec) = 2 * 2 ^ (e1 - e2 - 1) * 2 ^ (e2 + prec)) as Hx.
    { rewrite <- Z.pow_succ_r, <- Z.pow_add_r by lia. f_equal. lia. }
    rewrite Hx in Hle.
    assert (2 ^ prec = 2 * 2 ^ (prec - 1)) as Hpp
      by (rewrite <- Z.pow_succ_r by lia; f_equal; lia).
    assert (0 < 2 ^ (e1 - e2 - 1)) by (apply Z.pow_pos_nonneg; lia).
    assert (0 < 2 ^ (e2 + prec)) by (apply Z.pow_pos_nonneg; lia).
    assert (m1 * (2 * 2 ^ (e1 - e2 - 1)) <= m2) by nia. nia. }
  apply div_unit; rewrite ?Z2Pos.id by lia; try done.
  assert (2 ^ (e2 + prec) = 2 ^ (e2 - e1) * 2 ^ (e1 + prec)) as Hx
    by (rewrite <- Z.pow_add_r by lia; f_equal; lia).
  rewrite Hx in Hle.
  assert (0 < 2 ^ (e1 + prec)) by (apply Z.pow_pos_nonneg; lia). nia.
Qed.
End UnitRange.

(** ** Doubles and powers of two *)

(** The double [2^j]. *)
Definition dpow2 (j : Z) : double := S754_finite false (2 ^ 52) (j - 52).

Lemma dmul_pow2 m e j :
  full 53 (Z.pos m) -> -1074 <= e + j <= 971 ->
  dmul (S754_finite false m e) (dpow2 j) = S754_finite false m (e + j).
Proof.
  intros Hm He. unfold dmul, SFmul, dpow2. cbn [xorb].
  change (Z.pos (m * 2 ^ 52)) with (Z.pos m * 2 ^ 52).
  rewrite round_exact by (done || lia || (unfold emin; lia)).
  replace (e + (j - 52) + 52) with (e + j) by lia. done.
Qed.

Lemma ddiv_pow2 m e j :
  full 53 (Z.pos m) -> -1073 <= e - j <= 971 ->
  ddiv (S754_finite false m e) (dpow2 j) = S754_finite false m (e - j).
Proof.
  intros Hm He. unfold ddiv, SFdiv, dpow2, SFdiv_core_binary. cbv zeta. cbn [xorb].
  rewrite (digits_unique (Z.pos m) 53) by (done || lia).
  replace (Zdigits2 (Z.pos (2 ^ 52))) with 53 by done.
  replace (Z.min _ _) with (e - j - 1) by (unfold fexp, emin; lia).
  replace (e - (j - 52) - (e - j - 1)) with 53 by lia.
  rewrite Z.shiftl_mul_pow2 by lia.
  assert (Z.div_eucl (Z.pos m * 2 ^ 53) (Z.pos (2 ^ 52)) = (Z.pos m * 2 ^ 1, 0)) as ->.
  { assert (Z.pos m * 2 ^ 53 = Z.pos m * 2 ^ 1 * Z.pos (2 ^ 52)) as -> by lia.
    pose proof (Z.div_mul (Z.pos m * 2 ^ 1) (Z.pos (2 ^ 52)) ltac:(lia)) as Hd.
    pose proof (Z.mod_mul (Z.pos m * 2 ^ 1) (Z.pos (2 ^ 52)) ltac:(lia)) as Hr.
    unfold Z.div in Hd. unfold Z.modulo in Hr. destruct (Z.div_eucl _ _). by subst. }
  replace (new_location (Z.pos (2 ^ 52)) 0) with loc_Exact by done.
  rewrite round_exact by (done || lia || (unfold emin; lia)).
  replace (e - j - 1 + 1) with (e - j) by lia. done.
Qed.

(** [value >= 1024.0] *)
Lemma dge_1024 m e :
  full 53 (Z.pos m) -> dge (S754_finite false m e) (to_double 1024) = (-42 <=? e).
Proof.
  intros [Hm _]. unfold dge. change (to_double 1024) with (S754_finite false (2 ^ 52) (-42)).
  unfold SFleb, SFcompare. destruct (Z.compare_spec (-42) e) as [<-|Hlt|Hgt].
  - change (Pos.compare_cont Eq (2 ^ 52) m) with (2 ^ 52 ?= m)%positive.
    by destruct (Pos.compare_spec (2 ^ 52) m); try lia.
  - symmetry. apply Z.leb_le. lia.
  - symmetry. apply Z.leb_gt. lia.
Qed.

(** Printing a number [v / 2^i]. *)
Lemma fixed_units_value n m e v i p :
  0 <= p -> 0 <= e + p -> 0 <= i -> v * 2 ^ p = Z.pos m * 2 ^ (e + p) ->
  fixed_units n m (e - i) = rne_div (v * 10 ^ Z.of_nat n) (2 ^ i).
Proof.
  intros Hp Hep Hi Hv. assert (0 < 2 ^ p) by (apply Z.pow_pos_nonneg; lia).
  assert (0 < 2 ^ i) by (apply Z.pow_pos_nonneg; lia).
  unfold fixed_units. destruct (Z.leb_spec 0 (e - i)) as [Hle|Hgt].
  - assert (v = Z.pos m * 2 ^ (e - i) * 2 ^ i) as ->.
    { apply (Z.mul_reg_r _ _ (2 ^ p)); [lia|]. rewrite Hv, <- !Z.mul_assoc. f_equal.
      rewrite <- !Z.pow_add_r by lia. f_equal. lia. }
    replace (Z.pos m * 2 ^ (e - i) * 2 ^ i * 10 ^ Z.of_nat n)
      with (Z.pos m * 10 ^ Z.of_nat n * 2 ^ (e - i) * 2 ^ i) by lia.
    by rewrite rne_div_exact.
  - assert (0 < 2 ^ (e + p)) by (apply Z.pow_pos_nonneg; lia).
    assert (0 < 2 ^ (- (e - i))) by (apply Z.pow_pos_nonneg; lia).
    rewrite <- (rne_div_scale _ (2 ^ (- (e - i))) (2 ^ (e + p))) by lia.
    rewrite <- (rne_div_scale _ (2 ^ i) (2 ^ p)) by lia. rewrite <- !Z.pow_add_r by lia. f_equal.
    + rewrite <- !Z.mul_assoc, (Z.mul_comm (10 ^ _)), Z.mul_assoc, <- Hv. lia.
    + f_equal. lia.
Qed.

(** Cutting [v * 2^i] down to an integer. *)
Lemma to_ull_value m e v i p :
  0 <= p -> 0 <= e + p -> 0 <= i -> v * 2 ^ p = Z.pos m * 2 ^ (e + p) ->
  to_ull (S754_finite false m (e + i)) = if v * 2 ^ i <? 2 ^ 64 then Some (v * 2 ^ i) else None.
Proof.
  intros Hp Hep Hi Hv. unfold to_ull. assert (0 < 2 ^ p) by (apply Z.pow_pos_nonneg; lia).
  replace (Z.shiftl (Z.pos m) (e + i)) with (v * 2 ^ i); [done|].
  destruct (Z.le_gt_cases 0 (e + i)) as [Hle|Hgt].
  - rewrite Z.shiftl_mul_pow2 by done. apply (Z.mul_reg_r _ _ (2 ^ p)); [lia|].
    replace (v * 2 ^ i * 2 ^ p) with (v * 2 ^ p * 2 ^ i) by lia. rewrite Hv, <- !Z.mul_assoc.
    f_equal. rewrite <- !Z.pow_add_r by lia. f_equal. lia.
  - replace (e + i) with (- - (e + i)) by lia. rewrite Z.shiftl_opp_r, Z.shiftr_div_pow2 by lia.
    assert (0 < 2 ^ (- (e + i))) by (apply Z.pow_pos_nonneg; lia).
    assert (0 < 2 ^ (e + p)) by (apply Z.pow_pos_nonneg; lia).
    apply Z.div_unique_exact; [lia|]. apply (Z.mul_reg_r _ _ (2 ^ (e + p))); [lia|].
    rewrite <- Hv. replace (2 ^ (- (e + i)) * (v * 2 ^ i) * 2 ^ (e + p))
      with (v * (2 ^ (- (e + i)) * 2 ^ i * 2 ^ (e + p))) by ring.
    rewrite <- !Z.pow_add_r by lia. do 2 f_equal. lia.
Qed.

(** The exponent of a number below [2^64]. *)
Lemma denoted_exponent m e v :
  2 ^ (53 - 1) <= m -> v * 2 ^ 53 = m * 2 ^ (e + 53) -> 0 <= v < 2 ^ 64 -> -53 < e -> e <= 64.
Proof.
  intros Hm Hv Hlt He. destruct (Z.le_gt_cases e 64) as [|Hgt]; [done|].
  assert (2 ^ 117 <= 2 ^ (e + 53)) by (apply Z.pow_le_mono_r; lia). nia.
Qed.

(** A number between 0 and 1 times a double is at most the double. *)
Lemma dmul_at_most x n g :
  unit_range 53 x -> full 53 (Z.pos n) -> -1074 <= g <= 971 ->
  at_most (Z.pos n) g (dmul x (S754_finite false n g)).
Proof.
  intros Hx Hn Hg. destruct x as [[]|[]| |[] m e]; try done. destruct Hx as [He Hm].
  unfold dmul, SFmul. cbn [xorb]. change (Z.pos (m * n)) with (Z.pos m * Z.pos n).
  apply round_int_at_most; try (done || lia). replace (g - (e + g)) with (- e) by lia. nia.
Qed.

(** Two bounded doubles whose bounds add up to at most 1. *)
Lemma dadd_unit x y n1 g1 n2 g2 :
  at_most n1 g1 x -> at_most n2 g2 y -> 0 <= n1 -> 0 <= n2 -> g1 <= -53 -> g2 <= g1 ->
  n1 * 2 ^ (g1 - g2) + n2 <= 2 ^ (- g2) -> unit_range 53 (dadd x y).
Proof.
  intros Hx Hy Hn1 Hn2 Hg1 Hg2 Hsum.
  assert (n1 <= 2 ^ (- g1) /\ n2 <= 2 ^ (- g2)) as [Hb1 Hb2].
  { assert (0 < 2 ^ (g1 - g2)) by (apply Z.pow_pos_nonneg; lia). split; [|nia].
    replace (- g2) with (- g1 + (g1 - g2)) in Hsum by lia. rewrite Z.pow_add_r in Hsum by lia. nia. }
  assert (forall n g m e, 0 <= n -> n <= 2 ^ (- g) -> g <= -53 -> at_most n g (S754_finite false m e) ->
    unit_range 53 (S754_finite false m e)) as Hun.
  { intros n g m e H0 Hn Hg [He Hm]. split; [lia|].
    replace (- e) with (- g + (g - e)) by lia. rewrite Z.pow_add_r by lia.
    assert (0 < 2 ^ (g - e)) by (apply Z.pow_pos_nonneg; lia). nia. }
  destruct x as [[]|[]| |[] m1 e1]; try done; destruct y as [[]|[]| |[] m2 e2]; try done.
  - by apply (Hun n2 g2); try lia.
  - by apply (Hun n1 g1); try lia.
  - destruct Hx as [He1 Hm1], Hy as [He2 Hm2]. unfold dadd, SFadd. cbn [cond_Zopp].
    rewrite !shl_align_eq by lia. cbn [fst]. set (e := Z.min e1 e2).
    assert (0 < 2 ^ Z.max 0 (e1 - e) /\ 0 < 2 ^ Z.max 0 (e2 - e)) as [Hp1 Hp2]
      by (split; apply Z.pow_pos_nonneg; lia).
    rewrite !Z2Pos.id by lia. rewrite !Z.max_r in * by lia.
    apply normalize_unit; [lia|lia|lia|lia|].
    assert (2 ^ (- e) = 2 ^ (- g2) * 2 ^ (g2 - e)) as -> by (rewrite <- Z.pow_add_r by lia; f_equal; lia).
    assert (2 ^ (g1 - e1) * 2 ^ (e1 - e) = 2 ^ (g1 - g2) * 2 ^ (g2 - e)) as E1
      by (rewrite <- !Z.pow_add_r by lia; f_equal; lia).
    assert (2 ^ (g2 - e2) * 2 ^ (e2 - e) = 2 ^ (g2 - e)) as E2
      by (rewrite <- !Z.pow_add_r by lia; f_equal; lia).
    assert (0 < 2 ^ (g2 - e)) by (apply Z.pow_pos_nonneg; lia).
    assert (Z.pos m1 * 2 ^ (e1 - e) <= n1 * 2 ^ (g1 - g2) * 2 ^ (g2 - e)) by nia.
    assert (Z.pos m2 * 2 ^ (e2 - e) <= n2 * 2 ^ (g2 - e)) by nia. nia.
Qed.
