(* ===== verification/CFormat.v ===== *)
(** * printf and scanf conversions

    [sprintf] and [sscanf] interpret the very format strings of the sources:
    the conversions %s %d %u %x %f with the flags, widths, precisions and
    length modifiers that occur there.  Integers are read the way glibc reads them: [strtol] or
    [strtoull] clamps to the 64-bit range, and the result is stored at the
    width of its argument. *)

From stdpp Require Import base list strings pretty.
From Stdlib Require Import Ascii ZArith Lia.
From S2P Require Import Prelude CString CFloat.

(** An argument of printf, or a value scanf assigned. *)
Inductive carg :=
  | CStr (s : string)
  | CInt (z : Z)
  | CDbl (x : double).

#[global] Instance spec_float_eq_dec : EqDecision SpecFloat.spec_float.
Proof. solve_decision. Defined.

#[global] Instance carg_eq_dec : EqDecision carg.
Proof. solve_decision. Defined.

Definition is_digit (c : ascii) : bool :=
  (48 <=? Z.of_nat (nat_of_ascii c)) && (Z.of_nat (nat_of_ascii c) <=? 57).
Definition digit_val (c : ascii) : Z := Z.of_nat (nat_of_ascii c) - 48.

(** ** Printing *)

(** Pad to a width: blanks on either side, or zeros after the sign. *)
Definition pad (zero left : bool) (width : nat) (s : string) : string :=
  let n := (width - String.length s)%nat in
  if left then s +:+ str_repeat " " n
  else if zero then
    match s with
    | String "-" s' => String "-" (str_repeat "0" n +:+ s')
    | _ => str_repeat "0" n +:+ s
    end
  else str_repeat " " n +:+ s.

Definition hex_digit (d : Z) : ascii :=
  ascii_of_nat (Z.to_nat (if d <? 10 then d + 48 else d + 87)).
Fixpoint hex_go (fuel : nat) (z : Z) (acc : string) : string :=
  match fuel with
  | O => acc
  | S f => if z =? 0 then acc else hex_go f (z / 16) (String (hex_digit (z mod 16)) acc)
  end.
(** %x: at most 16 hexadecimal digits for a 64-bit argument. *)
Definition hex (z : Z) : string := if z =? 0 then "0" else hex_go 16 z "".

(** Inside a conversion: the flags [0], [-] and [+], the width and the
    precision read so far. *)
Inductive fstate :=
  | FPlain
  | FSpec (zero minus plus : bool) (width : nat) (prec : option nat).

(** The text of one converted argument. *)
Definition conv (c : ascii) (plus : bool) (prec : option nat) (a : carg) : string :=
  match a with
  | CStr s => s
  | CInt z => if Ascii.eqb c "x"%char then hex z else pretty z
  | CDbl x => fmt_f plus (default 6%nat prec) x
  end.

Fixpoint sprintf_go (f : string) (st : fstate) (args : list carg) : string :=
  match f with
  | "" => ""
  | String c f' =>
      match st with
      | FPlain =>
          if Ascii.eqb c "%"%char then sprintf_go f' (FSpec false false false 0 None) args
          else String c (sprintf_go f' FPlain args)
      | FSpec zero minus plus w prec =>
          if Ascii.eqb c "%"%char then String c (sprintf_go f' FPlain args)
          else if Ascii.eqb c "l"%char then sprintf_go f' (FSpec zero minus plus w prec) args
          else if Ascii.eqb c "-"%char then sprintf_go f' (FSpec zero true plus w prec) args
          else if Ascii.eqb c "+"%char then sprintf_go f' (FSpec zero minus true w prec) args
          else if Ascii.eqb c "."%char then sprintf_go f' (FSpec zero minus plus w (Some O)) args
          else if is_digit c then
            let d := Z.to_nat (digit_val c) in
            sprintf_go f'
              (match prec with
               | Some p => FSpec zero minus plus w (Some (p * 10 + d)%nat)
               | None => if Ascii.eqb c "0"%char && (w =? 0)%nat then FSpec true minus plus w None
                         else FSpec zero minus plus (w * 10 + d) None
               end) args
          else match args with
               | a :: args' => pad zero minus w (conv c plus prec a) +:+ sprintf_go f' FPlain args'
               | [] => sprintf_go f' FPlain []
               end
      end
  end.

Definition sprintf (f : string) (args : list carg) : string := sprintf_go f FPlain args.

(** What [snprintf(buf, size, f, ...)] leaves in [buf]. *)
Definition snprintf (size : nat) (f : string) (args : list carg) : string :=
  str_take (size - 1) (sprintf f args).

(** ** Scanning *)

Fixpoint skip_ws (s : string) : string :=
  match s with
  | String c s' => if Ascii.is_space c then skip_ws s' else s
  | "" => ""
  end.

(** The longest run of characters that are not white space, up to a width. *)
Fixpoint take_word (w : nat) (s : string) : string * string :=
  match w, s with
  | S w', String c s' =>
      if Ascii.is_space c then ("", s)
      else let '(a, r) := take_word w' s' in (String c a, r)
  | _, _ => ("", s)
  end.

Fixpoint scan_digits (acc : Z) (s : string) : Z * string :=
  match s with
  | String c s' => if is_digit c then scan_digits (acc * 10 + digit_val c) s' else (acc, s)
  | "" => (acc, "")
  end.

Definition starts_digit (s : string) : bool :=
  match s with String c _ => is_digit c | "" => false end.

(** An optional sign and at least one digit: the value before clamping. *)
Definition scan_int (s : string) : option (Z * string) :=
  match s with
  | String c s' =>
      if Ascii.eqb c "-"%char then
        if starts_digit s' then let '(v, r) := scan_digits 0 s' in Some (- v, r) else None
      else if Ascii.eqb c "+"%char then
        if starts_digit s' then Some (scan_digits 0 s') else None
      else if starts_digit s then Some (scan_digits 0 s) else None
  | "" => None
  end.

(** [strtol] saturates at the ends of [long]. *)
Definition clamp_long (z : Z) : Z := Z.max (- 2 ^ 63) (Z.min z (2 ^ 63 - 1)).
(** [strtoull] saturates at ULLONG_MAX and negates modulo 2^64. *)
Definition clamp_ull (z : Z) : Z :=
  if 2 ^ 64 <=? Z.abs z then 2 ^ 64 - 1 else u64 z.

Definition atoi (s : string) : Z :=
  match scan_int (skip_ws s) with Some (v, _) => i32 (clamp_long v) | None => 0 end.
Definition strtoull (s : string) : Z :=
  match scan_int (skip_ws s) with Some (v, _) => clamp_ull v | None => 0 end.

Inductive sstate := SPlain | SSpec (width : nat).

(** No field width: a conversion takes the whole word. *)
Definition no_width (w : nat) (inp : string) : nat :=
  if (w =? 0)%nat then String.length inp else w.

Fixpoint sscanf_go (f : string) (st : sstate) (inp : string) : list carg :=
  match f with
  | "" => []
  | String c f' =>
      match st with
      | SPlain =>
          if Ascii.is_space c then sscanf_go f' SPlain (skip_ws inp)
          else if Ascii.eqb c "%"%char then sscanf_go f' (SSpec 0) inp
          else match inp with
               | String a inp' => if Ascii.eqb a c then sscanf_go f' SPlain inp' else []
               | "" => []
               end
      | SSpec w =>
          if Ascii.eqb c "l"%char then sscanf_go f' (SSpec w) inp
          else if is_digit c
               then sscanf_go f' (SSpec (w * 10 + Z.to_nat (digit_val c))) inp
          else
            let inp := skip_ws inp in
            if Ascii.eqb c "s"%char then
              let '(a, r) := take_word (no_width w inp) inp in
              if streq a "" then [] else CStr a :: sscanf_go f' SPlain r
            else
              match scan_int inp with
              | None => []
              | Some (v, r) =>
                  CInt (if Ascii.eqb c "d"%char then i32 (clamp_long v) else clamp_ull v)
                    :: sscanf_go f' SPlain r
              end
      end
  end.

(** The values [sscanf(inp, f, ...)] assigns, in order; its result is their
    number. *)
Definition sscanf (f : string) (inp : string) : list carg := sscanf_go f SPlain inp.

(** ** Round trip of decimal numbers *)

Lemma is_digit_pretty x : (x < 10)%N -> is_digit (pretty_N_char x) = true.
Proof.
  intros H. destruct x as [|p]; [done|]. do 4 (destruct p as [p|p|]; try done; try lia).
Qed.

Lemma digit_val_pretty x : (x < 10)%N -> digit_val (pretty_N_char x) = Z.of_N x.
Proof.
  intros H. destruct x as [|p]; [done|]. do 4 (destruct p as [p|p|]; try done; try lia).
Qed.

(** Scanning the digits of [x] followed by [s] continues on [s] with [x]. *)
Lemma scan_digits_pretty_go x s :
  scan_digits 0 (pretty_N_go x s) = scan_digits (Z.of_N x) s.
Proof.
  revert s. induction (N.lt_wf_0 x) as [x _ IH]. intros s.
  destruct (decide (x = 0%N)) as [->|Hx]; [by rewrite pretty_N_go_0|].
  rewrite pretty_N_go_step by lia.
  rewrite IH by (apply N.div_lt; lia). simpl.
  assert (x `mod` 10 < 10)%N as Hm by (apply N.mod_lt; lia).
  rewrite is_digit_pretty, digit_val_pretty by done. f_equal.
  rewrite N2Z.inj_div, N2Z.inj_mod by lia.
  rewrite (Z.div_mod (Z.of_N x) 10) at 3 by lia. lia.
Qed.

Lemma pretty_N_go_app x s t : pretty_N_go x s +:+ t = pretty_N_go x (s +:+ t).
Proof.
  revert s. induction (N.lt_wf_0 x) as [x _ IH]. intros s.
  destruct (decide (x = 0%N)) as [->|Hx]; [by rewrite !pretty_N_go_0|].
  rewrite !(pretty_N_go_step x) by lia. rewrite IH by (apply N.div_lt; lia). done.
Qed.

Lemma scan_digits_stop acc s : starts_digit s = false -> scan_digits acc s = (acc, s).
Proof. destruct s as [|c s]; simpl; [done|]. by intros ->. Qed.

Lemma scan_digits_pretty (x : N) t :
  starts_digit t = false -> scan_digits 0 (pretty x +:+ t) = (Z.of_N x, t).
Proof.
  intros Ht. unfold pretty, pretty_N. case_decide as Hx.
  - subst x. simpl. by rewrite scan_digits_stop.
  - rewrite pretty_N_go_app. rewrite scan_digits_pretty_go. by rewrite scan_digits_stop.
Qed.

Lemma starts_digit_pretty (x : N) t : starts_digit (pretty x +:+ t) = true.
Proof.
  unfold pretty, pretty_N. case_decide as Hx; [done|].
  rewrite pretty_N_go_app. simpl. generalize ("" +:+ t) as s.
  assert (forall y s, (0 < y)%N -> starts_digit (pretty_N_go y s) = true) as G.
  { intros y. induction (N.lt_wf_0 y) as [y _ IH]. intros s Hy.
    rewrite pretty_N_go_step by done.
    destruct (decide (y `div` 10 = 0)%N) as [E|E].
    - rewrite E, pretty_N_go_0. simpl. apply is_digit_pretty, N.mod_lt. lia.
    - apply IH; [apply N.div_lt; lia|by apply N.neq_0_lt_0]. }
  intros s. apply G. lia.
Qed.

Lemma digit_not_sign c : is_digit c = true ->
  Ascii.eqb c "-" = false /\ Ascii.eqb c "+" = false /\ Ascii.is_space c = false.
Proof. destruct c as [[] [] [] [] [] [] [] []]; vm_compute; intuition congruence. Qed.

Lemma scan_int_N (x : N) t :
  starts_digit t = false -> scan_int (pretty x +:+ t) = Some (Z.of_N x, t).
Proof.
  intros Ht. pose proof (starts_digit_pretty x t) as Hd.
  pose proof (scan_digits_pretty x t Ht) as Hs.
  destruct (pretty x +:+ t) as [|c s] eqn:E; [done|]. unfold scan_int.
  destruct (digit_not_sign c Hd) as (-> & -> & _). rewrite Hd. by rewrite Hs.
Qed.

(** Reading back a number the program printed gives the number. *)
Lemma scan_int_pretty (z : Z) t :
  starts_digit t = false -> scan_int (pretty z +:+ t) = Some (z, t).
Proof.
  intros Ht. destruct z as [|p|p].
  - by apply (scan_int_N 0).
  - by apply (scan_int_N (N.pos p)).
  - change (pretty (Z.neg p) +:+ t) with (String "-"%char (pretty (N.pos p) +:+ t)).
    unfold scan_int. simpl.
    rewrite starts_digit_pretty. by rewrite scan_digits_pretty.
Qed.

Lemma skip_ws_pretty (z : Z) t : skip_ws (pretty z +:+ t) = pretty z +:+ t.
Proof.
  assert (forall (x : N) t, skip_ws (pretty x +:+ t) = pretty x +:+ t) as G.
  { intros x u. pose proof (starts_digit_pretty x u) as Hd.
    destruct (pretty x +:+ u) as [|c s]; [done|]. simpl.
    by destruct (digit_not_sign c Hd) as (_ & _ & ->). }
  destruct z as [|p|p]; [done|apply (G (N.pos p))|done].
Qed.

Lemma clamp_long_i32 z : in_i32 z -> i32 (clamp_long z) = z.
Proof. unfold in_i32, clamp_long. intros. rewrite i32_small; unfold in_i32; lia. Qed.

Lemma clamp_ull_small z : in_u64 z -> clamp_ull z = z.
Proof.
  intros H. unfold clamp_ull. rewrite (u64_small z) by done. unfold in_u64 in H.
  destruct (Z.leb_spec (2 ^ 64) (Z.abs z)); lia.
Qed.

Lemma sscanf_d (z : Z) t :
  in_i32 z -> starts_digit t = false -> sscanf "%d" (pretty z +:+ t) = [CInt z].
Proof.
  intros Hz Ht. unfold sscanf. simpl. rewrite skip_ws_pretty, scan_int_pretty by done.
  by rewrite clamp_long_i32.
Qed.

Lemma sscanf_llu (z : Z) t :
  in_u64 z -> starts_digit t = false -> sscanf "%llu" (pretty z +:+ t) = [CInt z].
Proof.
  intros Hz Ht. unfold sscanf. simpl. rewrite skip_ws_pretty, scan_int_pretty by done.
  by rewrite clamp_ull_small.
Qed.

Lemma atoi_pretty (z : Z) t : in_i32 z -> starts_digit t = false -> atoi (pretty z +:+ t) = z.
Proof.
  intros Hz Ht. unfold atoi. rewrite skip_ws_pretty, scan_int_pretty by done.
  by apply clamp_long_i32.
Qed.

#[global] Arguments sprintf : simpl never.
#[global] Arguments sscanf : simpl never.
#[global] Arguments snprintf : simpl never.

Lemma sprintf_d (z : Z) : sprintf "%d" [CInt z] = pretty z.
Proof. unfold sprintf. simpl. unfold pad. simpl. by rewrite str_app_nil_r. Qed.

(** ** Characters of printed numbers *)

Lemma str_mem_pretty_N c (x : N) s :
  is_digit c = false -> str_mem c s = false -> str_mem c (pretty_N_go x s) = false.
Proof.
  intros Hc. revert s. induction (N.lt_wf_0 x) as [x _ IH]. intros s Hs.
  destruct (decide (x = 0%N)) as [->|Hx]; [by rewrite pretty_N_go_0|].
  rewrite pretty_N_go_step by lia. apply IH; [apply N.div_lt; lia|]. simpl.
  rewrite Hs, orb_false_r. apply Ascii.eqb_neq. intros <-.
  rewrite is_digit_pretty in Hc; [done|]. apply N.mod_lt. lia.
Qed.

(** A printed number is made of digits and possibly a minus sign. *)
Lemma str_mem_pretty c (z : Z) :
  is_digit c = false -> c <> "-"%char -> str_mem c (pretty z) = false.
Proof.
  intros Hc Hm. assert (forall x : N, str_mem c (pretty x) = false) as G.
  { intros x. unfold pretty, pretty_N. case_decide; [|by apply str_mem_pretty_N].
    change (Ascii.eqb "0" c || false = false). rewrite orb_false_r. apply Ascii.eqb_neq.
    intros <-. done. }
  destruct z as [|p|p]; [apply (G 0%N)|apply (G (Npos p))|].
  change (Ascii.eqb "-" c || str_mem c (pretty (Npos p)) = false).
  rewrite G, orb_false_r. apply Ascii.eqb_neq. congruence.
Qed.

(** The number of digits. *)
Lemma pretty_N_go_length (d : nat) (x : N) s :
  (x < 10 ^ N.of_nat d)%N -> (String.length (pretty_N_go x s) <= d + String.length s)%nat.
Proof.
  revert x s. induction d as [|d IH]; intros x s Hx.
  - assert (x = 0)%N as -> by (simpl in Hx; lia). by rewrite pretty_N_go_0.
  - destruct (decide (x = 0%N)) as [->|Hx0]; [rewrite pretty_N_go_0; lia|].
    rewrite pretty_N_go_step by lia. etransitivity; [apply IH|simpl; lia].
    apply N.Div0.div_lt_upper_bound. rewrite Nat2N.inj_succ, N.pow_succ_r' in Hx. lia.
Qed.

Lemma pretty_length (d : nat) (z : Z) :
  (1 <= d)%nat -> 0 <= z < 10 ^ Z.of_nat d -> (String.length (pretty z) <= d)%nat.
Proof.
  intros Hd Hz. assert (String.length (pretty (Z.to_N z)) <= d)%nat as G.
  { unfold pretty, pretty_N. case_decide; [simpl; lia|].
    etransitivity; [apply (pretty_N_go_length d)|simpl; lia].
    apply N2Z.inj_lt. rewrite N2Z.inj_pow, nat_N_Z, Z2N.id by lia. lia. }
  destruct z as [|p|p]; [exact G|exact G|lia].
Qed.

(** ** Words *)

(** A text without white space. *)
Fixpoint no_space (s : string) : bool :=
  match s with "" => true | String c s' => negb (Ascii.is_space c) && no_space s' end.

Lemma no_space_app s t : no_space (s +:+ t) = no_space s && no_space t.
Proof. induction s as [|c s IH]; [done|]. rewrite str_app_cons. simpl. by rewrite IH, andb_assoc. Qed.

Lemma no_space_mem s c : no_space s = true -> Ascii.is_space c = true -> str_mem c s = false.
Proof.
  intros Hs Hc. induction s as [|a s IH]; [done|]. simpl in *.
  apply andb_true_iff in Hs as [Ha Hs]. rewrite IH by done. rewrite orb_false_r.
  apply Ascii.eqb_neq. intros ->. by rewrite Hc in Ha.
Qed.

(** [%s] takes a word up to the next white space. *)
Lemma take_word_app n s t :
  no_space s = true -> (String.length s <= n)%nat ->
  match t with String c _ => Ascii.is_space c | "" => true end = true ->
  take_word n (s +:+ t) = (s, t).
Proof.
  intros Hs. revert n. induction s as [|c s IH]; intros n Hn Ht.
  - change ("" +:+ t) with t. destruct n, t as [|c t]; try done. simpl. by rewrite Ht.
  - simpl in Hs. apply andb_true_iff in Hs as [Hc%negb_true_iff Hs].
    simpl in Hn. destruct n as [|n]; [lia|]. rewrite str_app_cons. simpl.
    rewrite Hc. rewrite IH by (done || lia). done.
Qed.

Lemma take_word_all n s :
  no_space s = true -> (String.length s <= n)%nat -> take_word n s = (s, "").
Proof. intros Hs Hn. rewrite <- (str_app_nil_r s) at 1. by apply take_word_app. Qed.

Lemma skip_ws_blanks k s : skip_ws (str_repeat " " k +:+ s) = skip_ws s.
Proof. by induction k as [|k IH]. Qed.

(** ** Lines "name: number" *)

(** Ordinary characters of a format, and the characters a name may have. *)
Definition plain_label (s : string) : bool :=
  negb (str_mem "%" s) && negb (str_mem ":" s) && no_space s.

(** A format "label: %llu" matches the line of its own label only. *)
Lemma sscanf_label label name k (z : Z) t :
  plain_label label = true -> str_mem ":" name = false -> in_u64 z -> starts_digit t = false ->
  sscanf (label +:+ ": %llu") (name +:+ ":" +:+ str_repeat " " k +:+ pretty z +:+ t) =
  if streq name label then [CInt z] else [].
Proof.
  unfold sscanf, plain_label. intros Hl Hn Hz Ht. revert name Hn.
  induction label as [|c label IH]; intros name Hn.
  - destruct name as [|a name].
    + change ("" +:+ ": %llu") with ": %llu". change ("" +:+ ?u) with u.
      change (sscanf_go ": %llu" SPlain (":" +:+ ?u)) with
        (match scan_int (skip_ws (skip_ws u)) with
         | None => [] | Some (v, r) => CInt (clamp_ull v) :: sscanf_go "" SPlain r end).
      rewrite skip_ws_blanks, !skip_ws_pretty, scan_int_pretty by done. by rewrite clamp_ull_small.
    + rewrite !str_app_cons. simpl in Hn. apply orb_false_iff in Hn as [Ha _].
      change (sscanf_go ("" +:+ ": %llu") SPlain (String a ?u)) with
        (if Ascii.eqb a ":" then sscanf_go " %llu" SPlain u else []).
      by rewrite Ha.
  - apply andb_true_iff in Hl as [[Hp Hc]%andb_true_iff Hs]. simpl in Hp, Hc, Hs.
    apply negb_true_iff, orb_false_iff in Hp as [Hp Hp'].
    apply negb_true_iff, orb_false_iff in Hc as [Hc Hc'].
    apply andb_true_iff in Hs as [Hs%negb_true_iff Hs'].
    rewrite str_app_cons. cbn [sscanf_go]. rewrite Hs, Hp.
    destruct name as [|a name].
    + change ("" +:+ ?u) with u. rewrite str_app_cons. cbn [sscanf_go].
      rewrite Ascii.eqb_sym, Hc. done.
    + rewrite str_app_cons. simpl in Hn. apply orb_false_iff in Hn as [Ha Hn].
      rewrite IH; [|by rewrite Hp', Hc', Hs'|done].
      destruct (Ascii.eqb_spec a c) as [->|Hne].
      * unfold streq. simpl. by rewrite Ascii.eqb_refl.
      * rewrite streq_ne by congruence. done.
Qed.

(** What such a format reads is a 64-bit number. *)
Lemma clamp_ull_range z : in_u64 (clamp_ull z).
Proof. unfold clamp_ull. case_match; [unfold in_u64; lia|apply u64_range]. Qed.

Lemma sscanf_label_range label line z :
  plain_label label = true -> sscanf (label +:+ ": %llu") line = [CInt z] -> in_u64 z.
Proof.
  unfold sscanf, plain_label. intros Hl. revert line.
  induction label as [|c label IH]; intros line.
  - change ("" +:+ ": %llu") with ": %llu". destruct line as [|a line]; [done|].
    change (sscanf_go ": %llu" SPlain (String a line)) with
      (if Ascii.eqb a ":" then match scan_int (skip_ws (skip_ws line)) with
         | None => [] | Some (v, r) => CInt (clamp_ull v) :: sscanf_go "" SPlain r end else []).
    destruct (Ascii.eqb a ":"); [|done]. destruct (scan_int _) as [[v r]|]; [|done].
    intros [= <-]. apply clamp_ull_range.
  - apply andb_true_iff in Hl as [[Hp Hc]%andb_true_iff Hs]. simpl in Hp, Hc, Hs.
    apply negb_true_iff, orb_false_iff in Hp as [Hp Hp'].
    apply negb_true_iff, orb_false_iff in Hc as [Hc Hc'].
    apply andb_true_iff in Hs as [Hs%negb_true_iff Hs'].
    rewrite str_app_cons. cbn [sscanf_go]. rewrite Hs, Hp.
    destruct line as [|a line]; [done|]. destruct (Ascii.eqb a c); [|done].
    apply IH. by rewrite Hp', Hc', Hs'.
Qed.

(** ** Words separated by white space *)

(** What follows a word: nothing, or white space. *)
Definition word_end (t : string) : bool :=
  match t with String c _ => Ascii.is_space c | "" => true end.

Lemma skip_ws_word x t : no_space x = true -> x <> "" -> skip_ws (x +:+ t) = x +:+ t.
Proof.
  destruct x as [|c x]; [done|]. simpl. intros [Hc%negb_true_iff _]%andb_true_iff _.
  rewrite str_app_cons. simpl. by rewrite Hc.
Qed.

(** White space between two words of a line. *)
Fixpoint all_space (s : string) : bool :=
  match s with "" => true | String c s' => Ascii.is_space c && all_space s' end.
Definition gap (s : string) : Prop := s <> "" /\ all_space s = true /\ str_mem nl s = false.

Lemma skip_gap g s : all_space g = true -> skip_ws (g +:+ s) = skip_ws s.
Proof.
  induction g as [|c g IH]; [done|]. cbn [all_space]. intros [Hc Hg]%andb_true_iff.
  rewrite str_app_cons. cbn [skip_ws]. rewrite Hc. by apply IH.
Qed.
Lemma gap_ends g t : gap g -> word_end (g +:+ t) = true /\ starts_digit (g +:+ t) = false.
Proof.
  intros (Hne & Hs & _). destruct g as [|c g]; [done|]. apply andb_true_iff in Hs as [Hc _].
  rewrite str_app_cons. cbn [word_end starts_digit]. split; [done|].
  destruct c as [[] [] [] [] [] [] [] []]; done.
Qed.

(** A conversion of the format at its letter, with the white space before. *)
Lemma scan_s_gap f w g x t : all_space g = true -> no_space x = true -> x <> "" ->
  (w = 0 \/ String.length x <= w)%nat -> word_end t = true ->
  sscanf_go (String "s" f) (SSpec w) (g +:+ (x +:+ t)) = CStr x :: sscanf_go f SPlain t.
Proof.
  intros Hg Hx Hne Hw Ht. cbn [sscanf_go]. rewrite (skip_gap g) by done. rewrite skip_ws_word by done.
  change (Ascii.eqb "s" "l") with false. change (is_digit "s") with false. change (Ascii.eqb "s" "s") with true.
  cbv iota. rewrite take_word_app; [by rewrite streq_ne|done| |done].
  unfold no_width. destruct (Nat.eqb_spec w 0) as [|Hw0]; [rewrite str_length_app; lia|]. destruct Hw; lia.
Qed.

Lemma scan_u_gap f w g (z : Z) t : all_space g = true -> in_u64 z -> starts_digit t = false ->
  sscanf_go (String "u" f) (SSpec w) (g +:+ (pretty z +:+ t)) = CInt z :: sscanf_go f SPlain t.
Proof.
  intros Hg Hz Ht. cbn [sscanf_go]. rewrite (skip_gap g), skip_ws_pretty by done.
  change (Ascii.eqb "u" "l") with false. change (is_digit "u") with false. change (Ascii.eqb "u" "s") with false.
  change (Ascii.eqb "u" "d") with false. cbv iota. rewrite scan_int_pretty by done. by rewrite clamp_ull_small.
Qed.

Lemma scan_d_gap f w g (z : Z) t : all_space g = true -> in_i32 z -> starts_digit t = false ->
  sscanf_go (String "d" f) (SSpec w) (g +:+ (pretty z +:+ t)) = CInt z :: sscanf_go f SPlain t.
Proof.
  intros Hg Hz Ht. cbn [sscanf_go]. rewrite (skip_gap g), skip_ws_pretty by done.
  change (Ascii.eqb "d" "l") with false. change (is_digit "d") with false. change (Ascii.eqb "d" "s") with false.
  change (Ascii.eqb "d" "d") with true. cbv iota. rewrite scan_int_pretty by done. by rewrite clamp_long_i32.
Qed.

(** A blank of the format before a conversion. *)
Lemma scan_blank_gap f g s : all_space g = true ->
  sscanf_go (String " " f) SPlain (g +:+ s) = sscanf_go f SPlain (skip_ws s).
Proof. intros Hg. cbn [sscanf_go]. change (Ascii.is_space " ") with true. cbv iota. by rewrite skip_gap. Qed.

Lemma blank_conversion f g s : all_space g = true -> skip_ws s = s ->
  sscanf_go (String " " (String "%" f)) SPlain (g +:+ s) = sscanf_go f (SSpec 0) ("" +:+ s).
Proof. intros Hg Hs. rewrite scan_blank_gap by done. by rewrite Hs. Qed.

(** The widths and the length modifier of the formats. *)
Lemma at_percent f s : sscanf_go (String "%" f) SPlain s = sscanf_go f (SSpec 0) ("" +:+ s).
Proof. reflexivity. Qed.
Lemma width_255 f s : sscanf_go (String "2" (String "5" (String "5" f))) (SSpec 0) s = sscanf_go f (SSpec 255) s.
Proof. reflexivity. Qed.
Lemma width_15 f s : sscanf_go (String "1" (String "5" f)) (SSpec 0) s = sscanf_go f (SSpec 15) s.
Proof. reflexivity. Qed.
Lemma width_63 f s : sscanf_go (String "6" (String "3" f)) (SSpec 0) s = sscanf_go f (SSpec 63) s.
Proof. reflexivity. Qed.
Lemma at_long f w s : sscanf_go (String "l" f) (SSpec w) s = sscanf_go f (SSpec w) s.
Proof. reflexivity. Qed.

(** The last word of a line, possibly missing, and the white space after it. *)
Lemma scan_last w g x t : all_space g = true -> no_space x = true -> (String.length x <= w)%nat -> all_space t = true ->
  sscanf_go "s" (SSpec w) (g +:+ (x +:+ t)) = if streq x "" then [] else [CStr x].
Proof.
  intros Hg Hx Hw Ht. destruct (streq x "") eqn:E.
  - apply streq_spec in E as ->. change ("" +:+ t) with t. cbn [sscanf_go]. rewrite (skip_gap g) by done.
    assert (skip_ws t = "") as -> by (rewrite <- (str_app_nil_r t); by rewrite skip_gap).
    change (Ascii.eqb "s" "l") with false. change (is_digit "s") with false. change (Ascii.eqb "s" "s") with true.
    by destruct (no_width w "").
  - assert (x <> "") by (intros ->; by rewrite streq_refl in E).
    rewrite scan_s_gap; [done..|by right|]. destruct t as [|c t]; [done|]. by apply andb_true_iff in Ht as [Hc _].
Qed.
