(* ===== verification/Sys.v ===== *)
(** * The operating system as the sources call it, and src/utils.c

    The kernel, the shell and the programs it runs are not part of the
    repository: they are parameters, one class per family of system calls,
    over an abstract state [W].  Operations that only observe the system are
    functions of the state; the others also return the next state.  The
    utilities of utils.c that every manager calls are defined on top. *)

From stdpp Require Import base list strings pretty.
From Stdlib Require Import Ascii ZArith Lia.
From S2P Require Import Prelude CString CFormat.

(** ** Return codes and buffer sizes (include/common.h) *)

Definition SUCCESS : Z := 0.
Definition ERROR_GENERIC : Z := -1.
Definition ERROR_NOT_FOUND : Z := -2.
Definition ERROR_PERMISSION : Z := -3.
Definition ERROR_INVALID_PARAM : Z := -4.
Definition ERROR_SYSTEM_CALL : Z := -5.

Definition MAX_PATH : nat := 256.
Definition MAX_COMMAND : nat := 1024.
Definition MAX_OUTPUT : nat := 4096.
Definition MAX_NAME : nat := 64.

Definition EINVAL : Z := 22.
Definition ENOMEM : Z := 12.
Definition ENOENT : Z := 2.
Definition ESRCH : Z := 3.
Definition EFAULT : Z := 14.

(** ** Wait statuses: the macros of <sys/wait.h> *)

Definition WIFEXITED (st : Z) : bool := Z.land st 127 =? 0.
Definition WEXITSTATUS (st : Z) : Z := Z.shiftr (Z.land st 65280) 8.
Definition WTERMSIG (st : Z) : Z := Z.land st 127.
(** [((signed char) ((st & 0x7f) + 1) >> 1) > 0] *)
Definition WIFSIGNALED (st : Z) : bool :=
  let x := Z.land st 127 + 1 in
  0 <? Z.shiftr (if x <? 128 then x else x - 256) 1.

(** The status of a process that called [exit(code)], and of one a signal
    killed. *)
Definition exited (code : Z) : Z := Z.shiftl (Z.land code 255) 8.
Definition killed (sig : Z) : Z := Z.land sig 127.

(** ** System calls *)

Inductive fkind := KDir | KOther.

#[global] Instance fkind_eq_dec : EqDecision fkind.
Proof. solve_decision. Defined.

(** Credentials, [stat] and the shell.  [popen] returns NULL or everything the
    command writes to its standard output; [pclose] waits for it, and is told
    whether the caller read the pipe to its end, because a command that keeps
    writing to a closed pipe is killed. *)
Class Shell (W : Type) := {
  geteuid : W -> Z;
  stat : string -> W -> option fkind;
  popen : string -> W -> option string * W;
  pclose : string -> bool -> W -> Z * W;
  system : string -> W -> Z * W;
  mkdir : string -> W -> Z * W;
}.

(** Files the program itself opens. [fopen_r] gives the content of a file
    that can be opened for reading; [fopen_w] and [fopen_a] write a text to a
    file opened with "w" or "a" and say whether the open succeeded; [unlink]
    gives 0 or the error number. *)
Class Files (W : Type) := {
  fopen_r : string -> W -> option string;
  fopen_w : string -> string -> W -> bool * W;
  fopen_a : string -> string -> W -> bool * W;
  unlink : string -> W -> Z * W;
  chmod : string -> Z -> W -> Z * W;
}.

(** Files behave as documented: a file just written reads back as what was
    written, an [unlink] that succeeds removes its file and only that one. *)
Class FilesLaws (W : Type) `{Files W} := {
  fopen_w_read : forall p t w w',
    fopen_w p t w = (true, w') ->
    fopen_r p w' = Some t /\ forall q, q <> p -> fopen_r q w' = fopen_r q w;
  fopen_w_fail : forall p t w w', fopen_w p t w = (false, w') -> w' = w;
  unlink_ok : forall p w w',
    unlink p w = (0, w') ->
    fopen_r p w' = None /\ forall q, q <> p -> fopen_r q w' = fopen_r q w;
  unlink_fail : forall p w e w', unlink p w = (e, w') -> e <> 0 -> w' = w;
  unlink_enoent : forall p w w', unlink p w = (ENOENT, w') -> fopen_r p w = None;
  chmod_read : forall p m q w, fopen_r q (chmod p m w).2 = fopen_r q w;
}.

(** The calendar date and time of day of a [time_t], in local time. *)
Record tm := mk_tm {
  tm_year : Z; tm_mon : Z; tm_mday : Z; tm_hour : Z; tm_min : Z; tm_sec : Z; tm_wday : Z;
}.

Class Clock (W : Type) := {
  time : W -> Z * W;
  localtime : Z -> W -> tm;
}.

(** Processes. [fork] returns what it returns in the caller that goes on;
    [waitpid] is [waitpid(-1, &status, WNOHANG)], [None] when it finds no
    terminated child; [kill] gives 0 or the error number.  [zombies] bounds
    how many terminated children are waiting, [running] says whether a process
    exists that has neither ended nor been sent SIGKILL. *)
Class Procs (W : Type) := {
  getpid : W -> Z;
  fork : W -> Z * W;
  waitpid : W -> option (Z * Z) * W;
  kill : Z -> Z -> W -> Z * W;
  sleep : Z -> W -> W;
  zombies : W -> nat;
  running : Z -> W -> bool;
}.

Definition SIGHUP : Z := 1.
Definition SIGINT : Z := 2.
Definition SIGKILL : Z := 9.
Definition SIGUSR1 : Z := 10.
Definition SIGTERM : Z := 15.
Definition SIGCHLD : Z := 17.

(** Documented behaviour of these calls: each successful [waitpid] takes one
    terminated child away and reports a positive pid; signal 0 only probes;
    SIGKILL, which no process can block, dooms its target; neither waiting nor
    signalling nor removing a file starts a process. *)
Class ProcsLaws (W : Type) `{Procs W} `{Files W} := {
  waitpid_zombies : forall w p st w', waitpid w = (Some (p, st), w') ->
    0 < p /\ (zombies w' < zombies w)%nat;
  kill_probe : forall p w, (kill p 0 w).2 = w;
  kill_probe_running : forall p w, running p w = true -> (kill p 0 w).1 = 0;
  kill_sigkill : forall p w, running p (kill p SIGKILL w).2 = false;
  kill_mono : forall p s q w, running q (kill p s w).2 = true -> running q w = true;
  sleep_mono : forall n q w, running q (sleep n w) = true -> running q w = true;
  waitpid_mono : forall q w, running q (waitpid w).2 = true -> running q w = true;
  unlink_mono : forall f q w, running q (unlink f w).2 = true -> running q w = true;
}.

(** The commands given to the shell so far, in order: a log no call of the
    program can read, to state which commands an operation runs. *)
Class ShellTrace (W : Type) `{Shell W} := {
  trace : W -> list string;
  system_trace : forall c w, trace (system c w).2 = trace w ++ [c];
  popen_trace : forall c w, trace (popen c w).2 = trace w ++ [c];
  pclose_trace : forall c b w, trace (pclose c b w).2 = trace w;
  mkdir_trace : forall p w, trace (mkdir p w).2 = trace w;
}.

(** The system has the pipes and processes to start a command. *)
Class ShellStarts (W : Type) `{Shell W} := {
  popen_starts : forall c w, (popen c w).1 <> None;
}.

(** ** src/utils.c *)

Section Utils.
Context {W : Type} `{Shell W}.

Definition file_exists (path : string) : W -> bool :=
  fun w => match stat path w with Some _ => true | None => false end.

Definition is_root : W -> bool := fun w => geteuid w =? 0.

Definition check_root : M W Z :=
  let! r := reads is_root in
  if negb r then ret (-1) else ret 0.

Definition ensure_directory (path : string) : M W Z :=
  let! st := reads (stat path) in
  match st with
  | Some KDir => ret 0
  | Some KOther => ret (-1)
  | None =>
      let! r := call (mkdir path) in
      if negb (r =? 0) then ret (-1) else ret 0
  end.

Definition device_exists (device : string) : W -> bool :=
  fun w => match stat device w with Some _ => true | None => false end.

(** The loop that copies the lines of the command into [output]: the text
    collected, and whether the stream was read to its end. *)
Fixpoint collect (chunks : list string) (total output_size : Z) : string * bool :=
  match chunks with
  | [] => ("", true)
  | buffer :: rest =>
      let len := strlen buffer in
      if total + len <? output_size - 1 then
        let '(out, eof) := collect rest (total + len) output_size in
        (buffer +:+ out, eof)
      else ("", false)
  end.

(** [execute_command cmd output output_size]: the code and what was put in
    [output].  Nothing was ([None]) when there is no buffer, or when the
    command could not be started. *)
Definition execute_command (cmd : string) (output_size : option Z) : M W (Z * option string) :=
  let! fp := call (popen cmd) in
  match fp with
  | None => ret (ERROR_SYSTEM_CALL, None)
  | Some text =>
      let '(output, eof) :=
        match output_size with
        | Some n => if 0 <? n then let '(out, e) := collect (fgets_chunks 256 text) 0 n in (Some out, e)
                    else (None, false)
        | None => (None, false)
        end in
      let! status := call (pclose cmd eof) in
      if WIFEXITED status then
        if negb (WEXITSTATUS status =? 0) then ret (ERROR_SYSTEM_CALL, output)
        else ret (SUCCESS, output)
      else ret (ERROR_SYSTEM_CALL, output)
  end.

(** [execute_command(cmd, output, sizeof(output))] with the buffer every
    manager declares. *)
Definition exec_raw (cmd : string) : M W (Z * option string) :=
  execute_command cmd (Some (Z.of_nat MAX_OUTPUT)).
(** The same for a caller that looks at the output after SUCCESS only. *)
Definition exec (cmd : string) : M W (Z * string) :=
  let! ro := exec_raw cmd in ret (ro.1, default "" ro.2).
(** The same for a caller that prints the output after a failure: a command
    that could not be started left the buffer unset. *)
Definition exec_logged (cmd : string) : M W (Z * string) :=
  let! ro := exec_raw cmd in
  match ro.2 with Some output => ret (ro.1, output) | None => ub end.
(** [execute_command(cmd, NULL, 0)]. *)
Definition exec_quiet (cmd : string) : M W (Z * option string) := execute_command cmd None.

(** [result = execute_command(cmd, output, sizeof(output))], its error
    returned after the output was logged, SUCCESS otherwise. *)
Definition checked (cmd : string) : M W Z :=
  let! ro := exec_logged cmd in
  if negb (ro.1 =? SUCCESS) then ret ro.1 else ret SUCCESS.

(** [strcat(buf, s)] into a buffer of MAX_COMMAND bytes. *)
Definition strcat (buf s : string) : M W string :=
  guard_ub (String.length buf + String.length s <? MAX_COMMAND)%nat ;;! ret (buf +:+ s).

Lemma execute_command_safe cmd n : safe (execute_command cmd n).
Proof. unfold execute_command. safety. Qed.
Lemma exec_raw_safe cmd : safe (exec_raw cmd).
Proof. apply execute_command_safe. Qed.
Lemma exec_safe cmd : safe (exec cmd).
Proof. apply safe_bind; [apply exec_raw_safe|intros; apply safe_ret]. Qed.
Lemma exec_quiet_safe cmd : safe (exec_quiet cmd).
Proof. apply execute_command_safe. Qed.

(** The specification of a command run with the managers' buffer: whether it
    succeeded, which means that it was started and exited by itself with the
    status 0, and the state it left. *)
Definition ran (cmd : string) (w : W) : bool * W :=
  match popen cmd w with
  | (None, w1) => (false, w1)
  | (Some text, w1) =>
      let '(st, w2) := pclose cmd (collect (fgets_chunks 256 text) 0 (Z.of_nat MAX_OUTPUT)).2 w1 in
      (WIFEXITED st && (WEXITSTATUS st =? 0), w2)
  end.
Definition code_of (ok : bool) : Z := if ok then SUCCESS else ERROR_SYSTEM_CALL.

Lemma exec_raw_ran cmd w :
  exists out, exec_raw cmd w = Some ((code_of (ran cmd w).1, out), (ran cmd w).2) /\
    (out = None <-> (popen cmd w).1 = None).
Proof.
  unfold exec_raw, execute_command, ran. unfold bind at 1, call at 1.
  destruct (popen cmd w) as [[text|] w1]; [|by exists None].
  change (0 <? Z.of_nat MAX_OUTPUT) with true. cbv iota. destruct (collect _ _ _) as [out eof].
  exists (Some out). split; [|done]. unfold bind, call. cbn [snd].
  destruct (pclose cmd eof w1) as [st w2]. unfold ret.
  destruct (WIFEXITED st); [|done]. by destruct (WEXITSTATUS st =? 0).
Qed.

Lemma exec_ran cmd w : exists out, exec cmd w = Some ((code_of (ran cmd w).1, out), (ran cmd w).2).
Proof.
  destruct (exec_raw_ran cmd w) as (out & E & _). exists (default "" out). unfold exec, bind. by rewrite E.
Qed.

Lemma exec_logged_ran cmd w : (popen cmd w).1 <> None ->
  exists out, exec_logged cmd w = Some ((code_of (ran cmd w).1, out), (ran cmd w).2).
Proof.
  intros Hp. destruct (exec_raw_ran cmd w) as ([out|] & E & Ho); [|by apply proj1 in Ho; destruct Hp; apply Ho].
  exists out. unfold exec_logged, bind. by rewrite E.
Qed.

Lemma checked_ran cmd w : (popen cmd w).1 <> None ->
  checked cmd w = Some (code_of (ran cmd w).1, (ran cmd w).2).
Proof.
  intros Hp. destruct (exec_logged_ran cmd w Hp) as (out & E). unfold checked, bind. rewrite E.
  by destruct (ran cmd w).1.
Qed.

(** The only codes are SUCCESS and ERROR_SYSTEM_CALL. *)
Lemma execute_command_code cmd n w r out w' :
  execute_command cmd n w = Some ((r, out), w') -> r = SUCCESS \/ r = ERROR_SYSTEM_CALL.
Proof.
  unfold execute_command. run. destruct (popen cmd w) as [[text|] w1]; [|naive_solver].
  repeat case_match; naive_solver.
Qed.

(** A command that was started leaves a text in the buffer; one that was not
    leaves nothing, and printing it is undefined. *)
Lemma exec_raw_started cmd w : (popen cmd w).1 <> None ->
  exists r out w', exec_raw cmd w = Some ((r, Some out), w').
Proof.
  unfold exec_raw, execute_command. unfold bind at 1, call at 1.
  destruct (popen cmd w) as [[text|] w1]; [|done]. intros _.
  change (0 <? Z.of_nat MAX_OUTPUT) with true. cbv iota. destruct (collect _ _ _) as [out eof].
  unfold bind, call. destruct (pclose cmd eof w1) as [st w2]. repeat case_match; unfold ret; eauto.
Qed.
Lemma checked_undefined cmd w : checked cmd w = None <-> (popen cmd w).1 = None.
Proof.
  split.
  - intros E. destruct (popen cmd w).1 as [text|] eqn:Hp; [|done].
    destruct (exec_raw_started cmd w) as (r & out & w' & Er); [by rewrite Hp|].
    revert E. unfold checked, exec_logged, bind. rewrite Er. simpl. by case_match.
  - unfold checked, exec_logged, exec_raw, execute_command, bind, call.
    destruct (popen cmd w) as [[text|] w1]; [done|]. done.
Qed.

Lemma collect_prefix chunks total n :
  let '(out, eof) := collect chunks total n in
  (exists rest, str_concat chunks = out +:+ rest) /\
  (eof = true -> out = str_concat chunks) /\
  (0 <= total -> out = "" \/ total + strlen out < n - 1).
Proof.
  revert total. induction chunks as [|b bs IH]; intros total; simpl.
  { split; [by exists ""|]. split; [done|]. by left. }
  destruct (Z.ltb_spec (total + strlen b) (n - 1)) as [Hlt|Hge].
  - specialize (IH (total + strlen b)). destruct (collect bs _ n) as [out eof].
    destruct IH as ([rest E] & Heof & Hlen). split; [|split].
    + exists rest. by rewrite E, str_app_assoc.
    + intros He. by rewrite Heof.
    + intros Ht. right. pose proof (strlen_nonneg b). rewrite strlen_app.
      destruct Hlen as [->|Hlen]; [lia| |lia]. change (strlen "") with 0. lia.
  - split; [by exists (b +:+ str_concat bs)|]. split; [done|]. by left.
Qed.

(** The output buffer is left with a prefix of what the command printed that
    fits strictly below [size - 1], and with all of it when the stream was
    read to its end. *)
Lemma collect_output text n :
  1 < n ->
  let '(out, eof) := collect (fgets_chunks 256 text) 0 n in
  (exists rest, text = out +:+ rest) /\ (eof = true -> out = text) /\ strlen out < n - 1.
Proof.
  intros Hn. pose proof (collect_prefix (fgets_chunks 256 text) 0 n) as G.
  destruct (collect _ 0 n) as [out eof]. rewrite fgets_chunks_concat in G.
  destruct G as (? & ? & Hl). do 2 (split; [done|]).
  destruct Hl as [->|Hl]; [lia| |lia]. change (strlen "") with 0. lia.
Qed.
End Utils.

(** A command given to [execute_command] is run once, whatever its outcome. *)
Section ExecTrace.
Context {W : Type} `{Shell W} `{!ShellTrace W}.

Lemma execute_command_runs cmd n (w : W) :
  exists r o w', execute_command cmd n w = Some ((r, o), w') /\ trace w' = trace w ++ [cmd] /\
    (r = SUCCESS \/ r = ERROR_SYSTEM_CALL).
Proof.
  destruct (execute_command_safe cmd n w) as ([r o] & w' & E). exists r, o, w'.
  split; [done|]. split; [|by eapply execute_command_code].
  revert E. unfold execute_command. run. pose proof (popen_trace cmd w) as Ht.
  destruct (popen cmd w) as [[text|] w1]; simpl in Ht; [|by intros [= <- <- <-]].
  case_match. pose proof (pclose_trace cmd b w1) as Hp.
  destruct (pclose cmd b w1) as [st w2]. simpl in Hp.
  repeat case_match; intros [= <- <- <-]; congruence.
Qed.

Lemma exec_runs cmd (w : W) :
  exists r o w', exec cmd w = Some ((r, o), w') /\ trace w' = trace w ++ [cmd] /\
    (r = SUCCESS \/ r = ERROR_SYSTEM_CALL).
Proof.
  destruct (execute_command_runs cmd (Some (Z.of_nat MAX_OUTPUT)) w) as (r & o & w' & E & ? & ?).
  exists r, (default "" o), w'. split; [|done]. unfold exec, exec_raw, bind. by rewrite E.
Qed.

Lemma ran_trace cmd (w : W) : trace (ran cmd w).2 = trace w ++ [cmd].
Proof.
  destruct (exec_runs cmd w) as (r & o & w' & E & Ht & _). destruct (exec_ran cmd w) as (out & E'). congruence.
Qed.

Lemma exec_raw_runs `{!ShellStarts W} cmd (w : W) :
  exists r o w', exec_raw cmd w = Some ((r, Some o), w') /\ trace w' = trace w ++ [cmd] /\
    (r = SUCCESS \/ r = ERROR_SYSTEM_CALL).
Proof.
  destruct (exec_raw_started cmd w (popen_starts cmd w)) as (r & o & w' & E).
  destruct (execute_command_runs cmd (Some (Z.of_nat MAX_OUTPUT)) w) as (r' & o' & w'' & E' & Ht & Hr).
  unfold exec_raw in *. rewrite E in E'. injection E' as <- <- <-. by exists r, o, w'.
Qed.

Lemma exec_logged_runs `{!ShellStarts W} cmd (w : W) :
  exists r o w', exec_logged cmd w = Some ((r, o), w') /\ trace w' = trace w ++ [cmd] /\
    (r = SUCCESS \/ r = ERROR_SYSTEM_CALL).
Proof.
  destruct (exec_raw_runs cmd w) as (r & o & w' & E & ?). exists r, o, w'. split; [|done].
  unfold exec_logged, bind. by rewrite E.
Qed.

Lemma checked_runs `{!ShellStarts W} cmd (w : W) :
  exists r w', checked cmd w = Some (r, w') /\ trace w' = trace w ++ [cmd] /\
    (r = SUCCESS \/ r = ERROR_SYSTEM_CALL).
Proof.
  destruct (exec_logged_runs cmd w) as (r & o & w' & E & Ht & Hr).
  exists r, w'. split; [|done]. unfold checked, bind. rewrite E. by destruct Hr as [-> | ->].
Qed.
End ExecTrace.

#[export] Hint Resolve exec_safe exec_raw_safe exec_quiet_safe execute_command_safe : sys.
#[global] Arguments exec {W _} cmd : simpl never.
#[global] Arguments exec_raw {W _} cmd : simpl never.
#[global] Arguments exec_quiet {W _} cmd : simpl never.
#[global] Arguments exec_logged {W _} cmd : simpl never.

Section PidFiles.
Context {W : Type} `{Files W} `{Procs W}.

Definition is_process_running (pid : Z) : M W Z :=
  let! r := call (kill pid 0) in ret (if r =? 0 then 1 else 0).

Definition read_pid_file (path : string) : M W Z :=
  let! fp := reads (fopen_r path) in
  match fp with
  | None => ret (-1)
  | Some text => match sscanf "%d" text with CInt p :: _ => ret p | _ => ret (-1) end
  end.

Definition write_pid_file (path : string) (pid : Z) : M W Z :=
  let! ok := call (fopen_w path (sprintf "%d" [CInt pid] +:+ NL)) in
  ret (if ok then 0 else -1).

Lemma pid_file_roundtrip `{!FilesLaws W} path pid w w' :
  in_i32 pid -> write_pid_file path pid w = Some (0, w') ->
  read_pid_file path w' = Some (pid, w').
Proof.
  intros Hp. unfold write_pid_file, read_pid_file, bind, call, reads, ret.
  destruct (fopen_w _ _ w) as [[] w1] eqn:E; [|done]. intros [= <-].
  apply fopen_w_read in E as [-> _]. by rewrite sprintf_d, (sscanf_d pid NL).
Qed.
End PidFiles.
