(* ===== verification/SimOS.v ===== *)
(** * A concrete operating system

    An executable instance of the interfaces of [Sys]: a table of files,
    canned answers for shell commands and a log of the commands that were
    run, a process table and a clock.  It satisfies the documented laws, so
    every theorem stated against the interfaces has a system it applies to. *)

From stdpp Require Import base list gmap strings pretty.
From Stdlib Require Import Ascii ZArith Lia.
From S2P Require Import Prelude CString CFormat Sys.

Record sim := mk_sim {
  sim_euid : Z;
  sim_pid : Z;
  sim_clock : Z;
  sim_nodes : gmap string fkind;
  sim_files : gmap string string;
  sim_nodir : list string;
  sim_answers : gmap string (string * Z);
  sim_log : list string;
  sim_procs : list Z;
  sim_ended : list (Z * Z);
  sim_next : Z;
}.

(** A machine run by root, with nothing on it. *)
Definition blank : sim := mk_sim 0 100 1000 ∅ ∅ [] ∅ [] [] [] 200.

Definition sim_put_files (w : sim) (f : gmap string string) : sim :=
  mk_sim (sim_euid w) (sim_pid w) (sim_clock w) (sim_nodes w) f (sim_nodir w)
    (sim_answers w) (sim_log w) (sim_procs w) (sim_ended w) (sim_next w).
Definition sim_put_log (w : sim) (l : list string) : sim :=
  mk_sim (sim_euid w) (sim_pid w) (sim_clock w) (sim_nodes w) (sim_files w) (sim_nodir w)
    (sim_answers w) l (sim_procs w) (sim_ended w) (sim_next w).
Definition sim_put_nodes (w : sim) (n : gmap string fkind) : sim :=
  mk_sim (sim_euid w) (sim_pid w) (sim_clock w) n (sim_files w) (sim_nodir w)
    (sim_answers w) (sim_log w) (sim_procs w) (sim_ended w) (sim_next w).
Definition sim_put_answers (w : sim) (a : gmap string (string * Z)) : sim :=
  mk_sim (sim_euid w) (sim_pid w) (sim_clock w) (sim_nodes w) (sim_files w) (sim_nodir w)
    a (sim_log w) (sim_procs w) (sim_ended w) (sim_next w).
Definition sim_put_clock (w : sim) (t : Z) : sim :=
  mk_sim (sim_euid w) (sim_pid w) t (sim_nodes w) (sim_files w) (sim_nodir w)
    (sim_answers w) (sim_log w) (sim_procs w) (sim_ended w) (sim_next w).
Definition sim_put_procs (w : sim) (ps : list Z) (es : list (Z * Z)) (n : Z) : sim :=
  mk_sim (sim_euid w) (sim_pid w) (sim_clock w) (sim_nodes w) (sim_files w) (sim_nodir w)
    (sim_answers w) (sim_log w) ps es n.
Definition sim_as_user (w : sim) (euid : Z) : sim :=
  mk_sim euid (sim_pid w) (sim_clock w) (sim_nodes w) (sim_files w) (sim_nodir w)
    (sim_answers w) (sim_log w) (sim_procs w) (sim_ended w) (sim_next w).
(** Paths whose directory does not exist. *)
Definition sim_without_dir (w : sim) (ps : list string) : sim :=
  mk_sim (sim_euid w) (sim_pid w) (sim_clock w) (sim_nodes w) (sim_files w) ps
    (sim_answers w) (sim_log w) (sim_procs w) (sim_ended w) (sim_next w).

Definition answer (cmd : string) (w : sim) : string * Z := default ("", 0) (sim_answers w !! cmd).
Definition logged (cmd : string) (w : sim) : sim := sim_put_log w (sim_log w ++ [cmd]).

#[global] Instance sim_shell : Shell sim := {
  geteuid := sim_euid;
  stat p w := sim_nodes w !! p;
  popen cmd w := (Some (answer cmd w).1, logged cmd w);
  pclose cmd _ w := ((answer cmd w).2, w);
  system cmd w := ((answer cmd w).2, logged cmd w);
  mkdir p w := match sim_nodes w !! p with
               | Some _ => (-1, w)
               | None => (0, sim_put_nodes w (<[p := KDir]> (sim_nodes w)))
               end;
}.

#[global] Instance sim_files_ops : Files sim := {
  fopen_r p w := sim_files w !! p;
  fopen_w p t w := if bool_decide (p ∈ sim_nodir w) then (false, w)
                   else (true, sim_put_files w (<[p := t]> (sim_files w)));
  fopen_a p t w := if bool_decide (p ∈ sim_nodir w) then (false, w)
                   else (true, sim_put_files w
                           (<[p := default "" (sim_files w !! p) +:+ t]> (sim_files w)));
  unlink p w := match sim_files w !! p with
                | Some _ => (0, sim_put_files w (delete p (sim_files w)))
                | None => (ENOENT, w)
                end;
  chmod _ _ w := (0, w);
}.

#[global] Instance sim_clock_ops : Clock sim := {
  time w := (sim_clock w, sim_put_clock w (sim_clock w + 1));
  localtime t _ := mk_tm 125 (t / 2678400 mod 12) (t / 86400 mod 31 + 1) (t / 3600 mod 24) (t / 60 mod 60)
                     (t mod 60) (t / 86400 mod 7);
}.

#[global] Instance sim_procs_ops : Procs sim := {
  getpid := sim_pid;
  fork w := (sim_next w, sim_put_procs w (sim_next w :: sim_procs w) (sim_ended w) (sim_next w + 1));
  waitpid w := match sim_ended w with
               | (p, st) :: es =>
                   if 0 <? p then (Some (p, st), sim_put_procs w (sim_procs w) es (sim_next w))
                   else (None, w)
               | [] => (None, w)
               end;
  kill p s w :=
    if s =? 0 then
      (if bool_decide (p ∈ sim_procs w) || (p =? sim_pid w) then 0 else ESRCH, w)
    else if bool_decide (p ∈ sim_procs w) then
      (0, sim_put_procs w (filter (fun q => q <> p) (sim_procs w))
            (sim_ended w ++ [(p, killed s)]) (sim_next w))
    else (ESRCH, w);
  sleep n w := sim_put_clock w (sim_clock w + n);
  zombies w := length (sim_ended w);
  running p w := bool_decide (p ∈ sim_procs w);
}.

#[global] Instance sim_trace : ShellTrace sim.
Proof. by refine {| trace := sim_log |}; intros; simpl; try case_match. Defined.

#[global] Instance sim_starts : ShellStarts sim.
Proof. done. Qed.

#[global] Instance sim_files_laws : FilesLaws sim.
Proof.
  split; simpl.
  - intros p t w w'. case_bool_decide; intros [= <-]. simpl. split; [by rewrite lookup_insert_eq|].
    intros q Hq. by rewrite lookup_insert_ne.
  - intros p t w w'. by case_bool_decide; intros [= <-].
  - intros p w w'. case_match; intros [= <-]. simpl. split; [by rewrite lookup_delete_eq|].
    intros q Hq. by rewrite lookup_delete_ne.
  - intros p w e w'. case_match; intros [= <- <-]; [done|]. done.
  - intros p w w'. by case_match; intros [= <-].
  - done.
Qed.

#[global] Instance sim_procs_laws : ProcsLaws sim.
Proof.
  split; simpl.
  - intros w p st w'. destruct (sim_ended w) as [|[q s] es]; [done|].
    destruct (Z.ltb_spec 0 q); intros; simplify_eq/=. lia.
  - done.
  - intros p w Hp. by rewrite Hp.
  - intros p w. destruct (bool_decide (p ∈ sim_procs w)) eqn:Hp; simpl; [|done].
    apply bool_decide_eq_false. rewrite list_elem_of_filter. tauto.
  - intros p s q w. destruct (s =? 0); [done|].
    destruct (bool_decide (p ∈ sim_procs w)); simpl; [|done].
    rewrite !bool_decide_eq_true, list_elem_of_filter. tauto.
  - done.
  - intros q w. repeat case_match; done.
  - intros f q w. by case_match.
Qed.
