(* ===== verification/Utils.v ===== *)
(** * src/utils.c: sizes, time stamps and log lines

    The functions of utils.c that compute texts and numbers: [format_bytes]
    and [parse_size] with their [double]s, [get_timestamp_string], and the line
    [log_message] writes.  The rest of utils.c is in [Sys].

    The theorems give both conversions as integers: [parse_size] is exact
    where its result fits and says 0 or is undefined elsewhere, [format_bytes]
    prints the nearest hundredth of the unit it chooses. *)

From stdpp Require Import base list strings pretty.
From Stdlib Require Import Ascii ZArith Lia SpecFloat.
From S2P Require Import Prelude CString CFloat CFloatFacts CFormat Sys SimOS.

(** ** Human-readable sizes *)

Definition units : list string := ["B"; "KB"; "MB"; "GB"; "TB"].

(** [while (value >= 1024.0 && unit_index < 4)], with [4 - unit_index] turns
    left. *)
Fixpoint scale_loop (turns : nat) (unit_index : nat) (value : double) : double * nat :=
  match turns with
  | O => (value, unit_index)
  | S turns' =>
      if dge value (to_double 1024)
      then scale_loop turns' (S unit_index) (ddiv value (to_double 1024))
      else (value, unit_index)
  end.

(** What [format_bytes(bytes, buf, size)] leaves in [buf]. *)
Definition format_bytes (bytes : Z) (size : nat) : string :=
  let '(value, unit_index) := scale_loop 4 0 (to_double bytes) in
  snprintf size "%.2f %s" [CDbl value; CStr (nth unit_index units "")].

(** The multiplier of a suffix. *)
Definition multiplier (c : ascii) : option Z :=
  if Ascii.eqb c "K" || Ascii.eqb c "k" then Some 1024
  else if Ascii.eqb c "M" || Ascii.eqb c "m" then Some (1024 * 1024)
  else if Ascii.eqb c "G" || Ascii.eqb c "g" then Some (1024 * 1024 * 1024)
  else if Ascii.eqb c "T" || Ascii.eqb c "t" then Some (1024 * 1024 * 1024 * 1024)
  else None.

(** [None]: the conversion of the product to an integer is undefined. *)
Definition parse_size (size_str : string) : option Z :=
  let '(value, endptr) := strtod size_str in
  if dlt value (to_double 0) then Some 0
  else
    match endptr with
    | "" => to_ull (dmul value (to_double 1))
    | String c _ =>
        match multiplier c with
        | Some k => to_ull (dmul value (to_double k))
        | None => Some 0
        end
    end.

(** ** Time stamps and log lines *)

(** [strftime(buf, size, "%Y-%m-%d %H:%M:%S", t)]: nothing usable is left in
    [buf] when the text and its end do not fit. *)
Definition strftime_stamp (size : nat) (t : tm) : option string :=
  let s := sprintf "%d-%02d-%02d %02d:%02d:%02d"
             [CInt (tm_year t + 1900); CInt (tm_mon t + 1); CInt (tm_mday t);
              CInt (tm_hour t); CInt (tm_min t); CInt (tm_sec t)] in
  if (String.length s <? size)%nat then Some s else None.

Definition wday_name (d : Z) : string :=
  default "???" (["Sun"; "Mon"; "Tue"; "Wed"; "Thu"; "Fri"; "Sat"] !! Z.to_nat d).
Definition mon_name (m : Z) : string :=
  default "???" (["Jan"; "Feb"; "Mar"; "Apr"; "May"; "Jun"; "Jul"; "Aug"; "Sep"; "Oct"; "Nov"; "Dec"]
                   !! Z.to_nat m).
(** [asctime(t)]; [ctime(&x)] is [asctime(localtime(&x))]. *)
Definition asctime (t : tm) : string :=
  sprintf ("%s %s%3d %02d:%02d:%02d %d" +:+ NL)
    [CStr (wday_name (tm_wday t)); CStr (mon_name (tm_mon t)); CInt (tm_mday t);
     CInt (tm_hour t); CInt (tm_min t); CInt (tm_sec t); CInt (tm_year t + 1900)].

Definition LOG_DEBUG : Z := 0.
Definition LOG_INFO : Z := 1.
Definition LOG_WARNING : Z := 2.
Definition LOG_ERROR : Z := 3.

Definition ESC : string := String "027" "[".
Definition COLOR_RESET : string := ESC +:+ "0m".
Definition COLOR_RED : string := ESC +:+ "31m".
Definition COLOR_YELLOW : string := ESC +:+ "33m".
Definition COLOR_BLUE : string := ESC +:+ "34m".
Definition COLOR_GRAY : string := ESC +:+ "90m".

Definition level_str (level : Z) : string :=
  if level =? LOG_DEBUG then "DEBUG"
  else if level =? LOG_INFO then "INFO"
  else if level =? LOG_WARNING then "WARNING"
  else if level =? LOG_ERROR then "ERROR"
  else "UNKNOWN".
Definition level_color (level : Z) : string :=
  if level =? LOG_DEBUG then COLOR_GRAY
  else if level =? LOG_INFO then COLOR_BLUE
  else if level =? LOG_WARNING then COLOR_YELLOW
  else if level =? LOG_ERROR then COLOR_RED
  else COLOR_RESET.

Section Stamps.
Context {W : Type} `{Clock W}.

Definition ctime (x : Z) : M W string := let! t := reads (localtime x) in ret (asctime t).

Definition get_timestamp_string (size : nat) : M W (option string) :=
  let! now := call time in
  let! t := reads (localtime now) in
  ret (strftime_stamp size t).

(** The text [log_message(level, format, ...)] writes to the standard error;
    a date that does not fit its 64 bytes would be printed from an unset
    buffer. *)
Definition log_message (level : Z) (format : string) (args : list carg) : M W string :=
  let! now := call time in
  let! t := reads (localtime now) in
  match strftime_stamp 64 t with
  | None => ub
  | Some time_buf =>
      ret (sprintf "%s[%s] [%s]%s " [CStr (level_color level); CStr time_buf;
                                     CStr (level_str level); CStr COLOR_RESET]
           +:+ sprintf format args +:+ NL)
  end.
End Stamps.

(** ** [parse_size] *)

Lemma is_digit_digit_of c : is_digit c = bool_decide (is_Some (digit_of false c)).
Proof. by destruct c as [[] [] [] [] [] [] [] []]. Qed.

Lemma digit_of_val c : is_digit c = true -> digit_of false c = Some (digit_val c).
Proof. destruct c as [[] [] [] [] [] [] [] []]; vm_compute; congruence. Qed.

(** [strtod] reads the same digits as [scanf]. *)
Lemma read_digits_scan acc s :
  exists k, read_digits false acc s = ((scan_digits acc s).1, k, (scan_digits acc s).2) /\
    (starts_digit s = true -> k <> O).
Proof.
  revert acc. induction s as [|c s IH]; intros acc; simpl; [by exists O|].
  rewrite (is_digit_digit_of c). destruct (digit_of false c) as [d|] eqn:E; simpl.
  - assert (is_digit c = true) as Hd by (rewrite is_digit_digit_of, E; done).
    rewrite (digit_of_val c Hd) in E. injection E as <-.
    destruct (IH (acc * 10 + digit_val c)) as (k & -> & _). by exists (S k).
  - by exists O.
Qed.

(** What may follow the digits of a number without becoming a part of it. *)
Definition ends_number (t : string) : bool :=
  match t with
  | "" => true
  | String c _ => negb (is_digit c) && negb (Ascii.eqb c ".") &&
                  negb (Ascii.eqb (lower c) "e") && negb (Ascii.eqb (lower c) "x")
  end.

Lemma lower_x c : Ascii.eqb (lower c) "x" = Ascii.eqb c "x" || Ascii.eqb c "X".
Proof. by destruct c as [[] [] [] [] [] [] [] []]. Qed.

Lemma after_0x_app (n : N) t : ends_number t = true -> after_word "0x" (pretty n +:+ t) = None.
Proof.
  intros Ht. assert (forall c, is_digit c = false -> c <> "-"%char -> str_mem c (pretty n) = false) as Hn
    by (intros c; destruct n as [|p]; [apply (str_mem_pretty c 0)|apply (str_mem_pretty c (Z.pos p))]).
  assert (str_mem "x" (pretty n) = false /\ str_mem "X" (pretty n) = false) as [Hx HX]
    by (split; by apply Hn).
  pose proof (starts_digit_pretty n t) as Hs. clear Hn.
  destruct (pretty n) as [|a s].
  { destruct t as [|c t]; [done|]. simpl in Hs, Ht. by rewrite Hs in Ht. }
  rewrite str_app_cons. unfold after_word. simpl String.length.
  assert (forall c u, (s +:+ t) = String c u -> Ascii.eqb (lower c) "x" = false) as Hc.
  { intros c u E. rewrite lower_x. destruct s as [|b s].
    - change ("" +:+ t) with t in E. subst t. simpl in Ht. rewrite lower_x in Ht.
      destruct (Ascii.eqb c "x" || Ascii.eqb c "X"); [|done]. by rewrite !andb_false_r in Ht.
    - rewrite str_app_cons in E. injection E as <- _. simpl in Hx, HX.
      apply orb_false_iff in Hx as [_ [Hb _]%orb_false_iff].
      apply orb_false_iff in HX as [_ [Hb' _]%orb_false_iff]. by rewrite Hb, Hb'. }
  destruct (s +:+ t) as [|c u].
  { change (str_take 2 (String a "")) with (String a ""). cbn [lower_string has_prefix].
    by rewrite andb_false_r. }
  specialize (Hc c u eq_refl).
  change (str_take 2 (String a (String c u))) with (String a (String c (str_take 0 u))).
  cbn [lower_string has_prefix]. rewrite (Ascii.eqb_sym "x"), Hc. by rewrite andb_false_r.
Qed.

(** A decimal integer is read up to its end. *)
Lemma read_number_int neg (n : N) t :
  ends_number t = true -> read_number neg (pretty n +:+ t) = Some (dec_double neg (Z.of_N n) 0, t).
Proof.
  intros Ht. assert (starts_digit t = false) as Hst.
  { destruct t as [|c t]; [done|]. simpl in *. by destruct (is_digit c). }
  unfold read_number. rewrite (after_0x_app n t Ht). unfold read_mantissa.
  destruct (read_digits_scan 0 (pretty n +:+ t)) as (k & -> & Hk).
  rewrite (scan_digits_pretty n t Hst). simpl.
  specialize (Hk (starts_digit_pretty n t)). destruct k as [|k]; [done|]. simpl.
  destruct t as [|c t]; [done|].
  simpl in Ht. apply andb_true_iff in Ht as [[[_ Hdot]%andb_true_iff He]%andb_true_iff _].
  apply negb_true_iff in Hdot, He.
  assert (read_exponent "e" (String c t) = (0, String c t)) as Hx by (simpl; by rewrite He).
  destruct c as [[] [] [] [] [] [] [] []]; try discriminate Hdot; by rewrite Hx.
Qed.

Lemma strtod_int (n : N) t :
  ends_number t = true -> strtod (pretty n +:+ t) = (dec_double false (Z.of_N n) 0, t).
Proof.
  intros Ht. pose proof (read_number_int false n t Ht) as Hr.
  pose proof (starts_digit_pretty n t) as Hs.
  unfold strtod. destruct (pretty n +:+ t) as [|c s]; [done|]. simpl in Hs.
  destruct (digit_not_sign c Hs) as (Hm & Hp & Hw). cbn [skip_spaces]. rewrite Hw.
  destruct c as [[] [] [] [] [] [] [] []]; try discriminate; by rewrite Hr.
Qed.

Lemma strtod_minus (n : N) t :
  ends_number t = true -> strtod (String "-" (pretty n +:+ t)) = (dec_double true (Z.of_N n) 0, t).
Proof.
  intros Ht. pose proof (read_number_int true n t Ht) as Hr. generalize dependent (pretty n +:+ t).
  intros u Hr. change (default (d0, String "-" u) (read_number true u) = (dec_double true (Z.of_N n) 0, t)).
  by rewrite Hr.
Qed.

(** The value of an integer literal after the multiplication by [2^j]. *)
Lemma scaled_literal n j :
  0 <= n < 2 ^ 53 -> 0 <= j <= 40 ->
  to_ull (dmul (dec_double false n 0) (dpow2 j)) = (if n * 2 ^ j <? 2 ^ 64 then Some (n * 2 ^ j) else None) /\
  dlt (dec_double false n 0) (to_double 0) = false.
Proof.
  intros Hn Hj. unfold dec_double. destruct (Z.eqb_spec n 0) as [->|Hn0]; [done|].
  change (0 <=? 0) with true. cbn [cond_Zopp]. rewrite Z.mul_1_r.
  destruct (convert_denotes 53 1024 ltac:(lia) ltac:(lia) n) as (m & e & -> & Hm & He & Hv); [lia| |].
  { assert (Zdigits2 n <= 53) by (apply digits_le; lia). lia. }
  rewrite (nearest_small 53) in Hv by lia. destruct Hm as [Hm1 Hm2].
  assert (Z.pos (Z.to_pos m) = m) as Hp by (apply Z2Pos.id; lia).
  assert (e <= 64) by (eapply denoted_exponent; [exact Hm1|exact Hv|lia..]).
  rewrite dmul_pow2 by (unfold full; lia). split; [|done].
  apply (to_ull_value _ e n j 53); try lia.
Qed.

Lemma multiplier_pow2 c k :
  multiplier c = Some k -> exists j, 0 <= j <= 40 /\ k = 2 ^ j /\ to_double k = dpow2 j.
Proof.
  unfold multiplier. repeat case_match; intros [= <-];
    [exists 10|exists 20|exists 30|exists 40]; (split; [lia|done]).
Qed.

Lemma multiplier_ends c rest k : multiplier c = Some k -> ends_number (String c rest) = true.
Proof. by destruct c as [[] [] [] [] [] [] [] []]. Qed.

(** A negative number is never negative afterwards. *)
Lemma negative_literal n :
  dlt (dec_double true n 0) (to_double 0) = true \/ dec_double true n 0 = S754_zero true \/ n < 0.
Proof.
  unfold dec_double. destruct (Z.eqb_spec n 0) as [->|]; [auto|]. change (0 <=? 0) with true.
  rewrite Z.mul_1_r. destruct n as [|p|p]; [done| |lia].
  change (binary_normalize 53 1024 (cond_Zopp true (Z.pos p)) 0 true) with (binary_round 53 1024 true p 0).
  rewrite binary_round_eq by lia. cbv zeta.
  rewrite binary_round_aux_int by (lia || (apply Z.mul_nonneg_nonneg; [lia|apply Z.pow_nonneg; lia])).
  unfold packed. repeat case_match; auto.
Qed.

(** The power of 1024 a suffix stands for. *)
Definition suffix_power (c : ascii) : option Z :=
  if Ascii.eqb (lower c) "k" then Some 1 else if Ascii.eqb (lower c) "m" then Some 2
  else if Ascii.eqb (lower c) "g" then Some 3 else if Ascii.eqb (lower c) "t" then Some 4 else None.

Lemma multiplier_power c : multiplier c = (fun p => 1024 ^ p) <$> suffix_power c.
Proof. destruct c as [[] [] [] [] [] [] [] []]; vm_compute; reflexivity. Qed.

(** C38. A size written as a decimal integer below 2^53, alone or with a suffix
    K, M, G or T of either case and anything after it, is parsed as exactly
    the number times the power of 1024, when that is below 2^64; otherwise
    the conversion is undefined.  Another suffix, or a minus sign, gives 0. *)
Theorem parse_size_spec (n : N) (c : ascii) (rest : string) :
  (n < 2 ^ 53)%N ->
  parse_size (pretty n) = Some (Z.of_N n) /\
  (forall p, suffix_power c = Some p ->
     parse_size (pretty n +:+ String c rest) =
     if Z.of_N n * 1024 ^ p <? 2 ^ 64 then Some (Z.of_N n * 1024 ^ p) else None) /\
  (suffix_power c = None -> ends_number (String c rest) = true ->
     parse_size (pretty n +:+ String c rest) = Some 0) /\
  (ends_number (String c rest) = true ->
     parse_size (String "-" (pretty n +:+ String c rest)) = Some 0).
Proof.
  intros Hn. assert (0 <= Z.of_N n < 2 ^ 53) as Hz by lia.
  pose proof (multiplier_power c) as Hmul. split_and!.
  - destruct (scaled_literal (Z.of_N n) 0 Hz ltac:(lia)) as [Hu Hl].
    pose proof (strtod_int n "" eq_refl) as Hs. rewrite str_app_nil_r in Hs.
    unfold parse_size. rewrite Hs, Hl. change (to_double 1) with (dpow2 0). rewrite Hu, Z.mul_1_r.
    destruct (Z.ltb_spec (Z.of_N n) (2 ^ 64)); [done|lia].
  - intros p Hp. rewrite Hp in Hmul. cbn [fmap option_fmap option_map] in Hmul.
    destruct (multiplier_pow2 c _ Hmul) as (j & Hj & Hk & Hd).
    destruct (scaled_literal (Z.of_N n) j Hz Hj) as [Hu Hl]. unfold parse_size.
    rewrite strtod_int by (by eapply multiplier_ends). by rewrite Hl, Hmul, Hd, Hu, Hk.
  - intros Hp He. rewrite Hp in Hmul. destruct (scaled_literal (Z.of_N n) 0 Hz ltac:(lia)) as [_ Hl].
    unfold parse_size. by rewrite strtod_int, Hl, Hmul.
  - intros He. unfold parse_size. rewrite strtod_minus by done.
    destruct (negative_literal (Z.of_N n)) as [->|[->|?]]; [done| |lia].
    by destruct (multiplier c) as [k|] eqn:Hk; [destruct (multiplier_pow2 c k Hk) as (j & _ & _ & ->)|].
Qed.

Lemma parse_size_spec_witness :
  parse_size "8589934591G" = Some 9223372035781033984 /\ parse_size "17179869184G" = None.
Proof.
  split.
  - destruct (parse_size_spec 8589934591 "G" "" ltac:(done)) as (_ & H & _).
    apply (H 3 eq_refl).
  - destruct (parse_size_spec 17179869184 "G" "" ltac:(done)) as (_ & H & _).
    apply (H 3 eq_refl).
Defined.

(** ** [format_bytes] *)

(** The text for [v] bytes: hundredths of the largest unit, up to TB. *)
Definition size_text (v : Z) : string :=
  let k := Z.min 4 (Z.log2 v / 10) in
  fixed_text 2 (rne_div (v * 100) (2 ^ (10 * k))) +:+ " " +:+ nth (Z.to_nat k) units "".

Lemma snprintf_2f size x s :
  snprintf size "%.2f %s" [CDbl x; CStr s] = str_take (size - 1) (fmt_f false 2 x +:+ " " +:+ s).
Proof.
  unfold snprintf, sprintf. do 2 f_equal. simpl. unfold pad. simpl. by rewrite str_app_nil_r.
Qed.

(** The loop divides by 1024 while the exponent says the value is at least
    that, at most four times. *)
Lemma scale_loop_value turns i m e :
  full 53 (Z.pos m) -> -100 <= e <= 100 -> (turns <= 4)%nat ->
  let k := Z.max 0 (Z.min (Z.of_nat turns) ((e + 52) / 10)) in
  scale_loop turns i (S754_finite false m e) = (S754_finite false m (e - 10 * k), (i + Z.to_nat k)%nat).
Proof.
  intros Hm. revert i e. induction turns as [|turns IH]; intros i e He Ht; cbv zeta.
  - replace (Z.max 0 _) with 0 by lia. simpl. rewrite Z.sub_0_r, Nat.add_0_r. done.
  - cbn [scale_loop]. rewrite dge_1024 by done. destruct (Z.leb_spec (-42) e) as [Hge|Hlt].
    + change (to_double 1024) with (dpow2 10). rewrite ddiv_pow2 by (done || lia).
      destruct (Z.le_gt_cases (-100) (e - 10)) as [Hr|]; [|lia].
      rewrite IH by lia. assert ((e + 52) / 10 = (e - 10 + 52) / 10 + 1) as ->
        by (rewrite <- Z.div_add by lia; f_equal; lia).
      assert (0 <= (e - 10 + 52) / 10) by (apply Z.div_pos; lia).
      f_equal; [f_equal|]; lia.
    + assert ((e + 52) / 10 < 1) by (apply Z.div_lt_upper_bound; lia).
      replace (Z.max 0 _) with 0 by lia. simpl. rewrite Z.sub_0_r, Nat.add_0_r. done.
Qed.

Lemma denoted_log2 m e v :
  full 53 m -> 0 < v -> -53 < e -> v * 2 ^ 53 = m * 2 ^ (e + 53) -> Z.log2 v = e + 52.
Proof.
  intros [Hm1 Hm2] Hv He Heq. assert (Z.log2 (v * 2 ^ 53) = Z.log2 v + 53) as E1
    by (rewrite Z.log2_mul_pow2 by lia; lia).
  assert (Z.log2 (m * 2 ^ (e + 53)) = e + 53 + Z.log2 m) as E2 by (rewrite Z.log2_mul_pow2; lia).
  assert (Z.log2 m = 52) as E3 by (apply Z.log2_unique; lia). rewrite Heq in E1. lia.
Qed.

Lemma nearest_pos n : 0 < n -> 0 < nearest 53 n.
Proof.
  intros Hn. pose proof (nearest_mono 53 ltac:(lia) 1 n ltac:(lia) ltac:(lia)) as H.
  change (nearest 53 1) with 1 in H. lia.
Qed.

Lemma nearest_error n : 0 < n < 2 ^ 64 -> Z.abs (nearest 53 n - n) <= 1024.
Proof.
  intros Hn. unfold nearest. set (k := Z.max 0 (Zdigits2 n - 53)).
  assert (Zdigits2 n <= 64) by (apply digits_le; lia).
  assert (0 < 2 ^ k <= 2 ^ 11) by (split; [apply Z.pow_pos_nonneg|apply Z.pow_le_mono_r]; lia).
  pose proof (rne_div_error n (2 ^ k) ltac:(lia)). lia.
Qed.

Lemma nearest_pow2_64 : nearest 53 (2 ^ 64) = 2 ^ 64.
Proof. done. Qed.

Lemma format_bytes_text n size :
  0 <= n < 2 ^ 64 -> format_bytes n size = str_take (size - 1) (size_text (nearest 53 n)).
Proof.
  intros Hn. unfold format_bytes. destruct (Z.eq_dec n 0) as [->|Hn0].
  { change (to_double 0) with (S754_zero false). simpl. by rewrite snprintf_2f. }
  assert (Zdigits2 n <= 64) by (apply digits_le; lia).
  destruct (convert_denotes 53 1024 ltac:(lia) ltac:(lia) n) as (m & e & E & Hm & He & Hv); [lia|lia|].
  unfold to_double. rewrite E. set (v := nearest 53 n) in *.
  assert (0 < v) as Hv0 by (apply nearest_pos; lia).
  pose proof (denoted_log2 m e v Hm Hv0 ltac:(lia) Hv) as Hlog.
  assert (v <= 2 ^ 64) as Hv64.
  { unfold v. rewrite <- (nearest_pow2_64). apply (nearest_mono 53); lia. }
  assert (Z.log2 v <= 64) by (rewrite <- (Z.log2_pow2 64) by lia; by apply Z.log2_le_mono).
  assert (0 <= Z.log2 v) by apply Z.log2_nonneg.
  assert (Z.pos (Z.to_pos m) = m) as Hp by (apply Z2Pos.id; destruct Hm; lia).
  rewrite scale_loop_value by (rewrite ?Hp; done || lia). rewrite <- Hlog.
  assert (0 <= Z.log2 v / 10) by (apply Z.div_pos; lia).
  replace (Z.max 0 (Z.min (Z.of_nat 4) (Z.log2 v / 10))) with (Z.min 4 (Z.log2 v / 10)) by lia.
  rewrite snprintf_2f. cbn [fmt_f]. unfold size_text.
  rewrite (fixed_units_value 2 _ e v _ 53); [done|lia..].
Qed.

Lemma fixed_text_length h d :
  (1 <= d)%nat -> 0 <= h < 100 * 10 ^ Z.of_nat d ->
  (String.length (fixed_text 2 h) <= d + 3)%nat.
Proof.
  intros Hd Hh. unfold fixed_text. change (10 ^ Z.of_nat 2) with 100. rewrite !str_length_app.
  assert (String.length (pretty (h / 100)%Z) <= d)%nat.
  { apply pretty_length; [done|]. split; [apply Z.div_pos; lia|]. apply Z.div_lt_upper_bound; lia. }
  assert (0 <= h mod 100 < 100) by (apply Z.mod_pos_bound; lia).
  assert (String.length (pretty (h mod 100)%Z) <= 2)%nat by (apply pretty_length; [lia|done]).
  unfold digits_text. rewrite str_length_app, str_repeat_length. simpl. lia.
Qed.

Lemma unit_length i : (String.length (nth i units "") <= 2)%nat.
Proof. do 6 (destruct i as [|i]; [simpl; lia|]). simpl. lia. Qed.

Lemma size_text_length v : 0 <= v <= 2 ^ 64 -> (String.length (size_text v) <= 14)%nat.
Proof.
  intros Hv. unfold size_text. set (k := Z.min 4 (Z.log2 v / 10)).
  assert (0 <= Z.log2 v) by apply Z.log2_nonneg.
  assert (0 <= k <= 4) as Hk by (unfold k; pose proof (Z.div_pos (Z.log2 v) 10); lia).
  assert (0 < 2 ^ (10 * k)) by (apply Z.pow_pos_nonneg; lia).
  assert (rne_div (v * 100) (2 ^ (10 * k)) <= 100 * 2 ^ 24) as Hle.
  { apply rne_div_le; [lia|]. destruct (Z.eq_dec k 4) as [->|Hk4]; [lia|].
    assert (Z.log2 v < 10 * (k + 1)) as Hl.
    { assert (k = Z.log2 v / 10) as -> by lia. pose proof (Z.mul_succ_div_gt (Z.log2 v) 10). lia. }
    assert (v < 2 ^ (10 * (k + 1))) as Hlt.
    { destruct (Z.eq_dec v 0) as [->|]; [apply Z.pow_pos_nonneg; lia|]. apply Z.log2_lt_pow2; lia. }
    replace (10 * (k + 1)) with (10 * k + 10) in Hlt by lia. rewrite Z.pow_add_r in Hlt by lia. lia. }
  assert (0 <= rne_div (v * 100) (2 ^ (10 * k))) by (apply rne_div_ge; lia).
  pose proof (fixed_text_length (rne_div (v * 100) (2 ^ (10 * k))) 8 ltac:(lia) ltac:(lia)).
  rewrite !str_length_app.
  pose proof (unit_length (Z.to_nat k)). change (String.length " ") with 1%nat. lia.
Qed.

(** C39. For every 64-bit size and a buffer of 16 bytes or more, [format_bytes]
    writes a complete text: the size [v] as a double (exact below 2^53, off by
    at most 1024 above), in the largest unit that makes it at least 1 (TB at
    most), to the nearest hundredth. *)
Theorem format_bytes_spec (n : Z) (size : nat) :
  0 <= n < 2 ^ 64 -> (16 <= size)%nat ->
  exists v k h,
    format_bytes n size = fixed_text 2 h +:+ " " +:+ nth (Z.to_nat k) ["B"; "KB"; "MB"; "GB"; "TB"] "" /\
    (n < 2 ^ 53 -> v = n) /\ Z.abs (v - n) <= 1024 /\
    0 <= k <= 4 /\ (0 < k -> 1024 ^ k <= v) /\ (k < 4 -> v < 1024 ^ (k + 1)) /\
    2 * Z.abs (1024 ^ k * h - v * 100) <= 1024 ^ k.
Proof.
  intros Hn Hsize. set (v := nearest 53 n). set (k := Z.min 4 (Z.log2 v / 10)).
  assert (0 <= v <= 2 ^ 64) as Hv.
  { destruct (Z.eq_dec n 0) as [->|]; [done|]. split; [apply Z.lt_le_incl, nearest_pos; lia|].
    unfold v. rewrite <- nearest_pow2_64. apply (nearest_mono 53); lia. }
  assert (forall j, 0 <= j -> 1024 ^ j = 2 ^ (10 * j)) as Hpow
    by (intros j Hj; change 1024 with (2 ^ 10); by rewrite <- Z.pow_mul_r by lia).
  exists v, k, (rne_div (v * 100) (1024 ^ k)).
  assert (0 <= Z.log2 v) by apply Z.log2_nonneg.
  assert (0 <= k <= 4) as Hk by (unfold k; pose proof (Z.div_pos (Z.log2 v) 10); lia).
  split_and!; try lia.
  - rewrite format_bytes_text by done. fold v. rewrite str_take_ge; [|pose proof (size_text_length v Hv); lia].
    unfold size_text. fold k. by rewrite Hpow by lia.
  - intros Hlt. destruct (Z.eq_dec n 0) as [->|]; [done|]. apply nearest_small; lia.
  - destruct (Z.eq_dec n 0) as [->|]; [done|]. apply nearest_error; lia.
  - intros Hk0. rewrite Hpow by lia. destruct (Z.eq_dec v 0) as [E|]; [unfold k in Hk0; rewrite E in Hk0; done|].
    apply Z.log2_le_pow2; [lia|]. pose proof (Z.mul_div_le (Z.log2 v) 10 ltac:(lia)). lia.
  - intros Hk4. rewrite Hpow by lia. destruct (Z.eq_dec v 0) as [E|]; [rewrite E; apply Z.pow_pos_nonneg; lia|].
    apply Z.log2_lt_pow2; [lia|]. pose proof (Z.mul_succ_div_gt (Z.log2 v) 10 ltac:(lia)). lia.
  - apply rne_div_error. rewrite Hpow by lia. apply Z.pow_pos_nonneg; lia.
Qed.

Lemma format_bytes_spec_witness :
  format_bytes 1536 16 = "1.50 KB" /\ format_bytes 18446744073709551615 64 = "16777216.00 TB" /\
  exists v k h, format_bytes 1536 16 = fixed_text 2 h +:+ " " +:+ nth (Z.to_nat k) units "" /\
    (1536 < 2 ^ 53 -> v = 1536) /\ Z.abs (v - 1536) <= 1024 /\
    0 <= k <= 4 /\ (0 < k -> 1024 ^ k <= v) /\ (k < 4 -> v < 1024 ^ (k + 1)) /\
    2 * Z.abs (1024 ^ k * h - v * 100) <= 1024 ^ k.
Proof. split; [done|]. split; [done|]. apply (format_bytes_spec 1536 16); lia. Defined.
