(* ===== verification/StorageStats.v ===== *)
(** * kernel_module/storage_stats.c: per-device I/O counters

    The table of at most [MAX_DEVICES] devices behind /proc/storage_stats:
    [get_device_stats], [update_storage_stats], [reset_stats],
    [storage_stats_show], [storage_stats_write], loading and unloading, on
    the module's static variables, and the same update as the steps that
    several processors can interleave. *)

From stdpp Require Import base list gmap strings.
From Stdlib Require Import Ascii ZArith Lia.
From S2P Require Import Prelude CString Sys.

Definition MAX_DEVICES : nat := 16.

Record device_stats_t := mk_stats {
  device_name : string;
  read_ops : Z;
  write_ops : Z;
  read_bytes : Z;
  write_bytes : Z;
  total_latency_ns : Z;
  op_count : Z;
  active : Z;
}.

(** The static variables of the module. *)
Record stats_state := mk_state {
  device_stats : list device_stats_t;
  device_count : nat;
  debug : Z;
}.

(** A slot after [memset(device_stats, 0, sizeof(device_stats))]. *)
Definition zero_stats : device_stats_t := mk_stats "" 0 0 0 0 0 0 0.

(** The module: its table, and whether its entry in /proc exists. *)
Record kmodule := mk_module { stats : stats_state; proc_entry : bool }.

(** [created] says whether [proc_create] made the entry. *)
Definition storage_stats_init (created : bool) (m : kmodule) : Z * kmodule :=
  if negb created then (- ENOMEM, mk_module (stats m) false)
  else (0, mk_module (mk_state (replicate MAX_DEVICES zero_stats) 0 (debug (stats m))) true).

Definition storage_stats_exit (m : kmodule) : kmodule :=
  if proc_entry m then mk_module (stats m) false else m.

(** The table of a module that was loaded with a value of the parameter. *)
Definition loaded (dbg : Z) : stats_state :=
  stats (storage_stats_init true (mk_module (mk_state (replicate MAX_DEVICES zero_stats) 0 dbg) false)).2.

(** A slot that was just given to a device: [strncpy] copies 63 bytes and the
    last byte of the 64 is set to NUL. *)
Definition fresh_stats (name : string) : device_stats_t :=
  mk_stats (str_take 63 name) 0 0 0 0 0 0 1.

Definition search (name : string) (s : stats_state) : option nat :=
  find_idx (fun d => streq (device_name d) name) (take (device_count s) (device_stats s)).

(** [get_device_stats]: the index of the slot the returned pointer names, or
    NULL, run without interference. *)
Definition get_device_stats (name : string) (s : stats_state) : option nat * stats_state :=
  match search name s with
  | Some i => (Some i, s)
  | None =>
      if (device_count s <? MAX_DEVICES)%nat then
        let s' := mk_state (<[device_count s := fresh_stats name]> (device_stats s))
                           (S (device_count s)) (debug s) in
        (Some (device_count s' - 1)%nat, s')
      else (None, s)
  end.

Definition bump (is_read : bool) (bytes latency_ns : Z) (d : device_stats_t) : device_stats_t :=
  mk_stats (device_name d)
    (if is_read then u64 (read_ops d + 1) else read_ops d)
    (if is_read then write_ops d else u64 (write_ops d + 1))
    (if is_read then u64 (read_bytes d + bytes) else read_bytes d)
    (if is_read then write_bytes d else u64 (write_bytes d + bytes))
    (u64 (total_latency_ns d + latency_ns))
    (u64 (op_count d + 1))
    (active d).

(** The second critical section of [update_storage_stats]. *)
Definition account (i : nat) (is_read : bool) (bytes latency_ns : Z) (s : stats_state) : stats_state :=
  mk_state (alter (bump is_read bytes latency_ns) i (device_stats s))
           (device_count s) (debug s).

Definition update_storage_stats (device : string) (is_read : bool)
    (bytes latency_ns : Z) (s : stats_state) : stats_state :=
  match get_device_stats device s with
  | (None, s') => s'
  | (Some i, s') => account i is_read bytes latency_ns s'
  end.

Definition clear_stats (d : device_stats_t) : device_stats_t :=
  mk_stats (device_name d) 0 0 0 0 0 0 (active d).

Definition reset_stats (s : stats_state) : stats_state :=
  mk_state (imap (fun i d => if (i <? device_count s)%nat then clear_stats d else d)
                 (device_stats s))
           (device_count s) (debug s).

(** The numbers [storage_stats_show] prints for a device. *)
Record report_row := mk_row {
  row_name : string;
  row_reads : Z;
  row_writes : Z;
  row_ops : Z;
  row_read_bytes : Z;
  row_write_bytes : Z;
  row_bytes : Z;
  row_avg_latency_ns : Z;
}.

Inductive report :=
  | NoDevices
  | Devices (rows : list report_row) (tracked : nat).

Definition show_row (d : device_stats_t) : report_row :=
  mk_row (device_name d) (read_ops d) (write_ops d) (u64 (read_ops d + write_ops d))
    (read_bytes d) (write_bytes d) (u64 (read_bytes d + write_bytes d))
    (if 0 <? op_count d then total_latency_ns d / op_count d else 0).

Definition storage_stats_show (s : stats_state) : report :=
  if (device_count s =? 0)%nat then NoDevices
  else Devices (show_row <$> filter (fun d => active d <> 0) (take (device_count s) (device_stats s)))
               (device_count s).

(** Opening /proc/storage_stats shows the report when the entry is read. *)
Definition storage_stats_open (m : kmodule) : option report :=
  if proc_entry m then Some (storage_stats_show (stats m)) else None.

(** The command a write to /proc/storage_stats carries: the bytes up to the
    first NUL, without a final newline. *)
Definition chop_newline (b : string) : string :=
  if (String.length b =? 0)%nat then b
  else if streq (str_drop (String.length b - 1) b) NL
       then str_take (String.length b - 1) b else b.

Definition command_of (b : string) : string := str_before (chop_newline b) NUL.

(** [storage_stats_write] for the [count] bytes [buffer]; [fault] says whether
    [copy_from_user] fails.  With no bytes at all the code reads [cmd[-1]]:
    the result is [None]. *)
Definition storage_stats_write (fault : bool) (buffer : string) (s : stats_state)
    : option (Z * stats_state) :=
  if 64 <=? strlen buffer then Some (- EINVAL, s)
  else if fault then Some (- EFAULT, s)
  else if (String.length buffer =? 0)%nat then None
  else
    let cmd := command_of buffer in
    if streq cmd "reset" then Some (strlen buffer, reset_stats s)
    else if has_prefix "debug " cmd then
      if streq (str_drop 6 cmd) "on"
      then Some (strlen buffer, mk_state (device_stats s) (device_count s) 1)
      else if streq (str_drop 6 cmd) "off"
      then Some (strlen buffer, mk_state (device_stats s) (device_count s) 0)
      else Some (strlen buffer, s)
    else Some (- EINVAL, s).

(** ** Invariant *)

(** The counters of a slot: a name that fits its buffer, 64-bit values, and
    the two operation counters adding up to [op_count] modulo 2^64. *)
Record slot_ok (d : device_stats_t) : Prop := {
  ok_name : (String.length (device_name d) <= 63)%nat;
  ok_rops : in_u64 (read_ops d);
  ok_wops : in_u64 (write_ops d);
  ok_rbytes : in_u64 (read_bytes d);
  ok_wbytes : in_u64 (write_bytes d);
  ok_latency : in_u64 (total_latency_ns d);
  ok_ops : op_count d = u64 (read_ops d + write_ops d);
}.

Record stats_wf (s : stats_state) : Prop := {
  wf_len : length (device_stats s) = MAX_DEVICES;
  wf_count : (device_count s <= MAX_DEVICES)%nat;
  wf_slots : Forall slot_ok (device_stats s);
  wf_active : forall i d, (i < device_count s)%nat ->
    device_stats s !! i = Some d -> active d = 1;
}.

(** The events that change the table. *)
Inductive stats_op :=
  | OpUpdate (device : string) (is_read : bool) (bytes latency_ns : Z)
  | OpWrite (fault : bool) (buffer : string).

Definition stats_apply (o : stats_op) (s : stats_state) : option stats_state :=
  match o with
  | OpUpdate device is_read bytes lat => Some (update_storage_stats device is_read bytes lat s)
  | OpWrite fault buffer => snd <$> storage_stats_write fault buffer s
  end.

Inductive stats_reachable : stats_state -> Prop :=
  | reach_init m m' : storage_stats_init true m = (0, m') -> stats_reachable (stats m')
  | reach_op s o s' : stats_reachable s -> stats_apply o s = Some s' -> stats_reachable s'.

Lemma zero_slot_ok : slot_ok zero_stats.
Proof. split; simpl; unfold in_u64, u64; try lia. done. Qed.

Lemma fresh_slot_ok name : slot_ok (fresh_stats name).
Proof. split; simpl; try (unfold in_u64; lia); [apply str_take_length|done]. Qed.

Lemma bump_slot_ok rd b l d : slot_ok d -> slot_ok (bump rd b l d).
Proof.
  intros []. split; simpl; try done; try (by destruct rd; auto with cint); auto with cint.
  rewrite ok_ops0. destruct rd; autorewrite with cint; f_equal; lia.
Qed.

Lemma clear_slot_ok d : slot_ok d -> slot_ok (clear_stats d).
Proof. intros []. split; simpl; try done; unfold in_u64; lia. Qed.
#[export] Hint Resolve zero_slot_ok fresh_slot_ok bump_slot_ok clear_slot_ok : sys.

Lemma Forall_imap {A} (P : A -> Prop) (f : nat -> A -> A) (l : list A) :
  Forall P l -> (forall i x, P x -> P (f i x)) -> Forall P (imap f l).
Proof.
  intros Hl. revert f. induction Hl as [|x l Hx Hl IH]; intros f Hf; simpl; constructor; [auto|].
  apply IH. intros i y. apply (Hf (S i)).
Qed.

Lemma init_wf m m' : storage_stats_init true m = (0, m') -> stats_wf (stats m').
Proof.
  intros [= <-]. split; [done|simpl; lia|apply (Forall_replicate slot_ok 16); auto with sys|simpl; lia].
Qed.
Lemma loaded_wf dbg : stats_wf (loaded dbg).
Proof. by eapply init_wf. Qed.
Lemma loaded_reachable dbg : stats_reachable (loaded dbg).
Proof. by eapply reach_init. Qed.

Lemma get_device_stats_wf name s i s' :
  stats_wf s -> get_device_stats name s = (i, s') ->
  stats_wf s' /\ match i with Some i => (i < device_count s')%nat | None => s' = s end.
Proof.
  intros [Hl Hc Hs Ha]. unfold get_device_stats. case_match eqn:E.
  - intros [= <- <-]. split; [by split|]. apply find_idx_lt in E. rewrite length_take in E. lia.
  - case_match eqn:Hlt; intros [= <- <-]; [|by split].
    apply Nat.ltb_lt in Hlt. simpl. split; [|lia]. split; simpl.
    + by rewrite length_insert.
    + unfold MAX_DEVICES in *. lia.
    + auto with sys.
    + intros i d Hi. destruct (decide (i = device_count s)) as [->|Hne].
      * rewrite list_lookup_insert_eq by lia. by intros [= <-].
      * rewrite list_lookup_insert_ne by done. apply Ha. lia.
Qed.

Lemma account_wf i rd b l s : stats_wf s -> stats_wf (account i rd b l s).
Proof.
  intros [Hl Hc Hs Ha]. split; simpl; [by rewrite length_alter|done| |].
  - apply Forall_alter; auto with sys.
  - intros j d Hj. rewrite list_lookup_alter. case_decide; [|by apply Ha].
    subst j. intros (d0 & Hd0 & ->)%fmap_Some. simpl. by eapply Ha.
Qed.

Lemma update_wf device rd b l s :
  stats_wf s -> stats_wf (update_storage_stats device rd b l s).
Proof.
  intros Hwf. unfold update_storage_stats.
  destruct (get_device_stats device s) as [i s'] eqn:E.
  apply get_device_stats_wf in E as [Hwf' _]; [|done].
  destruct i; [by apply account_wf|done].
Qed.

Lemma reset_wf s : stats_wf s -> stats_wf (reset_stats s).
Proof.
  intros [Hl Hc Hs Ha]. split; simpl; [by rewrite length_imap|done| |].
  - apply Forall_imap; [done|]. intros i x. case_match; auto with sys.
  - intros i d Hi. rewrite list_lookup_imap. intros (d0 & Hd0 & ->)%fmap_Some.
    case_match; simpl; by eapply Ha.
Qed.

Lemma stats_apply_wf o s s' : stats_wf s -> stats_apply o s = Some s' -> stats_wf s'.
Proof.
  intros Hwf. destruct o as [device rd b l|fault buf]; simpl.
  { intros [= <-]. by apply update_wf. }
  unfold storage_stats_write. pose proof (reset_wf s Hwf). destruct Hwf.
  repeat case_match; intros; simplify_eq/=; done.
Qed.

Lemma reachable_wf s : stats_reachable s -> stats_wf s.
Proof. induction 1; [by eapply init_wf|by eapply stats_apply_wf]. Qed.

(** C1. Whatever is written to the module's tables by updates and by writes to
    /proc/storage_stats, in any order, every reachable state is well formed:
    at most sixteen devices, names that fit their buffer, 64-bit counters, and
    in every slot the operation counter equal to reads plus writes modulo
    2^64; and no event but an empty write is undefined there. *)
Theorem stats_reachable_wf s :
  stats_reachable s ->
  stats_wf s /\ forall o, stats_apply o s = None -> o = OpWrite false "".
Proof.
  intros Hr. split; [by apply reachable_wf|].
  intros [device rd b l|fault buf]; simpl; [done|].
  unfold storage_stats_write. destruct buf as [|c buf]; [by destruct fault|].
  intros. repeat case_match; simplify_eq/=.
Qed.

Lemma stats_reachable_wf_witness :
  stats_wf (update_storage_stats "sda" true 512 7 (loaded 0)).
Proof.
  apply stats_reachable_wf.
  eapply (reach_op _ (OpUpdate "sda" true 512 7)); [apply loaded_reachable|reflexivity].
Defined.

(** ** Abstract specification: a bounded map from names to counters *)

Record counters := mk_counters {
  c_reads : Z; c_writes : Z; c_rbytes : Z; c_wbytes : Z; c_latency : Z; c_ops : Z;
}.

Definition no_counters : counters := mk_counters 0 0 0 0 0 0.

Definition count_op (is_read : bool) (bytes latency : Z) (c : counters) : counters :=
  mk_counters
    (if is_read then u64 (c_reads c + 1) else c_reads c)
    (if is_read then c_writes c else u64 (c_writes c + 1))
    (if is_read then u64 (c_rbytes c + bytes) else c_rbytes c)
    (if is_read then c_wbytes c else u64 (c_wbytes c + bytes))
    (u64 (c_latency c + latency)) (u64 (c_ops c + 1)).

Definition spec_update (device : string) (is_read : bool) (bytes latency : Z)
    (m : gmap string counters) : gmap string counters :=
  match m !! device with
  | Some c => <[device := count_op is_read bytes latency c]> m
  | None =>
      if (size m <? MAX_DEVICES)%nat
      then <[device := count_op is_read bytes latency no_counters]> m
      else m
  end.

Definition spec_reset (m : gmap string counters) : gmap string counters :=
  (fun _ => no_counters) <$> m.

Definition counters_of (d : device_stats_t) : counters :=
  mk_counters (read_ops d) (write_ops d) (read_bytes d) (write_bytes d)
    (total_latency_ns d) (op_count d).

Definition table_map (l : list device_stats_t) : gmap string counters :=
  list_to_map ((fun d => (device_name d, counters_of d)) <$> l).

(** The devices in use, and the map they stand for. *)
Definition rows (s : stats_state) : list device_stats_t :=
  take (device_count s) (device_stats s).
Definition abstraction (s : stats_state) : gmap string counters := table_map (rows s).
Definition distinct_names (s : stats_state) : Prop := NoDup (device_name <$> rows s).

Lemma table_keys l : ((fun d => (device_name d, counters_of d)) <$> l).*1 = device_name <$> l.
Proof. by rewrite <- list_fmap_compose. Qed.

Lemma table_map_lookup l i d :
  NoDup (device_name <$> l) -> l !! i = Some d ->
  table_map l !! device_name d = Some (counters_of d).
Proof.
  intros Hnd Hi. apply elem_of_list_to_map_1; [by rewrite table_keys|].
  apply list_elem_of_fmap. exists d. split; [done|]. by eapply list_elem_of_lookup_2.
Qed.

Lemma table_map_None l name : name ∉ (device_name <$> l) -> table_map l !! name = None.
Proof. intros H. apply not_elem_of_list_to_map_1. by rewrite table_keys. Qed.

Lemma table_map_cons d l :
  table_map (d :: l) = <[device_name d := counters_of d]> (table_map l).
Proof. done. Qed.

Lemma table_map_alter f l i d :
  (forall x, device_name (f x) = device_name x) ->
  NoDup (device_name <$> l) -> l !! i = Some d ->
  table_map (alter f i l) = <[device_name d := counters_of (f d)]> (table_map l).
Proof.
  intros Hf. revert i. induction l as [|x l IH]; intros i Hnd Hi; [done|].
  apply NoDup_cons in Hnd as [Hx Hnd]. destruct i as [|i]; simplify_eq/=.
  - rewrite !table_map_cons, Hf. by rewrite insert_insert_eq.
  - change (alter f (S i) (x :: l)) with (x :: alter f i l).
    rewrite !table_map_cons, (IH i) by done. apply insert_insert_ne.
    intros Heq. apply Hx. apply list_elem_of_fmap. exists d.
    split; [done|]. by eapply list_elem_of_lookup_2.
Qed.

Lemma names_alter f (l : list device_stats_t) (i : nat) :
  (forall x, device_name (f x) = device_name x) ->
  device_name <$> alter f i l = device_name <$> l.
Proof.
  intros Hf. apply list_eq. intros j. rewrite !list_lookup_fmap, list_lookup_alter.
  case_decide as Hij; [|done]. subst j. destruct (l !! i); simpl; [by rewrite Hf|done].
Qed.

Lemma rows_lookup s i d :
  rows s !! i = Some d <-> (i < device_count s)%nat /\ device_stats s !! i = Some d.
Proof. unfold rows. rewrite lookup_take_Some. tauto. Qed.

Lemma rows_account i rd b l s :
  (i < device_count s)%nat -> rows (account i rd b l s) = alter (bump rd b l) i (rows s).
Proof. intros Hi. unfold rows, account. simpl. by apply take_alter_lt. Qed.

Lemma rows_length s : stats_wf s -> length (rows s) = device_count s.
Proof. intros [Hl Hc _ _]. unfold rows. rewrite length_take. lia. Qed.

Lemma search_Some name s i :
  search name s = Some i -> exists d, rows s !! i = Some d /\ device_name d = name.
Proof.
  unfold search. intros (d & Hd & Hp & _)%find_idx_Some. exists d. split; [done|].
  by apply streq_spec.
Qed.

Lemma search_None name s : search name s = None <-> name ∉ (device_name <$> rows s).
Proof.
  unfold search. rewrite find_idx_None. split.
  - intros Hn (d & -> & Hd)%list_elem_of_fmap. apply Hn in Hd. by rewrite streq_refl in Hd.
  - intros Hn d Hd. apply streq_ne. intros <-. apply Hn. apply list_elem_of_fmap. by exists d.
Qed.

Lemma size_table l : NoDup (device_name <$> l) -> size (table_map l) = length l.
Proof.
  intros Hnd. unfold table_map. rewrite map_size_list_to_map.
  - apply length_fmap.
  - by rewrite table_keys.
Qed.

(** What an update does to the devices in use, when the name fits. *)
Lemma update_rows device rd b l s :
  stats_wf s -> (String.length device <= 63)%nat ->
  rows (update_storage_stats device rd b l s) =
  match search device s with
  | Some i => alter (bump rd b l) i (rows s)
  | None =>
      if (device_count s <? MAX_DEVICES)%nat
      then rows s ++ [bump rd b l (mk_stats device 0 0 0 0 0 0 1)]
      else rows s
  end.
Proof.
  intros Hwf Hshort. unfold update_storage_stats, get_device_stats.
  destruct (search device s) as [i|] eqn:E.
  - apply rows_account. apply search_Some in E as (d & Hd & _). by apply rows_lookup in Hd as [? _].
  - destruct (Nat.ltb_spec (device_count s) MAX_DEVICES) as [Hlt|]; [|done].
    rewrite rows_account by (simpl; lia). simpl. rewrite Nat.sub_0_r.
    assert (rows (mk_state (<[device_count s:=fresh_stats device]> (device_stats s))
                           (S (device_count s)) (debug s))
            = rows s ++ [fresh_stats device]) as ->.
    { unfold rows. simpl. destruct Hwf as [Hl Hc _ _].
      rewrite (take_S_r _ _ (fresh_stats device)) by (apply list_lookup_insert_eq; lia).
      by rewrite take_insert_ge. }
    rewrite <- (rows_length s Hwf) at 1. rewrite alter_app_r_alt by lia.
    rewrite Nat.sub_diag. simpl. unfold fresh_stats. by rewrite str_take_ge.
Qed.

(** C2. As long as device names fit the 63 bytes of a slot, the table refines
    a bounded map from device names to counters: an update has on the map
    exactly the effect of the specification (count the operation; start a new
    device if fewer than sixteen are tracked; otherwise drop it), and keeps
    the names distinct. *)
Theorem update_refines device rd b l s :
  stats_wf s -> distinct_names s -> (String.length device <= 63)%nat ->
  abstraction (update_storage_stats device rd b l s) =
    spec_update device rd b l (abstraction s) /\
  distinct_names (update_storage_stats device rd b l s).
Proof.
  intros Hwf Hnd Hshort. unfold abstraction, distinct_names, spec_update in *.
  rewrite (update_rows _ _ _ _ _ Hwf Hshort).
  destruct (search device s) as [i|] eqn:E.
  - apply search_Some in E as (d & Hd & <-).
    rewrite (table_map_lookup _ _ _ Hnd Hd). split; [by apply table_map_alter|].
    by rewrite names_alter.
  - apply search_None in E. rewrite (table_map_None _ _ E).
    rewrite size_table, rows_length by done.
    destruct (device_count s <? MAX_DEVICES)%nat; [|done]. split.
    + unfold table_map. rewrite fmap_app. simpl. rewrite list_to_map_snoc; [done|].
      by rewrite table_keys.
    + rewrite fmap_app. apply NoDup_app. split; [done|]. simpl. split; [|apply NoDup_singleton].
      intros x Hx ->%list_elem_of_singleton. done.
Qed.

(** The hypotheses of the refinement hold for the first update of an empty table. *)
Lemma update_refines_witness :
  abstraction (update_storage_stats "sda" true 512 7 (loaded 0)) =
    {[ "sda" := mk_counters 1 0 512 0 7 1 ]}.
Proof.
  destruct (update_refines "sda" true 512 7 (loaded 0)) as [E _].
  - apply loaded_wf.
  - apply NoDup_nil_2.
  - simpl. lia.
  - rewrite E. vm_compute. reflexivity.
Defined.

(** [reset] keeps the devices and zeroes their counters. *)
Lemma reset_rows s : rows (reset_stats s) = clear_stats <$> rows s.
Proof.
  apply list_eq. intros i. rewrite list_lookup_fmap. unfold rows, reset_stats. simpl.
  destruct (decide (i < device_count s)%nat) as [Hi|Hi].
  - rewrite !lookup_take_lt by done. rewrite list_lookup_imap.
    destruct (device_stats s !! i); [|done]. simpl.
    by rewrite (proj2 (Nat.ltb_lt _ _) Hi).
  - by rewrite !lookup_take_ge by lia.
Qed.

Lemma table_map_clear l : table_map (clear_stats <$> l) = spec_reset (table_map l).
Proof.
  induction l as [|d l IH]; [symmetry; apply fmap_empty|].
  rewrite fmap_cons, !table_map_cons, IH. unfold spec_reset. by rewrite fmap_insert.
Qed.

Lemma reset_refines s : abstraction (reset_stats s) = spec_reset (abstraction s).
Proof. unfold abstraction. by rewrite reset_rows, table_map_clear. Qed.

(** The command in the bytes of a write, with or without a final newline. *)
Lemma chop_newline_line cmd : str_mem nl cmd = false -> chop_newline cmd = cmd /\ chop_newline (cmd +:+ NL) = cmd.
Proof.
  intros Hn. unfold chop_newline. split.
  - destruct (String.length cmd =? 0)%nat; [done|]. destruct (streq _ NL) eqn:E; [|done].
    apply streq_spec in E. exfalso. revert E Hn. generalize (String.length cmd - 1)%nat.
    induction cmd as [|c cmd IH]; intros [|n]; try done.
    + intros [= -> ->]. done.
    + cbn [str_drop str_mem]. intros E [_ Hc]%orb_false_iff. by eapply IH.
  - rewrite str_length_app. change (String.length NL) with 1%nat.
    destruct (Nat.eqb_spec (String.length cmd + 1) 0); [lia|].
    rewrite Nat.add_sub. rewrite str_take_app_l, str_take_ge by lia.
    assert (str_drop (String.length cmd) (cmd +:+ NL) = NL) as ->; [|by rewrite streq_refl].
    clear. by induction cmd as [|c cmd IH].
Qed.
Lemma str_before_none x c : str_mem c x = false -> str_before x c = x.
Proof.
  induction x as [|a x IH]; [done|]. cbn [str_mem str_before]. intros [Ha Hx]%orb_false_iff. by rewrite Ha, IH.
Qed.
Lemma command_of_line cmd tail : str_mem nl cmd = false -> str_mem NUL cmd = false -> tail = "" \/ tail = NL ->
  command_of (cmd +:+ tail) = cmd.
Proof.
  intros Hn Hz Ht. unfold command_of. destruct (chop_newline_line cmd Hn) as [E1 E2].
  destruct Ht as [-> | ->]; rewrite ?str_app_nil_r, ?E1, ?E2; by apply str_before_none.
Qed.

Lemma debug_arg x y : "debug " +:+ x = "debug " +:+ y -> x = y.
Proof. intros E. by injection E. Qed.

(** C14. What a write to /proc/storage_stats does.  64 bytes or more are
    refused with -EINVAL, a bad user pointer with -EFAULT, and nothing changes;
    a write of no bytes is undefined.  Otherwise the write is a command, with
    or without a final newline: "reset" keeps the devices and sets all their
    counters to 0; "debug on" and "debug off" set the debug flag and nothing
    else; these, and "debug " with anything else, which changes nothing, return
    the number of bytes; every other command returns -EINVAL and changes
    nothing. *)
Theorem write_spec s :
  (forall fault buffer, 64 <= strlen buffer -> storage_stats_write fault buffer s = Some (- EINVAL, s)) /\
  (forall buffer, strlen buffer < 64 -> storage_stats_write true buffer s = Some (- EFAULT, s)) /\
  storage_stats_write false "" s = None /\
  (forall cmd tail, str_mem nl cmd = false -> str_mem NUL cmd = false -> tail = "" \/ tail = NL ->
    cmd +:+ tail <> "" -> strlen (cmd +:+ tail) < 64 ->
    exists r s', storage_stats_write false (cmd +:+ tail) s = Some (r, s') /\
    (cmd = "reset" ->
      r = strlen (cmd +:+ tail) /\ abstraction s' = spec_reset (abstraction s) /\ debug s' = debug s /\
      device_name <$> rows s' = device_name <$> rows s) /\
    (cmd = "debug on" -> r = strlen (cmd +:+ tail) /\ s' = mk_state (device_stats s) (device_count s) 1) /\
    (cmd = "debug off" -> r = strlen (cmd +:+ tail) /\ s' = mk_state (device_stats s) (device_count s) 0) /\
    (forall x, cmd = "debug " +:+ x -> x <> "on" -> x <> "off" -> r = strlen (cmd +:+ tail) /\ s' = s) /\
    (cmd <> "reset" -> (forall x, cmd <> "debug " +:+ x) -> r = - EINVAL /\ s' = s)).
Proof.
  split_and!; [| |done|].
  { intros fault buffer Hl. unfold storage_stats_write. by rewrite (proj2 (Z.leb_le _ _) Hl). }
  { intros buffer Hl. unfold storage_stats_write. by rewrite (proj2 (Z.leb_gt _ _) Hl). }
  intros cmd tail Hn Hz Ht Hne Hl. unfold storage_stats_write. rewrite (proj2 (Z.leb_gt _ _) Hl).
  assert ((String.length (cmd +:+ tail) =? 0)%nat = false) as -> by (by destruct (cmd +:+ tail)).
  rewrite command_of_line by done. destruct (streq cmd "reset") eqn:E1; [apply streq_spec in E1; subst cmd|].
  { eexists _, _. split; [done|]. split_and!; try done. intros _. split; [done|]. split; [apply reset_refines|].
    split; [done|]. rewrite reset_rows, <- list_fmap_compose. done. }
  assert (cmd <> "reset") as H1 by (intros ->; by rewrite streq_refl in E1).
  destruct (has_prefix "debug " cmd) eqn:E2.
  - apply has_prefix_spec in E2 as [x ->]. change (str_drop 6 ("debug " +:+ x)) with x.
    destruct (streq x "on") eqn:E3; [apply streq_spec in E3 as ->|].
    { eexists _, _. split; [done|]. split_and!; try done.
      - by intros x <-%debug_arg.
      - intros _ Hx. by destruct (Hx "on"). }
    assert (x <> "on") as H2 by (intros ->; by rewrite streq_refl in E3).
    destruct (streq x "off") eqn:E4; [apply streq_spec in E4 as ->|].
    { eexists _, _. split; [done|]. split_and!; try done.
      - by intros x <-%debug_arg.
      - intros _ Hx. by destruct (Hx "off"). }
    assert (x <> "off") as H3 by (intros ->; by rewrite streq_refl in E4).
    eexists _, _. split; [done|]. split_and!; try done.
    + by intros E%(debug_arg x "on").
    + by intros E%(debug_arg x "off").
    + intros _ Hx. by destruct (Hx x).
  - assert (forall x, cmd <> "debug " +:+ x) as H2.
    { intros x ->. rewrite (proj2 (has_prefix_spec _ _)) in E2; [done|]. by exists x. }
    eexists _, _. split; [done|]. split_and!; try done.
    + by intros E%(H2 "on").
    + by intros E%(H2 "off").
    + by intros x E%(H2 x).
Qed.

(** A table with a device in it, reset; and a command nobody knows. *)
Definition counted : stats_state := update_storage_stats "sda" true 512 7 (loaded 1).

Lemma write_spec_witness :
  abstraction counted = {[ "sda" := mk_counters 1 0 512 0 7 1 ]} /\
  (exists s', storage_stats_write false ("reset" +:+ NL) counted = Some (6, s') /\
     abstraction s' = {[ "sda" := no_counters ]} /\ debug s' = 1) /\
  storage_stats_write false "status" counted = Some (- EINVAL, counted).
Proof.
  split; [vm_compute; reflexivity|].
  destruct (write_spec counted) as (_ & _ & _ & Hc). split.
  - destruct (Hc "reset" NL eq_refl eq_refl (or_intror eq_refl)) as (r & s' & E & Hr & _); [done|done|].
    destruct (Hr eq_refl) as (-> & Ha & Hd & _). exists s'. split; [exact E|]. split; [|exact Hd].
    rewrite Ha. vm_compute. reflexivity.
  - destruct (Hc "status" "" eq_refl eq_refl (or_introl eq_refl)) as (r & s' & E & _ & _ & _ & _ & Hu); [done|done|].
    destruct Hu as [-> ->]; [done|done|]. exact E.
Defined.

(** The report is consistent with the table: in every reachable state it
    lists each tracked device once, in slot order, and the "Total Operations"
    it prints for a device (reads plus writes, as a 64-bit sum) is the
    operation count the average latency was divided by. *)
Theorem show_consistent s :
  stats_reachable s ->
  match storage_stats_show s with
  | NoDevices => device_count s = 0%nat
  | Devices rs n =>
      n = device_count s /\ row_name <$> rs = device_name <$> rows s /\
      length rs = device_count s /\
      Forall2 (fun r d => row_ops r = op_count d /\
                 row_avg_latency_ns r * row_ops r <= total_latency_ns d) rs (rows s)
  end.
Proof.
  intros Hr%reachable_wf. unfold storage_stats_show.
  destruct (Nat.eqb_spec (device_count s) 0) as [|Hne]; [done|].
  assert (filter (fun d => active d <> 0) (take (device_count s) (device_stats s)) = rows s) as ->.
  { apply filter_all. apply Forall_lookup. intros i d [Hi Hd]%rows_lookup.
    rewrite (wf_active s Hr i d) by done. done. }
  split; [done|]. split; [by rewrite <- list_fmap_compose|].
  split; [by rewrite length_fmap, rows_length|].
  apply Forall2_fmap_l, Forall_Forall2_diag. apply Forall_lookup. intros i d [Hi Hd]%rows_lookup.
  destruct (proj1 (Forall_lookup _ _) (wf_slots s Hr) i d Hd). simpl. rewrite ok_ops0.
  split; [done|]. unfold in_u64 in *.
  destruct (Z.ltb_spec 0 (u64 (read_ops d + write_ops d))); [|lia].
  rewrite Z.mul_comm. by apply Z.mul_div_le.
Qed.

Lemma show_consistent_witness :
  exists rs, storage_stats_show (update_storage_stats "sda" false 8 10 (loaded 0))
    = Devices rs 1 /\ row_name <$> rs = ["sda"].
Proof.
  pose proof (show_consistent (update_storage_stats "sda" false 8 10 (loaded 0))) as G.
  assert (stats_reachable (update_storage_stats "sda" false 8 10 (loaded 0))) as Hr.
  { eapply (reach_op _ (OpUpdate "sda" false 8 10)); [apply loaded_reachable|reflexivity]. }
  apply G in Hr. eexists. split; [reflexivity|]. apply Hr.
Defined.

(** ** Names that do not fit *)

Lemma search_long name s : stats_wf s -> (64 <= String.length name)%nat -> search name s = None.
Proof.
  intros Hwf Hlong. apply search_None. intros (d & -> & Hd)%list_elem_of_fmap.
  apply list_elem_of_lookup in Hd as [i [_ Hd]%rows_lookup].
  pose proof (ok_name _ (proj1 (Forall_lookup _ _) (wf_slots s Hwf) i d Hd)). lia.
Qed.

Lemma update_long_count name rd b l s :
  stats_wf s -> (64 <= String.length name)%nat ->
  device_count (update_storage_stats name rd b l s) = min MAX_DEVICES (S (device_count s)).
Proof.
  intros Hwf Hlong. unfold update_storage_stats, get_device_stats. rewrite search_long by done.
  pose proof (wf_count s Hwf). destruct (Nat.ltb_spec (device_count s) MAX_DEVICES);
    cbn [device_count account]; lia.
Qed.

(** A device whose name has 64 bytes or more is stored cut to 63 and so is
    never found again: every update of it takes a fresh slot, and after
    sixteen of them the table is full and a device that was not tracked yet
    stays untracked. *)
Theorem long_name_exhausts name rd b l k s :
  stats_wf s -> (64 <= String.length name)%nat ->
  device_count (Nat.iter k (update_storage_stats name rd b l) s) =
    min MAX_DEVICES (device_count s + k) /\
  (MAX_DEVICES <= k -> forall other rd' b' l',
     search other (Nat.iter k (update_storage_stats name rd b l) s) = None ->
     update_storage_stats other rd' b' l' (Nat.iter k (update_storage_stats name rd b l) s) =
       Nat.iter k (update_storage_stats name rd b l) s)%nat.
Proof.
  intros Hwf Hlong.
  assert (forall j, stats_wf (Nat.iter j (update_storage_stats name rd b l) s) /\
    device_count (Nat.iter j (update_storage_stats name rd b l) s) =
      min MAX_DEVICES (device_count s + j)) as G.
  { induction j as [|j [Hj Cj]].
    - pose proof (wf_count s Hwf). split; [done|]. change (Nat.iter 0 _ s) with s. lia.
    - rewrite Nat.iter_succ. split; [by apply update_wf|].
      rewrite update_long_count, Cj by done. lia. }
  destruct (G k) as [Hk Ck]. split; [done|]. intros Hge other rd' b' l' Hs.
  unfold update_storage_stats at 1, get_device_stats. rewrite Hs, Ck.
  destruct (Nat.ltb_spec (min MAX_DEVICES (device_count s + k)) MAX_DEVICES); [lia|done].
Qed.

Definition long_device : string :=
  "/dev/mapper/vg_production_storage-lv_database_backup_volume_0123".

Lemma long_name_exhausts_witness :
  (64 <= String.length long_device)%nat /\
  device_count (Nat.iter 16 (update_storage_stats long_device true 1 1) (loaded 0)) = 16%nat.
Proof.
  split; [vm_compute; lia|].
  destruct (long_name_exhausts long_device true 1 1 16 (loaded 0)) as [E _].
  - apply loaded_wf.
  - vm_compute; lia.
  - rewrite E. reflexivity.
Defined.

(** ** Concurrent updates *)

(** [update_storage_stats] run by one processor among several.  The two
    critical sections are atomic under [stats_lock]; between them, when a
    device was created, [get_device_stats] evaluates
    [&device_stats[device_count - 1]] after it released the lock. *)
Inductive upd_pc :=
  | PStart              (* before get_device_stats *)
  | PCreated            (* slot created, lock released, pointer not computed *)
  | PHave (i : nat)     (* pointer to slot i *)
  | PDone (counted : bool).

Record cpu := mk_cpu {
  rq_device : string; rq_read : bool; rq_bytes : Z; rq_latency : Z; rq_pc : upd_pc;
}.

Definition at_pc (c : cpu) (pc : upd_pc) : cpu :=
  mk_cpu (rq_device c) (rq_read c) (rq_bytes c) (rq_latency c) pc.

Definition cpu_step (c : cpu) (s : stats_state) : cpu * stats_state :=
  match rq_pc c with
  | PStart =>
      match search (rq_device c) s with
      | Some i => (at_pc c (PHave i), s)
      | None =>
          if (device_count s <? MAX_DEVICES)%nat then
            (at_pc c PCreated,
             mk_state (<[device_count s := fresh_stats (rq_device c)]> (device_stats s))
                      (S (device_count s)) (debug s))
          else (at_pc c (PDone false), s)
      end
  | PCreated => (at_pc c (PHave (device_count s - 1)), s)
  | PHave i => (at_pc c (PDone true), account i (rq_read c) (rq_bytes c) (rq_latency c) s)
  | PDone b => (c, s)
  end.

Definition machine : Type := list cpu * stats_state.

(** One processor, chosen freely, makes its next step. *)
Inductive machine_step : machine -> machine -> Prop :=
  | machine_cpu cpus s t c :
      cpus !! t = Some c ->
      machine_step (cpus, s) (<[t := (cpu_step c s).1]> cpus, (cpu_step c s).2).

(** A processor that makes all its steps in a row. *)
Definition cpu_run (c : cpu) (s : stats_state) : cpu * stats_state :=
  let '(c1, s1) := cpu_step c s in
  let '(c2, s2) := cpu_step c1 s1 in
  cpu_step c2 s2.

(** Alone, a processor computes the sequential function. *)
Lemma cpu_alone device rd b l s :
  (cpu_run (mk_cpu device rd b l PStart) s).2 = update_storage_stats device rd b l s.
Proof.
  unfold cpu_run, update_storage_stats, get_device_stats, cpu_step. simpl.
  destruct (search device s); [done|]. by destruct (device_count s <? MAX_DEVICES)%nat.
Qed.

Definition ops_total (s : stats_state) : Z :=
  foldr (fun d acc => op_count d + acc) 0 (rows s).

Definition is_counted (c : cpu) : bool :=
  match rq_pc c with PDone true => true | _ => false end.

(** Every pointer a processor holds names a slot in use. *)
Definition cpu_ok (s : stats_state) (c : cpu) : Prop :=
  match rq_pc c with
  | PCreated => (0 < device_count s)%nat
  | PHave i => (i < device_count s)%nat
  | _ => True
  end.

Lemma ops_total_create s name :
  stats_wf s -> (device_count s < MAX_DEVICES)%nat ->
  ops_total (mk_state (<[device_count s := fresh_stats name]> (device_stats s))
                      (S (device_count s)) (debug s)) = ops_total s.
Proof.
  intros [Hl _ _ _] Hlt. unfold ops_total, rows. simpl.
  rewrite (take_S_r _ _ (fresh_stats name)) by (apply list_lookup_insert_eq; lia).
  rewrite take_insert_ge by lia. by rewrite foldr_app.
Qed.

Lemma ops_total_alter f (l : list device_stats_t) i :
  (forall d, op_count (f d) = u64 (op_count d + 1)) -> (i < length l)%nat ->
  u64 (foldr (fun d acc => op_count d + acc) 0 (alter f i l)) =
  u64 (foldr (fun d acc => op_count d + acc) 0 l + 1).
Proof.
  intros Hf. revert i. induction l as [|d l IH]; intros [|i] Hi; simpl in *; try lia.
  - rewrite Hf, u64_add_l. f_equal. lia.
  - change (list_alter f i l) with (alter f i l).
    rewrite <- u64_add_r, IH by lia. rewrite u64_add_r. f_equal. lia.
Qed.

Lemma get_create_wf s name :
  stats_wf s -> (device_count s < MAX_DEVICES)%nat -> search name s = None ->
  stats_wf (mk_state (<[device_count s := fresh_stats name]> (device_stats s))
                     (S (device_count s)) (debug s)).
Proof.
  intros Hwf Hlt Hs. destruct (get_device_stats name s) as [i s'] eqn:E.
  pose proof (get_device_stats_wf _ _ _ _ Hwf E) as [Hwf' _].
  unfold get_device_stats in E. rewrite Hs, (proj2 (Nat.ltb_lt _ _) Hlt) in E.
  by simplify_eq/=.
Qed.

(** One step keeps the table well formed, keeps every held pointer in range,
    and accounts for exactly the updates that completed. *)
Lemma cpu_step_inv c s c' s' :
  stats_wf s -> cpu_ok s c -> cpu_step c s = (c', s') ->
  stats_wf s' /\ cpu_ok s' c' /\ (device_count s <= device_count s')%nat /\
  u64 (ops_total s') =
    u64 (ops_total s + (if is_counted c' then 1 else 0) - (if is_counted c then 1 else 0)).
Proof.
  intros Hwf Hok. unfold cpu_step, cpu_ok, is_counted in *.
  destruct (rq_pc c) as [| |i|b] eqn:Hpc.
  - destruct (search _ s) as [i|] eqn:E; [|destruct (Nat.ltb_spec (device_count s) MAX_DEVICES)];
      intros [= <- <-]; simpl.
    + apply search_Some in E as (d & [Hi _]%rows_lookup & _).
      split_and!; try done. f_equal. lia.
    + split; [by apply get_create_wf|]. split; [lia|]. split; [lia|].
      rewrite ops_total_create by done. f_equal. lia.
    + split_and!; try done. f_equal. lia.
  - intros [= <- <-]. simpl. split_and!; try done; [lia|]. f_equal. lia.
  - intros [= <- <-]. simpl. split; [by apply account_wf|]. do 2 (split; [done|]).
    unfold ops_total. rewrite rows_account by done.
    rewrite ops_total_alter; [f_equal; lia|done|]. by rewrite rows_length.
  - intros [= <- <-]. rewrite Hpc. split_and!; try done. f_equal. lia.
Qed.

Definition machine_inv (total : Z) (m : machine) : Prop :=
  stats_wf m.2 /\ Forall (cpu_ok m.2) m.1 /\
  u64 (ops_total m.2) = u64 (total + Z.of_nat (count is_counted m.1)).

Lemma cpu_ok_mono s s' c :
  (device_count s <= device_count s')%nat -> cpu_ok s c -> cpu_ok s' c.
Proof. unfold cpu_ok. intros. case_match; lia || done. Qed.

Lemma machine_step_inv total m m' :
  machine_inv total m -> machine_step m m' -> machine_inv total m'.
Proof.
  intros (Hwf & Hoks & Htot) Hstep. destruct Hstep as [cpus s t c Ht].
  unfold machine_inv in *. simpl in *.
  destruct (cpu_step c s) as [c' s'] eqn:E. simpl.
  destruct (cpu_step_inv c s c' s' Hwf (proj1 (Forall_lookup _ _) Hoks t c Ht) E)
    as (Hwf' & Hok' & Hmono & Htot').
  split; [done|]. split.
  - apply Forall_insert; [|done]. eapply Forall_impl; [exact Hoks|].
    intros x. by apply cpu_ok_mono.
  - pose proof (count_insert is_counted cpus t c c' Ht) as Hc.
    rewrite Htot'. replace (ops_total s + _ - _)
      with (ops_total s + ((if is_counted c' then 1 else 0) - (if is_counted c then 1 else 0))) by lia.
    rewrite <- u64_add_l, Htot, u64_add_l. f_equal.
    destruct (is_counted c), (is_counted c'); lia.
Qed.

(** C3. However the processors interleave, no update is lost and no counter
    outside the table is touched: from a well-formed table, every pointer held
    by a processor names a slot in use, and the operation counters of all
    devices together have grown by exactly the number of updates that
    completed (modulo 2^64). *)
Theorem updates_conserved cpus s cpus' s' :
  stats_wf s -> Forall (fun c => rq_pc c = PStart) cpus ->
  rtc machine_step (cpus, s) (cpus', s') ->
  stats_wf s' /\ Forall (cpu_ok s') cpus' /\
  u64 (ops_total s') = u64 (ops_total s + Z.of_nat (count is_counted cpus')).
Proof.
  intros Hwf Hst Hsteps.
  assert (machine_inv (ops_total s) (cpus, s)) as Hinv.
  { split; [done|]. simpl. split.
    - eapply Forall_impl; [exact Hst|]. intros c Hc. unfold cpu_ok. by rewrite Hc.
    - rewrite count_all_false; [f_equal; lia|]. intros c Hc.
      unfold is_counted. by rewrite (proj1 (Forall_forall _ _) Hst c Hc). }
  change (machine_inv (ops_total s) (cpus', s')).
  eapply (rtc_ind_r (fun m => machine_inv (ops_total s) m)); [exact Hinv| |exact Hsteps].
  intros. by eapply machine_step_inv.
Qed.

(** A schedule names the processor of each step. *)
Fixpoint run_schedule (sched : list nat) (m : machine) : machine :=
  match sched with
  | [] => m
  | t :: sched' =>
      match m.1 !! t with
      | Some c => run_schedule sched' (<[t := (cpu_step c m.2).1]> m.1, (cpu_step c m.2).2)
      | None => m
      end
  end.

Lemma run_schedule_rtc sched m : rtc machine_step m (run_schedule sched m).
Proof.
  revert m. induction sched as [|t sched IH]; intros [cpus s]; simpl; [done|].
  destruct (cpus !! t) as [c|] eqn:E; [|done].
  eapply rtc_l; [by apply machine_cpu|]. apply IH.
Qed.

Definition two_cpus : list cpu :=
  [mk_cpu "sda" true 100 5 PStart; mk_cpu "sdb" true 200 6 PStart].

Lemma updates_conserved_witness :
  u64 (ops_total (run_schedule [0; 1; 0; 0; 1; 1]%nat (two_cpus, loaded 0)).2) = 2.
Proof.
  pose proof (run_schedule_rtc [0; 1; 0; 0; 1; 1]%nat (two_cpus, loaded 0)) as R.
  destruct (run_schedule [0; 1; 0; 0; 1; 1]%nat (two_cpus, loaded 0))
    as [cpus' s'] eqn:E.
  destruct (updates_conserved two_cpus (loaded 0) cpus' s') as (_ & _ & G).
  - apply loaded_wf.
  - repeat constructor.
  - exact R.
  - simpl. rewrite G. vm_compute in E. injection E as <- _. vm_compute. reflexivity.
Defined.

(** The pointer computed after the lock was released can name another
    device's slot: there is an interleaving of one first update of "sda" and
    one first update of "sdb" after which both completed, yet "sda" has no
    operation counted and "sdb" has two and the bytes of both. *)
Theorem created_slot_race :
  exists cpus' s',
    rtc machine_step (two_cpus, loaded 0) (cpus', s') /\
    Forall (fun c => rq_pc c = PDone true) cpus' /\
    abstraction s' = {[ "sda" := no_counters; "sdb" := mk_counters 2 0 300 0 11 2 ]} /\
    abstraction s' <> spec_update "sdb" true 200 6 (spec_update "sda" true 100 5 ∅).
Proof.
  destruct (run_schedule [0; 1; 0; 0; 1; 1]%nat (two_cpus, loaded 0))
    as [cpus' s'] eqn:E.
  exists cpus', s'. split; [rewrite <- E; apply run_schedule_rtc|].
  vm_compute in E. injection E as <- <-.
  split; [repeat constructor|]. split; [vm_compute; reflexivity|].
  intros Heq. apply (f_equal (fun m => m !! "sda")) in Heq. vm_compute in Heq. done.
Qed.
