(* ===== verification/Daemon.v ===== *)
(** * src/daemon.c: worker table, signals, PID file, shutdown

    The static variables of the daemon ([workers], [worker_count],
    [daemon_running], [reload_config]) and every operation on them, over the
    process and file interfaces of [Sys].  Reads and writes of [workers]
    outside the array are undefined behaviour. *)

From stdpp Require Import base list gmap strings pretty.
From Stdlib Require Import Ascii ZArith Lia.
From S2P Require Import Prelude CString CFormat Sys.

(** ** include/daemon.h *)

Definition PID_FILE : string := "/var/run/storage_mgr.pid".
Definition PID_FILE_LOCAL : string := "./storage_mgr.pid".
Definition MAX_WORKERS : nat := 10.

Definition WORKER_IDLE : Z := 0.
Definition WORKER_BUSY : Z := 1.
Definition WORKER_FAILED : Z := -1.

Record worker_t := mk_worker {
  pid : Z;
  status : Z;
  started : Z;
  task : string;
}.

Definition zero_worker : worker_t := mk_worker 0 0 0 "".

(** The statics of daemon.c together with the system they act on. *)
Record daemon (W : Type) := mk_daemon {
  workers : list worker_t;
  worker_count : Z;
  daemon_running : Z;
  reload_config : Z;
  os : W;
}.
Arguments mk_daemon {W}.
Arguments workers {W}.
Arguments worker_count {W}.
Arguments daemon_running {W}.
Arguments reload_config {W}.
Arguments os {W}.

Definition daemon_start {W} (w : W) : daemon W :=
  mk_daemon (replicate MAX_WORKERS zero_worker) 0 1 0 w.

(** What [daemon_log(format, ...)] gives to syslog and to the standard error:
    the text is cut to the 1024 bytes of the buffer. *)
Definition daemon_log (format : string) (args : list carg) : string * string :=
  let buffer := snprintf 1024 format args in
  (sprintf "%s" [CStr buffer], sprintf ("[DAEMON] %s" +:+ NL) [CStr buffer]).

(** How a call of a function that may [exit] ends. *)
Inductive ctl := Ret (code : Z) | Exit (code : Z).

Section Daemon.
Context {W : Type} `{Files W} `{Procs W} `{Clock W}.

Definition set_os (d : daemon W) (w : W) : daemon W :=
  mk_daemon (workers d) (worker_count d) (daemon_running d) (reload_config d) w.
Definition set_workers (d : daemon W) (ws : list worker_t) : daemon W :=
  mk_daemon ws (worker_count d) (daemon_running d) (reload_config d) (os d).

(** A system call made by the daemon. *)
Definition sys {A} (f : W -> A * W) : M (daemon W) A :=
  fun d => let '(a, w) := f (os d) in Some (a, set_os d w).
Definition sys_read {A} (f : W -> A) : M (daemon W) A := fun d => Some (f (os d), d).

(** The worker shipped as an example; it only sleeps and logs. *)
Definition example_worker_func : M (daemon W) unit := sys (fun w => (tt, sleep 5 w)).

(** [workers[i]] read and written. *)
Definition get_worker (i : nat) : M (daemon W) worker_t :=
  fun d => match workers d !! i with Some x => Some (x, d) | None => None end.
Definition put_worker (i : nat) (x : worker_t) : M (daemon W) unit :=
  fun d => if (i <? length (workers d))%nat
           then Some (tt, set_workers d (<[i := x]> (workers d))) else None.

Definition with_pid (x : worker_t) (p : Z) : worker_t :=
  mk_worker p (status x) (started x) (task x).
Definition with_status (x : worker_t) (st : Z) : worker_t :=
  mk_worker (pid x) st (started x) (task x).

(** The indices a loop [for (i = 0; i < worker_count; i++)] visits. *)
Definition slots (d : daemon W) : list nat := seq 0 (Z.to_nat (worker_count d)).

(** ** Reaping *)

(** What [daemon_reap_zombies] records for a worker that ended with [st]. *)
Definition end_status (st : Z) : Z :=
  if WIFEXITED st then WORKER_IDLE
  else if WIFSIGNALED st then WORKER_FAILED
  else WORKER_FAILED.

(** The search loop with its [break]. *)
Definition mark_ended (p st : Z) : M (daemon W) unit :=
  fun d =>
    match find_idx (fun x => pid x =? p) (take (Z.to_nat (worker_count d)) (workers d)) with
    | Some i =>
        (let! x := get_worker i in
         put_worker i (with_pid (with_status x (end_status st)) 0)) d
    | None => if (Z.to_nat (worker_count d) <=? length (workers d))%nat
              then Some (tt, d) else None
    end.

(** [while ((pid = waitpid(-1, &status, WNOHANG)) > 0)]; [false] when the
    fuel ran out. *)
Fixpoint reap_loop (fuel : nat) : M (daemon W) bool :=
  match fuel with
  | O => ret false
  | S fuel' =>
      let! r := sys waitpid in
      match r with
      | Some (p, st) =>
          if 0 <? p then mark_ended p st ;;! reap_loop fuel' else ret true
      | None => ret true
      end
  end.

Definition daemon_reap_zombies : M (daemon W) unit :=
  fun d => (reap_loop (S (zombies (os d))) ;;! ret tt) d.

(** ** Workers *)

Definition daemon_spawn_worker (worker_func : M (daemon W) unit) : M (daemon W) ctl :=
  fun d =>
    if Z.of_nat MAX_WORKERS <=? worker_count d then Some (Ret (-1), d)
    else
      (let! p := sys fork in
       if p <? 0 then ret (Ret (-1))
       else if p =? 0 then worker_func ;;! ret (Exit 0)
       else
         let i := Z.to_nat (worker_count d) in
         let! now := sys time in
         put_worker i
           (mk_worker p WORKER_BUSY now
              (snprintf 256 "Worker task %d" [CInt (worker_count d)])) ;;!
         (fun d' => Some (Ret 0,
            mk_daemon (workers d') (worker_count d' + 1) (daemon_running d')
                      (reload_config d') (os d')))) d.

(** One turn of the loop of [daemon_monitor_workers]. *)
Definition monitor_slot (count : Z) (acc : Z * option (list worker_t)) (i : nat)
    : M (daemon W) (Z * option (list worker_t)) :=
  let '(active, listed) := acc in
  let! x := get_worker i in
  if 0 <? pid x then
    let! err := sys (kill (pid x) 0) in
    (if negb (err =? 0) then
       if err =? ESRCH then put_worker i (with_pid (with_status x WORKER_FAILED) 0)
       else ret tt
     else ret tt) ;;!
    let active' := if err =? 0 then active + 1 else active in
    let! y := get_worker i in
    match listed with
    | Some l =>
        if Z.of_nat i <? count then
          guard_ub (i <? length l)%nat ;;! ret (active', Some (<[i := y]> l))
        else ret (active', listed)
    | None => ret (active', None)
    end
  else ret (active, listed).

(** [daemon_monitor_workers(worker_list, count)]: the number of live workers
    and the caller's array, when there is one. *)
Definition daemon_monitor_workers (worker_list : option (list worker_t)) (count : Z)
    : M (daemon W) (Z * option (list worker_t)) :=
  fun d => foldM (monitor_slot count) (0, worker_list)
             (filter (fun i => i < MAX_WORKERS)%nat (slots d)) d.

(** ** Signals and configuration *)

Definition daemon_signal_handler (sig : Z) : M (daemon W) unit :=
  if (sig =? SIGTERM) || (sig =? SIGINT) then
    fun d => Some (tt, mk_daemon (workers d) (worker_count d) 0 (reload_config d) (os d))
  else if sig =? SIGHUP then
    fun d => Some (tt, mk_daemon (workers d) (worker_count d) (daemon_running d) 1 (os d))
  else if sig =? SIGCHLD then daemon_reap_zombies
  else if sig =? SIGUSR1 then
    (* reads every slot to log it *)
    fun d => forM (fun i => get_worker i ;;! ret tt) (slots d) d
  else ret tt.

Definition daemon_reload_config : M (daemon W) Z :=
  fun d => Some (0, mk_daemon (workers d) (worker_count d) (daemon_running d) 0 (os d)).

(** ** PID file *)

Definition open_pid_file (pid_file : string) (w : W) : option string :=
  match fopen_r pid_file w with
  | Some t => Some t
  | None => fopen_r PID_FILE_LOCAL w
  end.

(** [fscanf(fp, "%d", &pid) == 1] *)
Definition scan_pid (text : string) : option Z :=
  match sscanf "%d" text with
  | CInt p :: _ => Some p
  | _ => None
  end.

Definition daemon_is_running (pid_file : string) : M (daemon W) Z :=
  let! t := sys_read (open_pid_file pid_file) in
  match t with
  | None => ret 0
  | Some text =>
      match scan_pid text with
      | None => ret 0
      | Some p => let! r := sys (kill p 0) in if r =? 0 then ret 1 else ret 0
      end
  end.

Definition daemon_read_pid (pid_file : string) : M (daemon W) Z :=
  let! t := sys_read (open_pid_file pid_file) in
  match t with
  | None => ret (-1)
  | Some text => match scan_pid text with None => ret (-1) | Some p => ret p end
  end.

Definition pid_path (path : option string) : string :=
  match path with Some p => p | None => PID_FILE end.

Definition daemon_create_pidfile (path : option string) : M (daemon W) Z :=
  let pidfile_path := pid_path path in
  let! r := daemon_is_running pidfile_path in
  if negb (r =? 0) then ret (-1)
  else
    let! me := sys_read getpid in
    let text := sprintf "%d" [CInt me] +:+ NL in
    let! ok := sys (fopen_w pidfile_path text) in
    if ok then sys (chmod pidfile_path 420) ;;! ret 0
    else
      let! ok' := sys (fopen_w PID_FILE_LOCAL text) in
      if ok' then sys (chmod PID_FILE_LOCAL 420) ;;! ret 0 else ret (-1).

Definition daemon_remove_pidfile (path : option string) : M (daemon W) Z :=
  let! err := sys (unlink (pid_path path)) in
  (if negb (err =? 0) && negb (err =? ENOENT)
   then sys (unlink PID_FILE_LOCAL) ;;! ret tt else ret tt) ;;!
  ret 0.

(** ** Shutdown *)

Definition terminate_slot (i : nat) : M (daemon W) unit :=
  let! x := get_worker i in
  if 0 <? pid x then sys (kill (pid x) SIGTERM) ;;! ret tt else ret tt.

Definition force_slot (i : nat) : M (daemon W) unit :=
  let! x := get_worker i in
  if 0 <? pid x then
    let! r := sys (kill (pid x) 0) in
    if r =? 0 then sys (kill (pid x) SIGKILL) ;;! ret tt else ret tt
  else ret tt.

Definition daemon_shutdown : M (daemon W) unit :=
  fun d =>
    (forM terminate_slot (slots d) ;;!
     sys (fun w => (tt, sleep 2 w)) ;;!
     forM force_slot (slots d) ;;!
     daemon_reap_zombies ;;!
     daemon_remove_pidfile None ;;! ret tt) d.
End Daemon.

(** ** Invariant *)

Section DaemonInvariant.
Context {W : Type} `{Files W} `{Procs W} `{Clock W}.
Implicit Types d : daemon W.

(** A slot in use: a live worker is busy, an ended one is idle or failed. *)
Definition slot_wf (x : worker_t) : Prop :=
  0 <= pid x /\ (0 < pid x -> status x = WORKER_BUSY) /\
  (pid x = 0 -> status x = WORKER_IDLE \/ status x = WORKER_FAILED).

(** The array has its ten slots, the count stays within it, the slots below
    the count are in one of their three states and the others untouched. *)
Record daemon_wf d : Prop := {
  dwf_len : length (workers d) = MAX_WORKERS;
  dwf_count : 0 <= worker_count d <= Z.of_nat MAX_WORKERS;
  dwf_used : forall i x, (i < Z.to_nat (worker_count d))%nat ->
    workers d !! i = Some x -> slot_wf x;
  dwf_free : forall i x, (Z.to_nat (worker_count d) <= i)%nat ->
    workers d !! i = Some x -> x = zero_worker;
}.

(** Well formed, with [n] slots handed out. *)
Definition wf_at (n : Z) d : Prop := daemon_wf d /\ worker_count d = n.

Lemma wf_at_sys {A} n (f : W -> A * W) : triple (wf_at n) (sys f) (fun _ => wf_at n).
Proof.
  intros d [[Hl Hc Hu Hf] Hn]. unfold sys. destruct (f (os d)) as [a w].
  exists a, (set_os d w). split; [done|]. by split.
Qed.

Lemma wf_at_sys_read {A} n (f : W -> A) : triple (wf_at n) (sys_read f) (fun _ => wf_at n).
Proof. intros d Hd. by exists (f (os d)), d. Qed.

Lemma wf_at_get n i :
  (i < Z.to_nat n)%nat -> triple (wf_at n) (get_worker i) (fun x d => wf_at n d /\ slot_wf x).
Proof.
  intros Hi d [Hwf Hn]. unfold get_worker.
  destruct (workers d !! i) as [x|] eqn:E.
  - exists x, d. split; [done|]. split; [done|]. eapply (dwf_used d Hwf i); [lia|done].
  - apply lookup_ge_None in E. destruct Hwf. unfold MAX_WORKERS in *. lia.
Qed.

Lemma wf_at_put n i x :
  (i < Z.to_nat n)%nat -> slot_wf x -> triple (wf_at n) (put_worker i x) (fun _ => wf_at n).
Proof.
  intros Hi Hx d [[Hl Hc Hu Hf] Hn]. unfold put_worker.
  destruct (Nat.ltb_spec i (length (workers d))) as [Hlt|Hge]; [|lia].
  eexists _, _. split; [done|]. split; [|done]. split; simpl.
  - by rewrite length_insert.
  - done.
  - intros j y Hj. destruct (decide (i = j)) as [<-|Hne].
    + rewrite list_lookup_insert_eq by done. by intros [= <-].
    + rewrite list_lookup_insert_ne by done. by apply Hu.
  - intros j y Hj. rewrite list_lookup_insert_ne by lia. by apply Hf.
Qed.

Lemma slots_lt d i : i ∈ slots d -> (i < Z.to_nat (worker_count d))%nat.
Proof. unfold slots. intros Hi%elem_of_seq. lia. Qed.

Lemma wf_at_mark_ended n p st : triple (wf_at n) (mark_ended p st) (fun _ => wf_at n).
Proof.
  intros d Hd. unfold mark_ended. destruct (find_idx _ _) as [i|] eqn:E.
  - assert (i < Z.to_nat n)%nat as Hi.
    { apply find_idx_lt in E. rewrite length_take in E. pose proof (proj2 Hd). lia. }
    refine (triple_bind (wf_at n) _ _ (fun x d => wf_at n d /\ slot_wf x) _ _ _ d Hd);
      [by apply wf_at_get|]. intros x. eapply triple_conseq; [apply (wf_at_put n i)| |done]; [done| |by intros ? []].
    unfold slot_wf, end_status. simpl. repeat case_match; split_and!; try lia; intros; auto.
  - destruct Hd as [Hwf Hn]. pose proof (dwf_len d Hwf). pose proof (dwf_count d Hwf).
    destruct (Nat.leb_spec (Z.to_nat (worker_count d)) (length (workers d))) as [|Hlt].
    + by exists tt, d.
    + unfold MAX_WORKERS in *. lia.
Qed.

Lemma wf_at_reap_loop n fuel : triple (wf_at n) (reap_loop fuel) (fun _ => wf_at n).
Proof.
  induction fuel as [|fuel IH]; simpl; [by apply triple_ret|].
  eapply triple_bind; [apply wf_at_sys|]. intros [[p st]|]; [|by apply triple_ret].
  destruct (0 <? p); [|by apply triple_ret].
  eapply triple_bind; [apply wf_at_mark_ended|]. intros u. apply IH.
Qed.

Lemma wf_at_reap n : triple (wf_at n) daemon_reap_zombies (fun _ => wf_at n).
Proof.
  intros d Hd. unfold daemon_reap_zombies.
  refine (triple_bind (wf_at n) _ _ (fun _ => wf_at n) _ _ _ d Hd); [apply wf_at_reap_loop|].
  intros b. by apply triple_ret.
Qed.

(** The caller's array holds the [count] entries it announces. *)
Definition fits (l : option (list worker_t)) (count : Z) : Prop :=
  match l with Some l => count <= Z.of_nat (length l) | None => True end.

Lemma wf_at_monitor_slot n c active listed i :
  (i < Z.to_nat n)%nat ->
  triple (fun d => wf_at n d /\ fits listed c) (monitor_slot c (active, listed) i)
         (fun r d => wf_at n d /\ fits r.2 c).
Proof.
  intros Hi d [Hd Hfit]. cut (triple (wf_at n) (monitor_slot c (active, listed) i)
    (fun r d => wf_at n d /\ fits r.2 c)); [intros G; by apply G|]. clear d Hd.
  unfold monitor_slot. eapply triple_bind; [by apply wf_at_get|]. intros x.
  eapply (triple_conseq _ (wf_at n) _ _ (fun r d => wf_at n d /\ fits r.2 c)); [|by intros ? []|auto].
  destruct (0 <? pid x) eqn:Hp; [|by apply triple_ret].
  eapply triple_bind; [apply wf_at_sys|]. intros err.
  eapply (triple_bind _ _ _ (fun _ => wf_at n)).
  - repeat case_match; try by apply triple_ret. apply wf_at_put; [done|].
    unfold slot_wf. simpl. split_and!; try lia; intros; auto.
  - intros u. eapply triple_bind; [by apply wf_at_get|]. intros y.
    eapply (triple_conseq _ (wf_at n) _ _ (fun r d => wf_at n d /\ fits r.2 c)); [|by intros ? []|auto].
    destruct listed as [l|]; [|by apply triple_ret].
    destruct (Z.ltb_spec (Z.of_nat i) c) as [Hlt|]; [|by apply triple_ret].
    simpl in Hfit. rewrite (proj2 (Nat.ltb_lt i (length l))) by lia.
    eapply triple_bind; [by apply (triple_ret _ _ (fun _ => wf_at n))|]. intros u'.
    apply triple_ret. intros w Hw. split; [done|]. simpl. by rewrite length_insert.
Qed.

Lemma wf_at_monitor n l c :
  fits l c -> triple (wf_at n) (daemon_monitor_workers l c) (fun _ => wf_at n).
Proof.
  intros Hfit d Hd. unfold daemon_monitor_workers.
  assert (forall i, i ∈ filter (fun i => i < MAX_WORKERS)%nat (slots d) -> (i < Z.to_nat n)%nat)
    as Hin.
  { intros i [_ Hi%slots_lt]%list_elem_of_filter. by rewrite (proj2 Hd) in Hi. }
  refine (triple_conseq (wf_at n) (fun d => wf_at n d /\ fits l c) _ _
    (fun r d => wf_at n d /\ fits r.2 c) _ _ _ d Hd); [|by intros|by intros ? ? []].
  apply (triple_foldM_acc (fun r d => wf_at n d /\ fits r.2 c) _ _ (0, l)).
  intros [active listed] i Hi%Hin. by apply wf_at_monitor_slot.
Qed.

Lemma wf_at_signal n sig : triple (wf_at n) (daemon_signal_handler sig) (fun _ => wf_at n).
Proof.
  unfold daemon_signal_handler. repeat case_match; try (by apply triple_ret); try apply wf_at_reap.
  - intros d [[] ?]. eexists _, _. by split.
  - intros d [[] ?]. eexists _, _. by split.
  - intros d Hd. assert (forall i, i ∈ slots d -> (i < Z.to_nat n)%nat) as Hin.
    { intros i Hi%slots_lt. by rewrite (proj2 Hd) in Hi. }
    revert Hd. apply triple_forM. intros i Hi%Hin.
    eapply triple_bind; [by apply wf_at_get|]. intros x. apply triple_ret. by intros ? [].
Qed.

Lemma wf_at_slots n (f : nat -> M (daemon W) unit) d :
  (forall i, (i < Z.to_nat n)%nat -> triple (wf_at n) (f i) (fun _ => wf_at n)) ->
  wf_at n d -> triple (wf_at n) (forM f (slots d)) (fun _ => wf_at n).
Proof.
  intros Hf Hd. apply triple_forM. intros i Hi%slots_lt. apply Hf.
  by rewrite (proj2 Hd) in Hi.
Qed.

Lemma wf_at_terminate n i :
  (i < Z.to_nat n)%nat -> triple (wf_at n) (terminate_slot i) (fun _ => wf_at n).
Proof.
  intros Hi. eapply triple_bind; [by apply wf_at_get|]. intros x.
  eapply (triple_conseq _ (wf_at n) _ _ (fun _ => wf_at n)); [|by intros ? []|auto].
  case_match; [|by apply triple_ret]. eapply triple_bind; [apply wf_at_sys|].
  intros r. by apply triple_ret.
Qed.

Lemma wf_at_force n i :
  (i < Z.to_nat n)%nat -> triple (wf_at n) (force_slot i) (fun _ => wf_at n).
Proof.
  intros Hi. eapply triple_bind; [by apply wf_at_get|]. intros x.
  eapply (triple_conseq _ (wf_at n) _ _ (fun _ => wf_at n)); [|by intros ? []|auto].
  case_match; [|by apply triple_ret]. eapply triple_bind; [apply wf_at_sys|].
  intros r. case_match; [|by apply triple_ret]. eapply triple_bind; [apply wf_at_sys|].
  intros r'. by apply triple_ret.
Qed.

Lemma wf_at_remove_pidfile n path : triple (wf_at n) (daemon_remove_pidfile path) (fun _ => wf_at n).
Proof.
  eapply triple_bind; [apply wf_at_sys|]. intros err.
  eapply (triple_bind _ _ _ (fun _ => wf_at n)); [|intros u; by apply triple_ret].
  case_match; [|by apply triple_ret]. eapply triple_bind; [apply wf_at_sys|].
  intros r. by apply triple_ret.
Qed.

Lemma wf_at_shutdown n : triple (wf_at n) daemon_shutdown (fun _ => wf_at n).
Proof.
  intros d Hd. unfold daemon_shutdown.
  refine (triple_bind (wf_at n) _ _ (fun _ => wf_at n) _ _ _ d Hd).
  { apply wf_at_slots; [apply wf_at_terminate|done]. }
  intros u1. eapply triple_bind; [apply wf_at_sys|]. intros u2.
  eapply (triple_bind _ _ _ (fun _ => wf_at n)).
  { apply wf_at_slots; [apply wf_at_force|done]. }
  intros u3. eapply triple_bind; [apply wf_at_reap|]. intros u4.
  eapply triple_bind; [apply wf_at_remove_pidfile|]. intros u5. by apply triple_ret.
Qed.

(** Registering a worker in the first free slot. *)
Lemma wf_register d n x :
  wf_at n d -> n < Z.of_nat MAX_WORKERS -> slot_wf x ->
  exists d', put_worker (Z.to_nat n) x d = Some (tt, d') /\ worker_count d' = n /\
    daemon_wf (mk_daemon (workers d') (n + 1) (daemon_running d') (reload_config d') (os d')).
Proof.
  intros [[Hl Hc Hu Hf] Hn] Hlt Hx. unfold put_worker.
  destruct (Nat.ltb_spec (Z.to_nat n) (length (workers d))) as [Hi|Hge]; [|lia].
  eexists. split; [done|]. split; [done|]. split; simpl.
  - by rewrite length_insert.
  - lia.
  - intros j y Hj. destruct (decide (Z.to_nat n = j)) as [<-|Hne].
    + rewrite list_lookup_insert_eq by done. by intros [= <-].
    + rewrite list_lookup_insert_ne by done. apply Hu. lia.
  - intros j y Hj. rewrite list_lookup_insert_ne by lia. apply Hf. lia.
Qed.

(** How a spawn can end: a new slot, a refusal that leaves the table alone,
    or, in the child, the end of the process. *)
Lemma spawn_spec n f d r d' :
  wf_at n d -> daemon_spawn_worker f d = Some (r, d') ->
  (r = Ret 0 /\ wf_at (n + 1) d') \/ (r = Ret (-1) /\ wf_at n d') \/ r = Exit 0.
Proof.
  intros Hd. unfold daemon_spawn_worker.
  pose proof (proj2 Hd) as Hn. rewrite Hn.
  destruct (Z.leb_spec (Z.of_nat MAX_WORKERS) n) as [|Hlt]; [intros [= <- <-]; auto|].
  intros (p & d1 & E1 & E)%bind_Some.
  destruct (wf_at_sys n fork d Hd) as (p' & d1' & E1' & Hd1).
  rewrite E1 in E1'. injection E1' as <- <-.
  destruct (p <? 0) eqn:Hneg; [injection E as <- <-; auto|].
  destruct (p =? 0) eqn:Hz.
  { apply bind_Some in E as (? & ? & _ & E). injection E as <- _. auto. }
  apply bind_Some in E as (now & d2 & E2 & E).
  destruct (wf_at_sys n time d1 Hd1) as (now' & d2' & E2' & Hd2).
  rewrite E2 in E2'. injection E2' as <- <-.
  set (x := mk_worker p WORKER_BUSY now _) in E.
  assert (slot_wf x) as Hx.
  { unfold slot_wf, x. simpl. apply Z.ltb_ge in Hneg. apply Z.eqb_neq in Hz.
    split_and!; [lia|done|lia]. }
  destruct (wf_register d2 n x Hd2 Hlt Hx) as (d3 & E3 & Hc3 & Hwf3).
  unfold bind in E. rewrite E3 in E. injection E as <- <-. left. rewrite Hc3. by split.
Qed.

(** The child never runs the parent's code, so a spawn is defined whenever
    the worker function is. *)
Lemma spawn_safe n f d : wf_at n d -> safe f -> is_Some (daemon_spawn_worker f d).
Proof.
  intros Hd Hf. unfold daemon_spawn_worker.
  pose proof (proj2 Hd) as Hn. rewrite Hn.
  destruct (Z.leb_spec (Z.of_nat MAX_WORKERS) n) as [|Hlt]; [by eexists|].
  destruct (wf_at_sys n fork d Hd) as (p & d1 & E1 & Hd1). unfold bind at 1. rewrite E1.
  destruct (p <? 0) eqn:Hneg; [by eexists|]. destruct (p =? 0) eqn:Hz.
  { destruct (Hf d1) as (u & d2 & E2). unfold bind. rewrite E2. by eexists. }
  destruct (wf_at_sys n time d1 Hd1) as (now & d2 & E2 & Hd2). unfold bind at 1. rewrite E2.
  edestruct (wf_register d2 n) as (d3 & E3 & _); [done|done| |].
  2:{ unfold bind. rewrite E3. by eexists. }
  unfold slot_wf. simpl. apply Z.ltb_ge in Hneg. apply Z.eqb_neq in Hz. split_and!; [lia|done|lia].
Qed.

(** ** Runs of the daemon *)

(** One event: the outside world moves on its own, or the daemon spawns a
    worker (successfully or not), checks its workers, handles a signal, or
    reloads its configuration.  The flag says whether a worker was started. *)
Inductive daemon_step : daemon W -> bool -> daemon W -> Prop :=
  | step_world d w : daemon_step d false (set_os d w)
  | step_spawned f d d' : daemon_spawn_worker f d = Some (Ret 0, d') -> daemon_step d true d'
  | step_refused f d d' : daemon_spawn_worker f d = Some (Ret (-1), d') -> daemon_step d false d'
  | step_monitor l c d r d' : fits l c -> daemon_monitor_workers l c d = Some (r, d') -> daemon_step d false d'
  | step_signal sig d d' : daemon_signal_handler sig d = Some (tt, d') -> daemon_step d false d'
  | step_reload d r d' : daemon_reload_config d = Some (r, d') -> daemon_step d false d'.

Inductive daemon_runs : daemon W -> nat -> daemon W -> Prop :=
  | runs_refl d : daemon_runs d 0 d
  | runs_step d n d1 b d2 :
      daemon_runs d n d1 -> daemon_step d1 b d2 ->
      daemon_runs d ((if b then 1 else 0) + n)%nat d2.

Lemma triple_run {A} n (c : M (daemon W) A) d a d' :
  triple (wf_at n) c (fun _ => wf_at n) -> wf_at n d -> c d = Some (a, d') -> wf_at n d'.
Proof.
  intros Hc Hd E. destruct (Hc d Hd) as (a2 & d2 & E2 & Hd2). rewrite E in E2.
  by injection E2 as <- <-.
Qed.

Lemma daemon_step_wf n d b d' :
  wf_at n d -> daemon_step d b d' -> wf_at (n + (if b then 1 else 0)) d'.
Proof.
  intros Hd Hstep. destruct Hstep as [d w|f d d' E|f d d' E|l c d r d' Hfit E|sig d d' E|d r d' E];
    rewrite ?Z.add_0_r.
  - by destruct Hd as [[] ?].
  - destruct (spawn_spec _ _ _ _ _ Hd E) as [[_ ?]|[[? _]|?]]; done.
  - destruct (spawn_spec _ _ _ _ _ Hd E) as [[? _]|[[_ ?]|?]]; done.
  - eapply triple_run; [by apply wf_at_monitor|done|done].
  - eapply triple_run; [apply wf_at_signal|done|done].
  - injection E as _ <-. by destruct Hd as [[] ?].
Qed.

Lemma start_wf w : wf_at 0 (daemon_start w).
Proof.
  split; [|done]. split; simpl; [done|unfold MAX_WORKERS; lia|lia|].
  intros i x _ Hx. by apply (lookup_replicate_1 MAX_WORKERS) in Hx as [-> _].
Qed.

Lemma runs_from n d k d' : daemon_runs d k d' -> wf_at n d -> wf_at (n + Z.of_nat k) d'.
Proof.
  intros Hr Hd. induction Hr as [d|d k d1 b d2 Hr IH Hs]; [by rewrite Z.add_0_r|].
  pose proof (daemon_step_wf _ _ _ _ (IH Hd) Hs) as Hwf.
  destruct b; simpl; [|by rewrite Z.add_0_r in Hwf].
  by replace (n + Z.of_nat (S k)) with (n + Z.of_nat k + 1) by lia.
Qed.

Lemma runs_wf w n d : daemon_runs (daemon_start w) n d -> wf_at (Z.of_nat n) d.
Proof. intros Hr. by apply (runs_from 0 _ _ _ Hr), start_wf. Qed.
End DaemonInvariant.
