(* ===== verification/DaemonProps.v ===== *)
(** * Properties of src/daemon.c

    Reachable worker tables, the life-time bound on workers, absence of
    out-of-range accesses, reaping, PID-file round trip and shutdown. *)

From stdpp Require Import base list gmap strings pretty.
From Stdlib Require Import Ascii ZArith Lia.
From S2P Require Import Prelude CString CFormat Sys SimOS Daemon.

(** ** Shared lemmas *)

Section Lemmas.
Context {W : Type} `{Files W} `{Procs W} `{Clock W}.
Implicit Types d : daemon W.

Lemma sys_eq {A} (f : W -> A * W) d : sys f d = Some ((f (os d)).1, set_os d (f (os d)).2).
Proof. unfold sys. by destruct (f (os d)). Qed.

Lemma put_same d i x y d' :
  put_worker i x d = Some (y, d') -> workers d' !! i = Some x /\
  worker_count d' = worker_count d /\ os d' = os d /\
  forall j, j <> i -> workers d' !! j = workers d !! j.
Proof.
  unfold put_worker. destruct (Nat.ltb_spec i (length (workers d))); [|done].
  intros [= _ <-]. simpl. split_and!; try done.
  - by rewrite list_lookup_insert_eq.
  - intros j Hj. by rewrite list_lookup_insert_ne.
Qed.

Context `{!ProcsLaws W}.

(** Signalling only moves the system on, and starts nothing. *)
Definition no_restart (w w' : W) : Prop := forall q, running q w' = true -> running q w = true.

Definition only_os d d' : Prop := workers d' = workers d /\ worker_count d' = worker_count d /\
  no_restart (os d) (os d').

Lemma only_os_refl d d' :
  workers d' = workers d -> worker_count d' = worker_count d -> os d' = os d -> only_os d d'.
Proof. unfold only_os, no_restart. intros ? ? ->. auto. Qed.

Lemma only_os_trans d1 d2 d3 : only_os d1 d2 -> only_os d2 d3 -> only_os d1 d3.
Proof.
  unfold only_os, no_restart. intros (E1 & C1 & R1) (E2 & C2 & R2).
  split_and!; [congruence|congruence|auto].
Qed.

Lemma terminate_slot_os i d u d' : terminate_slot i d = Some (u, d') -> only_os d d'.
Proof.
  unfold terminate_slot, get_worker, bind. destruct (workers d !! i) as [x|]; [|done].
  destruct (0 <? pid x); [|intros [= _ <-]; by apply only_os_refl].
  rewrite sys_eq. intros [= _ <-]. unfold only_os. split_and!; [done|done|].
  intros q. simpl. apply kill_mono.
Qed.

Lemma force_slot_os i d u d' x :
  workers d !! i = Some x -> force_slot i d = Some (u, d') ->
  only_os d d' /\ (0 < pid x -> running (pid x) (os d') = false).
Proof.
  intros Hx. unfold force_slot, get_worker, bind. rewrite Hx.
  destruct (Z.ltb_spec 0 (pid x)) as [Hp|Hp].
  2:{ intros [= _ <-]. split; [by apply only_os_refl|lia]. }
  rewrite sys_eq, kill_probe.
  destruct (Z.eqb_spec (kill (pid x) 0 (os d)).1 0) as [E|E].
  - rewrite sys_eq. intros [= _ <-]. simpl. split.
    + unfold only_os. split_and!; [done|done|]. intros q. simpl. apply kill_mono.
    + intros _. apply kill_sigkill.
  - intros [= _ <-]. simpl. split; [by apply only_os_refl|]. intros _.
    destruct (running (pid x) (os d)) eqn:R; [|done]. by apply kill_probe_running in R.
Qed.

Lemma force_loop_os l d u d' :
  forM force_slot l d = Some (u, d') ->
  only_os d d' /\
  forall i x, i ∈ l -> workers d !! i = Some x -> 0 < pid x -> running (pid x) (os d') = false.
Proof.
  unfold forM. generalize tt at 1 as acc. revert d.
  induction l as [|j l IH]; intros d acc; simpl.
  { intros [= _ <-]. split; [by apply only_os_refl|]. intros i x Hi. by apply elem_of_nil in Hi. }
  intros (a & d1 & E1 & E2)%bind_Some.
  assert (exists y, workers d !! j = Some y) as [y Hy].
  { unfold force_slot, get_worker, bind in E1. destruct (workers d !! j); [by eexists|done]. }
  destruct (force_slot_os _ _ _ _ _ Hy E1) as [O1 K1].
  destruct (IH _ _ E2) as [O2 K2]. split; [by eapply only_os_trans|].
  intros i x [->|Hi]%elem_of_cons Hx Hp.
  - rewrite Hy in Hx. injection Hx as <-. specialize (K1 Hp).
    destruct (running (pid y) (os d')) eqn:R; [|done].
    destruct O2 as (_ & _ & R2). apply R2 in R. congruence.
  - apply (K2 i x); [done| |done]. by destruct O1 as (-> & _ & _).
Qed.

Lemma terminate_loop_os l d u d' : forM terminate_slot l d = Some (u, d') -> only_os d d'.
Proof.
  unfold forM. generalize tt at 1 as acc. revert d.
  induction l as [|j l IH]; intros d acc; simpl; [intros [= _ <-]; by apply only_os_refl|].
  intros (a & d1 & E1 & E2)%bind_Some. eapply only_os_trans; [by eapply terminate_slot_os|].
  by eapply IH.
Qed.

(** Reaping starts no process. *)
Lemma mark_ended_os p st d u d' : mark_ended p st d = Some (u, d') -> os d' = os d.
Proof.
  unfold mark_ended. destruct (find_idx _ _) as [i|].
  - intros (x & d1 & E1 & E2)%bind_Some. apply put_same in E2 as (_ & _ & -> & _).
    unfold get_worker in E1. destruct (workers d !! i); [|done]. by injection E1 as _ <-.
  - case_match; [|done]. by intros [= _ <-].
Qed.

Lemma reap_loop_os fuel d b d' : reap_loop fuel d = Some (b, d') -> no_restart (os d) (os d').
Proof.
  revert d. induction fuel as [|fuel IH]; intros d; simpl; [by intros [= _ <-] q|].
  unfold bind at 1. rewrite sys_eq. destruct (waitpid (os d)).1 as [[p st]|] eqn:E.
  2:{ intros [= _ <-]. intros q. simpl. apply waitpid_mono. }
  destruct (0 <? p).
  - intros (u & d1 & E1 & E2)%bind_Some. apply mark_ended_os in E1. simpl in E1.
    apply IH in E2. intros q Hq. apply E2 in Hq. rewrite E1 in Hq. by apply waitpid_mono.
  - intros [= _ <-]. intros q. simpl. apply waitpid_mono.
Qed.

(** The children [waitpid] reports when it is called until it finds none. *)
Inductive waits : W -> list (Z * Z) -> W -> Prop :=
  | waits_none w w' : waitpid w = (None, w') -> waits w [] w'
  | waits_child w p st w1 zs w' :
      waitpid w = (Some (p, st), w1) -> waits w1 zs w' -> waits w ((p, st) :: zs) w'.

(** What reaping leaves of a worker that ended with [st]. *)
Definition ended (x : worker_t) (st : Z) : worker_t := mk_worker 0 (end_status st) (started x) (task x).

(** Only one slot holds the pid of slot [i]. *)
Definition sole d (i : nat) (x : worker_t) : Prop :=
  forall (j : nat) y, j <> i -> workers d !! j = Some y -> pid y <> pid x.

(** No child has pid 0. *)
Lemma waits_pos w zs w' st : waits w zs w' -> (0, st) ∈ zs -> False.
Proof.
  induction 1 as [|w p st' w1 zs w' E Hw IH]; [by intros ?%elem_of_nil|].
  intros [Heq|Hin]%elem_of_cons; [|by apply IH].
  apply waitpid_zombies in E as [Hp _]. simplify_eq. lia.
Qed.

Lemma mark_ended_spec p st d u d' :
  0 < p -> mark_ended p st d = Some (u, d') ->
  worker_count d' = worker_count d /\
  (forall (j : nat) y', workers d' !! j = Some y' ->
     exists y, workers d !! j = Some y /\ (y' = y \/ pid y' = 0)) /\
  forall (i : nat) x, workers d !! i = Some x ->
    (pid x <> p -> workers d' !! i = Some x) /\
    (pid x = p -> (i < Z.to_nat (worker_count d))%nat -> sole d i x ->
     workers d' !! i = Some (ended x st)).
Proof.
  intros Hp. unfold mark_ended. destruct (find_idx _ _) as [k|] eqn:E.
  - intros (z & d1 & E1 & E2)%bind_Some. unfold get_worker in E1.
    destruct (workers d !! k) as [z'|] eqn:Hk; [|done]. injection E1 as -> <-.
    apply find_idx_Some in E as (z2 & Hz2 & Hpz & _). apply lookup_take_Some in Hz2 as [Hz2 _].
    rewrite Hk in Hz2. injection Hz2 as <-. apply Z.eqb_eq in Hpz.
    apply put_same in E2 as (Hself & Hc & _ & Hoth). split_and!; [done| |].
    + intros j y'. destruct (decide (j = k)) as [->|Hne].
      * rewrite Hself. intros [= <-]. eauto.
      * rewrite Hoth by done. eauto.
    + intros i x Hx. destruct (decide (i = k)) as [->|Hne].
      * rewrite Hk in Hx. injection Hx as <-. split; [done|]. intros. by rewrite Hself.
      * rewrite Hoth by done. split; [done|]. intros Hxp _ Hs.
        exfalso. eapply (Hs k); [done|exact Hk|congruence].
  - case_match; [|done]. intros [= _ <-]. split_and!; [done|eauto|].
    intros i x Hx. split; [done|]. intros Hxp Hi _.
    apply find_idx_None with (x := x) in E; [by rewrite Hxp, Z.eqb_refl in E|].
    apply list_elem_of_lookup. exists i. by apply lookup_take_Some.
Qed.

(** What the loop does, and that its fuel is enough. *)
Lemma reap_loop_spec fuel d b d' :
  (zombies (os d) < fuel)%nat -> reap_loop fuel d = Some (b, d') ->
  b = true /\ exists zs, waits (os d) zs (os d') /\
  forall (i : nat) x, (i < Z.to_nat (worker_count d))%nat -> workers d !! i = Some x ->
    (pid x ∉ zs.*1 -> workers d' !! i = Some x) /\
    (forall st, sole d i x -> NoDup zs.*1 -> (pid x, st) ∈ zs -> workers d' !! i = Some (ended x st)).
Proof.
  revert d. induction fuel as [|fuel IH]; intros d Hf; [lia|]. simpl.
  unfold bind at 1. rewrite sys_eq. destruct (waitpid (os d)) as [[[p st]|] w] eqn:E; simpl.
  2:{ intros [= <- <-]. split; [done|]. exists []. split; [by constructor|].
      intros i x _ Hx. split; [done|]. intros st _ _ Hin. by apply elem_of_nil in Hin. }
  apply waitpid_zombies in E as Hz. destruct Hz as [Hp Hz].
  rewrite (proj2 (Z.ltb_lt 0 p) Hp). intros (u & d1 & E1 & E2)%bind_Some.
  apply mark_ended_os in E1 as Hos. simpl in Hos.
  apply mark_ended_spec in E1 as (Hc & Hback & Hm); [|done]. simpl in Hc, Hback, Hm.
  apply IH in E2 as (-> & zs & Hw & Hzs); [|rewrite Hos; lia]. split; [done|].
  exists ((p, st) :: zs). split; [eapply waits_child; [exact E|by rewrite Hos in Hw]|].
  intros i x Hi Hx. destruct (Hm i x Hx) as [Hkeep Hend]. rewrite Hc in Hzs. split.
  - simpl. intros [Hne Hnin]%not_elem_of_cons. apply Hzs; auto.
  - intros st' Hs [Hnin Hnd]%NoDup_cons Hin. simpl in *. apply elem_of_cons in Hin as [Heq|Hin].
    + injection Heq as Hpx ->. specialize (Hend Hpx Hi Hs).
      destruct (Hzs i _ Hi Hend) as [Hk _]. apply Hk. simpl.
      intros (q & Hq & Hin)%list_elem_of_fmap. destruct q as [q0 s0]. simpl in Hq. subst q0.
      eapply waits_pos; [exact Hw|exact Hin].
    + assert (pid x <> p) as Hne.
      { intros <-. apply Hnin. apply list_elem_of_fmap. by exists (pid x, st'). }
      apply (Hzs i x Hi (Hkeep Hne)); [|done|done].
      intros j y Hj Hy. apply Hback in Hy as (y0 & Hy0 & [->|H2]); [by eapply Hs|].
      rewrite H2. intros Hx0. rewrite <- Hx0 in Hin. eapply waits_pos; [exact Hw|exact Hin].
Qed.

Lemma remove_os path d r d' :
  daemon_remove_pidfile path d = Some (r, d') -> no_restart (os d) (os d').
Proof.
  unfold daemon_remove_pidfile, bind. rewrite sys_eq.
  destruct (negb _ && _); simpl; rewrite ?sys_eq; intros [= _ <-]; simpl; intros q Hq.
  - by repeat apply unlink_mono in Hq.
  - by apply unlink_mono in Hq.
Qed.

(** ** The PID file *)

Definition pid_text (w : W) : string := sprintf "%d" [CInt (getpid w)] +:+ NL.

Lemma scan_pid_text (w : W) : in_i32 (getpid w) -> scan_pid (pid_text w) = Some (getpid w).
Proof.
  intros Hp. unfold scan_pid, pid_text. rewrite sprintf_d. by rewrite (sscanf_d _ NL).
Qed.

Context `{!FilesLaws W}.

Lemma is_running_state path d r d' : daemon_is_running path d = Some (r, d') -> os d' = os d.
Proof.
  unfold daemon_is_running, bind, sys_read. destruct (open_pid_file path (os d)); [|by intros [= _ <-]].
  destruct (scan_pid _); [|by intros [= _ <-]]. rewrite sys_eq, kill_probe.
  case_match; by intros [= _ <-].
Qed.

(** What a successful creation leaves to be read. *)
Lemma pidfile_inv path d d' :
  daemon_create_pidfile (Some path) d = Some (0, d') ->
  ((fopen_w path (pid_text (os d)) (os d)).1 = true /\ fopen_r path (os d') = Some (pid_text (os d))) \/
  ((fopen_w path (pid_text (os d)) (os d)).1 = false /\
   fopen_r PID_FILE_LOCAL (os d') = Some (pid_text (os d)) /\
   forall q, q <> PID_FILE_LOCAL -> fopen_r q (os d') = fopen_r q (os d)).
Proof.
  unfold daemon_create_pidfile. simpl. intros (r & d1 & E1 & E)%bind_Some.
  apply is_running_state in E1. destruct (negb (r =? 0)); [done|].
  unfold bind at 1, sys_read in E. rewrite E1 in E. fold (pid_text (os d)) in E.
  unfold bind at 1 in E. rewrite sys_eq, E1 in E.
  destruct (fopen_w path (pid_text (os d)) (os d)) as [[] w1] eqn:Ew; simpl in E.
  - left. split; [done|]. unfold bind in E. rewrite sys_eq in E. injection E as <-. simpl.
    rewrite chmod_read. by apply fopen_w_read in Ew as [? _].
  - right. split; [done|]. apply fopen_w_fail in Ew as ->.
    unfold bind at 1 in E. rewrite sys_eq in E. simpl in E.
    destruct (fopen_w PID_FILE_LOCAL _ (os d)) as [[] w2] eqn:Ew2; simpl in E; [|done].
    unfold bind in E. rewrite sys_eq in E. injection E as <-. simpl.
    apply fopen_w_read in Ew2 as [Hr Ho]. split; [by rewrite chmod_read|].
    intros q Hq. rewrite chmod_read. auto.
Qed.

Lemma create_content path d d' :
  daemon_create_pidfile (Some path) d = Some (0, d') -> fopen_r path (os d) = None ->
  open_pid_file path (os d') = Some (pid_text (os d)).
Proof.
  intros E Hnone. unfold open_pid_file. apply pidfile_inv in E as [[_ ->]|(_ & Hl & Ho)]; [done|].
  destruct (decide (path = PID_FILE_LOCAL)) as [->|Hne]; [by rewrite Hl|].
  rewrite Ho, Hnone by done. exact Hl.
Qed.

(** A file that names an existing process stops the creation. *)
Lemma create_refused path d p :
  open_pid_file path (os d) ≫= scan_pid = Some p -> (kill p 0 (os d)).1 = 0 ->
  daemon_create_pidfile (Some path) d = Some (-1, d).
Proof.
  intros Ho Hk. unfold daemon_create_pidfile, daemon_is_running, bind, sys_read. simpl.
  destruct (open_pid_file path (os d)) as [text|]; [|done]. simpl in Ho. rewrite Ho, sys_eq, kill_probe, Hk.
  by destruct d.
Qed.

(** Any other file, or none, does not. *)
Lemma create_goes_on path d :
  (forall p, open_pid_file path (os d) ≫= scan_pid = Some p -> (kill p 0 (os d)).1 <> 0) ->
  let wrote := (fopen_w path (pid_text (os d)) (os d)).1 in
  exists r d', daemon_create_pidfile (Some path) d = Some (r, d') /\ (wrote = true -> r = 0) /\
    (wrote = false -> r = if (fopen_w PID_FILE_LOCAL (pid_text (os d)) (os d)).1 then 0 else -1) /\
    (wrote = false -> forall q, q <> PID_FILE_LOCAL -> fopen_r q (os d') = fopen_r q (os d)).
Proof.
  intros Hdead wrote.
  assert (daemon_is_running path d = Some (0, d)) as E1.
  { unfold daemon_is_running, bind, sys_read. destruct (open_pid_file path (os d)) as [text|]; [|done].
    simpl in Hdead. destruct (scan_pid text) as [p|]; [|done]. rewrite sys_eq, kill_probe.
    specialize (Hdead p eq_refl). destruct (Z.eqb_spec (kill p 0 (os d)).1 0); [done|]. by destruct d. }
  unfold daemon_create_pidfile. simpl. unfold bind at 1. rewrite E1. cbn [negb Z.eqb].
  unfold bind at 1, sys_read. fold (pid_text (os d)). unfold bind at 1. rewrite sys_eq. unfold wrote.
  destruct (fopen_w path (pid_text (os d)) (os d)) as [[] w1] eqn:Ew; cbn [fst snd].
  - unfold bind. rewrite sys_eq. eexists _, _. split; [done|]. by split_and!.
  - apply fopen_w_fail in Ew as ->. unfold bind at 1. rewrite sys_eq. cbn [os set_os].
    destruct (fopen_w PID_FILE_LOCAL _ (os d)) as [[] w2] eqn:Ew2; cbn [fst snd].
    + unfold bind. rewrite sys_eq. eexists _, _. split; [done|]. split_and!; [done|done|].
      intros _ q Hq. simpl. rewrite chmod_read. apply fopen_w_read in Ew2 as [_ Ho]. by apply Ho.
    + apply fopen_w_fail in Ew2 as ->. eexists _, _. split; [done|]. by split_and!.
Qed.

Lemma create_fallback path d d' :
  daemon_create_pidfile (Some path) d = Some (0, d') ->
  (fopen_w path (pid_text (os d)) (os d)).1 = false ->
  fopen_r PID_FILE_LOCAL (os d') = Some (pid_text (os d)).
Proof. intros E Hf. apply pidfile_inv in E as [[Ht _]|(_ & Hl & _)]; [congruence|done]. Qed.
End Lemmas.

(** ** Claims *)

Section Claims.
Context {W : Type} `{Files W} `{Procs W} `{Clock W}.

(** C4. Whatever the daemon does and whatever happens around it (spawns,
    checks, signals of any number, reloads, in any order), the worker table
    stays well formed, and [worker_count] is the number of workers started
    since the beginning, never more than MAX_WORKERS.  In every state so
    reached no operation reads or writes outside the table: spawning (of a
    worker function that is itself defined), checking, handling any signal,
    reaping and shutting down are defined and leave a well-formed table, and
    once MAX_WORKERS workers were started a spawn is refused and changes
    nothing. *)
Theorem daemon_runs_invariant (w : W) n d :
  daemon_runs (daemon_start w) n d ->
  (daemon_wf d /\ worker_count d = Z.of_nat n /\ (n <= MAX_WORKERS)%nat) /\
  (forall f, safe f -> is_Some (daemon_spawn_worker f d)) /\
  (n = MAX_WORKERS -> forall f, daemon_spawn_worker f d = Some (Ret (-1), d)) /\
  (forall l c, fits l c -> exists r d', daemon_monitor_workers l c d = Some (r, d') /\ daemon_wf d') /\
  (forall sig, exists d', daemon_signal_handler sig d = Some (tt, d') /\ daemon_wf d') /\
  (exists d', daemon_reap_zombies d = Some (tt, d') /\ daemon_wf d') /\
  (exists d', daemon_shutdown d = Some (tt, d') /\ daemon_wf d').
Proof.
  intros Hd%runs_wf. split_and!.
  - apply Hd.
  - apply Hd.
  - destruct Hd as [Hwf Hn]. pose proof (dwf_count d Hwf). lia.
  - intros f Hf. by eapply spawn_safe.
  - intros -> f. unfold daemon_spawn_worker. by rewrite (proj2 Hd).
  - intros l c Hfit. destruct (wf_at_monitor _ l c Hfit d Hd) as (r & d' & E & [G _]). eauto.
  - intros sig. destruct (wf_at_signal _ sig d Hd) as ([] & d' & E & [G _]). eauto.
  - destruct (wf_at_reap _ d Hd) as ([] & d' & E & [G _]). eauto.
  - destruct (wf_at_shutdown _ d Hd) as ([] & d' & E & [G _]). eauto.
Qed.

(** A slot is never used again: once ten workers were started, every
    further spawn is refused and changes nothing, even when all ten have
    ended, and no continuation of the run ever starts another worker. *)
Theorem spawn_slots_not_recycled (w : W) d :
  daemon_runs (daemon_start w) MAX_WORKERS d ->
  (forall f, daemon_spawn_worker f d = Some (Ret (-1), d)) /\
  (forall k d', daemon_runs d k d' -> k = 0%nat).
Proof.
  intros Hr. apply runs_wf in Hr as Hwf. split.
  - intros f. unfold daemon_spawn_worker. by rewrite (proj2 Hwf).
  - intros k d' Hk.
    destruct (runs_from _ _ _ _ Hk Hwf) as [Hwf' Hc]. pose proof (dwf_count _ Hwf'). lia.
Qed.

Context `{!ProcsLaws W}.

(** C12. Reaping terminates and tells each worker its own end: in a
    well-formed state the loop over [waitpid] returns (more fuel than there
    are terminated children is enough) after it has collected a list of
    children; a worker that is not in the list keeps its slot.  A worker that
    is, when no other slot has its pid and no pid was reported twice, gets pid
    0 and becomes idle when it exited by itself, failed when it did not; its
    start time and task stay. *)
Theorem reap_spec n d fuel :
  wf_at n d -> (zombies (os d) < fuel)%nat ->
  exists d' zs, reap_loop fuel d = Some (true, d') /\ waits (os d) zs (os d') /\
  forall (i : nat) x, (i < Z.to_nat n)%nat -> workers d !! i = Some x ->
    (pid x ∉ zs.*1 -> workers d' !! i = Some x) /\
    (forall st, sole d i x -> NoDup zs.*1 -> (pid x, st) ∈ zs ->
       workers d' !! i =
         Some (mk_worker 0 (if Z.land st 127 =? 0 then WORKER_IDLE else WORKER_FAILED) (started x) (task x))).
Proof.
  intros Hd Hf. destruct (wf_at_reap_loop n fuel d Hd) as (b & d' & E & _).
  destruct (reap_loop_spec _ _ _ _ Hf E) as (-> & zs & Hw & Hs).
  exists d', zs. rewrite (proj2 Hd) in Hs. split; [done|]. split; [done|]. intros i x Hi Hx.
  destruct (Hs i x Hi Hx) as [Hk He]. split; [done|]. intros st Hsole Hnd Hin.
  rewrite (He st Hsole Hnd Hin). unfold ended, end_status, WIFEXITED.
  destruct (Z.land st 127 =? 0); [done|]. by destruct (WIFSIGNALED st).
Qed.

(** Shutdown leaves no worker behind: from a well-formed table, once
    [daemon_shutdown] returns, no process whose pid stood in it is running. *)
Lemma shutdown_stops n d : wf_at n d ->
  exists d', daemon_shutdown d = Some (tt, d') /\ wf_at n d' /\
  forall (i : nat) x, (i < Z.to_nat n)%nat -> workers d !! i = Some x -> 0 < pid x ->
    running (pid x) (os d') = false.
Proof.
  intros Hd. destruct (wf_at_shutdown _ d Hd) as ([] & d' & E & Hd').
  exists d'. split; [done|]. split; [done|]. intros i x Hi Hx Hp. unfold daemon_shutdown in E.
  apply bind_Some in E as (? & d1 & E1 & E). apply bind_Some in E as (? & d2 & E2 & E).
  apply bind_Some in E as (? & d3 & E3 & E). apply bind_Some in E as (? & d4 & E4 & E).
  apply bind_Some in E as (? & d5 & E5 & E). injection E as <-.
  apply terminate_loop_os in E1 as (Hw1 & _ & _). rewrite sys_eq in E2. injection E2 as _ <-.
  apply force_loop_os in E3 as [_ Hk]. simpl in Hk.
  assert (running (pid x) (os d3) = false) as Hdead.
  { apply (Hk i); [|by rewrite Hw1|done]. unfold slots. apply elem_of_seq. rewrite (proj2 Hd). lia. }
  destruct (running (pid x) (os d5)) eqn:R; [|done].
  apply (remove_os _ _ _ _ E5) in R. unfold daemon_reap_zombies in E4.
  apply bind_Some in E4 as (? & d6 & E4 & E6). injection E6 as _ <-.
  apply (reap_loop_os _ _ _ _ E4) in R. congruence.
Qed.

Context `{!FilesLaws W}.

(** C13. The PID file.  A start on a path whose file (or, when there is none,
    "./storage_mgr.pid") names a process that exists is refused and changes
    nothing.  Otherwise, and in particular when a dead daemon left its file,
    the file is written: at the path, or when that cannot be opened in
    "./storage_mgr.pid", and only when neither can the result is -1.  After a
    success that wrote the path, or found nothing readable there,
    [daemon_read_pid] on the path gives the daemon's own pid, and as long as
    that process lives a second start is refused.  When the path could not be
    written but a stale file is readable there, reading still gives what the
    stale file says. *)
Theorem pidfile_roundtrip (path : string) d :
  in_i32 (getpid (os d)) ->
  let found := open_pid_file path (os d) ≫= scan_pid in
  (forall p, found = Some p -> (kill p 0 (os d)).1 = 0 ->
    daemon_create_pidfile (Some path) d = Some (-1, d)) /\
  ((forall p, found = Some p -> (kill p 0 (os d)).1 <> 0) ->
    let wrote := (fopen_w path (pid_text (os d)) (os d)).1 in
    exists r d', daemon_create_pidfile (Some path) d = Some (r, d') /\
    (wrote = true -> r = 0) /\
    (wrote = false -> r = if (fopen_w PID_FILE_LOCAL (pid_text (os d)) (os d)).1 then 0 else -1) /\
    (r = 0 -> wrote = true \/ fopen_r path (os d) = None ->
      daemon_read_pid path d' = Some (getpid (os d), d') /\
      (running (getpid (os d)) (os d') = true -> daemon_create_pidfile (Some path) d' = Some (-1, d'))) /\
    (forall text, wrote = false -> path <> PID_FILE_LOCAL -> fopen_r path (os d) = Some text ->
      daemon_read_pid path d' = Some (default (-1) (scan_pid text), d'))).
Proof.
  intros Hpid found. split.
  { intros p Hp Hk. by apply (create_refused path d p). }
  intros Hdead wrote. destruct (create_goes_on path d Hdead) as (r & d' & E & Hw & Hl & Hkeep).
  exists r, d'. split_and!; [done..| |].
  - intros -> Hpath. assert (open_pid_file path (os d') = Some (pid_text (os d))) as Ho.
    { destruct Hpath as [Ht|Hnone]; [|by apply (create_content path d)].
      unfold open_pid_file. apply pidfile_inv in E as [[_ ->]|(Hf & _)]; [done|]. unfold wrote in Ht. congruence. }
    assert (scan_pid (pid_text (os d)) = Some (getpid (os d))) as Hs by by apply scan_pid_text. split.
    + unfold daemon_read_pid, bind, sys_read. by rewrite Ho, Hs.
    + intros R. apply (create_refused path d' (getpid (os d))); [by rewrite Ho|by apply kill_probe_running].
  - intros text Hf Hne Ht. unfold daemon_read_pid, bind, sys_read, open_pid_file.
    rewrite (Hkeep Hf path Hne), Ht. by destruct (scan_pid text).
Qed.

(** The fallback file survives: when the PID file could not be opened
    (so "./storage_mgr.pid" was written instead) and its path does not exist,
    [daemon_remove_pidfile] reports success, and the local file with the dead
    daemon's pid is still there. *)
Theorem pidfile_fallback_left (path : string) d d1 d2 :
  path <> PID_FILE_LOCAL ->
  (fopen_w path (pid_text (os d)) (os d)).1 = false ->
  daemon_create_pidfile (Some path) d = Some (0, d1) ->
  daemon_remove_pidfile (Some path) d1 = Some (0, d2) ->
  (unlink path (os d1)).1 = ENOENT ->
  fopen_r PID_FILE_LOCAL (os d2) = Some (pid_text (os d)).
Proof.
  intros Hne Hw E1 E2 Hu. apply create_fallback in E1; [|done].
  unfold daemon_remove_pidfile, bind in E2. rewrite sys_eq in E2. simpl in E2.
  rewrite Hu in E2. simpl in E2. injection E2 as <-. simpl.
  destruct (unlink path (os d1)) as [e w1] eqn:Eu. simpl in *. subst e.
  by rewrite (unlink_fail _ _ _ _ Eu).
Qed.
End Claims.

(** ** Witnesses: a daemon on a machine with nothing else on it *)

Definition spawned (d : daemon sim) : daemon sim :=
  match daemon_spawn_worker (ret tt) d with Some (_, d') => d' | None => d end.
Definition crew (n : nat) : daemon sim := Nat.iter n spawned (daemon_start blank).

Lemma crew_step k : (k < 10)%nat -> daemon_spawn_worker (ret tt) (crew k) = Some (Ret 0, crew (S k)).
Proof. intros Hk. do 10 (destruct k as [|k]; [vm_compute; reflexivity|]). lia. Qed.

Lemma crew_runs k : (k <= 10)%nat -> daemon_runs (daemon_start blank) k (crew k).
Proof.
  induction k as [|k IH]; intros Hk; [constructor|].
  apply (runs_step _ k (crew k) true); [apply IH; lia|].
  apply (step_spawned (ret tt)). apply crew_step. lia.
Qed.

Lemma daemon_runs_invariant_witness :
  (daemon_wf (crew 10) /\ worker_count (crew 10) = 10) /\
  is_Some (daemon_spawn_worker (ret tt) (crew 10)) /\
  exists d', daemon_signal_handler SIGCHLD (crew 10) = Some (tt, d') /\ daemon_wf d'.
Proof.
  destruct (daemon_runs_invariant blank 10 (crew 10)) as ((Hwf & Hc & _) & Hsp & _ & _ & Hs & _);
    [apply crew_runs; lia|].
  split; [split; [exact Hwf|exact Hc]|]. split; [apply Hsp, safe_ret|apply Hs].
Defined.

Lemma spawn_slots_not_recycled_witness :
  daemon_spawn_worker (ret tt) (crew 10) = Some (Ret (-1), crew 10).
Proof.
  destruct (spawn_slots_not_recycled blank (crew 10)) as [Hs _]; [apply crew_runs; lia|].
  apply Hs.
Defined.

(** Two workers, pids 200 and 201; the first one exited, the second was
    killed. *)
Definition ended_crew : daemon sim :=
  set_os (crew 2) (sim_put_procs (os (crew 2)) [] [(200, exited 0); (201, killed 9)] 202).

Lemma reap_spec_witness :
  exists d' x y, reap_loop 3 ended_crew = Some (true, d') /\
    workers ended_crew !! 0%nat = Some x /\ workers d' !! 0%nat = Some (mk_worker 0 WORKER_IDLE (started x) (task x)) /\
    workers ended_crew !! 1%nat = Some y /\ workers d' !! 1%nat = Some (mk_worker 0 WORKER_FAILED (started y) (task y)).
Proof.
  destruct (reap_spec 2 ended_crew 3) as (d' & zs & E & Hw & Hs).
  - destruct (runs_wf _ _ _ (crew_runs 2 ltac:(lia))) as [[] ?]. by split.
  - vm_compute. lia.
  - assert (zs = [(200, exited 0); (201, killed 9)]) as ->.
    { inversion Hw as [? ? E1|? ? ? ? ? ? E1 Hw1]; vm_compute in E1; simplify_eq.
      inversion Hw1 as [? ? E2|? ? ? ? ? ? E2 Hw2]; vm_compute in E2; simplify_eq.
      inversion Hw2 as [? ? E3|? ? ? ? ? ? E3 Hw3]; vm_compute in E3; simplify_eq. reflexivity. }
    assert (NoDup [(200, exited 0); (201, killed 9)].*1) as Hnd.
    { apply (bool_decide_unpack _). vm_compute. exact I. }
    destruct (Hs 0%nat _ ltac:(lia) eq_refl) as [_ H0]. destruct (Hs 1%nat _ ltac:(lia) eq_refl) as [_ H1].
    exists d'. eexists _, _. split; [exact E|]. split; [reflexivity|]. split; [|split; [reflexivity|]].
    + apply (H0 (exited 0)); [|exact Hnd|left]. intros [|[|j]] y Hj Hy; [done| |].
      * vm_compute in Hy. injection Hy as <-. done.
      * do 8 (destruct j as [|j]; [vm_compute in Hy; injection Hy as <-; done|]). done.
    + apply (H1 (killed 9)); [|exact Hnd|right; left]. intros [|[|j]] y Hj Hy; [|done|].
      * vm_compute in Hy. injection Hy as <-. done.
      * do 8 (destruct j as [|j]; [vm_compute in Hy; injection Hy as <-; done|]). done.
Defined.

(** A crew of two is gone after the shutdown. *)
Example shutdown_crew :
  running 200 (os (crew 2)) = true /\
  exists d', daemon_shutdown (crew 2) = Some (tt, d') /\ running 200 (os d') = false /\ running 201 (os d') = false.
Proof. split; [reflexivity|]. eexists. vm_compute. repeat split. Qed.

(** A dead daemon, process 77, left its PID file. *)
Definition stale_file : daemon sim := daemon_start (sim_put_files blank {[ PID_FILE := "77" +:+ NL ]}).

Lemma pidfile_roundtrip_witness :
  daemon_read_pid PID_FILE stale_file = Some (77, stale_file) /\
  exists d', daemon_create_pidfile (Some PID_FILE) stale_file = Some (0, d') /\
    daemon_read_pid PID_FILE d' = Some (100, d').
Proof.
  split; [vm_compute; reflexivity|].
  assert (in_i32 (getpid (os stale_file))) as Hp by (unfold in_i32; simpl; lia).
  destruct (proj2 (pidfile_roundtrip PID_FILE stale_file Hp)) as (r & d' & E & Hw & _ & Hr & _).
  - intros p Hf. vm_compute in Hf. injection Hf as <-. vm_compute. done.
  - assert (r = 0) as -> by (apply Hw; reflexivity). exists d'. split; [exact E|].
    apply (Hr eq_refl). left. reflexivity.
Defined.

(** A machine without /var/run. *)
Definition no_var_run : daemon sim := daemon_start (sim_without_dir blank [PID_FILE]).

Lemma pidfile_fallback_left_witness :
  exists d1 d2, daemon_create_pidfile (Some PID_FILE) no_var_run = Some (0, d1) /\
    daemon_remove_pidfile (Some PID_FILE) d1 = Some (0, d2) /\
    fopen_r PID_FILE_LOCAL (os d2) = Some ("100" +:+ NL).
Proof.
  destruct (daemon_create_pidfile (Some PID_FILE) no_var_run) as [[r d1]|] eqn:E1; [|done].
  assert (r = 0) as -> by (vm_compute in E1; by injection E1).
  destruct (daemon_remove_pidfile (Some PID_FILE) d1) as [[r d2]|] eqn:E2.
  2:{ vm_compute in E1. injection E1 as <-. vm_compute in E2. done. }
  assert (r = 0) as -> by (vm_compute in E1; injection E1 as <-; vm_compute in E2; by injection E2).
  exists d1, d2. split; [done|]. split; [done|].
  assert (pid_text (os no_var_run) = "100" +:+ NL) as <- by (vm_compute; reflexivity).
  apply (pidfile_fallback_left PID_FILE no_var_run d1 d2); [done|reflexivity|exact E1|exact E2|].
  vm_compute in E1. injection E1 as <-. reflexivity.
Defined.
