(* ===== verification/DaemonAsync.v ===== *)
(** * src/daemon.c under asynchronous signals

    The handlers of [daemon_setup_signals] run between any two accesses of the
    interrupted code to the variables of daemon.c.  This file splits the
    functions that touch the worker table into single accesses and system
    calls ([code]), runs them under a schedule of signals and outside moves
    ([run]), and proves by rely/guarantee which properties survive every
    schedule.  Without events the split functions are the ones of [Daemon].

    A handler runs to its end once started: SIGCHLD is blocked inside its own
    handler and the other handlers only set a flag or read. *)

From stdpp Require Import base list gmap strings pretty.
From Stdlib Require Import Ascii ZArith Lia.
From S2P Require Import Prelude CString CFormat Sys SimOS Daemon.

(** ** Code as a sequence of atomic actions *)

Inductive code (W A : Type) : Type :=
  | Done (a : A)
  | Act (B : Type) (c : M (daemon W) B) (k : B -> code W A)
  | Kill (p sig : Z) (k : Z -> code W A).
Arguments Done {W A} a.
Arguments Act {W A B} c k.
Arguments Kill {W A} p sig k.

Fixpoint cbind {W A B} (c : code W A) (k : A -> code W B) : code W B :=
  match c with
  | Done a => k a
  | Act c k' => Act c (fun b => cbind (k' b) k)
  | Kill p sig k' => Kill p sig (fun r => cbind (k' r) k)
  end.

Declare Scope code_scope.
Delimit Scope code_scope with code.
Notation "'do!' x ':=' c 'in' k" := (Act c (fun x => k))
  (at level 10, x name, c at level 100, k at level 200) : code_scope.
Notation "c ;;; k" := (cbind c (fun _ => k)) (at level 199, right associativity) : code_scope.
#[local] Open Scope code_scope.

(** What may happen between two actions: a signal, or a change outside. *)
Inductive event (W : Type) := Sig (sig : Z) | Outside (w : W).
Arguments Sig {W} sig.
Arguments Outside {W} w.

Section Run.
Context {W : Type} `{Files W} `{Procs W} `{Clock W}.

Definition deliver (ev : event W) : M (daemon W) unit :=
  match ev with
  | Sig sig => daemon_signal_handler sig
  | Outside w => fun d => Some (tt, set_os d w)
  end.

(** [run schedule c]: before each action the events of the next entry of the
    schedule happen.  The [kill] calls the code makes are collected. *)
Fixpoint run {A} (schedule : list (list (event W))) (c : code W A) : M (daemon W) (A * list (Z * Z)) :=
  match c with
  | Done a => ret (a, [])
  | Act c k =>
      forM deliver (default [] (head schedule)) ;;!
      let! b := c in run (tail schedule) (k b)
  | Kill p sig k =>
      forM deliver (default [] (head schedule)) ;;!
      let! r := sys (kill p sig) in
      let! ak := run (tail schedule) (k r) in
      ret (ak.1, (p, sig) :: ak.2)
  end.

(** ** Accesses *)

Definition rd_count : M (daemon W) Z := fun d => Some (worker_count d, d).
Definition incr_count : M (daemon W) unit :=
  fun d => Some (tt, mk_daemon (workers d) (worker_count d + 1) (daemon_running d) (reload_config d) (os d)).
Definition rd_pid (i : nat) : M (daemon W) Z := let! x := get_worker i in ret (pid x).
Definition update (i : nat) (f : worker_t -> worker_t) : M (daemon W) unit :=
  let! x := get_worker i in put_worker i (f x).
Definition wr_pid (i : nat) (p : Z) : M (daemon W) unit := update i (fun x => with_pid x p).
Definition wr_status (i : nat) (st : Z) : M (daemon W) unit := update i (fun x => with_status x st).
Definition wr_started (i : nat) (t : Z) : M (daemon W) unit :=
  update i (fun x => mk_worker (pid x) (status x) t (task x)).
Definition wr_task (i : nat) (s : string) : M (daemon W) unit :=
  update i (fun x => mk_worker (pid x) (status x) (started x) s).

(** ** The functions of daemon.c *)

Definition spawn_code (worker_func : M (daemon W) unit) : code W ctl :=
  do! n := rd_count in
  if Z.of_nat MAX_WORKERS <=? n then Done (Ret (-1))
  else
    do! p := sys fork in
    if p <? 0 then Done (Ret (-1))
    else if p =? 0 then do! u := worker_func in Done (Exit 0)
    else
      do! n := rd_count in
      let i := Z.to_nat n in
      do! u := wr_pid i p in
      do! u := wr_status i WORKER_BUSY in
      do! now := sys time in
      do! u := wr_started i now in
      do! u := wr_task i (snprintf 256 "Worker task %d" [CInt n]) in
      do! u := incr_count in
      Done (Ret 0).

(** The search of [daemon_reap_zombies]: [left] slots of the array follow
    slot [i]; a worker count beyond the array leads outside it. *)
Fixpoint find_code (p st : Z) (left i : nat) : code W unit :=
  do! n := rd_count in
  if Z.of_nat i <? n then
    match left with
    | O => do! u := ub in Done u
    | S left' =>
        do! q := rd_pid i in
        if q =? p then
          do! u := wr_status i (end_status st) in
          do! u := wr_pid i 0 in
          Done tt
        else find_code p st left' (S i)
    end
  else Done tt.

Fixpoint reap_code (fuel : nat) : code W bool :=
  match fuel with
  | O => Done false
  | S fuel' =>
      do! r := sys waitpid in
      match r with
      | Some (p, st) =>
          if 0 <? p then find_code p st MAX_WORKERS 0 ;;; reap_code fuel' else Done true
      | None => Done true
      end
  end.

(** [for (i = 0; i < worker_count; i++)] around [body]. *)
Fixpoint each_slot (body : nat -> code W unit) (left i : nat) : code W unit :=
  do! n := rd_count in
  if Z.of_nat i <? n then
    match left with
    | O => do! u := ub in Done u
    | S left' => body i ;;; each_slot body left' (S i)
    end
  else Done tt.

(** A turn of [daemon_monitor_workers] without the caller's array. *)
Definition monitor_code_slot (i : nat) (active : Z) : code W Z :=
  do! p := rd_pid i in
  if 0 <? p then
    do! p' := rd_pid i in
    Kill p' 0 (fun err =>
      if negb (err =? 0) then
        if err =? ESRCH then
          do! u := wr_status i WORKER_FAILED in
          do! u := wr_pid i 0 in
          Done active
        else Done active
      else Done (active + 1))
  else Done active.

Fixpoint monitor_code (left i : nat) (active : Z) : code W Z :=
  do! n := rd_count in
  if Z.of_nat i <? n then
    match left with
    | O => Done active
    | S left' => cbind (monitor_code_slot i active) (monitor_code left' (S i))
    end
  else Done active.

Definition terminate_code (i : nat) : code W unit :=
  do! p := rd_pid i in
  if 0 <? p then do! p' := rd_pid i in Kill p' SIGTERM (fun _ => Done tt) else Done tt.

Definition force_code (i : nat) : code W unit :=
  do! p := rd_pid i in
  if 0 <? p then
    do! p' := rd_pid i in
    Kill p' 0 (fun r =>
      if r =? 0 then do! p'' := rd_pid i in Kill p'' SIGKILL (fun _ => Done tt) else Done tt)
  else Done tt.

Definition shutdown_code (fuel : nat) : code W unit :=
  each_slot terminate_code MAX_WORKERS 0 ;;;
  do! u := sys (fun w => (tt, sleep 2 w)) in
  each_slot force_code MAX_WORKERS 0 ;;;
  reap_code fuel ;;;
  do! r := daemon_remove_pidfile None in
  Done tt.
End Run.

(** ** Rely and guarantee *)

Section Rely.
Context {W : Type} `{Files W} `{Procs W} `{Clock W}.
Implicit Types d : daemon W.

(** The table as every access leaves it: [n] of its ten slots handed out,
    with pids that are not negative. *)
Definition table (n : Z) d : Prop :=
  length (workers d) = MAX_WORKERS /\ worker_count d = n /\ 0 <= n <= Z.of_nat MAX_WORKERS /\
  forall i x, (i < Z.to_nat n)%nat -> workers d !! i = Some x -> 0 <= pid x.

(** What the reaping handler may have done to a slot. *)
Definition reaped (x y : worker_t) : Prop :=
  pid y = 0 /\ (status y = WORKER_IDLE \/ status y = WORKER_FAILED) /\
  started y = started x /\ task y = task x.

(** The effect of events on the table: none when no SIGCHLD is among them
    ([calm]), otherwise slots in use may have been reaped. *)
Definition rely (calm : bool) d d' : Prop :=
  worker_count d' = worker_count d /\
  if calm then workers d' = workers d
  else length (workers d') = length (workers d) /\
       forall i x, workers d !! i = Some x -> exists y, workers d' !! i = Some y /\
         (y = x \/ ((i < Z.to_nat (worker_count d))%nat /\ reaped x y)).

Definition allowed (calm : bool) (ev : event W) : Prop :=
  match ev with Sig sig => calm = true -> sig <> SIGCHLD | Outside _ => True end.

(** The pids the code may signal. *)
Definition may_kill (calm : bool) (ps : Z * Z) : Prop := if calm then 0 < ps.1 else 0 <= ps.1.

#[global] Instance rely_preorder calm : PreOrder (rely calm).
Proof.
  split.
  - intros d. split; [done|]. destruct calm; [done|]. split; [done|]. intros i x Hx. by exists x; auto.
  - intros d1 d2 d3 [Hc1 S1] [Hc2 S2]. split; [congruence|].
    destruct calm; [congruence|]. destruct S1 as [Hl1 S1], S2 as [Hl2 S2]. split; [congruence|].
    intros i x Hx. destruct (S1 i x Hx) as (y & Hy & Hxy). destruct (S2 i y Hy) as (z & Hz & Hyz).
    exists z. split; [done|]. rewrite Hc1 in Hyz.
    destruct Hxy as [->|[Hi (? & ? & Hs & Ht)]]; [done|]. right. split; [done|].
    destruct Hyz as [->|[_ (? & ? & ? & ?)]]; unfold reaped; split_and!; congruence || auto.
Qed.

Lemma rely_table calm n d d' : rely calm d d' -> table n d -> table n d'.
Proof.
  intros [Hc Hr] (Hl & Hn & Hb & Hp). destruct calm.
  - unfold table. rewrite Hr, Hc. done.
  - destruct Hr as [Hl' Hr]. split_and!; try congruence; [lia|lia|].
    intros i y Hi Hy. assert (exists x, workers d !! i = Some x) as [x Hx].
    { apply lookup_lt_is_Some. rewrite <- Hl'. by eapply lookup_lt_Some. }
    destruct (Hr i x Hx) as (y' & Hy' & [->|[_ (E & _)]]); simplify_eq; [by eapply Hp|lia].
Qed.

(** ** Handlers keep to the rely *)

Lemma rely_set_os calm d w : rely calm d (set_os d w).
Proof.
  split; [done|]. destruct calm; [done|]. split; [done|]. intros i x Hx. by exists x; auto.
Qed.

Lemma mark_ended_rely n p st d :
  table n d -> exists d', mark_ended p st d = Some (tt, d') /\ rely false d d'.
Proof.
  intros (Hl & Hn & Hb & Hp). unfold mark_ended.
  destruct (find_idx _ _) as [i|] eqn:E.
  - apply find_idx_lt in E. rewrite length_take in E.
    destruct (lookup_lt_is_Some_2 (workers d) i) as [x Hx]; [lia|].
    unfold bind, get_worker, put_worker. rewrite Hx.
    rewrite (proj2 (Nat.ltb_lt i (length (workers d)))) by lia.
    eexists. split; [done|]. split; [done|]. simpl. split; [by rewrite length_insert|].
    intros j y Hy. destruct (decide (i = j)) as [<-|Hne].
    + simplify_eq. eexists. split; [apply list_lookup_insert_eq; lia|]. right. split; [lia|].
      unfold reaped, end_status. simpl. repeat case_match; auto.
    + exists y. split; [|by left]. by rewrite list_lookup_insert_ne.
  - unfold MAX_WORKERS in *. rewrite (proj2 (Nat.leb_le _ _)) by lia.
    eexists. split; [done|]. reflexivity.
Qed.

Lemma reap_loop_rely n fuel d :
  table n d -> exists b d', reap_loop fuel d = Some (b, d') /\ rely false d d'.
Proof.
  revert d. induction fuel as [|fuel IH]; intros d Hd; simpl; [by exists false, d|].
  unfold bind at 1, sys. destruct (waitpid (os d)) as [[[p st]|] w];
    [|exists true, (set_os d w); split; [done|apply rely_set_os]].
  destruct (0 <? p); [|exists true, (set_os d w); split; [done|apply rely_set_os]].
  assert (rely false d (set_os d w)) as R1 by apply rely_set_os.
  destruct (mark_ended_rely n p st (set_os d w)) as (d2 & E2 & R2); [by eapply rely_table|].
  destruct (IH d2) as (b & d3 & E3 & R3); [by do 2 (eapply rely_table; [done|])|].
  exists b, d3. rewrite (bind_step E2). split; [done|]. by rewrite R1, R2.
Qed.

Lemma handler_rely calm n sig d :
  table n d -> (calm = true -> sig <> SIGCHLD) ->
  exists d', daemon_signal_handler sig d = Some (tt, d') /\ rely calm d d'.
Proof.
  intros Hd Hcalm. unfold daemon_signal_handler.
  assert (forall ws c r1 r2 w, ws = workers d -> c = worker_count d ->
    rely calm d (mk_daemon ws c r1 r2 w)) as Hflag.
  { intros ws c r1 r2 w -> ->. split; [done|]. destruct calm; [done|]. split; [done|]. eauto. }
  destruct (_ || _); [eexists; split; [done|by apply Hflag]|].
  destruct (sig =? SIGHUP); [eexists; split; [done|by apply Hflag]|].
  destruct (Z.eqb_spec sig SIGCHLD) as [E|E].
  { destruct calm; [by destruct (Hcalm eq_refl)|]. unfold daemon_reap_zombies.
    destruct (reap_loop_rely n (S (zombies (os d))) d Hd) as (b & d' & E' & R').
    exists d'. unfold bind. by rewrite E'. }
  destruct (sig =? SIGUSR1); [|by exists d].
  exists d. split; [|done]. unfold slots. assert (Forall (fun i => i < length (workers d))%nat
    (seq 0 (Z.to_nat (worker_count d)))) as Hs.
  { apply Forall_forall. intros i Hi%elem_of_seq. destruct Hd as (Hl & Hn & Hb & _). unfold MAX_WORKERS in *. lia. }
  induction Hs as [|i l Hi Hs IH]; [done|]. simpl. unfold forM in *. simpl.
  destruct (lookup_lt_is_Some_2 _ _ Hi) as [x Hx]. unfold bind at 1 2, get_worker. rewrite Hx. simpl.
  done.
Qed.

Lemma deliver_rely calm n evs d :
  table n d -> Forall (allowed calm) evs ->
  exists d', forM deliver evs d = Some (tt, d') /\ rely calm d d'.
Proof.
  intros Hd Hevs. revert d Hd. induction Hevs as [|ev evs Hev Hevs IH]; intros d Hd; [by exists d|].
  assert (exists d1, deliver ev d = Some (tt, d1) /\ rely calm d d1) as (d1 & E1 & R1).
  { destruct ev as [sig|w]; [by eapply handler_rely|]. exists (set_os d w). split; [done|apply rely_set_os]. }
  destruct (IH d1) as (d2 & E2 & R2); [by eapply rely_table|]. exists d2.
  split; [|by rewrite R1]. unfold forM in *. simpl. unfold bind at 1. by rewrite E1.
Qed.

(** [wpc calm c Q d]: from [d], under any allowed events, [c] is defined, ends
    in [Q] and signals only permitted pids. *)
Fixpoint wpc {A} (calm : bool) (c : code W A) (Q : A -> daemon W -> Prop) d : Prop :=
  match c with
  | Done a => Q a d
  | Act c k =>
      (exists n, table n d) /\
      forall d1, rely calm d d1 -> exists b d2, c d1 = Some (b, d2) /\ wpc calm (k b) Q d2
  | Kill p sig k =>
      (exists n, table n d) /\ may_kill calm (p, sig) /\
      forall d1, rely calm d d1 ->
        exists r d2, sys (kill p sig) d1 = Some (r, d2) /\ wpc calm (k r) Q d2
  end.

Lemma wpc_sound {A} calm (c : code W A) Q schedule d :
  Forall (Forall (allowed calm)) schedule -> wpc calm c Q d ->
  exists a ks d', run schedule c d = Some ((a, ks), d') /\ Q a d' /\ Forall (may_kill calm) ks.
Proof.
  revert schedule d. induction c as [a|B c k IH|p sig k IH]; intros schedule d Hs Hw; simpl in *.
  - exists a, [], d. auto.
  - destruct Hw as [[n Hn] Hw].
    destruct (deliver_rely calm n (default [] (head schedule)) d Hn) as (d1 & E1 & R1);
      [by destruct Hs|]. rewrite (bind_step E1). destruct (Hw d1 R1) as (b & d2 & E2 & Hk).
    rewrite (bind_step E2). apply IH; [by destruct Hs|done].
  - destruct Hw as [[n Hn] [Hp Hw]].
    destruct (deliver_rely calm n (default [] (head schedule)) d Hn) as (d1 & E1 & R1);
      [by destruct Hs|]. rewrite (bind_step E1). destruct (Hw d1 R1) as (r & d2 & E2 & Hk).
    rewrite (bind_step E2).
    destruct (IH r (tail schedule) d2) as (a & ks & d3 & E3 & HQ & HK); [by destruct Hs|done|].
    rewrite (bind_step E3). exists a, ((p, sig) :: ks), d3. auto.
Qed.

Lemma wpc_bind {A B} calm (c : code W A) (k : A -> code W B) Q d :
  wpc calm c (fun a d' => wpc calm (k a) Q d') d -> wpc calm (cbind c k) Q d.
Proof.
  revert d. induction c as [a|C c k' IH|p sig k' IH]; intros d; simpl; [done| |].
  - intros [Hn Hw]. split; [done|]. intros d1 R1. destruct (Hw d1 R1) as (b & d2 & E & Hk). eauto.
  - intros [Hn [Hp Hw]]. do 2 (split; [done|]). intros d1 R1.
    destruct (Hw d1 R1) as (r & d2 & E & Hk). eauto.
Qed.

Lemma wpc_mono {A} calm (c : code W A) (Q Q' : A -> daemon W -> Prop) d :
  (forall a d', Q a d' -> Q' a d') -> wpc calm c Q d -> wpc calm c Q' d.
Proof.
  intros HQ. revert d. induction c as [a|C c k IH|p sig k IH]; intros d; simpl; [auto| |].
  - intros [Hn Hw]. split; [done|]. intros d1 R1. destruct (Hw d1 R1) as (b & d2 & E & Hk). eauto.
  - intros [Hn [Hp Hw]]. do 2 (split; [done|]). intros d1 R1.
    destruct (Hw d1 R1) as (r & d2 & E & Hk). eauto 10.
Qed.

(** ** Accesses under the rely *)

Lemma table_slot n d i : table n d -> (i < Z.to_nat n)%nat -> exists x, workers d !! i = Some x /\ 0 <= pid x.
Proof.
  intros (Hl & Hn & Hb & Hp) Hi. destruct (lookup_lt_is_Some_2 (workers d) i) as [x Hx];
    [unfold MAX_WORKERS in *; lia|]. exists x. split; [done|]. by eapply Hp.
Qed.

Lemma table_set_os n d w : table n d -> table n (set_os d w).
Proof. done. Qed.

(** A system call leaves the table alone. *)
Lemma wpc_sys {A B} calm n (f : W -> B * W) (k : B -> code W A) Q d :
  table n d -> (forall b d', table n d' -> wpc calm (k b) Q d') -> wpc calm (Act (sys f) k) Q d.
Proof.
  intros Hd Hk. split; [by exists n|]. intros d1 R1. unfold sys. destruct (f (os d1)) as [b w].
  exists b, (set_os d1 w). split; [done|]. apply Hk. apply table_set_os. by eapply rely_table.
Qed.

Lemma wpc_kill {A} calm n p sig (k : Z -> code W A) Q d :
  table n d -> may_kill calm (p, sig) -> (forall r d', table n d' -> rely calm d d' -> wpc calm (k r) Q d') ->
  wpc calm (Kill p sig k) Q d.
Proof.
  intros Hd Hp Hk. split; [by exists n|]. split; [done|]. intros d1 R1. unfold sys.
  destruct (kill p sig (os d1)) as [r w]. exists r, (set_os d1 w). split; [done|].
  assert (rely calm d (set_os d1 w)) by (rewrite R1; apply rely_set_os).
  apply Hk; [by eapply rely_table|done].
Qed.

Lemma wpc_count {A} calm n (k : Z -> code W A) Q d :
  table n d -> (forall d', table n d' -> wpc calm (k n) Q d') -> wpc calm (Act rd_count k) Q d.
Proof.
  intros Hd Hk. split; [by exists n|]. intros d1 R1. pose proof (rely_table _ _ _ _ R1 Hd) as H1t.
  exists n, d1. destruct (H1t) as (_ & <- & _). split; [done|]. by apply Hk.
Qed.

(** Reading a pid; the state is one the rely leads to. *)
Lemma wpc_pid {A} calm n i (k : Z -> code W A) Q d :
  table n d -> (i < Z.to_nat n)%nat ->
  (forall x d', table n d' -> rely calm d d' -> workers d' !! i = Some x -> 0 <= pid x ->
     wpc calm (k (pid x)) Q d') ->
  wpc calm (Act (rd_pid i) k) Q d.
Proof.
  intros Hd Hi Hk. split; [by exists n|]. intros d1 R1. pose proof (rely_table _ _ _ _ R1 Hd) as H1t.
  destruct (table_slot n d1 i H1t Hi) as (x & Hx & Hpx).
  exists (pid x), d1. split; [|by apply Hk]. unfold rd_pid, bind, get_worker. by rewrite Hx.
Qed.

(** A second read of a pid that was positive. *)
Lemma wpc_pid_again {A} calm n i x (k : Z -> code W A) Q d :
  table n d -> (i < Z.to_nat n)%nat -> workers d !! i = Some x -> 0 < pid x ->
  (forall y d', table n d' -> workers d' !! i = Some y -> may_kill calm (pid y, 0) ->
     wpc calm (k (pid y)) Q d') ->
  wpc calm (Act (rd_pid i) k) Q d.
Proof.
  intros Hd Hi Hx Hp Hk. apply (wpc_pid calm n); [done|done|]. intros y d' Hd' [_ R1] Hy Hpy.
  apply Hk; [done|done|]. destruct calm; simpl; [|done]. rewrite R1 in Hy. by simplify_eq.
Qed.

(** Writing a field of a slot in use. *)
Lemma wpc_update {A} calm n i f (k : unit -> code W A) Q d :
  table n d -> (i < Z.to_nat n)%nat -> (forall x, 0 <= pid x -> 0 <= pid (f x)) ->
  (forall d', table n d' -> wpc calm (k tt) Q d') -> wpc calm (Act (update i f) k) Q d.
Proof.
  intros Hd Hi Hf Hk. split; [by exists n|]. intros d1 R1. pose proof (rely_table _ _ _ _ R1 Hd) as H1t.
  destruct (table_slot n d1 i H1t Hi) as (x & Hx & Hpx).
  unfold update, bind, get_worker, put_worker. rewrite Hx.
  rewrite (proj2 (Nat.ltb_lt _ _)) by (by eapply lookup_lt_Some).
  eexists _, _. split; [done|]. apply Hk. destruct H1t as (Hl & Hn & Hb & Hp).
  split; [simpl; by rewrite length_insert|]. split; [done|]. split; [done|]. simpl.
  intros j y Hj. destruct (decide (i = j)) as [<-|Hne].
  - rewrite list_lookup_insert_eq by (by eapply lookup_lt_Some). intros [= <-]. by apply Hf.
  - rewrite list_lookup_insert_ne by done. by apply Hp.
Qed.

(** ** The functions under every schedule *)

Lemma each_slot_wpc calm n body left : forall i d,
  (forall i d, table n d -> (i < Z.to_nat n)%nat -> wpc calm (body i) (fun _ => table n) d) ->
  table n d -> (MAX_WORKERS <= i + left)%nat -> wpc calm (each_slot body left i) (fun _ => table n) d.
Proof.
  induction left as [|left IH]; intros i d Hbody Hd Hle; simpl; apply (wpc_count calm n); try done;
    intros d1 Hd1; destruct (Z.ltb_spec (Z.of_nat i) n) as [Hlt|]; try done.
  - destruct Hd as (_ & _ & Hb & _). unfold MAX_WORKERS in *. lia.
  - apply wpc_bind. eapply wpc_mono; [|apply Hbody; [done|lia]]. intros u d2 Hd2. apply IH; [done|done|lia].
Qed.

Lemma terminate_wpc calm n i d :
  table n d -> (i < Z.to_nat n)%nat -> wpc calm (terminate_code i) (fun _ => table n) d.
Proof.
  intros Hd Hi. apply (wpc_pid calm n); [done|done|]. intros x d1 Hd1 _ Hx Hp.
  destruct (Z.ltb_spec 0 (pid x)); [|done].
  apply (wpc_pid_again calm n i x); try done. intros y d2 Hd2 Hy Hk.
  by apply (wpc_kill calm n).
Qed.

Lemma force_wpc calm n i d :
  table n d -> (i < Z.to_nat n)%nat -> wpc calm (force_code i) (fun _ => table n) d.
Proof.
  intros Hd Hi. apply (wpc_pid calm n); [done|done|]. intros x d1 Hd1 _ Hx Hp.
  destruct (Z.ltb_spec 0 (pid x)) as [Hpos|]; [|done].
  apply (wpc_pid_again calm n i x); try done. intros y d2 Hd2 Hy Hk.
  apply (wpc_kill calm n); [done|done|]. intros r d3 Hd3 R3. destruct (r =? 0); [|done].
  apply (wpc_pid calm n); [done|done|]. intros z d4 Hd4 R4 Hz Hpz.
  apply (wpc_kill calm n); [done| |done]. destruct calm; [|done].
  destruct R3 as [_ R3], R4 as [_ R4]. rewrite R4, R3 in Hz. simplify_eq. exact Hk.
Qed.

Lemma find_wpc calm n p st left : forall i d,
  table n d -> (MAX_WORKERS <= i + left)%nat -> wpc calm (find_code p st left i) (fun _ => table n) d.
Proof.
  induction left as [|left IH]; intros i d Hd Hle; simpl; apply (wpc_count calm n); try done;
    intros d1 Hd1; destruct (Z.ltb_spec (Z.of_nat i) n) as [Hlt|]; try done.
  - destruct Hd as (_ & _ & Hb & _). unfold MAX_WORKERS in *. lia.
  - apply (wpc_pid calm n); [done|lia|]. intros x d2 Hd2 _ Hx Hp.
    destruct (pid x =? p); [|by apply IH; [|lia]].
    apply (wpc_update calm n); [done|lia|done|]. intros d3 Hd3.
    apply (wpc_update calm n); [done|lia|done|]. done.
Qed.

Lemma reap_wpc calm n fuel : forall d,
  table n d -> wpc calm (reap_code fuel) (fun _ => table n) d.
Proof.
  induction fuel as [|fuel IH]; intros d Hd; [done|]. cbn [reap_code]. apply (wpc_sys calm n); [done|].
  intros [[p st]|] d1 Hd1; [|done]. destruct (0 <? p); [|done]. apply wpc_bind.
  eapply wpc_mono; [|by apply (find_wpc calm n); [done|lia]]. intros u d2 Hd2. by apply IH.
Qed.

Lemma remove_pidfile_os d : exists r w, daemon_remove_pidfile None d = Some (r, set_os d w).
Proof.
  unfold daemon_remove_pidfile, sys, bind. destruct (unlink _ (os d)) as [e w].
  destruct (_ && _); [|by eexists _, _].
  simpl. destruct (unlink _ w) as [e' w']. by exists 0, w'.
Qed.

Lemma shutdown_wpc calm n fuel d :
  table n d -> wpc calm (shutdown_code fuel) (fun _ => table n) d.
Proof.
  intros Hd. unfold shutdown_code. apply wpc_bind.
  eapply wpc_mono; [|by apply (each_slot_wpc calm n); [intros; by apply terminate_wpc|done|lia]].
  intros u d1 Hd1. apply (wpc_sys calm n); [done|]. intros u2 d2 Hd2. apply wpc_bind.
  eapply wpc_mono; [|by apply (each_slot_wpc calm n); [intros; by apply force_wpc|done|lia]].
  intros u3 d3 Hd3. apply wpc_bind. eapply wpc_mono; [|by apply (reap_wpc calm n)].
  intros b d4 Hd4. split; [by exists n|]. intros d5 R5.
  destruct (remove_pidfile_os d5) as (r & w & E). exists r, (set_os d5 w). split; [done|].
  apply table_set_os. by eapply rely_table.
Qed.

Lemma monitor_slot_wpc calm n i active d :
  table n d -> (i < Z.to_nat n)%nat -> 0 <= active ->
  wpc calm (monitor_code_slot i active) (fun a d' => table n d' /\ active <= a <= active + 1) d.
Proof.
  intros Hd Hi Ha. apply (wpc_pid calm n); [done|done|]. intros x d1 Hd1 _ Hx Hp.
  destruct (Z.ltb_spec 0 (pid x)); [|split; [done|lia]].
  apply (wpc_pid_again calm n i x); try done. intros y d2 Hd2 Hy Hk.
  apply (wpc_kill calm n); [done|done|]. intros err d3 Hd3 _.
  destruct (negb _); [|split; [done|lia]]. destruct (err =? ESRCH); [|split; [done|lia]].
  apply (wpc_update calm n); [done|lia|done|]. intros d4 Hd4.
  apply (wpc_update calm n); [done|lia|done|]. intros d5 Hd5. split; [done|lia].
Qed.

Lemma monitor_wpc calm n left : forall i active d,
  table n d -> 0 <= active <= Z.of_nat i -> Z.of_nat i <= n ->
  wpc calm (monitor_code left i active) (fun a d' => table n d' /\ 0 <= a <= n) d.
Proof.
  induction left as [|left IH]; intros i active d Hd Ha Hi; cbn [monitor_code]; apply (wpc_count calm n); try done;
    intros d1 Hd1; destruct (Z.ltb_spec (Z.of_nat i) n) as [Hlt|]; try (split; [done|lia]).
  apply wpc_bind. eapply wpc_mono; [|apply (monitor_slot_wpc calm n); [done|lia|lia]].
  intros a d2 [Hd2 Ha2]. apply IH; [done|lia|lia].
Qed.

(** The slot a spawn fills is not in use yet: no handler looks at it. *)
Definition fresh (n : Z) (x : worker_t) d : Prop :=
  table n d /\ n < Z.of_nat MAX_WORKERS /\ workers d !! Z.to_nat n = Some x.

Lemma rely_fresh calm n x d d' : rely calm d d' -> fresh n x d -> fresh n x d'.
Proof.
  intros R1 (Hd & Hlt & Hx). split; [by eapply rely_table|]. split; [done|]. pose proof R1 as [_ R2].
  destruct calm; [by rewrite R2|]. destruct R2 as [_ R2]. destruct (R2 _ _ Hx) as (y & Hy & [->|[Hi _]]); [done|].
  destruct Hd as (_ & Hn & _). rewrite Hn in Hi. lia.
Qed.

Lemma wpc_fresh {A} calm n x f (k : unit -> code W A) Q d :
  fresh n x d -> (forall d', fresh n (f x) d' -> wpc calm (k tt) Q d') ->
  wpc calm (Act (update (Z.to_nat n) f) k) Q d.
Proof.
  intros Hd Hk. split; [exists n; apply Hd|]. intros d1 R1.
  pose proof (rely_fresh _ _ _ _ _ R1 Hd) as ((Hl & Hn & Hb & Hp) & Hlt & Hx).
  unfold update, bind, get_worker, put_worker. rewrite Hx.
  pose proof (lookup_lt_Some _ _ _ Hx) as Hi. rewrite (proj2 (Nat.ltb_lt _ _)) by done.
  eexists _, _. split; [done|]. apply Hk. split; [split; [simpl; by rewrite length_insert|]|].
  - split; [done|]. split; [done|]. simpl. intros j y Hj. rewrite list_lookup_insert_ne by lia. by apply Hp.
  - split; [done|]. simpl. by rewrite list_lookup_insert_eq.
Qed.

Lemma wpc_fresh_sys {A B} calm n x (f : W -> B * W) (k : B -> code W A) Q d :
  fresh n x d -> (forall b d', fresh n x d' -> wpc calm (k b) Q d') -> wpc calm (Act (sys f) k) Q d.
Proof.
  intros Hd Hk. split; [exists n; apply Hd|]. intros d1 R1. unfold sys. destruct (f (os d1)) as [b w].
  exists b, (set_os d1 w). split; [done|]. apply Hk. exact (rely_fresh _ _ _ _ _ R1 Hd).
Qed.

(** How a spawn ends under any schedule. *)
Definition spawned (n : Z) (r : ctl) d : Prop :=
  (r = Ret (-1) /\ table n d) \/
  (r = Ret 0 /\ n < Z.of_nat MAX_WORKERS /\ table (n + 1) d /\
    exists x, workers d !! Z.to_nat n = Some x /\ 0 < pid x /\ status x = WORKER_BUSY) \/
  r = Exit 0.

Lemma spawn_wpc calm n f d :
  table n d -> safe f -> wpc calm (spawn_code f) (spawned n) d.
Proof.
  intros Hd Hf. apply (wpc_count calm n); [done|]. intros d1 Hd1.
  destruct (Z.leb_spec (Z.of_nat MAX_WORKERS) n) as [|Hlt]; [by left|].
  apply (wpc_sys calm n); [done|]. intros p d2 Hd2.
  destruct (Z.ltb_spec p 0) as [|Hp]; [by left|]. destruct (Z.eqb_spec p 0) as [|Hp0].
  { split; [by exists n|]. intros d3 _. destruct (Hf d3) as (u & d4 & E). exists u, d4.
    split; [done|]. right. by right. }
  apply (wpc_count calm n); [done|]. intros d3 Hd3.
  destruct (lookup_lt_is_Some_2 (workers d3) (Z.to_nat n)) as [x0 Hx0].
  { destruct Hd3 as (Hl & _ & Hb & _). unfold MAX_WORKERS in *. lia. }
  apply (wpc_fresh calm n x0); [done|]. intros d4 Hd4.
  eapply (wpc_fresh calm n); [done|]. intros d5 Hd5.
  eapply (wpc_fresh_sys calm n); [done|]. intros now d6 Hd6.
  eapply (wpc_fresh calm n); [done|]. intros d7 Hd7.
  eapply (wpc_fresh calm n); [done|]. intros d8 Hd8.
  split; [exists n; apply Hd8|]. intros d9 R9. eexists _, _. split; [done|].
  pose proof (rely_fresh _ _ _ _ _ R9 Hd8) as ((Hl & Hn & Hb & Hpid) & _ & Hx).
  right. left. split; [done|]. split; [done|]. split.
  - split; [done|]. simpl. split; [by rewrite Hn|]. split; [lia|]. intros i y Hi Hy.
    destruct (decide (i = Z.to_nat n)) as [->|Hne]; [simplify_eq; simpl; lia|].
    apply (Hpid i); [lia|done].
  - eexists. split; [exact Hx|]. simpl. split; [lia|done].
Qed.

Lemma wf_table n d : wf_at n d -> table n d.
Proof.
  intros [[Hl Hc Hu Hf] Hn]. split; [done|]. split; [done|]. split; [lia|].
  intros i x Hi Hx. eapply Hu; [by rewrite Hn|done].
Qed.
End Rely.

(** ** Without events *)

Section Serial.
Context {W : Type} `{Files W} `{Procs W} `{Clock W}.
Implicit Types d : daemon W.

(** [c] run with no event, its [kill] calls dropped. *)
Definition serial {A} (c : code W A) : M (daemon W) A := let! ak := run [] c in ret ak.1.

Lemma serial_done {A} (a : A) d : serial (Done a) d = Some (a, d).
Proof. done. Qed.

Lemma serial_act {A B} (c : M (daemon W) B) (k : B -> code W A) d :
  serial (Act c k) d = (let! b := c in serial (k b)) d.
Proof. unfold serial, bind. simpl. unfold bind. simpl. by destruct (c d) as [[b d1]|]. Qed.

Lemma serial_kill {A} p sig (k : Z -> code W A) d :
  serial (Kill p sig k) d = (let! r := sys (kill p sig) in serial (k r)) d.
Proof.
  unfold serial, bind. simpl. unfold bind. simpl. destruct (sys (kill p sig) d) as [[r d1]|]; [|done].
  by destruct (run [] (k r) d1) as [[[a ks] d2]|].
Qed.

Lemma serial_bind {A B} (c : code W A) (k : A -> code W B) d :
  serial (cbind c k) d = (let! a := serial c in serial (k a)) d.
Proof.
  revert d. induction c as [a|C c k' IH|p sig k' IH]; intros d; simpl; [done| |].
  - rewrite serial_act. unfold bind at 1 2. rewrite serial_act. unfold bind.
    destruct (c d) as [[b d1]|]; [|done]. by rewrite IH.
  - rewrite serial_kill. unfold bind at 1 2. rewrite serial_kill. unfold bind.
    destruct (sys (kill p sig) d) as [[r d1]|]; [|done]. by rewrite IH.
Qed.

Lemma serial_count {A} (k : Z -> code W A) d : serial (Act rd_count k) d = serial (k (worker_count d)) d.
Proof. by rewrite serial_act. Qed.

Lemma serial_pid {A} i (k : Z -> code W A) d x :
  workers d !! i = Some x -> serial (Act (rd_pid i) k) d = serial (k (pid x)) d.
Proof. intros Hx. rewrite serial_act. unfold bind, rd_pid, bind, get_worker. by rewrite Hx. Qed.

Lemma serial_update {A} i f (k : unit -> code W A) d x :
  workers d !! i = Some x ->
  serial (Act (update i f) k) d = serial (k tt) (set_workers d (<[i := f x]> (workers d))).
Proof.
  intros Hx. rewrite serial_act. unfold bind, update, bind, get_worker, put_worker. rewrite Hx.
  by rewrite (proj2 (Nat.ltb_lt _ _)) by (by eapply lookup_lt_Some).
Qed.

Lemma set_twice i f g d x :
  workers d !! i = Some x ->
  set_workers (set_workers d (<[i := f x]> (workers d)))
    (<[i := g (f x)]> (workers (set_workers d (<[i := f x]> (workers d))))) =
  set_workers d (<[i := g (f x)]> (workers d)).
Proof. intros Hx. unfold set_workers. simpl. by rewrite list_insert_insert_eq. Qed.

(** The search loop. *)
Lemma serial_find n p st left : forall i d,
  table n d -> (MAX_WORKERS <= i + left)%nat ->
  serial (find_code p st left i) d =
  match find_idx (fun x => pid x =? p) (drop i (take (Z.to_nat n) (workers d))) with
  | Some j => (let! x := get_worker (i + j) in
               put_worker (i + j) (with_pid (with_status x (end_status st)) 0)) d
  | None => Some (tt, d)
  end.
Proof.
  induction left as [|left IH]; intros i d Hd Hle; cbn [find_code]; rewrite serial_count;
    pose proof Hd as (Hl & -> & Hb & _).
  - destruct (Z.ltb_spec (Z.of_nat i) n); [unfold MAX_WORKERS in *; lia|].
    rewrite drop_ge by (rewrite length_take; lia). done.
  - destruct (Z.ltb_spec (Z.of_nat i) n) as [Hlt|]; [|by rewrite drop_ge by (rewrite length_take; lia)].
    destruct (table_slot n d i Hd ltac:(lia)) as (x & Hx & _).
    rewrite (serial_pid _ _ _ x Hx).
    assert (drop i (take (Z.to_nat n) (workers d)) = x :: drop (S i) (take (Z.to_nat n) (workers d))) as ->.
    { apply drop_S. rewrite lookup_take_lt by lia. done. }
    cbn [find_idx]. destruct (pid x =? p).
    + rewrite Nat.add_0_r. unfold wr_status, wr_pid. rewrite (serial_update _ _ _ _ x Hx).
      erewrite serial_update; [|simpl; rewrite list_lookup_insert_eq; [done|by eapply lookup_lt_Some]].
      rewrite serial_done, (set_twice i (fun x => with_status x (end_status st)) (fun x => with_pid x 0)) by done.
      unfold bind, get_worker, put_worker. rewrite Hx.
      by rewrite (proj2 (Nat.ltb_lt _ _)) by (by eapply lookup_lt_Some).
    + rewrite IH by (done || lia). destruct (find_idx _ _) as [j|]; [|done].
      simpl. by replace (i + S j)%nat with (S (i + j)) by lia.
Qed.

Lemma serial_find_all n p st d :
  table n d -> serial (find_code p st MAX_WORKERS 0) d = mark_ended p st d.
Proof.
  intros Hd. rewrite (serial_find n) by (done || lia). destruct Hd as (Hl & <- & Hb & _).
  unfold mark_ended. rewrite drop_0. destruct (find_idx _ _); [done|].
  unfold MAX_WORKERS in *. by rewrite (proj2 (Nat.leb_le _ _)) by lia.
Qed.

Lemma serial_reap n fuel : forall d, table n d -> serial (reap_code fuel) d = reap_loop fuel d.
Proof.
  induction fuel as [|fuel IH]; intros d Hd; [done|]. cbn [reap_code reap_loop].
  rewrite serial_act. unfold bind at 1. unfold bind at 1. unfold sys.
  destruct (waitpid (os d)) as [[[p st]|] w]; [|done]. destruct (0 <? p); [|done].
  rewrite serial_bind. unfold bind. rewrite (serial_find_all n) by done.
  destruct (mark_ended_rely n p st (set_os d w)) as (d1 & E1 & R1); [done|]. rewrite E1.
  apply IH. by eapply rely_table.
Qed.

(** A loop over the slots in use. *)
Lemma serial_each n (code_body : nat -> code W unit) (body : nat -> M (daemon W) unit) left : forall i d,
  (forall j d, table n d -> (j < Z.to_nat n)%nat ->
     serial (code_body j) d = body j d /\ exists d', body j d = Some (tt, d') /\ table n d') ->
  table n d -> (MAX_WORKERS <= i + left)%nat ->
  serial (each_slot code_body left i) d = forM body (seq i (Z.to_nat n - i)) d /\
  exists d', forM body (seq i (Z.to_nat n - i)) d = Some (tt, d') /\ table n d'.
Proof.
  induction left as [|left IH]; intros i d Hbody Hd Hle; cbn [each_slot]; rewrite serial_count;
    pose proof Hd as (Hl & -> & Hb & _).
  - destruct (Z.ltb_spec (Z.of_nat i) n); [unfold MAX_WORKERS in *; lia|].
    replace (Z.to_nat n - i)%nat with 0%nat by lia. split; [done|by exists d].
  - destruct (Z.ltb_spec (Z.of_nat i) n) as [Hlt|].
    2: { replace (Z.to_nat n - i)%nat with 0%nat by lia. split; [done|by exists d]. }
    destruct (Hbody i d Hd ltac:(lia)) as [E (d1 & E1 & Hd1)].
    destruct (IH (S i) d1 Hbody Hd1 ltac:(lia)) as [E2 Hend].
    replace (Z.to_nat n - i)%nat with (S (Z.to_nat n - S i)) by lia.
    assert (forM body (seq i (S (Z.to_nat n - S i))) d = forM body (seq (S i) (Z.to_nat n - S i)) d1) as ->.
    { unfold forM. simpl. unfold bind. by rewrite E1. }
    rewrite serial_bind. unfold bind. rewrite E, E1. by rewrite E2.
Qed.

Lemma sys_ok {A} (f : W -> A * W) a w d : f (os d) = (a, w) -> sys f d = Some (a, set_os d w).
Proof. intros E. unfold sys. by rewrite E. Qed.

Lemma get_ok i x d : workers d !! i = Some x -> get_worker i d = Some (x, d).
Proof. intros Hx. unfold get_worker. by rewrite Hx. Qed.

Lemma serial_terminate n i d :
  table n d -> (i < Z.to_nat n)%nat ->
  serial (terminate_code i) d = terminate_slot i d /\
  exists d', terminate_slot i d = Some (tt, d') /\ table n d'.
Proof.
  intros Hd Hi. destruct (table_slot n d i Hd Hi) as (x & Hx & _).
  unfold terminate_code, terminate_slot. rewrite (serial_pid _ _ _ x Hx).
  rewrite !(bind_step (get_ok i x d Hx)). destruct (0 <? pid x); [|split; [done|by exists d]].
  rewrite (serial_pid _ _ _ x Hx), serial_kill. unfold bind, sys.
  destruct (kill (pid x) SIGTERM (os d)) as [r w]. split; [done|]. by exists (set_os d w).
Qed.

Lemma serial_force n i d :
  table n d -> (i < Z.to_nat n)%nat ->
  serial (force_code i) d = force_slot i d /\
  exists d', force_slot i d = Some (tt, d') /\ table n d'.
Proof.
  intros Hd Hi. destruct (table_slot n d i Hd Hi) as (x & Hx & _).
  unfold force_code, force_slot. rewrite (serial_pid _ _ _ x Hx).
  rewrite !(bind_step (get_ok i x d Hx)). destruct (0 <? pid x); [|split; [done|by exists d]].
  rewrite (serial_pid _ _ _ x Hx), serial_kill. unfold bind, sys.
  destruct (kill (pid x) 0 (os d)) as [r w]. destruct (r =? 0); [|split; [done|by exists (set_os d w)]].
  rewrite (serial_pid _ _ (set_os d w) x Hx), serial_kill. unfold bind, sys. simpl os.
  destruct (kill (pid x) SIGKILL w) as [r' w']. split; [done|]. by exists (set_os (set_os d w) w').
Qed.

(** One turn of the monitoring loop. *)
Lemma serial_monitor_slot n i active d :
  table n d -> (i < Z.to_nat n)%nat ->
  exists a d', serial (monitor_code_slot i active) d = Some (a, d') /\ table n d' /\
    monitor_slot 0 (active, None) i d = Some ((a, None), d').
Proof.
  intros Hd Hi. destruct (table_slot n d i Hd Hi) as (x & Hx & _).
  unfold monitor_code_slot, monitor_slot. rewrite (serial_pid _ _ _ x Hx).
  rewrite (bind_step (get_ok i x d Hx)).
  destruct (0 <? pid x) eqn:Hp; [|by exists active, d].
  rewrite (serial_pid _ _ _ x Hx), serial_kill. unfold bind, sys.
  destruct (kill (pid x) 0 (os d)) as [err w]. destruct (err =? 0) eqn:He; simpl negb; cbn match.
  { exists (active + 1), (set_os d w). split; [done|]. split; [done|]. unfold ret, get_worker. simpl. by rewrite Hx. }
  destruct (err =? ESRCH).
  2: { exists active, (set_os d w). split; [done|]. split; [done|]. unfold ret, get_worker. simpl. by rewrite Hx. }
  unfold wr_status, wr_pid. rewrite (serial_update _ _ _ (set_os d w) x Hx).
  erewrite serial_update; [|simpl; rewrite list_lookup_insert_eq; [done|by eapply lookup_lt_Some]].
  rewrite serial_done, (set_twice i (fun x => with_status x WORKER_FAILED) (fun x => with_pid x 0)) by done.
  pose proof (lookup_lt_Some _ _ _ Hx) as Hlen.
  eexists _, _. split; [done|]. split.
  - destruct Hd as (Hl & Hn & Hb & Hpid). split; [simpl; by rewrite length_insert|].
    split; [done|]. split; [done|]. simpl. intros j y Hj. destruct (decide (i = j)) as [<-|Hne].
    + rewrite list_lookup_insert_eq by done. by intros [= <-].
    + rewrite list_lookup_insert_ne by done. by apply Hpid.
  - unfold put_worker. simpl. rewrite (proj2 (Nat.ltb_lt _ _)) by done. unfold get_worker. simpl.
    rewrite list_lookup_insert_eq by done. done.
Qed.

Lemma serial_monitor n left : forall i active d,
  table n d -> (MAX_WORKERS <= i + left)%nat ->
  exists a d', serial (monitor_code left i active) d = Some (a, d') /\ table n d' /\
    foldM (monitor_slot 0) (active, None) (seq i (Z.to_nat n - i)) d = Some ((a, None), d').
Proof.
  induction left as [|left IH]; intros i active d Hd Hle; cbn [monitor_code]; rewrite serial_count;
    pose proof Hd as (Hl & -> & Hb & _).
  - replace (Z.to_nat n - i)%nat with 0%nat by (unfold MAX_WORKERS in *; lia).
    exists active, d. split; [by destruct (Z.of_nat i <? n)|done].
  - destruct (Z.ltb_spec (Z.of_nat i) n) as [Hlt|].
    2: { replace (Z.to_nat n - i)%nat with 0%nat by lia. by exists active, d. }
    destruct (serial_monitor_slot n i active d Hd ltac:(lia)) as (a1 & d1 & E1 & Hd1 & F1).
    destruct (IH (S i) a1 d1 Hd1 ltac:(lia)) as (a & d2 & E2 & Hd2 & F2).
    exists a, d2. split; [by rewrite serial_bind; unfold bind; rewrite E1|]. split; [done|].
    replace (Z.to_nat n - i)%nat with (S (Z.to_nat n - S i)) by lia. cbn [seq foldM].
    by rewrite (bind_step F1).
Qed.

Lemma slots_bounded n d :
  table n d -> filter (fun i => i < MAX_WORKERS)%nat (slots d) = seq 0 (Z.to_nat n).
Proof.
  intros (Hl & <- & Hb & _). unfold slots. apply filter_all. apply Forall_forall.
  intros i Hi%elem_of_seq. lia.
Qed.

Lemma insert_last (l : list worker_t) i a b c e :
  <[i := e]> (<[i := c]> (<[i := b]> (<[i := a]> l))) = <[i := e]> l.
Proof. by rewrite !list_insert_insert_eq. Qed.

Lemma serial_spawn n f d :
  table n d -> serial (spawn_code f) d = daemon_spawn_worker f d.
Proof.
  intros Hd. unfold spawn_code, daemon_spawn_worker. rewrite serial_count.
  pose proof Hd as (Hl & Hn & Hb & _). rewrite Hn.
  destruct (Z.leb_spec (Z.of_nat MAX_WORKERS) n) as [|Hlt]; [done|].
  rewrite serial_act. destruct (fork (os d)) as [p w] eqn:Ef. rewrite !(bind_step (sys_ok _ _ _ d Ef)).
  destruct (p <? 0); [done|]. destruct (p =? 0).
  { rewrite serial_act. unfold bind. by destruct (f (set_os d w)) as [[u d1]|]. }
  rewrite serial_count. change (worker_count (set_os d w)) with (worker_count d). rewrite Hn.
  destruct (lookup_lt_is_Some_2 (workers d) (Z.to_nat n)) as [x Hx]; [unfold MAX_WORKERS in *; lia|].
  pose proof (lookup_lt_Some _ _ _ Hx) as Hi.
  unfold wr_pid, wr_status, wr_started, wr_task.
  rewrite (serial_update _ _ _ (set_os d w) x Hx).
  erewrite serial_update by (simpl; by apply list_lookup_insert_eq).
  rewrite serial_act. destruct (time w) as [now w'] eqn:Et.
  rewrite (bind_step (sys_ok time now w' (set_os d w) Et)).
  erewrite (bind_step (sys_ok time now w' _ _)).
  erewrite serial_update by (simpl; apply list_lookup_insert_eq; by rewrite length_insert).
  erewrite serial_update by (simpl; apply list_lookup_insert_eq; by rewrite !length_insert).
  rewrite serial_act. unfold bind, put_worker. simpl. rewrite (proj2 (Nat.ltb_lt _ _)) by done.
  unfold set_os, set_workers, incr_count. simpl. rewrite insert_last, Hn. done.
Unshelve. done.
Qed.

(** What the whole shutdown does with enough fuel for its [waitpid] loop. *)
Lemma serial_shutdown n d :
  table n d -> exists fuel, serial (shutdown_code fuel) d = daemon_shutdown d.
Proof.
  intros Hd. pose proof Hd as (Hl & Hn & Hb & _).
  destruct (serial_each n terminate_code terminate_slot MAX_WORKERS 0 d (serial_terminate n) Hd ltac:(lia))
    as [E1 (d1 & F1 & Hd1)]. rewrite Nat.sub_0_r in E1, F1.
  set (d2 := set_os d1 (sleep 2 (os d1))).
  destruct (serial_each n force_code force_slot MAX_WORKERS 0 d2 (serial_force n) Hd1 ltac:(lia))
    as [E3 (d3 & F3 & Hd3)]. rewrite Nat.sub_0_r in E3, F3.
  exists (S (zombies (os d3))). unfold shutdown_code, daemon_shutdown, slots. rewrite Hn.
  rewrite serial_bind. unfold bind at 1. rewrite E1, F1. rewrite (bind_step F1).
  rewrite serial_act. unfold bind at 1. unfold bind at 1. unfold sys at 1 2. fold d2.
  rewrite serial_bind. unfold bind at 1. rewrite E3, F3. rewrite (bind_step F3).
  rewrite serial_bind. unfold bind at 1. rewrite (serial_reap n) by done.
  unfold bind at 1. unfold daemon_reap_zombies, bind at 1.
  destruct (reap_loop (S (zombies (os d3))) d3) as [[b d4]|]; [|done].
  cbn [ret]. rewrite serial_act. unfold bind. by destruct (daemon_remove_pidfile None d4) as [[r d5]|].
Qed.
End Serial.

(** ** Runs *)

Section Runs.
Context {W : Type} `{Files W} `{Procs W} `{Clock W}.

(** The states the daemon can be in between its operations, when every
    operation so far ran under its own schedule of events. *)
Inductive async_runs (w : W) : nat -> daemon W -> Prop :=
  | ar_start : async_runs w 0 (daemon_start w)
  | ar_spawned n f schedule d ks d' :
      async_runs w n d -> safe f -> run schedule (spawn_code f) d = Some ((Ret 0, ks), d') ->
      async_runs w (S n) d'
  | ar_refused n f schedule d ks d' :
      async_runs w n d -> safe f -> run schedule (spawn_code f) d = Some ((Ret (-1), ks), d') ->
      async_runs w n d'
  | ar_monitor n schedule d a ks d' :
      async_runs w n d -> run schedule (monitor_code MAX_WORKERS 0 0) d = Some ((a, ks), d') ->
      async_runs w n d'
  | ar_reload n d r d' :
      async_runs w n d -> daemon_reload_config d = Some (r, d') -> async_runs w n d'
  | ar_events n evs d d' :
      async_runs w n d -> forM deliver evs d = Some (tt, d') -> async_runs w n d'.

Lemma allowed_any (schedule : list (list (event W))) : Forall (Forall (allowed false)) schedule.
Proof. apply Forall_forall. intros evs _. apply Forall_forall. by intros [sig|w] _. Qed.

Lemma async_table w n d : async_runs w n d -> table (Z.of_nat n) d.
Proof.
  induction 1 as [|n f sch d ks d' Hr IH Hf E|n f sch d ks d' Hr IH Hf E|n sch d a ks d' Hr IH E
    |n d r d' Hr IH E|n evs d d' Hr IH E].
  - apply wf_table, start_wf.
  - destruct (wpc_sound false (spawn_code f) _ sch d (allowed_any sch) (spawn_wpc false _ f d IH Hf))
      as (r & ks' & d2 & E2 & Hs & _). simplify_eq.
    destruct Hs as [[? _]|[(_ & _ & Ht & _)|?]]; [done| |done].
    by replace (Z.of_nat (S n)) with (Z.of_nat n + 1) by lia.
  - destruct (wpc_sound false (spawn_code f) _ sch d (allowed_any sch) (spawn_wpc false _ f d IH Hf))
      as (r & ks' & d2 & E2 & Hs & _). simplify_eq. by destruct Hs as [[_ ?]|[(? & _)|?]].
  - destruct (wpc_sound false (monitor_code MAX_WORKERS 0 0) _ sch d (allowed_any sch)
      (monitor_wpc false (Z.of_nat n) MAX_WORKERS 0 0 d IH ltac:(lia) ltac:(lia)))
      as (a2 & ks' & d2 & E2 & [Ht _] & _). by simplify_eq.
  - injection E as _ <-. exact IH.
  - destruct (deliver_rely false (Z.of_nat n) evs d IH) as (d2 & E2 & R2).
    { apply Forall_forall. by intros [sig|w'] _. }
    simplify_eq. by eapply rely_table.
Qed.

(** C5. Signals may arrive between any two accesses: in every state reached
    with operations that were interrupted in any way, spawning, monitoring and
    shutting down under any further schedule read and write inside the worker
    array, a spawn that succeeds leaves its worker in the next slot, and no
    negative pid is signalled.  When no SIGCHLD arrives during the operation
    only positive pids are. *)
Theorem async_safe w n d (calm : bool) schedule f fuel :
  async_runs w n d -> Forall (Forall (allowed calm)) schedule -> safe f ->
  (exists r ks d', run schedule (spawn_code f) d = Some ((r, ks), d') /\ spawned (Z.of_nat n) r d') /\
  (exists a ks d', run schedule (monitor_code MAX_WORKERS 0 0) d = Some ((a, ks), d') /\
     table (Z.of_nat n) d' /\ 0 <= a <= Z.of_nat n /\ Forall (may_kill calm) ks) /\
  (exists u ks d', run schedule (shutdown_code fuel) d = Some ((u, ks), d') /\
     table (Z.of_nat n) d' /\ Forall (may_kill calm) ks).
Proof.
  intros Hr Hs Hf. apply async_table in Hr. split_and!.
  - destruct (wpc_sound calm _ _ schedule d Hs (spawn_wpc calm _ f d Hr Hf)) as (r & ks & d' & E & Hq & _).
    eauto.
  - destruct (wpc_sound calm _ _ schedule d Hs
      (monitor_wpc calm (Z.of_nat n) MAX_WORKERS 0 0 d Hr ltac:(lia) ltac:(lia))) as (a & ks & d' & E & [Ht Ha] & Hk).
    eauto 10.
  - destruct (wpc_sound calm _ _ schedule d Hs (shutdown_wpc calm _ fuel d Hr)) as (u & ks & d' & E & Ht & Hk).
    eauto 10.
Qed.

(** Without events the split functions are the functions of daemon.c run
    as one step each: the same results and the same final state, in every
    state reached. *)
Theorem async_serial w n d f :
  async_runs w n d ->
  serial (spawn_code f) d = daemon_spawn_worker f d /\
  (exists a d', serial (monitor_code MAX_WORKERS 0 0) d = Some (a, d') /\
     daemon_monitor_workers None 0 d = Some ((a, None), d')) /\
  (forall fuel, serial (reap_code fuel) d = reap_loop fuel d) /\
  (exists fuel, serial (shutdown_code fuel) d = daemon_shutdown d).
Proof.
  intros Hr%async_table. split_and!.
  - by eapply serial_spawn.
  - destruct (serial_monitor (Z.of_nat n) MAX_WORKERS 0 0 d Hr ltac:(lia)) as (a & d' & E & _ & F).
    exists a, d'. split; [done|]. unfold daemon_monitor_workers.
    rewrite (slots_bounded (Z.of_nat n)) by done. by rewrite Nat.sub_0_r in F.
  - intros fuel. by eapply serial_reap.
  - by eapply serial_shutdown.
Qed.
End Runs.

(** ** Races *)

Definition idle_worker : M (daemon sim) unit := ret tt.
(** The worker with pid 200 has exited normally and waits to be reaped. *)
Definition child_exited (w : sim) : sim := sim_put_procs w [] [(200, exited 0)] 201.
Definition one_worker : daemon sim :=
  match run [] (spawn_code idle_worker) (daemon_start blank) with Some (_, d) => d | None => daemon_start blank end.

(** Two races with SIGCHLD.  A worker that ends normally right after
    [fork], before its slot is counted, is reaped unnoticed: the table keeps
    it as busy, and the next check reports it as failed.  A worker that ends
    between the test of its pid and the [kill] of the shutdown makes the
    daemon call [kill(0, SIGTERM)], which signals its own process group. *)
Theorem sigchld_races :
  (exists schedule ks d1 d2 a ks2 x1 x2,
     run schedule (spawn_code idle_worker) (daemon_start blank) = Some ((Ret 0, ks), d1) /\
     waitpid (child_exited blank) = (Some (200, exited 0), sim_put_procs (child_exited blank) [] [] 201) /\
     workers d1 !! 0%nat = Some x1 /\ pid x1 = 200 /\ status x1 = WORKER_BUSY /\ running 200 (os d1) = false /\
     run [] (monitor_code MAX_WORKERS 0 0) d1 = Some ((a, ks2), d2) /\
     workers d2 !! 0%nat = Some x2 /\ status x2 = WORKER_FAILED) /\
  (exists schedule ks d',
     async_runs blank 1 one_worker /\
     run schedule (shutdown_code 5) one_worker = Some ((tt, ks), d') /\ (0, SIGTERM) ∈ ks).
Proof.
  split.
  - exists [[]; []; [Outside (child_exited blank); Sig SIGCHLD]]. do 7 eexists.
    split_and!; vm_compute; reflexivity.
  - exists [[]; []; [Outside (child_exited (os one_worker)); Sig SIGCHLD]]. do 2 eexists. split_and!.
    + eapply (ar_spawned _ 0 idle_worker []); [apply ar_start|apply safe_ret|vm_compute; reflexivity].
    + vm_compute. reflexivity.
    + vm_compute. left.
Qed.

Lemma async_safe_witness :
  exists u ks d', run [[Sig SIGTERM]; [Outside blank; Sig SIGHUP]] (shutdown_code 3) one_worker = Some ((u, ks), d') /\
    table 1 d' /\ Forall (may_kill true) ks.
Proof.
  apply (async_safe blank 1 one_worker true _ idle_worker 3).
  - eapply (ar_spawned _ 0 idle_worker []); [apply ar_start|apply safe_ret|vm_compute; reflexivity].
  - repeat constructor; intros _; discriminate.
  - apply safe_ret.
Defined.

Lemma async_serial_witness :
  serial (spawn_code idle_worker) one_worker = daemon_spawn_worker idle_worker one_worker /\
  (exists a d', serial (monitor_code MAX_WORKERS 0 0) one_worker = Some (a, d') /\
     daemon_monitor_workers None 0 one_worker = Some ((a, None), d')) /\
  (forall fuel, serial (reap_code fuel) one_worker = reap_loop fuel one_worker) /\
  (exists fuel, serial (shutdown_code fuel) one_worker = daemon_shutdown one_worker).
Proof.
  apply (async_serial blank 1).
  eapply (ar_spawned _ 0 idle_worker []); [apply ar_start|apply safe_ret|vm_compute; reflexivity].
Defined.
