(* ===== verification/Ipc.v ===== *)
(** * src/ipc_server.c, include/ipc_server.h and the client of cli/storage_cli.c

    The server's client table under its mutex, the request/response protocol
    as the bytes of the two C structures, the select loop, the shared status
    page, the semaphore and the job queue; and [send_command], the other end
    of the wire.  Sockets and the System V and POSIX objects are an
    interface. *)

From stdpp Require Import base list gmap strings pretty.
From Stdlib Require Import Ascii ZArith Lia.
From S2P Require Import Prelude CString CFormat Sys.

(** ** Constants *)

Definition IPC_SOCKET_PATH : string := "/var/run/storage_mgr.sock".
Definition IPC_PROTOCOL_VERSION : Z := 1.
Definition IPC_MAX_PAYLOAD_SIZE : nat := Z.to_nat 8192.
Definition IPC_MAX_CLIENTS : nat := 64.
Definition FD_SETSIZE : Z := 1024.

(** [command_type_t]: an unsigned 32-bit value on the wire. *)
Definition CMD_STATUS : Z := 0.
Definition CMD_RAID_CREATE : Z := 1.
Definition CMD_RAID_STATUS : Z := 2.
Definition CMD_RAID_ADD_DISK : Z := 3.
Definition CMD_RAID_REMOVE_DISK : Z := 4.
Definition CMD_RAID_FAIL_DISK : Z := 5.
Definition CMD_LVM_PV_CREATE : Z := 6.
Definition CMD_LVM_VG_CREATE : Z := 7.
Definition CMD_LVM_LV_CREATE : Z := 8.
Definition CMD_LVM_LV_EXTEND : Z := 9.
Definition CMD_LVM_SNAPSHOT : Z := 10.
Definition CMD_FS_CREATE : Z := 11.
Definition CMD_FS_MOUNT : Z := 12.
Definition CMD_FS_UNMOUNT : Z := 13.
Definition CMD_FS_CHECK : Z := 14.
Definition CMD_BACKUP_CREATE : Z := 15.
Definition CMD_BACKUP_LIST : Z := 16.
Definition CMD_BACKUP_RESTORE : Z := 17.
Definition CMD_MONITOR_STATS : Z := 18.
Definition CMD_MONITOR_START : Z := 19.
Definition CMD_MONITOR_STOP : Z := 20.
Definition CMD_PERF_BENCHMARK : Z := 21.
Definition CMD_PERF_TUNE : Z := 22.
Definition CMD_SHUTDOWN : Z := 23.

(** [status_code_t] *)
Definition STATUS_OK : Z := 0.
Definition STATUS_ERROR : Z := -1.
Definition STATUS_INVALID_COMMAND : Z := -2.

(** ** The structures on the wire *)

Definition bytes : Type := list ascii.

Definition byte_at (k z : Z) : ascii := ascii_of_N (Z.to_N (z / 256 ^ k mod 256)).
Definition byte_val (c : ascii) : Z := Z.of_N (N_of_ascii c).

(** A 32-bit integer in memory, least significant byte first. *)
Definition le32 (z : Z) : bytes := [byte_at 0 z; byte_at 1 z; byte_at 2 z; byte_at 3 z].
Definition un32 (b : bytes) : Z :=
  match b with
  | [b0; b1; b2; b3] =>
      byte_val b0 + 256 * byte_val b1 + 256 ^ 2 * byte_val b2 + 256 ^ 3 * byte_val b3
  | _ => 0
  end.

(** A [char] array of [n] bytes that holds a string and zeros. *)
Definition char_array (n : nat) (s : string) : bytes :=
  let l := take n (String.list_ascii_of_string s) in l ++ replicate (n - length l) NUL.

(** The string a [char] array holds; [None] when no byte of it is NUL. *)
Fixpoint c_string (b : bytes) : option string :=
  match b with
  | [] => None
  | c :: b' => if Ascii.eqb c NUL then Some "" else String c <$> c_string b'
  end.

Record request_t := mk_request {
  version : Z;
  rq_id : Z;
  command : Z;
  payload_size : Z;
  payload : bytes;
}.

Record response_t := mk_response {
  rs_id : Z;
  rs_status : Z;
  error_msg : bytes;
  data_size : Z;
  data : bytes;
}.

Definition request_bytes (r : request_t) : bytes :=
  le32 (version r) ++ le32 (rq_id r) ++ le32 (command r) ++ le32 (payload_size r) ++ payload r.
Definition SIZEOF_REQUEST : nat := 16 + IPC_MAX_PAYLOAD_SIZE.

(** The structure that [SIZEOF_REQUEST] bytes stand for. *)
Definition bytes_request (b : bytes) : request_t :=
  mk_request (un32 (take 4 b)) (un32 (take 4 (drop 4 b))) (un32 (take 4 (drop 8 b)))
    (un32 (take 4 (drop 12 b))) (drop 16 b).

Definition response_bytes (r : response_t) : bytes :=
  le32 (rs_id r) ++ le32 (rs_status r) ++ error_msg r ++ le32 (data_size r) ++ data r.
Definition SIZEOF_RESPONSE : nat := 12 + 256 + IPC_MAX_PAYLOAD_SIZE.

Definition bytes_response (b : bytes) : response_t :=
  mk_response (un32 (take 4 b)) (i32 (un32 (take 4 (drop 4 b)))) (take 256 (drop 8 b))
    (un32 (take 4 (drop 264 b))) (drop 268 b).

(** ** State *)

Record client_info_t := mk_client {
  fd : Z;
  pid : Z;
  uid : Z;
  connected_at : Z;
  active : Z;
}.
Definition zero_client : client_info_t := mk_client 0 0 0 0 0.

(** The shared page. The two [double]s are only copied: their 64 bits. *)
Record system_status_t := mk_status {
  st_daemon_running : Z;
  started_at : Z;
  total_requests : Z;
  failed_requests : Z;
  active_operations : Z;
  current_operation : string;
  cpu_usage : Z;
  memory_usage_mb : Z;
}.

(** The pointer [shared_status]. *)
Inductive shm_ptr := ShmNull | ShmFailed | Shm (st : system_status_t).

Record job_message_t := mk_job {
  job_command : Z;
  params : string;
  priority : Z;
  queued_at : Z;
}.

(** Sockets, shared memory, semaphores and message queues.  [accept] and the
    calls that create something give a descriptor or a negative number;
    [select] gives the descriptors that are ready, [None] on a timeout or an
    error; [sock_read] gives the bytes one [read] returned; [sock_write] the
    number of bytes one [write] took; [mmap] the content of the page.
    [sem_close] is [sem_close] followed by [sem_unlink]. *)
Class Net (W : Type) := {
  socket : W -> Z * W;
  sock_bind : Z -> string -> W -> Z * W;
  listen : Z -> W -> Z * W;
  connect : Z -> string -> W -> Z * W;
  accept : Z -> W -> Z * W;
  select : list Z -> W -> option (list Z) * W;
  sock_read : Z -> nat -> W -> bytes * W;
  sock_write : Z -> bytes -> W -> Z * W;
  close : Z -> W -> W;
  shm_open : W -> Z * W;
  ftruncate : Z -> W -> Z * W;
  mmap : W -> option system_status_t * W;
  shm_unlink : W -> W;
  sem_open : W -> bool * W;
  sem_close : W -> W;
  sem_wait : W -> Z * W;
  sem_post : W -> Z * W;
  ftok : W -> Z;
  msgget : Z -> W -> Z * W;
  msgsnd : Z -> Z -> job_message_t -> W -> Z * W;
  msgrcv : Z -> bool -> W -> option job_message_t * W;
  msgctl_rmid : Z -> W -> W;
  (** ghost: which descriptors are open, what a queue holds *)
  is_open : Z -> W -> bool;
  mq : Z -> W -> list job_message_t;
}.

(** Documented behaviour of the calls: a descriptor that [socket], [shm_open]
    or [accept] returns was
    not open before and is below the limit on open files (FD_SETSIZE: the usual
    default, and what [daemon_set_resource_limits] sets); [close] closes one descriptor; the
    other calls of the loop open and close nothing; [select] reports only
    descriptors it was asked about; queues are first in, first out when the
    message type asked for is 0, and refuse a message type below 1. *)
Class NetLaws (W : Type) `{Net W} `{Clock W} `{Files W} := {
  accept_fresh : forall s w c w', accept s w = (c, w') -> 0 <= c ->
    c < FD_SETSIZE /\ is_open c w = false /\
    forall q, is_open q w' = bool_decide (q = c) || is_open q w;
  accept_fail : forall s w c w', accept s w = (c, w') -> c < 0 ->
    forall q, is_open q w' = is_open q w;
  socket_fresh : forall w c w', socket w = (c, w') -> 0 <= c ->
    c < FD_SETSIZE /\ is_open c w = false /\
    forall q, is_open q w' = bool_decide (q = c) || is_open q w;
  socket_fail : forall w c w', socket w = (c, w') -> c < 0 ->
    forall q, is_open q w' = is_open q w;
  shm_open_fresh : forall w c w', shm_open w = (c, w') -> 0 <= c ->
    is_open c w = false /\ forall q, is_open q w' = bool_decide (q = c) || is_open q w;
  shm_open_fail : forall w c w', shm_open w = (c, w') -> c < 0 ->
    forall q, is_open q w' = is_open q w;
  bind_open : forall c p q w, is_open q (sock_bind c p w).2 = is_open q w;
  listen_open : forall c q w, is_open q (listen c w).2 = is_open q w;
  ftruncate_open : forall c q w, is_open q (ftruncate c w).2 = is_open q w;
  mmap_open : forall q w, is_open q (mmap w).2 = is_open q w;
  sem_open_open : forall q w, is_open q (sem_open w).2 = is_open q w;
  close_open : forall c q w, is_open q (close c w) = negb (bool_decide (q = c)) && is_open q w;
  select_open : forall l q w, is_open q (select l w).2 = is_open q w;
  select_sub : forall l w r w', select l w = (Some r, w') -> r ⊆ l;
  read_open : forall c n q w, is_open q (sock_read c n w).2 = is_open q w;
  write_open : forall c b q w, is_open q (sock_write c b w).2 = is_open q w;
  time_open : forall q w, is_open q (time w).2 = is_open q w;
  unlink_open : forall p q w, is_open q (unlink p w).2 = is_open q w;
  shm_unlink_open : forall q w, is_open q (shm_unlink w) = is_open q w;
  sem_close_open : forall q w, is_open q (sem_close w) = is_open q w;
  msgsnd_ok : forall q t j w r w', msgsnd q t j w = (r, w') -> 0 <= r -> mq q w' = mq q w ++ [j];
  msgsnd_type : forall q t j w, t <= 0 -> (msgsnd q t j w).1 < 0;
  msgrcv_ok : forall q b w j w', msgrcv q b w = (Some j, w') -> mq q w = j :: mq q w';
}.

(** The statics of ipc_server.c. [locked] is the state of [clients_mutex]. *)
Record ipc (W : Type) := mk_ipc {
  server_fd : Z;
  running : Z;
  num_clients : Z;
  clients : list client_info_t;
  locked : bool;
  shared_status : shm_ptr;
  status_sem : bool;
  msg_queue_id : Z;
  sun_path : string;
  net : W;
}.
Arguments mk_ipc {W}.
Arguments server_fd {W}.
Arguments running {W}.
Arguments num_clients {W}.
Arguments clients {W}.
Arguments locked {W}.
Arguments shared_status {W}.
Arguments status_sem {W}.
Arguments msg_queue_id {W}.
Arguments sun_path {W}.
Arguments net {W}.

Definition ipc_start {W} (w : W) : ipc W := mk_ipc 0 0 0 (replicate IPC_MAX_CLIENTS zero_client) false ShmNull false (-1) "" w.

Section Ipc.
Context {W : Type} `{Net W} `{Clock W} `{Files W}.

Definition set_net (s : ipc W) (w : W) : ipc W :=
  mk_ipc (server_fd s) (running s) (num_clients s) (clients s) (locked s) (shared_status s)
    (status_sem s) (msg_queue_id s) (sun_path s) w.
Definition set_table (s : ipc W) (n : Z) (cs : list client_info_t) : ipc W :=
  mk_ipc (server_fd s) (running s) n cs (locked s) (shared_status s)
    (status_sem s) (msg_queue_id s) (sun_path s) (net s).
Definition set_locked (s : ipc W) (b : bool) : ipc W :=
  mk_ipc (server_fd s) (running s) (num_clients s) (clients s) b (shared_status s)
    (status_sem s) (msg_queue_id s) (sun_path s) (net s).
Definition set_run (s : ipc W) (r : Z) : ipc W :=
  mk_ipc (server_fd s) r (num_clients s) (clients s) (locked s) (shared_status s)
    (status_sem s) (msg_queue_id s) (sun_path s) (net s).
Definition set_shm (s : ipc W) (p : shm_ptr) : ipc W :=
  mk_ipc (server_fd s) (running s) (num_clients s) (clients s) (locked s) p
    (status_sem s) (msg_queue_id s) (sun_path s) (net s).
Definition set_sem (s : ipc W) (b : bool) : ipc W :=
  mk_ipc (server_fd s) (running s) (num_clients s) (clients s) (locked s) (shared_status s)
    b (msg_queue_id s) (sun_path s) (net s).
Definition set_mq (s : ipc W) (q : Z) : ipc W :=
  mk_ipc (server_fd s) (running s) (num_clients s) (clients s) (locked s) (shared_status s)
    (status_sem s) q (sun_path s) (net s).
Definition set_path (s : ipc W) (p : string) : ipc W :=
  mk_ipc (server_fd s) (running s) (num_clients s) (clients s) (locked s) (shared_status s)
    (status_sem s) (msg_queue_id s) p (net s).

Definition sysc {A} (f : W -> A * W) : M (ipc W) A :=
  fun s => let '(a, w) := f (net s) in Some (a, set_net s w).
Definition sysv (f : W -> W) : M (ipc W) unit := fun s => Some (tt, set_net s (f (net s))).
Definition modify (f : ipc W -> ipc W) : M (ipc W) unit := fun s => Some (tt, f s).
Definition gets {A} (f : ipc W -> A) : M (ipc W) A := fun s => Some (f s, s).

(** A thread that locks a mutex it already holds never goes on. *)
Definition lock : M (ipc W) unit :=
  fun s => if locked s then None else Some (tt, set_locked s true).
Definition unlock : M (ipc W) unit := fun s => Some (tt, set_locked s false).

Definition get_client (i : nat) : M (ipc W) client_info_t :=
  fun s => match clients s !! i with Some c => Some (c, s) | None => None end.
Definition put_client (i : nat) (c : client_info_t) (delta : Z) : M (ipc W) unit :=
  fun s => if (i <? length (clients s))%nat
           then Some (tt, set_table s (num_clients s + delta) (<[i := c]> (clients s))) else None.

Definition is_active (c : client_info_t) : bool := negb (active c =? 0).
Definition deactivate (c : client_info_t) : client_info_t :=
  mk_client (fd c) (pid c) (uid c) (connected_at c) 0.
Definition table : list nat := seq 0 IPC_MAX_CLIENTS.

(** ** Shared memory and semaphore *)

Definition ipc_shm_init : M (ipc W) Z :=
  let! shm_fd := sysc shm_open in
  if shm_fd <? 0 then ret (-1)
  else
    let! r := sysc (ftruncate shm_fd) in
    if negb (r =? 0) then sysv (close shm_fd) ;;! ret (-1)
    else
      let! page := sysc mmap in
      sysv (close shm_fd) ;;!
      match page with
      | None => modify (fun s => set_shm s ShmFailed) ;;! ret (-1)
      | Some st =>
          let! now := sysc time in
          modify (fun s => set_shm s (Shm (mk_status 1 now (total_requests st) (failed_requests st)
            (active_operations st) (current_operation st) (cpu_usage st) (memory_usage_mb st)))) ;;!
          ret 0
      end.

Definition ipc_shm_cleanup : M (ipc W) unit :=
  modify (fun s => set_shm s ShmNull) ;;! sysv shm_unlink.

(** [*shared_status = *status] through a pointer that must be mapped. *)
Definition ipc_shm_update_status (status : option system_status_t) : M (ipc W) Z :=
  fun s => match shared_status s, status with
           | ShmNull, _ | _, None => Some (-1, s)
           | ShmFailed, Some _ => None
           | Shm _, Some st => Some (0, set_shm s (Shm st))
           end.

Definition ipc_shm_get_status : M (ipc W) (Z * option system_status_t) :=
  fun s => match shared_status s with
           | ShmNull => Some ((-1, None), s)
           | ShmFailed => None
           | Shm st => Some ((0, Some st), s)
           end.

(** SEM_FAILED is the null pointer. *)
Definition ipc_sem_init : M (ipc W) Z :=
  let! ok := sysc sem_open in
  modify (fun s => set_sem s ok) ;;! ret (if ok then 0 else -1).

Definition ipc_sem_cleanup : M (ipc W) unit :=
  let! sem := gets status_sem in
  if sem then sysv sem_close ;;! modify (fun s => set_sem s false) else ret tt.

Definition ipc_sem_wait : M (ipc W) Z :=
  let! sem := gets status_sem in if sem then sysc sem_wait else ret (-1).
Definition ipc_sem_post : M (ipc W) Z :=
  let! sem := gets status_sem in if sem then sysc sem_post else ret (-1).

(** ** Start and end of the server *)

Definition drop_server (socket_path : string) : M (ipc W) Z :=
  let! fd := gets server_fd in
  sysv (close fd) ;;! sysc (unlink socket_path) ;;! ret (-1).

Definition ipc_server_init (socket_path : string) : M (ipc W) Z :=
  (* memset of the state, pthread_mutex_init *)
  modify (fun s => set_locked (set_table (set_run s 0) 0 (replicate IPC_MAX_CLIENTS zero_client)) false) ;;!
  let! sfd := sysc socket in
  modify (fun s => mk_ipc sfd (running s) (num_clients s) (clients s) (locked s)
    (shared_status s) (status_sem s) (msg_queue_id s) (sun_path s) (net s)) ;;!
  if sfd <? 0 then ret (-1)
  else
    sysc (unlink socket_path) ;;!
    modify (fun s => set_path s (str_take 107 socket_path)) ;;!
    let! path := gets sun_path in
    let! b := sysc (sock_bind sfd path) in
    if b <? 0 then drop_server socket_path
    else
      let! l := sysc (listen sfd) in
      if l <? 0 then drop_server socket_path
      else
        let! r := ipc_shm_init in
        if negb (r =? 0) then drop_server socket_path
        else
          ipc_sem_init ;;!
          modify (fun s => set_run (set_table s 0 (clients s)) 1) ;;! ret 0.

Definition cleanup_slot (i : nat) : M (ipc W) unit :=
  let! c := get_client i in
  if is_active c then sysv (close (fd c)) ;;! put_client i (deactivate c) 0 else ret tt.

Definition ipc_server_cleanup : M (ipc W) unit :=
  modify (fun s => set_run s 0) ;;!
  lock ;;! forM cleanup_slot table ;;! unlock ;;!
  let! sfd := gets server_fd in
  (if 0 <=? sfd then
     sysv (close sfd) ;;! let! path := gets sun_path in sysc (unlink path) ;;! ret tt
   else ret tt) ;;!
  ipc_shm_cleanup ;;! ipc_sem_cleanup.

Definition ipc_server_stop : M (ipc W) Z := modify (fun s => set_run s 0) ;;! ret 0.

(** ** Clients *)

Definition ipc_accept_client (sfd : Z) : M (ipc W) Z :=
  let! client_fd := sysc (accept sfd) in
  if client_fd <? 0 then ret (-1)
  else
    lock ;;!
    let! cs := gets clients in
    match find_idx (fun c => negb (is_active c)) (take IPC_MAX_CLIENTS cs) with
    | None => unlock ;;! sysv (close client_fd) ;;! ret (-1)
    | Some slot =>
        let! c := get_client slot in
        let! now := sysc time in
        put_client slot (mk_client client_fd (pid c) (uid c) now 1) 1 ;;!
        unlock ;;! ret client_fd
    end.

Definition ipc_disconnect_client (client_fd : Z) : M (ipc W) unit :=
  lock ;;!
  let! cs := gets clients in
  (match find_idx (fun c => is_active c && (fd c =? client_fd)) (take IPC_MAX_CLIENTS cs) with
   | None => ret tt
   | Some i =>
       sysv (close client_fd) ;;! let! c := get_client i in put_client i (deactivate c) (-1)
   end) ;;!
  unlock.

(** ** Requests *)

Definition ipc_read_request (client_fd : Z) : M (ipc W) (option request_t) :=
  let! b := sysc (sock_read client_fd SIZEOF_REQUEST) in
  ret (if (length b =? SIZEOF_REQUEST)%nat then Some (bytes_request b) else None).

Definition ipc_send_response (client_fd : Z) (resp : response_t) : M (ipc W) Z :=
  let! n := sysc (sock_write client_fd (response_bytes resp)) in
  ret (if n =? Z.of_nat SIZEOF_RESPONSE then 0 else -1).

(** [shared_status ? shared_status->started_at : 0] *)
Definition start_time : M (ipc W) Z :=
  fun s => match shared_status s with
           | ShmNull => Some (0, s) | ShmFailed => None | Shm st => Some (started_at st, s)
           end.

Definition ipc_dispatch_command (cmd : Z) (result_size : nat) : M (ipc W) (Z * string) :=
  if cmd =? CMD_STATUS then
    let! n := gets num_clients in
    let! now := sysc time in
    let! t0 := start_time in
    ret (STATUS_OK, snprintf result_size "Running:1 Clients:%d Uptime:%ld" [CInt n; CInt (i64 (now - t0))])
  else if cmd =? CMD_SHUTDOWN then
    modify (fun s => set_run s 0) ;;!
    ret (STATUS_OK, snprintf result_size "Shutting down daemon" [])
  else ret (STATUS_INVALID_COMMAND, snprintf result_size "Invalid command" []).

Definition ipc_handle_request (req : request_t) : M (ipc W) response_t :=
  let! d := ipc_dispatch_command (command req) IPC_MAX_PAYLOAD_SIZE in
  let '(status, result) := d in
  ret (if status =? STATUS_OK then
         let data_size := Z.min (u32 (strlen result + 1)) (Z.of_nat IPC_MAX_PAYLOAD_SIZE) in
         mk_response (rq_id req) status (char_array 256 "") data_size
           (char_array IPC_MAX_PAYLOAD_SIZE result)
       else
         mk_response (rq_id req) status (char_array 256 (snprintf 256 "%s" [CStr "Command failed"]))
           0 (char_array IPC_MAX_PAYLOAD_SIZE "")).

(** ** The loop *)

Definition answer (cfd : Z) : M (ipc W) unit :=
  let! r := ipc_read_request cfd in
  match r with
  | Some req => let! resp := ipc_handle_request req in ipc_send_response cfd resp ;;! ret tt
  | None => ret tt
  end.

Definition serve_slot (ready : list Z) (i : nat) : M (ipc W) unit :=
  let! c := get_client i in
  if negb (is_active c) then ret tt
  else if bool_decide (fd c ∈ ready) then
    answer (fd c) ;;! sysv (close (fd c)) ;;! put_client i (deactivate c) (-1)
  else ret tt.

(** The descriptors put in the set; [FD_SET] writes outside its array for a
    descriptor that is not below FD_SETSIZE. *)
Definition active_fds (cs : list client_info_t) : list Z := fd <$> filter (fun c => is_active c) cs.
Definition fd_ok (z : Z) : bool := (0 <=? z) && (z <? FD_SETSIZE).

(** One turn of the loop of [ipc_server_run]. *)
Definition serve_once : M (ipc W) unit :=
  let! sfd := gets server_fd in
  lock ;;!
  let! cs := gets clients in
  let fds := sfd :: active_fds (take IPC_MAX_CLIENTS cs) in
  guard_ub (forallb fd_ok fds) ;;!
  unlock ;;!
  let! activity := sysc (select fds) in
  match activity with
  | None => ret tt
  | Some ready =>
      (if bool_decide (sfd ∈ ready) then ipc_accept_client sfd ;;! ret tt else ret tt) ;;!
      lock ;;! forM (serve_slot ready) table ;;! unlock
  end.

(** [ipc_server_run]: [true] when it returned, [false] when the fuel ran out
    while the server was still running. *)
Fixpoint ipc_server_run (fuel : nat) : M (ipc W) bool :=
  let! r := gets running in
  if r =? 0 then ret true
  else match fuel with
       | O => ret false
       | S fuel' => serve_once ;;! ipc_server_run fuel'
       end.

(** ** The job queue *)

Definition ipc_mq_init : M (ipc W) Z :=
  let! key := gets (fun s => ftok (net s)) in
  if key <? 0 then ret (-1)
  else
    let! q := sysc (msgget key) in
    modify (fun s => set_mq s q) ;;! ret (if q <? 0 then -1 else 0).

Definition ipc_mq_cleanup : M (ipc W) unit :=
  let! q := gets msg_queue_id in
  if 0 <=? q then sysv (msgctl_rmid q) ;;! modify (fun s => set_mq s (-1)) else ret tt.

Definition ipc_mq_send_job (job : job_message_t) : M (ipc W) Z :=
  let! q := gets msg_queue_id in
  if q <? 0 then ret (-1)
  else let! r := sysc (msgsnd q (priority job) job) in ret (if r <? 0 then -1 else 0).

Definition ipc_mq_receive_job (wait : bool) : M (ipc W) (Z * option job_message_t) :=
  let! q := gets msg_queue_id in
  if q <? 0 then ret (-1, None)
  else
    let! r := sysc (msgrcv q wait) in
    ret (match r with None => (-1, None) | Some job => (0, Some job) end).

(** ** Names *)

Definition ipc_command_to_string (cmd : Z) : string :=
  if cmd =? CMD_STATUS then "STATUS" else if cmd =? CMD_SHUTDOWN then "SHUTDOWN" else "OTHER".
Definition ipc_status_to_string (st : Z) : string :=
  if st =? STATUS_OK then "OK" else if st =? STATUS_ERROR then "ERROR" else "UNKNOWN".
End Ipc.

(** ** The client (cli/storage_cli.c) *)

Section Client.
Context {W : Type} `{Net W} `{Clock W}.

Definition connect_to_daemon : M W Z :=
  let! sock := call socket in
  if sock <? 0 then ret (-1)
  else
    let! r := call (connect sock (str_take 107 IPC_SOCKET_PATH)) in
    if r <? 0 then (fun w => Some (-1, close sock w)) else ret sock.

(** The request that is sent: a zeroed structure, the payload cut to 8191
    bytes. *)
Definition make_request (cmd now : Z) (pl : option string) : request_t :=
  match pl with
  | None => mk_request IPC_PROTOCOL_VERSION (u32 now) cmd 0 (char_array IPC_MAX_PAYLOAD_SIZE "")
  | Some p =>
      let n := Z.min (u32 (strlen p + 1)) (Z.of_nat IPC_MAX_PAYLOAD_SIZE) in
      mk_request IPC_PROTOCOL_VERSION (u32 now) cmd n
        (char_array IPC_MAX_PAYLOAD_SIZE (str_take (Z.to_nat (n - 1)) p))
  end.

(** What the client prints: a line on stdout, or an error on stderr. *)
Inductive shown := Out (line : string) | Err (line : string).

(** The end of [send_command], on the structure it read; a string that is not
    terminated inside its array is read past it. *)
Definition show_response (resp : response_t) : option (shown * Z) :=
  if rs_status resp =? STATUS_OK then
    if (0 <? data_size resp) && (data_size resp <=? Z.of_nat IPC_MAX_PAYLOAD_SIZE)
    then (fun s => (Out s, 0)) <$> c_string (data resp)
    else Some (Out "OK", 0)
  else (fun s => (Err s, -1)) <$> c_string (error_msg resp).

Definition send_command (cmd : Z) (pl : option string) : M W (option shown * Z) :=
  let! sock := connect_to_daemon in
  if sock <? 0 then ret (None, -1)
  else
    let! now := call time in
    let! n := call (sock_write sock (request_bytes (make_request cmd now pl))) in
    if negb (n =? Z.of_nat SIZEOF_REQUEST) then (fun w => Some ((None, -1), close sock w))
    else
      let! b := call (sock_read sock SIZEOF_RESPONSE) in
      if negb (length b =? SIZEOF_RESPONSE)%nat then (fun w => Some ((None, -1), close sock w))
      else
        match show_response (bytes_response b) with
        | None => ub
        | Some (out, r) => (fun w => Some ((Some out, r), close sock w))
        end.

Definition cmd_status : M W (option shown * Z) := send_command CMD_STATUS None.
End Client.
