(* ===== verification/SimNet.v ===== *)
(** * A concrete network

    An executable instance of the socket interface: open descriptors, the
    connections waiting at the listening socket with the bytes their clients
    sent, the bytes written back, one message queue.  It satisfies the
    documented laws. *)

From stdpp Require Import base list gmap strings pretty.
From Stdlib Require Import Ascii ZArith Lia.
From S2P Require Import Prelude CString CFormat Sys Ipc.

Record netsim := mk_netsim {
  ns_open : list Z;
  ns_next : Z;
  ns_backlog : list bytes;
  ns_input : list (Z * bytes);
  ns_output : list (Z * bytes);
  ns_clock : Z;
  ns_queue : list job_message_t;
}.

(** Standard input, output and error are open. *)
Definition quiet : netsim := mk_netsim [0; 1; 2] 3 [] [] [] 1000 [].

Definition ns_set_open (w : netsim) (l : list Z) : netsim :=
  mk_netsim l (ns_next w) (ns_backlog w) (ns_input w) (ns_output w) (ns_clock w) (ns_queue w).
Definition ns_set_queue (w : netsim) (l : list job_message_t) : netsim :=
  mk_netsim (ns_open w) (ns_next w) (ns_backlog w) (ns_input w) (ns_output w) (ns_clock w) l.
Definition ns_set_backlog (w : netsim) (l : list bytes) : netsim :=
  mk_netsim (ns_open w) (ns_next w) l (ns_input w) (ns_output w) (ns_clock w) (ns_queue w).
Definition ns_set_output (w : netsim) (l : list (Z * bytes)) : netsim :=
  mk_netsim (ns_open w) (ns_next w) (ns_backlog w) (ns_input w) l (ns_clock w) (ns_queue w).
Definition ns_tick (w : netsim) : netsim :=
  mk_netsim (ns_open w) (ns_next w) (ns_backlog w) (ns_input w) (ns_output w) (ns_clock w + 1)
    (ns_queue w).

Definition ns_free (w : netsim) : bool :=
  (0 <=? ns_next w) && (ns_next w <? FD_SETSIZE) && negb (bool_decide (ns_next w ∈ ns_open w)).

(** The next descriptor, when there is one. *)
Definition ns_new (w : netsim) : Z * netsim :=
  if ns_free w then
    (ns_next w, mk_netsim (ns_next w :: ns_open w) (ns_next w + 1) (ns_backlog w) (ns_input w)
                  (ns_output w) (ns_clock w) (ns_queue w))
  else (-1, w).

Definition ns_accept (w : netsim) : Z * netsim :=
  match ns_backlog w with
  | [] => (-1, w)
  | b :: rest =>
      if ns_free w then
        (ns_next w, mk_netsim (ns_next w :: ns_open w) (ns_next w + 1) rest
                      ((ns_next w, b) :: ns_input w) (ns_output w) (ns_clock w) (ns_queue w))
      else (-1, w)
  end.

Definition ns_bytes (c : Z) (w : netsim) : bytes :=
  match find_idx (fun p => p.1 =? c) (ns_input w) with
  | Some i => default [] (snd <$> ns_input w !! i)
  | None => []
  end.

(** The listening socket (no bytes of its own) is ready when a connection
    waits, a client when it sent something. *)
Definition ns_ready (w : netsim) (c : Z) : bool :=
  negb (bool_decide (ns_bytes c w = [])) ||
  (negb (bool_decide (ns_backlog w = [])) && (c =? 3)).

#[global] Instance netsim_net : Net netsim := {
  socket := ns_new;
  sock_bind _ _ w := (0, w);
  listen _ w := (0, w);
  connect _ _ w := (0, w);
  accept _ w := ns_accept w;
  select l w := match filter (fun c => ns_ready w c) l with
                | [] => (None, w) | r => (Some r, w) end;
  sock_read c n w := (take n (ns_bytes c w), w);
  sock_write c b w := (Z.of_nat (length b), ns_set_output w (ns_output w ++ [(c, b)]));
  close c w := ns_set_open w (filter (fun q => q <> c) (ns_open w));
  shm_open := ns_new;
  ftruncate _ w := (0, w);
  mmap w := (Some (mk_status 0 0 0 0 0 "" 0 0), w);
  shm_unlink w := w;
  sem_open w := (true, w);
  sem_close w := w;
  sem_wait w := (0, w);
  sem_post w := (0, w);
  ftok _ := 83;
  msgget _ w := (0, w);
  msgsnd _ t j w := if t <=? 0 then (-1, w) else (0, ns_set_queue w (ns_queue w ++ [j]));
  msgrcv _ _ w := match ns_queue w with
                  | [] => (None, w) | j :: l => (Some j, ns_set_queue w l) end;
  msgctl_rmid _ w := ns_set_queue w [];
  is_open q w := bool_decide (q ∈ ns_open w);
  mq _ w := ns_queue w;
}.

#[global] Instance netsim_clock : Clock netsim := {
  time w := (ns_clock w, ns_tick w);
  localtime _ _ := mk_tm 124 0 1 0 0 0 1;
}.

#[global] Instance netsim_files : Files netsim := {
  fopen_r _ _ := None;
  fopen_w _ _ w := (true, w);
  fopen_a _ _ w := (false, w);
  unlink _ w := (0, w);
  chmod _ _ w := (0, w);
}.

Lemma ns_free_true w : ns_free w = true ->
  0 <= ns_next w < FD_SETSIZE /\ bool_decide (ns_next w ∈ ns_open w) = false.
Proof.
  unfold ns_free. rewrite !andb_true_iff, negb_true_iff. intros [[? ?] ?]. split; [lia|done].
Qed.

(** A new descriptor is fresh, and the only change. *)
Lemma ns_opened w w' c :
  ns_free w = true -> c = ns_next w -> ns_open w' = ns_next w :: ns_open w ->
  c < FD_SETSIZE /\ bool_decide (c ∈ ns_open w) = false /\
  forall q, bool_decide (q ∈ ns_open w') = bool_decide (q = c) || bool_decide (q ∈ ns_open w).
Proof.
  intros [? ?]%ns_free_true -> ->. split_and!; [lia|done|]. intros q.
  rewrite <- bool_decide_or. apply bool_decide_ext. apply elem_of_cons.
Qed.

#[global] Instance netsim_laws : NetLaws netsim.
Proof.
  split; simpl; try done.
  - intros _ w c w'. unfold ns_accept. destruct (ns_backlog w); [intros [= <- <-]; lia|].
    destruct (ns_free w) eqn:F; intros [= <- <-]; [|lia]. intros _. by apply ns_opened.
  - intros _ w c w'. unfold ns_accept. destruct (ns_backlog w); [by intros [= <- <-]|].
    destruct (ns_free w) eqn:F; intros [= <- <-]; [|done]. apply ns_free_true in F. lia.
  - intros w c w'. unfold ns_new. destruct (ns_free w) eqn:F; intros [= <- <-]; [|lia].
    intros _. by apply ns_opened.
  - intros w c w'. unfold ns_new. destruct (ns_free w) eqn:F; intros [= <- <-]; [|done].
    apply ns_free_true in F. lia.
  - intros w c w'. unfold ns_new. destruct (ns_free w) eqn:F; intros [= <- <-]; [|lia].
    intros _. by eapply ns_opened.
  - intros w c w'. unfold ns_new. destruct (ns_free w) eqn:F; intros [= <- <-]; [|done].
    apply ns_free_true in F. lia.
  - intros c q w. rewrite <- bool_decide_not, <- bool_decide_and.
    apply bool_decide_ext. by rewrite list_elem_of_filter.
  - intros l q w. by case_match.
  - intros l w r w'. destruct (filter _ l) eqn:E; [done|]. intros [= <- <-]. rewrite <- E.
    intros x Hx. by apply list_elem_of_filter in Hx as [_ ?].
  - intros _ t j w r w'. destruct (t <=? 0); intros [= <- <-]; [lia|done].
  - intros _ t j w Ht. by rewrite (proj2 (Z.leb_le _ _) Ht).
  - intros _ _ w j w'. destruct (ns_queue w) eqn:E; [done|]. by intros [= <- <-].
Qed.
