(* ===== verification/IpcProps.v ===== *)
(** * Properties of src/ipc_server.c and of its client

    The table invariant with descriptor accounting, the wire format's round
    trip, client and server end to end, termination of the loop, the job
    queue. *)

From stdpp Require Import base list gmap strings pretty.
From Stdlib Require Import Ascii ZArith Lia.
From S2P Require Import Prelude CString CFormat Sys Ipc SimNet.

(** ** Lists of clients *)

Lemma active_fds_split (cs : list client_info_t) i c :
  cs !! i = Some c ->
  active_fds cs ≡ₚ (if is_active c then [fd c] else []) ++ active_fds (delete i cs).
Proof.
  intros Hi. unfold active_fds. rewrite (delete_Permutation _ _ _ Hi) at 1.
  destruct (is_active c) eqn:E.
  - rewrite filter_cons_True; [done|rewrite E; simpl; tauto].
  - rewrite filter_cons_False; [done|rewrite E; simpl; tauto].
Qed.

Lemma delete_insert_same {A} (l : list A) i y : delete i (<[i:=y]> l) = delete i l.
Proof. revert i. induction l as [|x l IH]; intros [|i]; try done. simpl. by f_equal. Qed.

Lemma active_fds_insert (cs : list client_info_t) i c :
  (i < length cs)%nat ->
  active_fds (<[i:=c]> cs) ≡ₚ (if is_active c then [fd c] else []) ++ active_fds (delete i cs).
Proof.
  intros Hi. rewrite (active_fds_split _ i c) by by apply list_lookup_insert_eq.
  by rewrite delete_insert_same.
Qed.

Lemma active_fds_le cs : (length (active_fds cs) <= length cs)%nat.
Proof. unfold active_fds. rewrite length_fmap. apply length_filter. Qed.

Lemma no_active cs : (forall c, c ∈ cs -> is_active c = false) -> active_fds cs = [].
Proof.
  induction cs as [|c cs IH]; intros Hn; [done|]. unfold active_fds in *.
  rewrite filter_cons_False; [|rewrite (Hn c); [tauto|left]].
  apply IH. intros x Hx. apply Hn. by right.
Qed.

Section Table.
Context {W : Type} `{Net W} `{Clock W} `{Files W} `{!NetLaws W}.

(** The descriptors of the process are those it had besides ([base]), the
    listening socket and one per active client; the counter counts them. *)
Record table_wf (base : Z -> bool) (sfd n : Z) (cs : list client_info_t) (w : W) : Prop := {
  tw_len : length cs = IPC_MAX_CLIENTS;
  tw_num : n = Z.of_nat (length (active_fds cs));
  tw_nodup : NoDup (sfd :: active_fds cs);
  tw_base : forall q, q ∈ sfd :: active_fds cs -> base q = false;
  tw_range : Forall (fun q => fd_ok q = true) (sfd :: active_fds cs);
  tw_open : forall q, is_open q w = base q || bool_decide (q ∈ sfd :: active_fds cs);
}.

(** A server state with the given table and lock; [n] is the counter, [m] the
    number of active slots. *)
Definition at2 (base : Z -> bool) (sfd : Z) (lk : bool) (n m : Z) (cs : list client_info_t)
    (s : ipc W) : Prop :=
  server_fd s = sfd /\ locked s = lk /\ num_clients s = n /\ clients s = cs /\
  shared_status s <> ShmFailed /\ table_wf base sfd m cs (net s).
Definition at_ (base : Z -> bool) (sfd : Z) (lk : bool) (n : Z) (cs : list client_info_t)
    (s : ipc W) : Prop := at2 base sfd lk n n cs s.

Definition server_ok (base : Z -> bool) (sfd : Z) (lk : bool) (s : ipc W) : Prop :=
  exists n cs, at_ base sfd lk n cs s.

Lemma table_wf_net base sfd n cs w w' :
  (forall q, is_open q w' = is_open q w) -> table_wf base sfd n cs w -> table_wf base sfd n cs w'.
Proof. intros Hq []. split; try done. intros q. by rewrite Hq. Qed.

Lemma at_sysc {A} base sfd lk n cs (f : W -> A * W) :
  (forall q w, is_open q (f w).2 = is_open q w) ->
  triple (at_ base sfd lk n cs) (sysc f) (fun _ => at_ base sfd lk n cs).
Proof.
  intros Hf s (? & ? & ? & ? & ? & Ht). unfold sysc. pose proof (fun q => Hf q (net s)) as Hq.
  destruct (f (net s)) as [a w]. eexists _, _. split; [done|]. unfold at_, at2. simpl.
  split_and!; try done. by eapply table_wf_net.
Qed.

Lemma at_gets {A} base sfd lk n cs (f : ipc W -> A) :
  triple (at_ base sfd lk n cs) (gets f) (fun a s => a = f s /\ at_ base sfd lk n cs s).
Proof. intros s Hs. eexists _, _. split; [done|]. by split. Qed.

Lemma at_stop base sfd lk n cs :
  triple (at_ base sfd lk n cs) (modify (fun s => set_run s 0)) (fun _ => at_ base sfd lk n cs).
Proof. intros s Hs. eexists _, _. by split. Qed.

Lemma at_lock base sfd n cs :
  triple (at_ base sfd false n cs) lock (fun _ => at_ base sfd true n cs).
Proof.
  intros s (? & Hl & ?). unfold lock. rewrite Hl. eexists _, _. split; [done|]. unfold at_, at2. simpl. tauto.
Qed.

Lemma at_unlock base sfd lk n cs :
  triple (at_ base sfd lk n cs) unlock (fun _ => at_ base sfd false n cs).
Proof. intros s (? & Hl & ?). eexists _, _. split; [done|]. unfold at_, at2. simpl. tauto. Qed.

(** ** Answering leaves the table alone *)

Lemma at_dispatch base sfd lk n cs cmd size :
  triple (at_ base sfd lk n cs) (ipc_dispatch_command cmd size) (fun _ => at_ base sfd lk n cs).
Proof.
  unfold ipc_dispatch_command. case_match; [|case_match].
  - eapply triple_bind; [apply at_gets|]. intros k.
    apply (triple_conseq _ (at_ base sfd lk n cs) _ _ (fun _ => at_ base sfd lk n cs));
      [|by intros ? []|done].
    eapply triple_bind; [apply at_sysc, time_open|]. intros now.
    eapply (triple_bind _ _ _ (fun _ => at_ base sfd lk n cs)); [|intros t0; by apply triple_ret].
    intros s Hs. unfold start_time. pose proof Hs as (_ & _ & _ & _ & Hshm & _).
    destruct (shared_status s); [|done|]; by eexists _, _.
  - eapply triple_bind; [apply at_stop|]. intros u. by apply triple_ret.
  - by apply triple_ret.
Qed.

Lemma at_answer base sfd lk n cs c :
  triple (at_ base sfd lk n cs) (answer c) (fun _ => at_ base sfd lk n cs).
Proof.
  unfold answer. eapply (triple_bind _ _ _ (fun _ => at_ base sfd lk n cs)).
  { eapply triple_bind; [apply at_sysc, read_open|]. intros b. by apply triple_ret. }
  intros [req|]; [|by apply triple_ret].
  eapply (triple_bind _ _ _ (fun _ => at_ base sfd lk n cs)).
  { eapply triple_bind; [apply at_dispatch|]. intros [st r]. by apply triple_ret. }
  intros resp. eapply (triple_bind _ _ _ (fun _ => at_ base sfd lk n cs)).
  { eapply triple_bind; [apply at_sysc, write_open|]. intros k. by apply triple_ret. }
  intros k. by apply triple_ret.
Qed.

(** ** Leaving and entering the table *)

(** Closing a client's descriptor and clearing its slot. *)
Lemma at_leave base sfd lk n m cs i c s delta :
  at2 base sfd lk n m cs s -> cs !! i = Some c -> is_active c = true ->
  exists s', (sysv (close (fd c)) ;;! put_client i (deactivate c) delta) s = Some (tt, s') /\
    at2 base sfd lk (n + delta) (m - 1) (<[i := deactivate c]> cs) s'.
Proof.
  intros (Hs & Hl & Hn & Hc & Hshm & []) Hi Ha.
  pose proof (lookup_lt_Some _ _ _ Hi) as Hlt.
  pose proof (active_fds_split cs i c Hi) as P1. rewrite Ha in P1. simpl in P1.
  pose proof (active_fds_insert cs i (deactivate c) Hlt) as P2. simpl in P2.
  unfold bind, sysv, put_client. simpl. rewrite Hc.
  rewrite (proj2 (Nat.ltb_lt _ _) Hlt). eexists. split; [done|]. unfold at2. simpl.
  split_and!; try done; [lia|].
  rewrite P1 in tw_num0, tw_nodup0, tw_range0. split.
  - by rewrite length_insert.
  - rewrite P2. simpl in tw_num0. lia.
  - rewrite P2. apply NoDup_cons in tw_nodup0 as [Hin [_ Hnd]%NoDup_cons].
    constructor; [|done]. intros Hx. apply Hin. by right.
  - intros q. rewrite P2. intros Hq. apply tw_base0. rewrite P1. set_solver.
  - rewrite P2. inversion_clear tw_range0 as [|? ? Hh Ht]. inversion_clear Ht. by constructor.
  - intros q. rewrite close_open, tw_open0.
    assert (q ∈ sfd :: active_fds (<[i:=deactivate c]> cs) <->
            q ∈ sfd :: active_fds (delete i cs)) as E by (by rewrite P2).
    assert (q ∈ sfd :: active_fds cs <-> q ∈ sfd :: fd c :: active_fds (delete i cs)) as E'
      by (by rewrite P1).
    rewrite (bool_decide_ext _ _ E), (bool_decide_ext _ _ E').
    assert (base (fd c) = false) as Hb by (apply tw_base0; rewrite P1; set_solver).
    apply NoDup_cons in tw_nodup0 as [Hin [Hin2 _]%NoDup_cons].
    destruct (decide (q = fd c)) as [->|Hne].
    + rewrite Hb. rewrite (bool_decide_eq_true_2 (fd c = fd c)) by done. simpl. symmetry.
      apply bool_decide_eq_false_2. set_solver.
    + rewrite (bool_decide_eq_false_2 (q = fd c)) by done. simpl. f_equal.
      apply bool_decide_ext. set_solver.
Qed.

Lemma at_enter base sfd n cs i c0 c w w' :
  table_wf base sfd n cs w -> cs !! i = Some c0 -> is_active c0 = false -> is_active c = true ->
  0 <= fd c -> fd c < FD_SETSIZE -> is_open (fd c) w = false ->
  (forall q, is_open q w' = bool_decide (q = fd c) || is_open q w) ->
  table_wf base sfd (n + 1) (<[i := c]> cs) w'.
Proof.
  intros [] Hi Hc0 Hc1 Hge Hlt Hfresh Hopen.
  pose proof (lookup_lt_Some _ _ _ Hi) as Hil.
  pose proof (active_fds_split cs i c0 Hi) as P1. rewrite Hc0 in P1. simpl in P1.
  pose proof (active_fds_insert cs i c Hil) as P2. rewrite Hc1, <- P1 in P2. simpl in P2.
  rewrite tw_open0 in Hfresh. apply orb_false_iff in Hfresh as [Hb Hf].
  apply bool_decide_eq_false in Hf. apply NoDup_cons in tw_nodup0 as [Hs Hnd]. split.
  - by rewrite length_insert.
  - rewrite P2. simpl. lia.
  - rewrite P2. constructor; [set_solver|]. constructor; [set_solver|done].
  - intros q. rewrite P2. intros Hq. destruct (decide (q = fd c)) as [->|]; [done|].
    apply tw_base0. set_solver.
  - rewrite P2. inversion_clear tw_range0. constructor; [done|]. constructor; [|done].
    unfold fd_ok. apply andb_true_iff. split; [by apply Z.leb_le|by apply Z.ltb_lt].
  - intros q. rewrite Hopen, tw_open0.
    assert (q ∈ sfd :: active_fds (<[i:=c]> cs) <-> q = fd c \/ q ∈ sfd :: active_fds cs) as E
      by (rewrite P2; set_solver).
    rewrite (bool_decide_ext _ _ E), bool_decide_or. destruct (base q), (bool_decide (q = fd c)); done.
Qed.

(** ** The operations *)

Lemma at_get base sfd lk n cs i c :
  cs !! i = Some c ->
  triple (at_ base sfd lk n cs) (get_client i) (fun x s => x = c /\ at_ base sfd lk n cs s).
Proof.
  intros Hi s Hs. pose proof Hs as (_ & _ & _ & Hc & _). unfold get_client.
  rewrite Hc, Hi. by eexists _, _.
Qed.

Lemma table_lookup base sfd n cs (w : W) i :
  table_wf base sfd n cs w -> i ∈ table -> exists c, cs !! i = Some c.
Proof.
  intros [] [_ Hi]%elem_of_seq. apply lookup_lt_is_Some. lia.
Qed.

Lemma ok_serve_slot base sfd ready i :
  i ∈ table -> triple (server_ok base sfd true) (serve_slot ready i) (fun _ => server_ok base sfd true).
Proof.
  intros Hi s (n & cs & Hs). pose proof Hs as (_ & _ & _ & _ & _ & Ht).
  destruct (table_lookup _ _ _ _ _ _ Ht Hi) as [c Hc]. unfold serve_slot.
  destruct (at_get base sfd true n cs i c Hc s Hs) as (? & s1 & E1 & -> & Hs1).
  unfold bind at 1. rewrite E1. destruct (is_active c) eqn:Ha; simpl; [|by exists tt, s1; split; [done|]; exists n, cs].
  case_bool_decide; [|by exists tt, s1; split; [done|]; exists n, cs].
  destruct (at_answer base sfd true n cs (fd c) s1 Hs1) as (u & s2 & E2 & Hs2).
  unfold bind at 1. rewrite E2.
  destruct (at_leave base sfd true n n cs i c s2 (-1) Hs2 Hc Ha) as (s3 & E3 & G).
  exists tt, s3. split; [done|]. exists (n - 1), (<[i:=deactivate c]> cs). exact G.
Qed.

(** What [ipc_accept_client] does, branch by branch. *)
Lemma accept_cases base sfd n cs s :
  at_ base sfd false n cs s ->
  exists r s', ipc_accept_client sfd s = Some (r, s') /\
  ((r = -1 /\ at_ base sfd false n cs s' /\
    ((accept sfd (net s)).1 < 0 \/ find_idx (fun c => negb (is_active c)) cs = None)) \/
   (exists i c0 c, find_idx (fun c => negb (is_active c)) cs = Some i /\ cs !! i = Some c0 /\
      is_active c = true /\ fd c = r /\ r = (accept sfd (net s)).1 /\
      at_ base sfd false (n + 1) (<[i := c]> cs) s')).
Proof.
  intros (Hs & Hl & Hn & Hc & Hshm & Ht). unfold ipc_accept_client, bind at 1, sysc.
  destruct (accept sfd (net s)) as [cfd w1] eqn:Ea.
  destruct (Z.ltb_spec cfd 0) as [Hneg|Hge].
  { eexists _, _. split; [done|]. left. split; [done|]. split; [|by left].
    unfold at_, at2. simpl. split_and!; try done. eapply table_wf_net; [|done]. by eapply accept_fail. }
  destruct (accept_fresh _ _ _ _ Ea Hge) as (Hlt & Hfresh & Hopen).
  unfold bind at 1, lock. simpl. rewrite Hl. unfold bind at 1, gets. simpl. rewrite Hc.
  pose proof Ht as []. rewrite take_ge by lia.
  destruct (find_idx _ cs) as [i|] eqn:Ei.
  - pose proof Ei as (c0 & Hi & Hc0 & _)%find_idx_Some. apply negb_true_iff in Hc0.
    unfold bind at 1, get_client. simpl. rewrite Hc, Hi.
    unfold bind at 1, sysc. simpl. destruct (time w1) as [now w2] eqn:Etm.
    unfold bind at 1, put_client. simpl. rewrite Hc.
    rewrite (proj2 (Nat.ltb_lt _ _) (lookup_lt_Some _ _ _ Hi)). eexists _, _. split; [done|].
    right. exists i, c0, (mk_client cfd (pid c0) (uid c0) now 1). do 5 (split; [done|]).
    unfold at_, at2. simpl. rewrite Hn. split_and!; try done.
    eapply (at_enter _ _ _ _ _ c0); try done. intros q. rewrite <- Hopen. pose proof (time_open q w1).
    by rewrite Etm in *.
  - eexists _, _. split; [done|]. left. split; [done|]. split; [|by right].
    unfold at_, at2. simpl. split_and!; try done.
    eapply table_wf_net; [|done]. intros q. rewrite close_open, Hopen.
    destruct (decide (q = cfd)) as [->|Hne]; [by rewrite bool_decide_eq_true_2, Hfresh|].
    by rewrite bool_decide_eq_false_2.
Qed.

Lemma ok_accept base sfd :
  triple (server_ok base sfd false) (ipc_accept_client sfd) (fun _ => server_ok base sfd false).
Proof.
  intros s (n & cs & Hs). destruct (accept_cases _ _ _ _ _ Hs) as (r & s' & E & G).
  exists r, s'. split; [done|]. destruct G as [(_ & ? & _)|(? & ? & ? & _ & _ & _ & _ & _ & ?)];
    eexists _, _; done.
Qed.

Lemma ok_of_at base sfd lk lk' {A} (c : M (ipc W) A) :
  (forall n cs, triple (at_ base sfd lk n cs) c (fun _ => at_ base sfd lk' n cs)) ->
  triple (server_ok base sfd lk) c (fun _ => server_ok base sfd lk').
Proof.
  intros Hc s (n & cs & Hs). destruct (Hc n cs s Hs) as (a & s' & E & Hs'). exists a, s'.
  split; [done|]. by exists n, cs.
Qed.

Lemma ok_serve_once base sfd :
  triple (server_ok base sfd false) serve_once (fun _ => server_ok base sfd false).
Proof.
  intros s (n & cs & Hs). pose proof Hs as (Hfd & _ & _ & Hc & _ & Ht).
  unfold serve_once, bind at 1, gets. rewrite Hfd.
  destruct (at_lock base sfd n cs s Hs) as (u1 & s1 & E1 & Hs1).
  unfold bind at 1. rewrite E1. unfold bind at 1, gets.
  pose proof Hs1 as (_ & _ & _ & Hc1 & _ & [Hlen _ _ _ Hr _]). rewrite Hc1, take_ge by lia.
  assert (forallb fd_ok (sfd :: active_fds cs) = true) as ->.
  { apply forallb_forall. intros x Hx. rewrite Forall_forall in Hr. apply Hr.
    by apply list_elem_of_In. }
  unfold guard_ub, bind at 1, ret at 1.
  destruct (at_unlock base sfd true n cs s1 Hs1) as (u2 & s2 & E2 & Hs2).
  unfold bind at 1. rewrite E2.
  destruct (at_sysc base sfd false n cs (select (sfd :: active_fds cs)) (select_open _) s2 Hs2)
    as (act & s3 & E3 & Hs3).
  unfold bind at 1. rewrite E3.
  destruct act as [ready|]; [|by eexists _, _; split; [done|]; exists n, cs].
  assert (server_ok base sfd false s3) as Hok by by exists n, cs.
  refine (triple_bind (server_ok base sfd false) _ _ (fun _ => server_ok base sfd false) _ _ _ s3 Hok).
  - case_bool_decide; [|by apply triple_ret].
    eapply triple_bind; [apply ok_accept|]. intros r. by apply triple_ret.
  - intros u. eapply triple_bind; [apply ok_of_at, at_lock|]. intros u'.
    eapply (triple_bind _ _ _ (fun _ => server_ok base sfd true)).
    + apply triple_forM. intros i Hi. by apply ok_serve_slot.
    + intros u3. apply ok_of_at. intros. apply at_unlock.
Qed.

Lemma ok_disconnect base sfd cfd :
  triple (server_ok base sfd false) (ipc_disconnect_client cfd) (fun _ => server_ok base sfd false).
Proof.
  intros s (n & cs & Hs). unfold ipc_disconnect_client.
  destruct (at_lock base sfd n cs s Hs) as (u1 & s1 & E1 & Hs1).
  unfold bind at 1. rewrite E1. unfold bind at 1, gets.
  pose proof Hs1 as (_ & _ & _ & Hc1 & _ & Ht). rewrite Hc1.
  pose proof Ht as []. rewrite take_ge by lia.
  destruct (find_idx _ cs) as [i|] eqn:Ei.
  - apply find_idx_Some in Ei as (c & Hi & [Ha Hf]%andb_true_iff & _). apply Z.eqb_eq in Hf. subst cfd.
    destruct (at_leave base sfd true n n cs i c s1 (-1) Hs1 Hi Ha) as (s3 & E3 & G).
    assert ((sysv (close (fd c)) ;;! let! c' := get_client i in put_client i (deactivate c') (-1)) s1
      = Some (tt, s3)) as E4.
    { rewrite <- E3. unfold bind, sysv, get_client. simpl. by rewrite Hc1, Hi. }
    unfold bind at 1. rewrite E4. eexists _, _. split; [done|].
    destruct (at_unlock base sfd true _ _ s3 G) as (? & ? & [= _ <-] & ?). by eexists _, _.
  - eexists _, _. split; [done|].
    destruct (at_unlock base sfd true _ _ s1 Hs1) as (? & ? & [= _ <-] & ?). by eexists _, _.
Qed.
End Table.

(** ** The wire format *)

Lemma byte_val_at k z : byte_val (byte_at k z) = z / 256 ^ k mod 256.
Proof.
  unfold byte_val, byte_at.
  pose proof (Z.mod_pos_bound (z / 256 ^ k) 256 ltac:(lia)).
  rewrite N_ascii_embedding; [apply Z2N.id; lia|].
  apply N2Z.inj_lt. rewrite Z2N.id by lia. change (Z.of_N 256) with 256. lia.
Qed.

Lemma un32_le32 z : un32 (le32 z) = u32 z.
Proof.
  unfold un32, le32, u32. rewrite !byte_val_at.
  change (256 ^ 0) with 1. change (256 ^ 1) with 256. rewrite Z.div_1_r.
  change (2 ^ 32) with (256 * (256 * (256 * 256))).
  rewrite !Z.rem_mul_r by lia. rewrite !Z.div_div by lia.
  change (256 ^ 2) with (256 * 256). change (256 ^ 3) with (256 * 256 * 256).
  simpl Z.mul. lia.
Qed.

Lemma i32_u32 z : in_i32 z -> i32 (u32 z) = z.
Proof.
  intros Hz. unfold i32, u32. rewrite Zplus_mod_idemp_l. by apply i32_small.
Qed.

Lemma char_array_length n s : length (char_array n s) = n.
Proof. unfold char_array. rewrite length_app, length_replicate, length_take. lia. Qed.

Definition nul_free (s : string) : Prop := str_mem NUL s = false.

Lemma c_string_app s (b : bytes) :
  nul_free s -> c_string (String.list_ascii_of_string s ++ NUL :: b) = Some s.
Proof.
  unfold nul_free. induction s as [|c s IH]; intros Hs; [done|].
  change (Ascii.eqb c NUL || str_mem NUL s = false) in Hs. apply orb_false_iff in Hs as [Hc Hs].
  change (String.list_ascii_of_string (String c s)) with (c :: String.list_ascii_of_string s).
  change ((if Ascii.eqb c NUL then Some "" else
    String c <$> c_string (String.list_ascii_of_string s ++ NUL :: b)) = Some (String c s)).
  by rewrite Hc, IH.
Qed.

Lemma list_ascii_length s : length (String.list_ascii_of_string s) = String.length s.
Proof. induction s as [|c s IH]; simpl; [done|]. by rewrite IH. Qed.

(** A string shorter than the array is read back. *)
Lemma c_string_char_array n s :
  nul_free s -> (String.length s < n)%nat -> c_string (char_array n s) = Some s.
Proof.
  intros Hs Hn. unfold char_array. rewrite take_ge by (rewrite list_ascii_length; lia).
  rewrite list_ascii_length. destruct (n - String.length s)%nat as [|k] eqn:E; [lia|].
  by apply c_string_app.
Qed.

Record request_ok (r : request_t) : Prop := {
  rq_version : in_u32 (version r);
  rq_id_ok : in_u32 (rq_id r);
  rq_command : in_u32 (command r);
  rq_size : in_u32 (payload_size r);
  rq_payload : length (payload r) = IPC_MAX_PAYLOAD_SIZE;
}.

Record response_ok (r : response_t) : Prop := {
  rs_id_ok : in_u32 (rs_id r);
  rs_status_ok : in_i32 (rs_status r);
  rs_error : length (error_msg r) = 256%nat;
  rs_size : in_u32 (data_size r);
  rs_data : length (data r) = IPC_MAX_PAYLOAD_SIZE;
}.

Lemma take4_le32 z (t : bytes) : take 4 (le32 z ++ t) = le32 z.
Proof. done. Qed.
Lemma drop4_le32 z (t : bytes) : drop 4 (le32 z ++ t) = t.
Proof. done. Qed.

Lemma request_roundtrip r : request_ok r -> bytes_request (request_bytes r) = r.
Proof.
  intros []. unfold bytes_request, request_bytes.
  change 16%nat with (4 + (4 + (4 + 4)))%nat. change 12%nat with (4 + (4 + 4))%nat.
  change 8%nat with (4 + 4)%nat. rewrite <- !drop_drop, !drop4_le32, !take4_le32.
  rewrite !un32_le32, !u32_small by done. by destruct r.
Qed.

Lemma response_roundtrip r : response_ok r -> bytes_response (response_bytes r) = r.
Proof.
  intros []. unfold bytes_response.
  assert (drop 8 (response_bytes r) = error_msg r ++ le32 (data_size r) ++ data r) as D8 by done.
  assert (drop 264 (response_bytes r) = le32 (data_size r) ++ data r) as D264.
  { rewrite <- (drop_app_length (error_msg r) (le32 (data_size r) ++ data r)), <- D8, rs_error0.
    by rewrite drop_drop. }
  assert (drop 268 (response_bytes r) = data r) as ->.
  { rewrite <- (drop4_le32 (data_size r)), <- D264. by rewrite drop_drop. }
  rewrite D8, D264, take4_le32. rewrite (take_app_length' _ _ 256) by done.
  unfold response_bytes. rewrite drop4_le32, !take4_le32.
  rewrite !un32_le32, i32_u32, !u32_small by done. by destruct r.
Qed.

Lemma response_bytes_length r : response_ok r -> length (response_bytes r) = SIZEOF_RESPONSE.
Proof.
  intros []. unfold response_bytes. rewrite !length_app, rs_error0, rs_data0. done.
Qed.

Lemma request_bytes_length r : request_ok r -> length (request_bytes r) = SIZEOF_REQUEST.
Proof. intros []. unfold request_bytes. rewrite !length_app, rq_payload0. done. Qed.

Lemma make_request_ok cmd now pl : in_u32 cmd -> request_ok (make_request cmd now pl).
Proof.
  intros Hc. unfold make_request. destruct pl as [p|]; split; simpl;
    auto using char_array_length with cint; try (unfold in_u32, IPC_PROTOCOL_VERSION; lia).
  pose proof (u32_range (strlen p + 1)). unfold in_u32 in *. lia.
Qed.

(** ** Handling one request *)

Section Handle.
Context {W : Type} `{Net W} `{Clock W} `{Files W}.

Definition epoch (p : shm_ptr) : Z := match p with Shm st => started_at st | _ => 0 end.

(** What a client is told for a command. *)
Definition reply (s : ipc W) (cmd : Z) : shown * Z :=
  if cmd =? CMD_STATUS then
    (Out (snprintf IPC_MAX_PAYLOAD_SIZE "Running:1 Clients:%d Uptime:%ld"
            [CInt (num_clients s); CInt (i64 ((time (net s)).1 - epoch (shared_status s)))]), 0)
  else if cmd =? CMD_SHUTDOWN then (Out "Shutting down daemon", 0)
  else (Err "Command failed", -1).

Lemma status_line_nul_free size n t :
  nul_free (snprintf size "Running:1 Clients:%d Uptime:%ld" [CInt n; CInt t]).
Proof.
  apply str_mem_take.
  assert (sprintf "Running:1 Clients:%d Uptime:%ld" [CInt n; CInt t] =
    "Running:1 Clients:" +:+ pretty n +:+ " Uptime:" +:+ pretty t) as ->.
  { unfold sprintf. simpl. unfold pad. simpl. by rewrite str_app_nil_r. }
  by rewrite !str_mem_app, !str_mem_pretty.
Qed.

Lemma snprintf_fits size f args : (0 < size)%nat -> (String.length (snprintf size f args) < size)%nat.
Proof. intros Hs. unfold snprintf. pose proof (str_take_length (size - 1) (sprintf f args)). lia. Qed.

(** A successful answer is a well-formed structure that shows its text. *)
Lemma ok_response id text :
  in_u32 id -> nul_free text -> (String.length text < IPC_MAX_PAYLOAD_SIZE)%nat ->
  let r := mk_response id STATUS_OK (char_array 256 "")
    (Z.min (u32 (strlen text + 1)) (Z.of_nat IPC_MAX_PAYLOAD_SIZE))
    (char_array IPC_MAX_PAYLOAD_SIZE text) in
  response_ok r /\ show_response r = Some (Out text, 0).
Proof.
  intros Hid Hn Hl r.
  assert (u32 (strlen text + 1) = strlen text + 1) as Hu.
  { apply u32_small. unfold in_u32, strlen, IPC_MAX_PAYLOAD_SIZE in *. lia. }
  split.
  - split; [done|change (in_i32 0); unfold in_i32; lia|apply char_array_length| |apply char_array_length].
    unfold r. cbn [data_size]. rewrite Hu. unfold in_u32, strlen, IPC_MAX_PAYLOAD_SIZE in *. lia.
  - unfold show_response, r. cbn [rs_status data_size data]. rewrite Hu.
    rewrite c_string_char_array by done. rewrite (proj2 (Z.ltb_lt _ _)), (proj2 (Z.leb_le _ _)).
    + done.
    + lia.
    + unfold strlen, IPC_MAX_PAYLOAD_SIZE in *. lia.
Qed.

Lemma handle_spec (req : request_t) (s : ipc W) :
  in_u32 (rq_id req) -> shared_status s <> ShmFailed ->
  exists resp s', ipc_handle_request req s = Some (resp, s') /\
    response_ok resp /\ rs_id resp = rq_id req /\ show_response resp = Some (reply s (command req)) /\
    running s' = (if command req =? CMD_SHUTDOWN then 0 else running s) /\
    clients s' = clients s /\ num_clients s' = num_clients s.
Proof.
  intros Hid Hshm. unfold ipc_handle_request, ipc_dispatch_command, reply, bind at 1.
  destruct (command req =? CMD_STATUS) eqn:E1; [|destruct (command req =? CMD_SHUTDOWN) eqn:E2].
  - apply Z.eqb_eq in E1. rewrite E1. change (CMD_STATUS =? CMD_SHUTDOWN) with false.
    unfold bind, gets, sysc, start_time. destruct (time (net s)) as [now w] eqn:Et.
    pose proof (status_line_nul_free IPC_MAX_PAYLOAD_SIZE (num_clients s)
      (i64 (now - epoch (shared_status s)))) as Hnul.
    pose proof (snprintf_fits IPC_MAX_PAYLOAD_SIZE "Running:1 Clients:%d Uptime:%ld"
      [CInt (num_clients s); CInt (i64 (now - epoch (shared_status s)))]
      ltac:(unfold IPC_MAX_PAYLOAD_SIZE; lia)) as Hfit.
    destruct (ok_response (rq_id req) _ Hid Hnul Hfit) as [Hok Hshow].
    simpl. destruct (shared_status s); [|done|]; simpl in *;
      (eexists _, _; split; [reflexivity|]; split_and!; [exact Hok|done|exact Hshow|done..]).
  - destruct (ok_response (rq_id req) "Shutting down daemon" Hid eq_refl) as [Hok Hshow];
      [unfold IPC_MAX_PAYLOAD_SIZE; simpl; lia|].
    unfold bind, modify. eexists _, _. split; [reflexivity|].
    split_and!; [exact Hok|done|exact Hshow|done..].
  - unfold ret. eexists _, _. split; [reflexivity|]. by split_and!.
Qed.
End Handle.

(** ** Nothing the loop does starts the server again *)

Section Stopped.
Context {W : Type} `{Net W} `{Clock W} `{Files W}.

Definition keeps_stopped {A} (c : M (ipc W) A) : Prop :=
  forall s a s', c s = Some (a, s') -> running s = 0 -> running s' = 0.

Lemma ks_bind {A B} (c : M (ipc W) A) (k : A -> M (ipc W) B) :
  keeps_stopped c -> (forall a, keeps_stopped (k a)) -> keeps_stopped (bind c k).
Proof. intros Hc Hk s b s' (a & s1 & E1 & E2)%bind_Some Hs. eapply Hk; [done|]. by eapply Hc. Qed.

Lemma ks_ret {A} (a : A) : keeps_stopped (ret a).
Proof. by intros s b s' [= _ <-]. Qed.
Lemma ks_gets {A} (f : ipc W -> A) : keeps_stopped (gets f).
Proof. by intros s b s' [= _ <-]. Qed.
Lemma ks_sysc {A} (f : W -> A * W) : keeps_stopped (sysc f).
Proof. intros s b s'. unfold sysc. destruct (f (net s)). by intros [= _ <-]. Qed.
Lemma ks_sysv (f : W -> W) : keeps_stopped (sysv f).
Proof. by intros s b s' [= _ <-]. Qed.
Lemma ks_get i : keeps_stopped (get_client i).
Proof. intros s b s'. unfold get_client. case_match; by intros [= _ <-]. Qed.
Lemma ks_put i c d : keeps_stopped (put_client i c d).
Proof. intros s b s'. unfold put_client. case_match; by intros [= _ <-]. Qed.
Lemma ks_start : keeps_stopped start_time.
Proof. intros s b s'. unfold start_time. case_match; by intros [= _ <-]. Qed.
Lemma ks_stop : keeps_stopped (modify (fun s => set_run s 0)).
Proof. by intros s b s' [= _ <-]. Qed.
Lemma ks_foldM {A S} (f : S -> A -> M (ipc W) S) l : forall acc,
  (forall acc x, keeps_stopped (f acc x)) -> keeps_stopped (foldM f acc l).
Proof. induction l as [|x l IH]; intros acc Hf; simpl; [apply ks_ret|]. apply ks_bind; auto. Qed.

Lemma ks_cleanup i : keeps_stopped (cleanup_slot i).
Proof.
  unfold cleanup_slot. apply ks_bind; [apply ks_get|]. intros c. case_match; [|apply ks_ret].
  apply ks_bind; [apply ks_sysv|]. intros u. apply ks_put.
Qed.

Lemma ks_serve_slot ready i : keeps_stopped (serve_slot ready i).
Proof.
  unfold serve_slot, answer, ipc_read_request, ipc_send_response, ipc_handle_request, ipc_dispatch_command.
  repeat (first [ apply ks_bind; [|intros] | apply ks_ret | apply ks_gets | apply ks_sysc
    | apply ks_sysv | apply ks_get | apply ks_put | apply ks_start | apply ks_stop | case_match ]).
Qed.
End Stopped.

(** ** Start and end *)

Section Lifecycle.
Context {W : Type} `{Net W} `{Clock W} `{Files W} `{!NetLaws W}.

(** What a computation does to the set of open descriptors. *)
Definition opens {A} (c : M (ipc W) A) (f : (Z -> bool) -> Z -> bool) : Prop :=
  forall s a s', c s = Some (a, s') -> forall q, is_open q (net s') = f (fun q => is_open q (net s)) q.

Definition same (o : Z -> bool) : Z -> bool := o.
Definition without (c : Z) (o : Z -> bool) (q : Z) : bool := negb (bool_decide (q = c)) && o q.

Lemma opens_sysc {A} (f : W -> A * W) :
  (forall q w, is_open q (f w).2 = is_open q w) -> opens (sysc f) same.
Proof.
  intros Hf s a s'. unfold sysc. destruct (f (net s)) as [x w] eqn:E. intros [= _ <-] q. simpl.
  pose proof (Hf q (net s)) as G. by rewrite E in G.
Qed.

(** The part of the state the system calls leave alone. *)
Definition fields (s : ipc W) : Z * Z * list client_info_t * bool :=
  (server_fd s, num_clients s, clients s, locked s).

Lemma sysc_fields {A} (f : W -> A * W) s a s' : sysc f s = Some (a, s') -> fields s' = fields s.
Proof. unfold sysc. destruct (f (net s)). by intros [= _ <-]. Qed.
Lemma sysc_shm {A} (f : W -> A * W) s a s' :
  sysc f s = Some (a, s') -> shared_status s' = shared_status s.
Proof. unfold sysc. destruct (f (net s)). by intros [= _ <-]. Qed.

(** The page is mapped or not, and either way the descriptor used for it is
    closed. *)
Lemma shm_init_spec s r s' :
  ipc_shm_init s = Some (r, s') ->
  (forall q, is_open q (net s') = is_open q (net s)) /\
  server_fd s' = server_fd s /\ num_clients s' = num_clients s /\ clients s' = clients s /\
  locked s' = locked s /\ (r = 0 -> shared_status s' <> ShmFailed).
Proof.
  unfold ipc_shm_init, bind at 1, sysc. destruct (shm_open (net s)) as [c w1] eqn:Eo.
  destruct (Z.ltb_spec c 0) as [Hneg|Hge].
  { intros [= <- <-]. split_and!; try done. by eapply shm_open_fail. }
  destruct (shm_open_fresh _ _ _ Eo Hge) as [Hfresh Hopen].
  assert (forall w, (forall q, is_open q w = is_open q w1) ->
    forall q, is_open q (close c w) = is_open q (net s)) as Hclose.
  { intros w Hw q. rewrite close_open, Hw, Hopen. destruct (decide (q = c)) as [->|Hne].
    - by rewrite bool_decide_eq_true_2, Hfresh.
    - by rewrite bool_decide_eq_false_2. }
  unfold bind at 1. simpl. destruct (ftruncate c w1) as [r1 w2] eqn:Ef.
  assert (forall q, is_open q w2 = is_open q w1) as H2.
  { intros q. pose proof (ftruncate_open c q w1) as G. by rewrite Ef in G. }
  destruct (negb (r1 =? 0)).
  { intros [= <- <-]. split_and!; try done. simpl. by apply Hclose. }
  unfold bind at 1. simpl. destruct (mmap w2) as [page w3] eqn:Em.
  assert (forall q, is_open q w3 = is_open q w1) as H3.
  { intros q. pose proof (mmap_open q w2) as G. rewrite Em in G. simpl in G. by rewrite G. }
  destruct page as [st|].
  - unfold bind, sysv, sysc, modify. simpl. destruct (time (close c w3)) as [now w4] eqn:Et.
    intros [= <- <-]. split_and!; try done. intros q. simpl.
    pose proof (time_open q (close c w3)) as G. rewrite Et in G. simpl in G. rewrite G. by apply Hclose.
  - intros [= <- <-]. split_and!; try done. simpl. by apply Hclose.
Qed.

Lemma drop_server_spec p s r s' :
  drop_server p s = Some (r, s') ->
  r = -1 /\ forall q, is_open q (net s') = without (server_fd s) (fun q => is_open q (net s)) q.
Proof.
  unfold drop_server, bind, gets, sysv, sysc. simpl.
  destruct (unlink p (close (server_fd s) (net s))) as [e w] eqn:E. intros [= <- <-].
  split; [done|]. intros q. simpl. pose proof (unlink_open p q (close (server_fd s) (net s))) as G.
  rewrite E in G. simpl in G. rewrite G. apply close_open.
Qed.

Lemma empty_table_wf (base : Z -> bool) sfd (w : W) :
  base sfd = false -> fd_ok sfd = true -> (forall q, is_open q w = bool_decide (q = sfd) || base q) ->
  table_wf base sfd 0 (replicate IPC_MAX_CLIENTS zero_client) w.
Proof.
  intros Hb Hr Ho.
  assert (active_fds (replicate IPC_MAX_CLIENTS zero_client) = []) as E.
  { apply no_active. intros c Hc. by apply elem_of_replicate in Hc as [-> _]. }
  split; rewrite ?E; try done.
  - apply NoDup_singleton.
  - intros q ->%list_elem_of_singleton. done.
  - by constructor.
  - intros q. rewrite Ho, orb_comm. f_equal. apply bool_decide_ext. by rewrite list_elem_of_singleton.
Qed.

(** [ipc_server_init] establishes the invariant, or leaves no descriptor
    behind. *)
Lemma init_cases path s r s' :
  ipc_server_init path s = Some (r, s') ->
  (r = 0 /\ running s' = 1 /\ server_ok (fun q => is_open q (net s)) (server_fd s') false s') \/
  (r = -1 /\ forall q, is_open q (net s') = is_open q (net s)).
Proof.
  unfold ipc_server_init. unfold bind at 1, modify at 1. unfold bind at 1, sysc at 1. simpl.
  destruct (socket (net s)) as [sfd w1] eqn:Es. unfold bind at 1, modify at 1. simpl.
  destruct (Z.ltb_spec sfd 0) as [Hneg|Hge].
  { intros [= <- <-]. right. split; [done|]. simpl. by eapply socket_fail. }
  destruct (socket_fresh _ _ _ Es Hge) as (Hlt & Hfresh & Hopen).
  intros (u1 & s1 & E1 & E)%bind_Some. pose proof (opens_sysc _ (unlink_open _) _ _ _ E1) as O1.
  unfold bind at 1, modify at 1 in E. unfold bind at 1, gets at 1 in E.
  apply bind_Some in E as (b & s2 & E2 & E).
  pose proof (opens_sysc _ (bind_open _ _) _ _ _ E2) as O2.
  assert (forall s3 p, server_fd s3 = sfd -> (forall q, is_open q (net s3) = is_open q w1) ->
    drop_server p s3 = Some (r, s') ->
    r = -1 /\ forall q, is_open q (net s') = is_open q (net s)) as Hdrop.
  { intros s3 p F3 O3 [-> G]%drop_server_spec. split; [done|]. intros q. rewrite G. unfold without.
    rewrite O3, Hopen, F3. destruct (decide (q = sfd)) as [->|Hne].
    - by rewrite bool_decide_eq_true_2, Hfresh.
    - by rewrite bool_decide_eq_false_2. }
  assert (fields s2 = (sfd, 0, replicate IPC_MAX_CLIENTS zero_client, false)) as F2.
  { apply sysc_fields in E1, E2. rewrite E2. exact E1. }
  assert (forall q, is_open q (net s2) = is_open q w1) as O2'.
  { intros q. rewrite O2. unfold same. simpl. rewrite O1. done. }
  destruct (b <? 0); [right; eapply Hdrop; [by injection F2|done|exact E]|].
  apply bind_Some in E as (l & s3 & E3 & E).
  pose proof (opens_sysc _ (listen_open _) _ _ _ E3) as O3. apply sysc_fields in E3 as F3.
  rewrite F2 in F3.
  assert (forall q, is_open q (net s3) = is_open q w1) as O3' by (intros q; rewrite O3; apply O2').
  destruct (l <? 0); [right; eapply Hdrop; [by injection F3|done|exact E]|].
  apply bind_Some in E as (r4 & s4 & E4 & E). apply shm_init_spec in E4 as (O4 & F4 & N4 & C4 & L4 & P4).
  unfold fields in F3. injection F3 as Fd3 Nc3 Cl3 Lk3.
  destruct (Z.eqb_spec r4 0) as [->|Hr4]; simpl in E.
  2:{ right. eapply Hdrop; [|intros q; rewrite O4; apply O3'|exact E]. congruence. }
  left. unfold ipc_sem_init in E. apply bind_Some in E as (u5 & s5 & E5 & E).
  apply bind_Some in E5 as (ok & s6 & E6 & E5).
  pose proof (opens_sysc _ sem_open_open _ _ _ E6) as O6.
  apply sysc_fields in E6 as F6. apply sysc_shm in E6 as S6. injection F6 as F6a F6b F6c F6d.
  unfold bind, modify, ret in E5. injection E5 as _ <-. unfold bind, modify, ret in E.
  injection E as <- <-. split; [done|]. split; [done|]. exists 0, (clients s6). unfold at_, at2. simpl.
  assert (shared_status s4 <> ShmFailed) as Hs4 by by apply P4.
  split_and!; [done|congruence|done|done|congruence|].
  rewrite F6c, C4, Cl3, F6a, F4, Fd3. apply empty_table_wf; [done|unfold fd_ok; lia|].
  intros q. rewrite O6. unfold same. by rewrite O4, O3', Hopen.
Qed.

(** The loop of [ipc_server_cleanup] frees the slots it visits. *)
Lemma cleanup_loop base sfd n (l : list nat) : forall m cs s,
  at2 base sfd true n m cs s -> (forall i, i ∈ l -> (i < IPC_MAX_CLIENTS)%nat) ->
  exists m' cs' s', forM cleanup_slot l s = Some (tt, s') /\ at2 base sfd true n m' cs' s' /\
    (forall i c', i ∈ l -> cs' !! i = Some c' -> is_active c' = false) /\
    (forall i c', cs' !! i = Some c' -> is_active c' = true -> cs !! i = Some c').
Proof.
  induction l as [|i l IH]; intros m cs s Hs Hl.
  { exists m, cs, s. split_and!; try done. intros i c' Hi. by apply elem_of_nil in Hi. }
  pose proof Hs as (_ & _ & _ & Hc & _ & Ht).
  assert (i < length cs)%nat as Hi by (rewrite (tw_len _ _ _ _ _ Ht); apply Hl; left).
  apply lookup_lt_is_Some in Hi as [c Hi].
  assert (exists m1 cs1 s1, cleanup_slot i s = Some (tt, s1) /\ at2 base sfd true n m1 cs1 s1 /\
    (forall c', cs1 !! i = Some c' -> is_active c' = false) /\
    (forall j c', cs1 !! j = Some c' -> is_active c' = true -> cs !! j = Some c'))
    as (m1 & cs1 & s1 & E1 & Hs1 & Hi1 & Hj1).
  { unfold cleanup_slot, bind at 1, get_client. rewrite Hc, Hi. destruct (is_active c) eqn:Ha.
    - destruct (at_leave base sfd true n m cs i c s 0 Hs Hi Ha) as (s1 & E1 & Hs1).
      rewrite Z.add_0_r in Hs1. exists (m - 1), (<[i := deactivate c]> cs), s1. split_and!; try done.
      + rewrite list_lookup_insert_eq by by eapply lookup_lt_Some. by intros c' [= <-].
      + intros j c' Hj Hact. destruct (decide (i = j)) as [<-|Hne].
        * rewrite list_lookup_insert_eq in Hj by by eapply lookup_lt_Some. by injection Hj as <-.
        * by rewrite list_lookup_insert_ne in Hj.
    - exists m, cs, s. split_and!; try done. intros c'. rewrite Hi. by intros [= <-]. }
  destruct (IH m1 cs1 s1 Hs1) as (m2 & cs2 & s2 & E2 & Hs2 & Hl2 & Hb2).
  { intros k Hk. apply Hl. by right. }
  exists m2, cs2, s2. unfold forM in *. simpl. unfold bind. rewrite E1. split_and!; try done.
  - intros k c' [->|Hk]%elem_of_cons Hk'; [|by eapply Hl2].
    destruct (is_active c') eqn:Hact; [|done]. rewrite <- Hact. eapply Hi1. by apply Hb2.
  - intros k c' Hk Hact. apply Hj1; [|done]. by apply Hb2.
Qed.

Lemma table_all cs : length cs = IPC_MAX_CLIENTS ->
  (forall i c, i ∈ table -> cs !! i = Some c -> is_active c = false) -> active_fds cs = [].
Proof.
  intros Hl Hin. apply no_active. intros c [i Hi]%list_elem_of_lookup.
  apply (Hin i); [|done]. apply elem_of_seq. apply lookup_lt_Some in Hi. lia.
Qed.

Lemma cleanup_defined base sfd lk n cs s :
  lk = false -> at_ base sfd lk n cs s ->
  exists s', ipc_server_cleanup s = Some (tt, s') /\ running s' = 0 /\ num_clients s' = n /\
    active_fds (clients s') = [] /\ forall q, is_open q (net s') = base q.
Proof.
  intros -> Hs. unfold ipc_server_cleanup. unfold bind at 1, modify at 1.
  destruct (at_lock base sfd n cs (set_run s 0) Hs) as ([] & s1 & E1 & Hs1).
  unfold bind at 1. rewrite E1.
  destruct (cleanup_loop base sfd n table n cs s1 Hs1) as (m & cs2 & s2 & E2 & Hs2 & Hoff & _).
  { intros i Hi. apply elem_of_seq in Hi. lia. }
  unfold bind at 1. rewrite E2. unfold bind at 1, unlock. unfold bind at 1, gets. simpl.
  pose proof Hs2 as (Hfd & _ & Hn & Hc & _ & Ht).
  assert (running s2 = 0) as Hrun.
  { apply (ks_foldM _ _ _ (fun _ x => ks_cleanup x) _ _ _ E2). unfold lock in E1.
    destruct (locked (set_run s 0)); [done|]. by injection E1 as <-. }
  assert (active_fds cs2 = []) as Hnone by (apply table_all; [apply Ht|done]).
  pose proof Ht as [_ _ _ Hb Hr Ho]. rewrite Hnone in Hb, Hr, Ho.
  assert ((0 <=? sfd) = true) as Hge.
  { apply Forall_cons in Hr as [Hr _]. unfold fd_ok in Hr. by apply andb_true_iff in Hr as [? _]. }
  rewrite Hfd, Hge. unfold bind, sysv, sysc, gets, modify. simpl.
  destruct (unlink (sun_path s2) (close sfd (net s2))) as [e w] eqn:Eu. simpl.
  assert (forall q, is_open q (shm_unlink w) = base q) as Hq.
  { intros q. rewrite shm_unlink_open.
    pose proof (unlink_open (sun_path s2) q (close sfd (net s2))) as G. rewrite Eu in G. simpl in G.
    rewrite G, close_open, Ho. destruct (decide (q = sfd)) as [->|Hne].
    - rewrite bool_decide_eq_true_2 by done. simpl. symmetry. apply Hb. left.
    - rewrite bool_decide_eq_false_2 by done. simpl.
      rewrite bool_decide_eq_false_2, orb_false_r; [done|]. by rewrite list_elem_of_singleton. }
  unfold ipc_sem_cleanup, bind, gets, sysv, modify. simpl.
  destruct (status_sem s2); eexists; (split; [reflexivity|]); simpl; rewrite Hc, Hnone;
    split_and!; try done. intros q. rewrite sem_close_open. apply Hq.
Qed.
End Lifecycle.

(** ** Claims *)

Section Claims.
Context {W : Type} `{Net W} `{Clock W} `{Files W} `{!NetLaws W}.

(** One event of the server's life after it started: a turn of the loop, a
    stop from the main thread, the disconnection of a client, or clients and
    time moving on without touching the server's descriptors. *)
Inductive ipc_step : ipc W -> ipc W -> Prop :=
  | step_turn s s' : serve_once s = Some (tt, s') -> ipc_step s s'
  | step_stop s s' r : ipc_server_stop s = Some (r, s') -> ipc_step s s'
  | step_disconnect c s s' : ipc_disconnect_client c s = Some (tt, s') -> ipc_step s s'
  | step_outside s w : (forall q, is_open q w = is_open q (net s)) -> ipc_step s (set_net s w).

Lemma step_ok base sfd s s' : ipc_step s s' -> server_ok base sfd false s -> server_ok base sfd false s'.
Proof.
  intros Hstep Hs. destruct Hstep as [s s' E|s s' r E|c s s' E|s w Hw].
  - destruct (ok_serve_once base sfd s Hs) as (? & ? & E' & ?). congruence.
  - injection E as _ <-. exact Hs.
  - destruct (ok_disconnect base sfd c s Hs) as (? & ? & E' & ?). congruence.
  - destruct Hs as (n & cs & ? & ? & ? & ? & ? & ?). exists n, cs. unfold at_, at2. simpl.
    split_and!; try done. by eapply table_wf_net.
Qed.

(** C6. The server accounts for every descriptor and never blocks itself: in
    every state reached by turns of the loop, stops, disconnections and moves
    of the outside world, the client counter equals the number of active
    slots, no two of which share a descriptor; the process holds exactly the
    descriptors it had before, the listening socket and one per active
    client; the mutex is free; and from there the next turn and any
    disconnection are defined (no write past an fd_set or the table, no lock
    taken twice). *)
Theorem server_invariant base sfd s s' :
  server_ok base sfd false s -> rtc ipc_step s s' ->
  server_ok base sfd false s' /\
  is_Some (serve_once s') /\ (forall c, is_Some (ipc_disconnect_client c s')).
Proof.
  intros Hs Hr. assert (server_ok base sfd false s') as Hs'.
  { induction Hr as [|s s1 s2 Hstep Hr IH]; [done|]. by apply IH, (step_ok _ _ s). }
  split; [done|]. split.
  - destruct (ok_serve_once base sfd s' Hs') as (? & ? & -> & _). by eexists.
  - intros c. destruct (ok_disconnect base sfd c s' Hs') as (? & ? & -> & _). by eexists.
Qed.

(** Accepting a connection: when all 64 slots are taken the new
    descriptor is closed again and nothing else changes; otherwise it goes to
    the first free slot, and the counter grows by one. *)
Theorem accept_spec base sfd n cs s c :
  at_ base sfd false n cs s -> (accept sfd (net s)).1 = c -> 0 <= c ->
  exists r s', ipc_accept_client sfd s = Some (r, s') /\
  match find_idx (fun x => negb (is_active x)) cs with
  | None => r = -1 /\ clients s' = cs /\ num_clients s' = n /\
      forall q, is_open q (net s') = is_open q (net s)
  | Some i => r = c /\ num_clients s' = n + 1 /\ is_open c (net s') = true /\
      exists x, clients s' = <[i := x]> cs /\ fd x = c /\ is_active x = true
  end.
Proof.
  intros Hs Ha Hc. pose proof Hs as (_ & _ & _ & _ & _ & Ht).
  destruct (accept_cases _ _ _ _ _ Hs) as (r & s' & E & G).
  exists r, s'. split; [done|]. destruct G as [(-> & Hs' & Hfull)|(i & c0 & x & Hi & _ & Hx & Hfd & Hr & Hs')].
  - destruct Hfull as [Hneg|Hfull]; [lia|]. rewrite Hfull.
    destruct Hs' as (_ & _ & ? & ? & _ & Ht'). split_and!; try done.
    intros q. by rewrite (tw_open _ _ _ _ _ Ht), (tw_open _ _ _ _ _ Ht').
  - rewrite Hi. destruct Hs' as (_ & _ & ? & ? & _ & Ht'). split; [congruence|]. split; [done|].
    split; [|exists x; split_and!; [done|congruence|done]].
    rewrite (tw_open _ _ _ _ _ Ht'). apply orb_true_iff. right. apply bool_decide_eq_true_2.
    destruct Ht. apply find_idx_lt in Hi. rewrite (active_fds_insert _ _ _ Hi), Hx.
    rewrite <- Ha, <- Hr, <- Hfd. simpl. set_solver.
Qed.

(** C8. Client and server end to end: whatever command and payload the client
    sends, the server decodes the request the client encoded, answers with
    the same request id, and the client decodes and shows what the server
    decided: the status line, the acknowledgement of a shutdown, or for every
    other command "Command failed" with exit code -1. *)
Theorem client_server_roundtrip (s : ipc W) cmd now pl :
  in_u32 cmd -> shared_status s <> ShmFailed ->
  let sent := request_bytes (make_request cmd now pl) in
  length sent = SIZEOF_REQUEST /\
  exists resp s', ipc_handle_request (bytes_request sent) s = Some (resp, s') /\
    length (response_bytes resp) = SIZEOF_RESPONSE /\
    rs_id (bytes_response (response_bytes resp)) = u32 now /\
    show_response (bytes_response (response_bytes resp)) = Some (reply s cmd) /\
    running s' = (if cmd =? CMD_SHUTDOWN then 0 else running s).
Proof.
  intros Hc Hshm. pose proof (make_request_ok cmd now pl Hc) as Hok. cbv zeta.
  split; [by apply request_bytes_length|]. rewrite request_roundtrip by done.
  destruct (handle_spec (make_request cmd now pl) s) as (resp & s' & E & Hr & Hid & Hshow & Hrun & _);
    [by destruct Hok|done|].
  exists resp, s'. split; [done|]. split; [by apply response_bytes_length|].
  rewrite response_roundtrip by done. rewrite Hid, Hshow, Hrun.
  by destruct pl.
Qed.

Lemma serve_shutdown base sfd n cs (s s' : ipc W) i c now pl ready u :
  at_ base sfd true n cs s -> cs !! i = Some c -> is_active c = true -> fd c ∈ ready ->
  (sock_read (fd c) SIZEOF_REQUEST (net s)).1 = request_bytes (make_request CMD_SHUTDOWN now pl) ->
  serve_slot ready i s = Some (u, s') -> running s' = 0.
Proof.
  intros (_ & _ & _ & Hc & Hshm & _) Hi Ha Hrd Hread E.
  unfold serve_slot, bind at 1, get_client in E. rewrite Hc, Hi, Ha in E. simpl in E.
  rewrite bool_decide_eq_true_2 in E by done. apply bind_Some in E as (u1 & s1 & E1 & E2).
  assert (running s1 = 0) as H1s.
  { unfold answer, ipc_read_request in E1. apply bind_Some in E1 as (r & s2 & E1 & E3).
    apply bind_Some in E1 as (b & s3 & E1 & E4). unfold sysc in E1.
    destruct (sock_read _ _ _) as [b' w] eqn:Er. simpl in Hread. injection E1 as <- <-.
    assert (request_ok (make_request CMD_SHUTDOWN now pl)) as Hok
      by (apply make_request_ok; unfold in_u32, CMD_SHUTDOWN; lia).
    rewrite Hread in E4. rewrite request_bytes_length in E4 by done. rewrite Nat.eqb_refl in E4.
    rewrite request_roundtrip in E4 by done. injection E4 as <- <-.
    apply bind_Some in E3 as (resp & s4 & E3 & E5).
    destruct (handle_spec (make_request CMD_SHUTDOWN now pl) (set_net s w)) as
      (resp' & s4' & E' & _ & _ & _ & Hrun & _); [apply Hok|done|].
    rewrite E' in E3. injection E3 as <- <-.
    assert (running s4' = 0) as H4 by (rewrite Hrun; by destruct pl).
    revert E5 H4. apply ks_bind; [|intros; apply ks_ret].
    apply ks_bind; [apply ks_sysc|intros; apply ks_ret]. }
  revert E2 H1s. apply ks_bind; [apply ks_sysv|intros; apply ks_put].
Qed.

(** C15. A shutdown request ends the loop: when a client that is ready sends
    CMD_SHUTDOWN, then whatever the clients after it in the table ask for, the
    server is stopped at the end of the turn and [ipc_server_run] returns
    with any fuel. *)
Theorem shutdown_request_stops base sfd n cs (s s' : ipc W) i c now pl ready rest fuel :
  at_ base sfd true n cs s -> cs !! i = Some c -> is_active c = true -> fd c ∈ ready ->
  (sock_read (fd c) SIZEOF_REQUEST (net s)).1 = request_bytes (make_request CMD_SHUTDOWN now pl) ->
  forM (serve_slot ready) (i :: rest) s = Some (tt, s') ->
  running s' = 0 /\ ipc_server_run fuel s' = Some (true, s').
Proof.
  intros Hs Hi Ha Hrd Hread E.
  assert (running s' = 0) as Hz.
  { unfold forM in E. simpl in E. apply bind_Some in E as (u & s1 & E1 & E2).
    eapply (ks_foldM _ _ _ (fun _ x => ks_serve_slot ready x)); [exact E2|].
    by eapply serve_shutdown. }
  split; [done|]. destruct fuel; simpl; unfold bind, gets; by rewrite Hz.
Qed.

(** C10. Start and end of the server: [ipc_server_init] either succeeds and
    establishes the invariant of the loop, or fails and leaves no descriptor open
    that was not open before; and [ipc_server_cleanup], from any state that
    satisfies the invariant, closes the listening socket and every client, so
    that exactly the descriptors from before [ipc_server_init] remain (the
    counter alone keeps its last value). *)
Theorem server_lifecycle :
  (forall path (s s' : ipc W) r, ipc_server_init path s = Some (r, s') ->
     (r = 0 /\ running s' = 1 /\ server_ok (fun q => is_open q (net s)) (server_fd s') false s') \/
     (r = -1 /\ forall q, is_open q (net s') = is_open q (net s))) /\
  (forall base sfd n cs (s : ipc W), at_ base sfd false n cs s ->
     exists s', ipc_server_cleanup s = Some (tt, s') /\ running s' = 0 /\ num_clients s' = n /\
       active_fds (clients s') = [] /\ forall q, is_open q (net s') = base q).
Proof.
  split; [intros; by eapply init_cases|]. intros base sfd n cs s Hs. by eapply cleanup_defined.
Qed.

(** Sending jobs one after the other, and receiving as many. *)
Fixpoint send_all (jobs : list job_message_t) : M (ipc W) (list Z) :=
  match jobs with
  | [] => ret []
  | j :: l => let! r := ipc_mq_send_job j in let! rs := send_all l in ret (r :: rs)
  end.
Fixpoint receive_all (k : nat) : M (ipc W) (list (option job_message_t)) :=
  match k with
  | O => ret []
  | S k' => let! r := ipc_mq_receive_job false in let! rs := receive_all k' in ret (r.2 :: rs)
  end.

Lemma send_all_mq jobs : forall (s s1 : ipc W),
  0 <= msg_queue_id s -> send_all jobs s = Some (replicate (length jobs) 0, s1) ->
  msg_queue_id s1 = msg_queue_id s /\
  mq (msg_queue_id s) (net s1) = mq (msg_queue_id s) (net s) ++ jobs.
Proof.
  induction jobs as [|j jobs IH]; intros s s1 Hq E; simpl in E.
  { injection E as <-. split; [done|]. by rewrite app_nil_r. }
  apply bind_Some in E as (r & s2 & E1 & E). apply bind_Some in E as (rs & s3 & E2 & E).
  injection E as -> -> <-. unfold ipc_mq_send_job, bind, gets, sysc in E1.
  rewrite (proj2 (Z.ltb_ge _ _) Hq) in E1.
  destruct (msgsnd _ _ _ _) as [k w] eqn:Em. injection E1 as Hr <-.
  destruct (Z.ltb_spec k 0); [done|].
  apply IH in E2 as [Hq1 Hm1]; [|done]. simpl in *. split; [done|].
  rewrite Hm1, (msgsnd_ok _ _ _ _ _ _ Em) by lia. by rewrite <- app_assoc.
Qed.

Lemma receive_all_mq k : forall (s s2 : ipc W) got,
  0 <= msg_queue_id s -> receive_all k s = Some (Some <$> got, s2) ->
  exists rest, mq (msg_queue_id s) (net s) = got ++ rest /\ length got = k.
Proof.
  induction k as [|k IH]; intros s s2 got Hq E; simpl in E.
  { injection E as Hg _. destruct got; [|done]. by eexists. }
  apply bind_Some in E as (r & s3 & E1 & E). apply bind_Some in E as (rs & s4 & E2 & E).
  injection E as Hg _. destruct got as [|g got]; [done|]. simpl in Hg. injection Hg as Hr ->.
  unfold ipc_mq_receive_job, bind, gets, sysc in E1. rewrite (proj2 (Z.ltb_ge _ _) Hq) in E1.
  destruct (msgrcv _ _ _) as [[job|] w] eqn:Em; injection E1 as <- <-; [|done].
  simpl in Hr. injection Hr as ->. apply IH in E2 as (rest & Hm & Hl); [|done]. simpl in Hm.
  exists rest. split; [|simpl; congruence]. by rewrite (msgrcv_ok _ _ _ _ _ Em), Hm.
Qed.

(** The job queue is first in, first out, whatever the priorities: jobs
    sent one by one through an empty queue, all accepted, come back complete
    and in the order they were sent; and a job whose priority is not positive
    is always refused. *)
Theorem job_queue_fifo (s s1 s2 : ipc W) jobs got :
  0 <= msg_queue_id s -> mq (msg_queue_id s) (net s) = [] ->
  send_all jobs s = Some (replicate (length jobs) 0, s1) ->
  receive_all (length jobs) s1 = Some (Some <$> got, s2) ->
  got = jobs /\
  forall job, priority job <= 0 -> exists s', ipc_mq_send_job job s = Some (-1, s').
Proof.
  intros Hq Hempty Es Er. split.
  - apply send_all_mq in Es as [Hq1 Hm1]; [|done]. rewrite Hempty in Hm1. simpl in Hm1.
    rewrite <- Hq1 in Hm1, Hq. apply receive_all_mq in Er as (rest & Hgot & Hlen); [|done].
    rewrite Hm1 in Hgot. rewrite <- (app_nil_r jobs) in Hgot.
    by apply app_inj_1 in Hgot as [? _].
  - intros job Hp. unfold ipc_mq_send_job, bind, gets, sysc.
    rewrite (proj2 (Z.ltb_ge _ _) Hq). pose proof (msgsnd_type (msg_queue_id s) _ job (net s) Hp) as G.
    destruct (msgsnd _ _ _ _) as [r w]. simpl in G. rewrite (proj2 (Z.ltb_lt _ _) G). by eexists.
Qed.
End Claims.

(** ** Witnesses: a server with one client *)

Definition status_request : bytes := request_bytes (make_request CMD_STATUS 1234 None).
Definition shutdown_request : bytes := request_bytes (make_request CMD_SHUTDOWN 1234 None).

Definition after {A} (c : M (ipc netsim) A) (s : ipc netsim) : ipc netsim :=
  match c s with Some (_, s') => s' | None => s end.
Definition booted : ipc netsim := after (ipc_server_init IPC_SOCKET_PATH) (ipc_start quiet).
Definition knocking (b : bytes) : ipc netsim := set_net booted (ns_set_backlog (net booted) [b]).
Definition std_fds (q : Z) : bool := is_open q quiet.

Lemma booted_init : ipc_server_init IPC_SOCKET_PATH (ipc_start quiet) = Some (0, booted).
Proof. vm_compute. reflexivity. Qed.

Lemma booted_ok : at_ std_fds 3 false 0 (clients booted) booted.
Proof.
  destruct (init_cases _ _ _ _ booted_init) as [(_ & _ & n & cs & Hs)|[Hr _]]; [|done].
  pose proof Hs as (_ & _ & Hn & Hc & _). rewrite Hc.
  replace 0 with n by (rewrite <- Hn; vm_compute; reflexivity). exact Hs.
Qed.

Lemma knocking_ok b : at_ std_fds 3 false 0 (clients booted) (knocking b).
Proof.
  destruct booted_ok as (? & ? & ? & ? & ? & Ht). unfold at_, at2, knocking. simpl.
  split_and!; try done. eapply table_wf_net; [|exact Ht]. done.
Qed.

Lemma server_invariant_witness :
  server_ok std_fds 3 false (after serve_once (knocking status_request)) /\
  num_clients (after serve_once (knocking status_request)) = 1.
Proof.
  split; [|vm_compute; reflexivity].
  apply (server_invariant std_fds 3 (knocking status_request)).
  - exists 0, (clients booted). apply knocking_ok.
  - apply rtc_once. apply step_turn. vm_compute. reflexivity.
Defined.

Lemma accept_spec_witness :
  exists r s', ipc_accept_client 3 (knocking status_request) = Some (r, s') /\ r = 5 /\
    num_clients s' = 1.
Proof.
  destruct (accept_spec std_fds 3 0 (clients booted) (knocking status_request) 5)
    as (r & s' & E & G).
  - apply knocking_ok.
  - vm_compute. reflexivity.
  - lia.
  - exists r, s'. split; [exact E|].
    assert (find_idx (fun x => negb (is_active x)) (clients booted) = Some 0%nat) as Hi
      by (vm_compute; reflexivity).
    rewrite Hi in G. destruct G as (Hr & Hn & _). split; [exact Hr|exact Hn].
Defined.

Lemma client_server_roundtrip_witness :
  exists resp s',
    ipc_handle_request (bytes_request (request_bytes (make_request CMD_RAID_CREATE 7 (Some "md0")))) booted
      = Some (resp, s') /\
    show_response (bytes_response (response_bytes resp)) = Some (Err "Command failed", -1).
Proof.
  destruct (client_server_roundtrip booted CMD_RAID_CREATE 7 (Some "md0"))
    as (_ & resp & s' & E & _ & _ & Hshow & _).
  - unfold in_u32, CMD_RAID_CREATE. lia.
  - vm_compute. discriminate.
  - exists resp, s'. split; [exact E|exact Hshow].
Defined.

(** The client of descriptor 5, accepted and about to be served. *)
Definition shutting : ipc netsim :=
  set_locked (after (ipc_accept_client 3) (knocking shutdown_request)) true.

Lemma shutting_ok : exists n, at_ std_fds 3 true n (clients shutting) shutting.
Proof.
  destruct (accept_cases _ _ _ _ _ (knocking_ok shutdown_request)) as (r & s' & E & G).
  assert (shutting = set_locked s' true) as -> by (unfold shutting, after; by rewrite E).
  destruct G as [(_ & Hs & _)|(? & ? & ? & _ & _ & _ & _ & _ & Hs)];
    pose proof Hs as (? & ? & ? & Hc & ? & ?); eexists; unfold at_, at2; simpl; by rewrite Hc.
Qed.

Lemma shutdown_request_stops_witness :
  exists s', forM (serve_slot [5]) table shutting = Some (tt, s') /\ running s' = 0.
Proof.
  destruct (forM (serve_slot [5]) table shutting) as [[[] s']|] eqn:E; [|vm_compute in E; discriminate].
  exists s'. split; [reflexivity|].
  destruct shutting_ok as [n Hs].
  destruct (clients shutting !! 0%nat) as [c|] eqn:Hc; [|vm_compute in Hc; discriminate].
  assert (c = mk_client 5 0 0 1001 1) as -> by (vm_compute in Hc; by injection Hc as <-).
  apply (shutdown_request_stops std_fds 3 n (clients shutting) shutting s' 0
    (mk_client 5 0 0 1001 1) 1234 None [5] (seq 1 63) 0).
  - exact Hs.
  - exact Hc.
  - reflexivity.
  - left.
  - vm_compute. reflexivity.
  - exact E.
Defined.

Lemma server_lifecycle_witness :
  exists s', ipc_server_cleanup (after serve_once (knocking status_request)) = Some (tt, s') /\
    forall q, is_open q (net s') = std_fds q.
Proof.
  destruct (ok_serve_once std_fds 3 (knocking status_request)) as (u & s1 & E1 & n & cs & Hs).
  { exists 0, (clients booted). apply knocking_ok. }
  destruct server_lifecycle as [_ Hclean].
  destruct (Hclean std_fds 3 n cs s1 Hs) as (s' & E & _ & _ & _ & Hq).
  exists s'. split; [unfold after; rewrite E1; exact E|exact Hq].
Defined.

Definition two_jobs : list job_message_t :=
  [mk_job CMD_BACKUP_CREATE "/data" 1 10; mk_job CMD_SHUTDOWN "" 9 11].
Definition with_queue : ipc netsim := after ipc_mq_init booted.

Lemma job_queue_fifo_witness :
  receive_all 2 (after (send_all two_jobs) with_queue) =
    Some (Some <$> two_jobs, set_mq booted 0).
Proof.
  destruct (receive_all 2 (after (send_all two_jobs) with_queue)) as [[got s2]|] eqn:E;
    [|vm_compute in E; discriminate].
  assert (exists g, got = Some <$> g) as [g ->].
  { vm_compute in E. injection E as <- _. exists two_jobs. reflexivity. }
  destruct (job_queue_fifo with_queue (after (send_all two_jobs) with_queue) s2 two_jobs g) as [-> _].
  - vm_compute. discriminate.
  - vm_compute. reflexivity.
  - vm_compute. reflexivity.
  - exact E.
  - f_equal. f_equal. vm_compute in E. by injection E as <-.
Defined.
