(* ===== verification/Backup.v ===== *)
(** * src/backup_engine.c

    Backups made by rsync and recorded in an SQLite table: creation (full,
    incremental, differential, from an LVM snapshot), listing, lookup,
    verification, restoration, pruning of old backups, and the scheduler's
    start and stop.  The database, the clock and the programs run through the
    shell are interfaces. *)

From stdpp Require Import base list gmap strings pretty sorting.
From Stdlib Require Import Ascii ZArith Lia.
From S2P Require Import Prelude CString CFormat Sys.

Definition BACKUP_DB_PATH : string := "/var/lib/storage_mgr/backups.db".
Definition BACKUP_BASE_DIR : string := "/backup".

(** [backup_type_t] *)
Definition BACKUP_FULL : Z := 0.
Definition BACKUP_INCREMENTAL : Z := 1.
Definition BACKUP_DIFFERENTIAL : Z := 2.

Record backup_info_t := mk_info {
  backup_id : string;
  timestamp : Z;
  btype : Z;
  source_path : string;
  dest_path : string;
  size_bytes : Z;
  checksum : string;
  success : Z;
  error_msg : string;
  parent_backup_id : string;
}.

(** A row of the table [backups]: the columns the program writes and reads;
    the last text columns may be NULL. *)
Record row := mk_row {
  r_id : string;
  r_timestamp : Z;
  r_type : Z;
  r_source : string;
  r_dest : string;
  r_size : Z;
  r_checksum : option string;
  r_success : Z;
  r_error : option string;
  r_parent : option string;
}.

(** SQLite as the program uses it, the allocator and threads.  [db_select] and [db_find] are [None] when the statement
    cannot be prepared; [rows] is the content of the table. *)
Class Db (W : Type) := {
  sqlite_open : string -> W -> bool * W;
  sqlite_schema : W -> bool * W;
  sqlite_close : W -> W;
  db_insert : row -> W -> W;
  db_select : W -> option (list row);
  db_find : string -> W -> option (option row);
  db_delete : string -> W -> W;
  malloc : Z -> W -> bool * W;
  pthread_create : W -> bool * W;
  pthread_join : W -> W;
  rows : W -> list row;
}.

(** Documented behaviour: the statement that lists the table gives every row
    once, the most recent timestamp first; lookup by [backup_id] finds the
    row that has it; an insertion that would repeat a [backup_id] is refused
    and changes nothing; a deletion removes the rows with that id (both
    statements are taken to succeed otherwise); commands, the clock
    and the allocator do not change the table. *)
Class DbLaws (W : Type) `{Db W} `{Shell W} `{Clock W} := {
  select_rows : forall w l, db_select w = Some l ->
    l ≡ₚ rows w /\ StronglySorted (fun a b => r_timestamp b <= r_timestamp a) l;
  find_row : forall id w r, db_find id w = Some (Some r) -> r ∈ rows w /\ r_id r = id;
  find_none : forall id w, db_find id w = Some None -> id ∉ (r_id <$> rows w);
  insert_new : forall r w, r_id r ∉ (r_id <$> rows w) -> rows (db_insert r w) = rows w ++ [r];
  insert_dup : forall r w, r_id r ∈ (r_id <$> rows w) -> rows (db_insert r w) = rows w;
  delete_rows : forall id w, rows (db_delete id w) = filter (fun r => r_id r <> id) (rows w);
  system_rows : forall c w, rows (system c w).2 = rows w;
  popen_rows : forall c w, rows (popen c w).2 = rows w;
  pclose_rows : forall c b w, rows (pclose c b w).2 = rows w;
  time_rows : forall w, rows (time w).2 = rows w;
  malloc_rows : forall n w, rows (malloc n w).2 = rows w;
}.

(** The pointer [backup_db]: NULL, a handle on an open database, a handle of
    a failed [sqlite3_open] (every statement fails to prepare), or a handle
    that was closed and not reset. *)
Inductive db_ptr := DbNull | DbOpen | DbFailed | DbDangling.

Record engine (W : Type) := mk_engine {
  backup_db : db_ptr;
  scheduler_active : Z;
  scheduler_thread : bool;
  backup_mutex : bool;
  bos : W;
}.
Arguments mk_engine {W}.
Arguments backup_db {W}.
Arguments scheduler_active {W}.
Arguments scheduler_thread {W}.
Arguments backup_mutex {W}.
Arguments bos {W}.

Definition engine_start {W} (w : W) : engine W := mk_engine DbNull 0 false false w.

Section Snapshots.
Context {W : Type} `{Shell W}.

(** [while (fgets(...)) printf(...)] reads everything the command prints. *)
Definition run_shown (cmd : string) : M W (option Z) :=
  let! fp := call (popen cmd) in
  match fp with
  | None => ret None
  | Some _ => let! status := call (pclose cmd true) in ret (Some status)
  end.

Definition mkdir_cmd (size : nat) (path : string) : string :=
  snprintf size ("mkdir -p " +:+ quoted "%s") [CStr path].

Definition backup_get_directory_size (path : string) : M W Z :=
  let cmd := snprintf 512 ("du -sb " +:+ quoted "%s" +:+ " 2>/dev/null | cut -f1") [CStr path] in
  let! fp := call (popen cmd) in
  match fp with
  | None => ret 0
  | Some text =>
      let total := match sscanf "%llu" text with CInt n :: _ => n | _ => 0 end in
      call (pclose cmd false) ;;! ret total
  end.

Definition lvcreate_cmd (vg_name lv_name snapshot_name : string) (size_mb : Z) : string :=
  snprintf 512 "lvcreate -L %lluM -s -n %s /dev/%s/%s 2>&1"
    [CInt size_mb; CStr snapshot_name; CStr vg_name; CStr lv_name].

Definition backup_create_snapshot (vg_name lv_name snapshot_name : string) (size_mb : Z) : M W Z :=
  let! st := run_shown (lvcreate_cmd vg_name lv_name snapshot_name size_mb) in
  ret (match st with None => -1 | Some status => if negb (status =? 0) then -1 else 0 end).

Definition lvremove_cmd (vg_name snapshot_name : string) : string :=
  snprintf 512 "lvremove -f /dev/%s/%s 2>&1" [CStr vg_name; CStr snapshot_name].

Definition backup_remove_snapshot (vg_name snapshot_name : string) : M W Z :=
  let! status := call (system (lvremove_cmd vg_name snapshot_name)) in
  ret (if negb (status =? 0) then -1 else 0).

Definition mount_cmd (vg_name snapshot_name mount_point : string) : string :=
  snprintf 512 ("mount /dev/%s/%s " +:+ quoted "%s" +:+ " 2>&1")
    [CStr vg_name; CStr snapshot_name; CStr mount_point].

Definition backup_mount_snapshot (vg_name snapshot_name mount_point : string) : M W Z :=
  call (system (mkdir_cmd 512 mount_point)) ;;!
  let! status := call (system (mount_cmd vg_name snapshot_name mount_point)) in
  ret (if negb (status =? 0) then -1 else 0).

Definition umount_cmd (mount_point : string) : string :=
  snprintf 512 ("umount " +:+ quoted "%s" +:+ " 2>&1") [CStr mount_point].

Definition backup_unmount_snapshot (mount_point : string) : M W Z :=
  let! status := call (system (umount_cmd mount_point)) in
  ret (if negb (status =? 0) then -1 else 0).
End Snapshots.

Section Backup.
Context {W : Type} `{Shell W} `{Clock W} `{Db W} `{Procs W}.

Definition set_bos (e : engine W) (w : W) : engine W :=
  mk_engine (backup_db e) (scheduler_active e) (scheduler_thread e) (backup_mutex e) w.
Definition set_db (p : db_ptr) : M (engine W) unit :=
  fun e => Some (tt, mk_engine p (scheduler_active e) (scheduler_thread e) (backup_mutex e) (bos e)).

(** A computation on the system, run by the engine. *)
Definition os_ {A} (c : M W A) : M (engine W) A :=
  fun e => match c (bos e) with Some (a, w) => Some (a, set_bos e w) | None => None end.
Definition osv (f : W -> W) : M (engine W) unit := os_ (fun w => Some (tt, f w)).

(** The value of [backup_db]; a closed handle cannot be used. *)
Definition get_db : M (engine W) db_ptr :=
  fun e => match backup_db e with DbDangling => None | p => Some (p, e) end.

(** ** Start and end *)

Definition backup_stop_scheduler : M (engine W) Z :=
  fun e =>
    if backup_mutex e then None
    else if scheduler_active e =? 0 then Some (0, e)
    else Some (0, mk_engine (backup_db e) 0 false false
                    (if scheduler_thread e then pthread_join (bos e) else bos e)).

Definition backup_start_scheduler : M (engine W) Z :=
  fun e =>
    if backup_mutex e then None
    else if negb (scheduler_active e =? 0) then Some (-1, e)
    else let '(ok, w) := pthread_create (bos e) in
         if ok then Some (0, mk_engine (backup_db e) 1 true false w)
         else Some (-1, mk_engine (backup_db e) 0 (scheduler_thread e) false w).

(** One turn of [backup_scheduler_thread]: it waits and does nothing else. *)
Definition backup_scheduler_turn : M (engine W) bool :=
  fun e => if scheduler_active e =? 0 then Some (false, e)
           else Some (true, set_bos e (sleep 60 (bos e))).

Definition backup_init (db_path : option string) : M (engine W) Z :=
  os_ (call (system "mkdir -p /var/lib/storage_mgr")) ;;!
  os_ (call (system ("mkdir -p " +:+ BACKUP_BASE_DIR))) ;;!
  let path := match db_path with Some p => p | None => BACKUP_DB_PATH end in
  let! ok := os_ (call (sqlite_open path)) in
  if negb ok then set_db DbFailed ;;! ret (-1)
  else
    set_db DbOpen ;;!
    let! ok2 := os_ (call sqlite_schema) in
    if negb ok2 then osv sqlite_close ;;! set_db DbDangling ;;! ret (-1) else ret 0.

Definition backup_cleanup : M (engine W) unit :=
  (fun e => (if negb (scheduler_active e =? 0) then backup_stop_scheduler ;;! ret tt else ret tt) e) ;;!
  let! db := get_db in
  match db with DbNull => ret tt | _ => osv sqlite_close ;;! set_db DbNull end.

(** ** Identifiers *)

Definition backup_generate_id : M W string :=
  let! now := call time in
  let! t := reads (localtime now) in
  ret (snprintf 64 "backup-%04d%02d%02d-%02d%02d%02d"
         [CInt (tm_year t + 1900); CInt (tm_mon t + 1); CInt (tm_mday t);
          CInt (tm_hour t); CInt (tm_min t); CInt (tm_sec t)]).

(** ** Reading the table *)

(** An element of the array [backup_list] allocates.  The memory is not
    cleared: a NULL column, or a text that fills all the bytes [strncpy] may
    write, leaves no terminated string there ([None]). *)
Record listed := mk_listed {
  l_id : option string;
  l_timestamp : Z;
  l_type : Z;
  l_source : option string;
  l_dest : option string;
  l_size : Z;
  l_checksum : option string;
  l_success : Z;
  l_error : option string;
  l_parent : option string;
}.

Definition listed_of (r : row) : listed :=
  mk_listed (copied 64 (r_id r)) (r_timestamp r) (r_type r) (copied 256 (r_source r))
    (copied 256 (r_dest r)) (u64 (r_size r)) (r_checksum r ≫= copied 65) (r_success r)
    (r_error r ≫= copied 256) (r_parent r ≫= copied 64).

(** The code and the array. *)
Definition backup_list : M (engine W) (Z * list listed) :=
  let! db := get_db in
  match db with
  | DbOpen =>
      let! sel := os_ (reads db_select) in
      match sel with
      | None => ret (-1, [])
      | Some [] => ret (0, [])
      | Some l =>
          let! ok := os_ (call (malloc (Z.of_nat (length l) * 992))) in
          if negb ok then ret (- ENOMEM, []) else ret (0, listed_of <$> l)
      end
  | _ => ret (-1, [])
  end.

(** Using a field of the array as a string. *)
Definition use (f : option string) : M (engine W) string :=
  match f with Some s => ret s | None => ub end.

(** [memset], then [strncpy] of each text. *)
Definition info_of (id : string) (r : row) : backup_info_t :=
  mk_info (str_take 63 id) (r_timestamp r) (r_type r) (str_take 255 (r_source r))
    (str_take 255 (r_dest r)) (u64 (r_size r)) (str_take 64 (default "" (r_checksum r)))
    (r_success r) (str_take 255 (default "" (r_error r))) "".

Definition backup_get_info (id : string) : M (engine W) (option backup_info_t) :=
  let! db := get_db in
  match db with
  | DbOpen =>
      let! res := os_ (reads (db_find id)) in
      ret (match res with Some (Some r) => Some (info_of id r) | _ => None end)
  | _ => ret None
  end.

(** ** Creating *)

Definition rsync_cmd (source dest : string) : string :=
  snprintf 2048 ("rsync -av --stats " +:+ quoted "%s/" +:+ " " +:+ quoted "%s/" +:+ " 2>&1")
    [CStr source; CStr dest].
Definition rsync_link_cmd (link source dest : string) : string :=
  snprintf 2048 ("rsync -av --stats --link-dest=" +:+ quoted "%s" +:+ " " +:+ quoted "%s/" +:+ " "
      +:+ quoted "%s/" +:+ " 2>&1")
    [CStr link; CStr source; CStr dest].

(** The command that is left in [cmd], and the parent that was recorded.  No
    branch sets [cmd] for a differential backup. *)
Definition choose_command (source dest_path : string) (type : Z) : M (engine W) (string * string) :=
  if type =? BACKUP_FULL then ret (rsync_cmd source dest_path, "")
  else if type =? BACKUP_INCREMENTAL then
    let! res := backup_list in
    match res with
    | (0, first :: _) =>
        let! id := use (l_id first) in
        let! prev := use (l_dest first) in
        ret (rsync_link_cmd prev source dest_path, str_take 63 id)
    | _ => ret (rsync_cmd source dest_path, "")
    end
  else ret (mkdir_cmd 2048 dest_path, "").

Definition row_of (i : backup_info_t) : row :=
  mk_row (backup_id i) (timestamp i) (btype i) (source_path i) (dest_path i) (i64 (size_bytes i))
    (Some (checksum i)) (success i) (Some (error_msg i)) (Some (parent_backup_id i)).

(** [save_info:] and the end of [backup_create]. *)
Definition save_info (i : backup_info_t) : M (engine W) Z :=
  let! db := get_db in
  (match db with DbOpen => osv (db_insert (row_of i)) | _ => ret tt end) ;;!
  ret (if success i =? 0 then -1 else 0).

Definition backup_create (source dest : string) (type : Z) : M (engine W) Z :=
  let! now := os_ (call time) in
  let! id := os_ backup_generate_id in
  let dpath := snprintf 512 "%s/%s" [CStr dest; CStr id] in
  os_ (call (system (mkdir_cmd 2048 dpath))) ;;!
  let! cp := choose_command source dpath type in
  let '(cmd, parent) := cp in
  let info size ok err :=
    mk_info id now type (str_take 255 source) (str_take 255 dpath) size "" ok err parent in
  let! st := os_ (run_shown cmd) in
  match st with
  | None => save_info (info 0 0 (snprintf 256 "Failed to execute rsync" []))
  | Some status =>
      let! size := os_ (backup_get_directory_size dpath) in
      if status =? 0 then save_info (info size 1 "")
      else save_info (info size 0 (snprintf 256 "rsync failed with exit code %d" [CInt status]))
  end.

Definition rmdir_cmd (mount_point : string) : string :=
  snprintf 256 ("rmdir " +:+ quoted "%s") [CStr mount_point].

(** The argument [source] is not used: the root of the snapshot is. *)
Definition backup_create_with_snapshot (vg_name lv_name source dest : string) (type : Z) : M (engine W) Z :=
  let! t1 := os_ (call time) in
  let! t2 := os_ (call time) in
  let snapshot_name := snprintf 128 "%s_snap_%ld" [CStr lv_name; CInt t1] in
  let mount_point := snprintf 256 "/mnt/backup_snapshot_%ld" [CInt t2] in
  let! r := os_ (backup_create_snapshot vg_name lv_name snapshot_name 500) in
  if negb (r =? 0) then ret (-1)
  else
    let! m := os_ (backup_mount_snapshot vg_name snapshot_name mount_point) in
    if negb (m =? 0) then os_ (backup_remove_snapshot vg_name snapshot_name) ;;! ret (-1)
    else
      let! result := backup_create mount_point dest type in
      os_ (backup_unmount_snapshot mount_point) ;;!
      os_ (backup_remove_snapshot vg_name snapshot_name) ;;!
      os_ (call (system (rmdir_cmd mount_point))) ;;!
      ret result.

(** ** Using a backup *)

Definition backup_verify (id : string) : M (engine W) Z :=
  let! info := backup_get_info id in
  match info with
  | None => ret (-1)
  | Some i =>
      let! st := os_ (reads (stat (dest_path i))) in
      match st with
      | None => ret (-1)
      | Some _ =>
          let! current_size := os_ (backup_get_directory_size (dest_path i)) in
          if current_size =? 0 then ret (-1) else ret 0
      end
  end.

Definition backup_restore (id dest : string) : M (engine W) Z :=
  let! info := backup_get_info id in
  match info with
  | None => ret (-1)
  | Some i =>
      os_ (call (system (mkdir_cmd 2048 dest))) ;;!
      let! st := os_ (run_shown (rsync_cmd (dest_path i) dest)) in
      ret (match st with None => -1 | Some status => if negb (status =? 0) then -1 else 0 end)
  end.

Definition rm_cmd (path : string) : string := snprintf 512 ("rm -rf " +:+ quoted "%s") [CStr path].

(** The body of the loop of [backup_cleanup_old], for one element. *)
Definition remove_listed (b : listed) : M (engine W) unit :=
  let! id := use (l_id b) in
  let! path := use (l_dest b) in
  os_ (call (system (rm_cmd path))) ;;!
  let! db := get_db in
  match db with DbOpen => osv (db_delete id) | _ => ret tt end.

(** A negative [keep_count] starts the loop before the array. *)
Definition backup_cleanup_old (keep_count : Z) : M (engine W) Z :=
  let! res := backup_list in
  let '(r, l) := res in
  if negb (r =? 0) then ret (-1)
  else if Z.of_nat (length l) <=? keep_count then ret 0
  else if keep_count <? 0 then ub
  else forM remove_listed (drop (Z.to_nat keep_count) l) ;;! ret 0.
End Backup.
