(* ===== verification/BackupProps.v ===== *)
(** * Properties of src/backup_engine.c

    What a backup records and which commands it runs, lookup and restoration
    of what was recorded, pruning, and the commands around a snapshot. *)

From stdpp Require Import base list gmap strings pretty sorting.
From Stdlib Require Import Ascii ZArith Lia.
From S2P Require Import Prelude CString CFormat Sys SimOS Backup.

#[local] Opaque snprintf sprintf rsync_cmd rsync_link_cmd mkdir_cmd.

(** Calls that give nothing to the shell. *)
Class BackupTrace (W : Type) `{Shell W} `{Clock W} `{Db W} `{!ShellTrace W} := {
  time_trace : forall w, trace (time w).2 = trace w;
  malloc_trace : forall n w, trace (malloc n w).2 = trace w;
  insert_trace : forall r w, trace (db_insert r w) = trace w;
  delete_trace : forall id w, trace (db_delete id w) = trace w;
}.

Section Lemmas.
Context {W : Type} `{Shell W} `{Clock W} `{Db W} `{!DbLaws W} `{!ShellTrace W} `{!BackupTrace W}.
Implicit Types e : engine W.

Lemma os_Some {A} (c : M W A) e a e' :
  os_ c e = Some (a, e') <-> exists w, c (bos e) = Some (a, w) /\ e' = set_bos e w.
Proof.
  unfold os_. destruct (c (bos e)) as [[x w]|]; split.
  - intros [= -> <-]. by exists w.
  - by intros (? & [= -> ->] & ->).
  - done.
  - by intros (? & ? & _).
Qed.

(** [c] leaves the table alone and gives the commands [l] to the shell. *)
Definition runs {A} (c : M W A) (l : A -> list string) : Prop :=
  forall w a w', c w = Some (a, w') -> rows w' = rows w /\ trace w' = trace w ++ l a.

Lemma runs_ret {A} (a : A) : runs (ret a) (fun _ => []).
Proof. intros w b w' [= _ <-]. by rewrite app_nil_r. Qed.

Lemma runs_reads {A} (f : W -> A) : runs (reads f) (fun _ => []).
Proof. intros w b w' [= _ <-]. by rewrite app_nil_r. Qed.

Lemma runs_bind {A B} (c : M W A) (k : A -> M W B) l1 l2 :
  runs c (fun _ => l1) -> (forall a, runs (k a) (fun _ => l2)) -> runs (bind c k) (fun _ => l1 ++ l2).
Proof.
  intros Hc Hk w b w' (a & w1 & E1 & E2)%bind_Some. destruct (Hc _ _ _ E1) as [R1 T1].
  destruct (Hk _ _ _ _ E2) as [R2 T2]. split; [congruence|]. by rewrite T2, T1, app_assoc.
Qed.

Lemma runs_system c : runs (call (system c)) (fun _ => [c]).
Proof.
  intros w a w' [= E]. pose proof (system_rows c w) as R. pose proof (system_trace c w) as T.
  rewrite E in R, T. done.
Qed.

Lemma runs_time : runs (call time) (fun _ => []).
Proof.
  intros w a w' [= E]. pose proof (time_rows w) as R. pose proof (time_trace w) as T.
  rewrite E in R, T. by rewrite app_nil_r.
Qed.

Lemma runs_popen c (k : option string -> M W (option Z)) :
  (forall fp, runs (k fp) (fun _ => [])) -> runs (bind (call (popen c)) k) (fun _ => [c]).
Proof.
  intros Hk w a w' (fp & w1 & [= E] & E2)%bind_Some.
  pose proof (popen_rows c w) as R. pose proof (popen_trace c w) as T. rewrite E in R, T. simpl in *.
  destruct (Hk fp _ _ _ E2) as [R2 T2]. rewrite app_nil_r in T2. split; congruence.
Qed.

Lemma runs_pclose c b : runs (call (pclose c b)) (fun _ => []).
Proof.
  intros w a w' [= E]. pose proof (pclose_rows c b w) as R. pose proof (pclose_trace c b w) as T.
  rewrite E in R, T. by rewrite app_nil_r.
Qed.

Lemma runs_shown c : runs (run_shown c) (fun _ => [c]).
Proof.
  apply runs_popen. intros [t|]; [|apply runs_ret].
  apply (runs_bind _ _ [] []); [apply runs_pclose|intros; apply runs_ret].
Qed.

Definition du_cmd (path : string) : string :=
  snprintf 512 ("du -sb " +:+ quoted "%s" +:+ " 2>/dev/null | cut -f1") [CStr path].

Lemma runs_size p : runs (backup_get_directory_size p) (fun _ => [du_cmd p]).
Proof.
  unfold backup_get_directory_size. fold (du_cmd p). intros w a w' (fp & w1 & [= E] & E2)%bind_Some.
  pose proof (popen_rows (du_cmd p) w) as R. pose proof (popen_trace (du_cmd p) w) as T.
  rewrite E in R, T. simpl in *. destruct fp as [t|]; [|by injection E2 as _ <-].
  apply (runs_bind _ _ [] []) in E2 as [R2 T2]; [|apply runs_pclose|intros; apply runs_ret].
  rewrite app_nil_r in T2. split; congruence.
Qed.

Lemma runs_id : runs backup_generate_id (fun _ => []).
Proof.
  apply (runs_bind _ _ [] []); [apply runs_time|]. intros now.
  apply (runs_bind _ _ [] []); [apply runs_reads|]. intros t. apply runs_ret.
Qed.

(** A system computation run by the engine. *)
Lemma os_runs {A} (c : M W A) l e a e' :
  runs c l -> os_ c e = Some (a, e') ->
  rows (bos e') = rows (bos e) /\ trace (bos e') = trace (bos e) ++ l a /\ backup_db e' = backup_db e.
Proof. intros Hc (w & E & ->)%os_Some. destruct (Hc _ _ _ E). done. Qed.

(** Listing allocates and nothing else. *)
Lemma list_cases e r l e' :
  backup_db e = DbOpen -> backup_list e = Some ((r, l), e') ->
  rows (bos e') = rows (bos e) /\ trace (bos e') = trace (bos e) /\ backup_db e' = DbOpen /\
  (r = 0 -> exists sel, db_select (bos e) = Some sel /\ l = listed_of <$> sel).
Proof.
  intros Hdb. unfold backup_list, bind at 1, get_db. rewrite Hdb.
  intros (sel & e1 & (w1 & [= <- <-] & ->)%os_Some & E)%bind_Some.
  destruct (db_select (bos e)) as [[|x sel]|] eqn:Es.
  - injection E as <- <- <-. split_and!; try done. intros _. by exists [].
  - apply bind_Some in E as (ok & e2 & (w2 & [= E2] & ->)%os_Some & E).
    change (malloc (Z.of_nat (length (x :: sel)) * 992) (bos e) = (ok, w2)) in E2.
    pose proof (malloc_rows (Z.of_nat (length (x :: sel)) * 992) (bos e)) as R.
    pose proof (malloc_trace (Z.of_nat (length (x :: sel)) * 992) (bos e)) as T.
    rewrite E2 in R, T. simpl in R, T.
    destruct ok; injection E as <- <- <-; split_and!; try done. intros _. by exists (x :: sel).
  - injection E as <- <- <-. by split_and!.
Qed.

Lemma choose_cases src dpath type e cmd parent e' :
  backup_db e = DbOpen -> choose_command src dpath type e = Some ((cmd, parent), e') ->
  rows (bos e') = rows (bos e) /\ trace (bos e') = trace (bos e) /\ backup_db e' = DbOpen /\
  (type = BACKUP_FULL -> cmd = rsync_cmd src dpath) /\
  (type <> BACKUP_FULL -> type <> BACKUP_INCREMENTAL -> cmd = mkdir_cmd 2048 dpath).
Proof.
  intros Hdb. unfold choose_command.
  destruct (Z.eqb_spec type BACKUP_FULL) as [Ht|Hf];
    [intros [= <- <- <-]; split_and!; [done..|intros Hn; by destruct (Hn Ht)]|].
  destruct (Z.eqb_spec type BACKUP_INCREMENTAL) as [Ht|Hi];
    [|intros [= <- <- <-]; split_and!; [done..|intros Hn; by destruct (Hf Hn)|done]].
  intros ([r l] & e1 & E1 & E)%bind_Some. apply list_cases in E1 as (R & T & D & _); [|done].
  assert (rows (bos e') = rows (bos e1) /\ trace (bos e') = trace (bos e1) /\ backup_db e' = backup_db e1)
    as (R' & T' & D').
  { destruct r as [|p|p], l as [|x l]; try by injection E as _ _ <-.
    apply bind_Some in E as (id & e2 & E2 & E). apply bind_Some in E as (prev & e3 & E3 & E).
    unfold use in E2, E3. destruct (l_id x), (l_dest x); try done.
    injection E2 as _ <-. injection E3 as _ <-. by injection E as _ _ <-. }
  rewrite R', T', D'. split_and!; try assumption; intros; contradiction.
Qed.

Lemma save_cases i e r e' :
  backup_db e = DbOpen -> save_info i e = Some (r, e') ->
  r = (if success i =? 0 then -1 else 0) /\ bos e' = db_insert (row_of i) (bos e) /\ backup_db e' = DbOpen.
Proof. intros Hdb. unfold save_info, bind, get_db. rewrite Hdb. intros [= <- <-]. done. Qed.

(** Everything [backup_create] does when the database is open. *)
Lemma create_inv src dest type e r e' :
  backup_db e = DbOpen -> backup_create src dest type e = Some (r, e') ->
  exists id dpath cmd parent rw w tail e1 e2,
    dpath = snprintf 512 "%s/%s" [CStr dest; CStr id] /\
    choose_command src dpath type e1 = Some ((cmd, parent), e2) /\ backup_db e1 = DbOpen /\
    (tail = [] \/ tail = [du_cmd dpath]) /\
    trace (bos e') = trace (bos e) ++ mkdir_cmd 2048 dpath :: cmd :: tail /\
    r_id rw = id /\ r_type rw = type /\ r_source rw = str_take 255 src /\
    r_dest rw = str_take 255 dpath /\
    ((r = 0 /\ r_success rw = 1) \/ (r = -1 /\ r_success rw = 0)) /\
    rows w = rows (bos e) /\ bos e' = db_insert rw w /\ backup_db e' = DbOpen.
Proof.
  intros Hdb. unfold backup_create. intros (now & e1 & E1 & E)%bind_Some.
  apply (os_runs _ _ _ _ _ runs_time) in E1 as (R1 & T1 & D1). apply bind_Some in E as (id & e2 & E2 & E).
  apply (os_runs _ _ _ _ _ runs_id) in E2 as (R2 & T2 & D2).
  set (dpath := snprintf 512 _ _) in E. cbv zeta in E. apply bind_Some in E as (st & e3 & E3 & E).
  apply (os_runs _ _ _ _ _ (runs_system _)) in E3 as (R3 & T3 & D3).
  apply bind_Some in E as ([cmd parent] & e4 & E4 & E).
  assert (backup_db e3 = DbOpen) as Hdb3 by congruence.
  pose proof (choose_cases _ _ _ _ _ _ _ Hdb3 E4) as (R4 & T4 & D4 & _).
  apply bind_Some in E as (res & e5 & E5 & E).
  apply (os_runs _ _ _ _ _ (runs_shown _)) in E5 as (R5 & T5 & D5). simpl in *.
  assert (trace (bos e5) = trace (bos e) ++ [mkdir_cmd 2048 dpath; cmd]) as Htr.
  { rewrite T5, T4, T3, T2, T1, !app_nil_r, <- app_assoc. done. }
  exists id, dpath, cmd, parent. destruct res as [status|].
  - apply bind_Some in E as (size & e6 & E6 & E).
    apply (os_runs _ _ _ _ _ (runs_size _)) in E6 as (R6 & T6 & D6).
    assert (backup_db e6 = DbOpen) as Hdb6 by congruence.
    destruct (status =? 0); apply (save_cases _ _ _ _ Hdb6) in E as (-> & HB & HD);
      eexists _, (bos e6), [du_cmd dpath], e3, e4; rewrite HB, insert_trace, T6, Htr, <- app_assoc;
      split_and!; try done; try tauto; congruence.
  - assert (backup_db e5 = DbOpen) as Hdb5 by congruence.
    apply (save_cases _ _ _ _ Hdb5) in E as (-> & HB & HD).
    eexists _, (bos e5), [], e3, e4. rewrite HB, insert_trace, Htr.
    split_and!; try done; try tauto; congruence.
Qed.

(** ** What the code computes, as a function of the state *)

(** A command whose output is shown: the status it ended with, nothing when it
    could not be started, and the state it left. *)
Definition shown (cmd : string) (w : W) : option Z * W :=
  match popen cmd w with
  | (None, w1) => (None, w1)
  | (Some _, w1) => let '(status, w2) := pclose cmd true w1 in (Some status, w2)
  end.

Lemma run_shown_eq cmd w : run_shown cmd w = Some (shown cmd w).
Proof.
  unfold run_shown, shown, bind, call. destruct (popen cmd w) as [[text|] w1]; [|done].
  by destruct (pclose cmd true w1).
Qed.

(** The command of each type of backup, the parent that is recorded and the
    state after the choice.  An incremental backup links to the first row of
    the listing, when there is one and the memory for the list. *)
Definition chosen (src dpath : string) (type : Z) (w : W) : string * string * W :=
  if type =? BACKUP_FULL then (rsync_cmd src dpath, "", w)
  else if type =? BACKUP_INCREMENTAL then
    match db_select w with
    | Some (x :: l) =>
        let '(ok, w') := malloc (Z.of_nat (length (x :: l)) * 992) w in
        if ok then (rsync_link_cmd (r_dest x) src dpath, str_take 63 (r_id x), w') else (rsync_cmd src dpath, "", w')
    | _ => (rsync_cmd src dpath, "", w)
    end
  else (mkdir_cmd 2048 dpath, "", w).

(** Every path and id short enough to be listed as a string. *)
Definition listable (r : row) : Prop :=
  (String.length (r_id r) < 63)%nat /\ (String.length (r_dest r) < 255)%nat.

Lemma choose_eq src dpath type e :
  backup_db e = DbOpen -> (type = BACKUP_INCREMENTAL -> Forall listable (rows (bos e))) ->
  choose_command src dpath type e = Some ((chosen src dpath type (bos e)).1, set_bos e (chosen src dpath type (bos e)).2).
Proof.
  intros Hdb Hl. unfold choose_command, chosen. destruct (type =? BACKUP_FULL); [by destruct e|].
  destruct (Z.eqb_spec type BACKUP_INCREMENTAL) as [Ht|]; [|by destruct e]. specialize (Hl Ht).
  unfold backup_list, bind, get_db. rewrite Hdb. unfold os_, reads, call.
  destruct (db_select (bos e)) as [[|x l]|] eqn:Es; [by destruct e| |by destruct e].
  apply select_rows in Es as [Hp _]. rewrite <- Hp in Hl. apply Forall_cons in Hl as [[Hid Hde] _].
  change (bos (set_bos e (bos e))) with (bos e). destruct (malloc _ (bos e)) as [[] w']; [|by destruct e].
  cbn [negb]. unfold ret at 1. rewrite fmap_cons. unfold use, listed_of at 1 2, copied. cbn [l_id l_dest].
  destruct (Nat.ltb_spec (String.length (r_id x)) (64 - 1)); [|lia].
  destruct (Nat.ltb_spec (String.length (r_dest x)) (256 - 1)); [|lia]. by destruct e.
Qed.


Lemma shown_keeps cmd (w : W) : rows (shown cmd w).2 = rows w /\ trace (shown cmd w).2 = trace w ++ [cmd].
Proof.
  pose proof (run_shown_eq cmd w) as E. destruct (shown cmd w) as [st w1]. by apply runs_shown in E.
Qed.

Lemma size_defined p (w : W) : exists n w', backup_get_directory_size p w = Some (n, w').
Proof.
  unfold backup_get_directory_size, bind, call, ret. destruct (popen _ w) as [[t|] w1]; [|eauto].
  destruct (pclose _ false w1). eauto.
Qed.

(** ** Pruning *)

Lemma remove_cases (x : row) e u e' :
  backup_db e = DbOpen -> remove_listed (listed_of x) e = Some (u, e') ->
  backup_db e' = DbOpen /\ rows (bos e') = filter (fun r => r_id r <> r_id x) (rows (bos e)) /\
  trace (bos e') = trace (bos e) ++ [rm_cmd (r_dest x)].
Proof.
  intros Hdb. unfold remove_listed. intros (id & e1 & E1 & E)%bind_Some.
  apply bind_Some in E as (path & e2 & E2 & E).
  unfold use, listed_of, copied in E1, E2. cbn [l_id l_dest] in E1, E2.
  destruct (String.length (r_id x) <? _)%nat; [|done]. injection E1 as <- <-.
  destruct (String.length (r_dest x) <? _)%nat; [|done]. injection E2 as <- <-.
  apply bind_Some in E as (st & e3 & E3 & E).
  apply (os_runs _ _ _ _ _ (runs_system _)) in E3 as (R3 & T3 & D3).
  unfold bind, get_db in E. rewrite D3, Hdb in E. injection E as _ <-. simpl.
  split_and!; [congruence|by rewrite delete_rows, R3|by rewrite delete_trace].
Qed.

Lemma remove_all_cases (sel : list row) : forall e u e',
  backup_db e = DbOpen -> forM remove_listed (listed_of <$> sel) e = Some (u, e') ->
  rows (bos e') = filter (fun r => r_id r ∉ (r_id <$> sel)) (rows (bos e)) /\
  trace (bos e') = trace (bos e) ++ ((fun r => rm_cmd (r_dest r)) <$> sel).
Proof.
  unfold forM. generalize tt at 1 as acc. induction sel as [|x sel IH]; intros acc e u e' Hdb; simpl.
  { intros [= _ <-]. rewrite app_nil_r. split; [|done]. symmetry. apply filter_all.
    apply Forall_forall. intros r _. apply not_elem_of_nil. }
  intros (v & e1 & E1 & E)%bind_Some. apply remove_cases in E1 as (D1 & R1 & T1); [|done].
  apply IH in E as [R T]; [|done]. rewrite R, T, R1, T1, <- app_assoc. split; [|done].
  rewrite list_filter_filter. apply list_filter_iff. intros r. rewrite elem_of_cons. tauto.
Qed.

Lemma remove_defined (sel : list row) : forall e,
  backup_db e = DbOpen -> Forall listable sel ->
  exists e', forM remove_listed (listed_of <$> sel) e = Some (tt, e').
Proof.
  unfold forM. induction sel as [|x sel IH]; intros e Hdb Hl; simpl; [by eexists|].
  apply Forall_cons in Hl as [[Hid Hdest] Hl].
  assert (exists e1, remove_listed (listed_of x) e = Some (tt, e1)) as [e1 E1].
  { unfold remove_listed, listed_of, copied, bind, use. cbn [l_id l_dest].
    destruct (Nat.ltb_spec (String.length (r_id x)) (64 - 1)); [|lia].
    destruct (Nat.ltb_spec (String.length (r_dest x)) (256 - 1)); [|lia]. unfold ret at 1 2.
    unfold os_, call. destruct (system _ (bos e)) as [st w]. unfold get_db. simpl. rewrite Hdb.
    by eexists. }
  apply remove_cases in E1 as G; [|done]. destruct G as (D1 & _ & _).
  unfold bind. rewrite E1. by apply IH.
Qed.

(** Keeping the rows whose id is not among those of the rest. *)
Lemma filter_kept (sel : list row) k :
  NoDup (r_id <$> sel) ->
  filter (fun r => r_id r ∉ (r_id <$> drop k sel)) sel = take k sel.
Proof.
  revert k. induction sel as [|x sel IH]; intros k Hnd; [by destruct k|].
  destruct k as [|k].
  { rewrite drop_0, take_0. apply filter_none. intros r Hr Hn. apply Hn. by apply list_elem_of_fmap_2. }
  apply NoDup_cons in Hnd as [Hx Hnd]. simpl.
  rewrite filter_cons_True; [by rewrite IH|]. intros (r & Hr & Hin)%list_elem_of_fmap.
  apply Hx. rewrite Hr. apply list_elem_of_fmap_2. eapply elem_of_dropped. exact Hin.
Qed.

Lemma sorted_split (R : row -> row -> Prop) l k a b :
  StronglySorted R l -> a ∈ take k l -> b ∈ drop k l -> R a b.
Proof.
  intros Hs. revert k. induction Hs as [|x l Hs IH Hx]; intros [|k] Ha Hb; simpl in *;
    try by apply elem_of_nil in Ha. apply elem_of_cons in Ha as [->|Ha]; [|by eapply IH].
  rewrite Forall_forall in Hx. apply Hx. by eapply elem_of_dropped.
Qed.

Lemma list_defined e : backup_db e = DbOpen -> exists r l e', backup_list e = Some ((r, l), e').
Proof.
  intros Hdb. unfold backup_list, bind, get_db. rewrite Hdb. unfold os_, reads, call. simpl.
  destruct (db_select (bos e)) as [[|x sel]|]; [by eexists _, _, _| |by eexists _, _, _].
  destruct (malloc _ _) as [[] w]; by eexists _, _, _.
Qed.

(** Looking up the id of the row that was just added. *)
Lemma find_new id (rw : row) (old : list row) (w : W) :
  rows w = old ++ [rw] -> r_id rw = id -> is_Some (db_find id w) -> id ∉ (r_id <$> old) ->
  db_find id w = Some (Some rw).
Proof.
  intros Hrows Hid [res Hf] Hnew. destruct res as [r|].
  - destruct (find_row _ _ _ Hf) as [Hin Hr]. rewrite Hrows in Hin.
    apply elem_of_app in Hin as [Hin|Hin%list_elem_of_singleton]; [|by subst r].
    exfalso. apply Hnew. apply list_elem_of_fmap. by exists r.
  - apply find_none in Hf. exfalso. apply Hf. rewrite Hrows, fmap_app, <- Hid. set_solver.
Qed.

Lemma runs_one (c : string) (k : Z -> Z) :
  runs (let! s := call (system c) in ret (k s)) (fun _ => [c]).
Proof. apply (runs_bind _ _ [c] []); [apply runs_system|intros; apply runs_ret]. Qed.

Lemma runs_create_snapshot vg lv snap n :
  runs (backup_create_snapshot vg lv snap n) (fun _ => [lvcreate_cmd vg lv snap n]).
Proof.
  apply (runs_bind _ _ [lvcreate_cmd vg lv snap n] []); [apply runs_shown|intros; apply runs_ret].
Qed.

Lemma runs_mount vg snap mnt :
  runs (backup_mount_snapshot vg snap mnt) (fun _ => [mkdir_cmd 512 mnt; mount_cmd vg snap mnt]).
Proof.
  apply (runs_bind _ _ [mkdir_cmd 512 mnt] [mount_cmd vg snap mnt]); [apply runs_system|].
  intros _. apply runs_one.
Qed.

Lemma runs_remove vg snap : runs (backup_remove_snapshot vg snap) (fun _ => [lvremove_cmd vg snap]).
Proof. apply runs_one. Qed.
Lemma runs_unmount mnt : runs (backup_unmount_snapshot mnt) (fun _ => [umount_cmd mnt]).
Proof. apply runs_one. Qed.
End Lemmas.

(** ** Claims *)

Section Claims.
Context {W : Type} `{Shell W} `{Clock W} `{Db W} `{!DbLaws W} `{!ShellTrace W} `{!BackupTrace W}.
Implicit Types e : engine W.

(** What [backup_create] records of a command that ended so: its result, the
    success mark and the error text. *)
Definition create_result (st : option Z) : Z := if bool_decide (st = Some 0) then 0 else -1.
Definition recorded_success (st : option Z) : Z := if bool_decide (st = Some 0) then 1 else 0.
Definition recorded_error (st : option Z) : string :=
  match st with
  | None => "Failed to execute rsync"
  | Some 0 => ""
  | Some status => snprintf 256 "rsync failed with exit code %d" [CInt status]
  end.

(** Everything [backup_create] does, state by state. *)
Lemma create_eq src dest type e now w1 id w2 :
  backup_db e = DbOpen -> (type = BACKUP_INCREMENTAL -> Forall listable (rows (bos e))) ->
  time (bos e) = (now, w1) -> backup_generate_id w1 = Some (id, w2) ->
  let dpath := snprintf 512 "%s/%s" [CStr dest; CStr id] in
  let '(cmd, parent, w4) := chosen src dpath type (system (mkdir_cmd 2048 dpath) w2).2 in
  let '(st, w5) := shown cmd w4 in
  exists size w6,
    match st with None => size = 0 /\ w6 = w5 | Some _ => backup_get_directory_size dpath w5 = Some (size, w6) end /\
    backup_create src dest type e =
      Some (create_result st,
            set_bos e (db_insert (mk_row id now type (str_take 255 src) (str_take 255 dpath) (i64 size) (Some "")
                                    (recorded_success st) (Some (recorded_error st)) (Some parent)) w6)).
Proof.
  intros Hdb Hl Et Ei dpath. destruct (chosen src dpath type _) as [[cmd parent] w4] eqn:Ec.
  destruct (shown cmd w4) as [st w5] eqn:Es.
  assert (rows (system (mkdir_cmd 2048 dpath) w2).2 = rows (bos e)) as R3.
  { rewrite system_rows. destruct (runs_id _ _ _ Ei) as [-> _]. pose proof (time_rows (bos e)) as R.
    by rewrite Et in R. }
  pose proof (choose_eq src dpath type (set_bos e (system (mkdir_cmd 2048 dpath) w2).2) Hdb) as Hc.
  cbn [bos set_bos] in Hc. rewrite R3, Ec in Hc. specialize (Hc Hl). cbn [fst snd] in Hc.
  assert (forall i w, save_info i (set_bos e w) =
    Some (if success i =? 0 then -1 else 0, set_bos e (db_insert (row_of i) w))) as Hsave.
  { intros i w. unfold save_info, bind, get_db. cbn [backup_db set_bos]. rewrite Hdb. done. }
  unfold backup_create. unfold bind at 1. unfold os_ at 1, call at 1. rewrite Et.
  unfold bind at 1. unfold os_ at 1. cbn [bos set_bos]. rewrite Ei. fold dpath. cbv zeta.
  unfold bind at 1. unfold os_ at 1, call at 1. cbn [bos set_bos].
  destruct (system (mkdir_cmd 2048 dpath) w2) as [z w3]. cbn [snd] in *.
  change (set_bos (set_bos (set_bos e w1) w2) w3) with (set_bos e w3).
  rewrite (bind_step Hc). unfold bind at 1. unfold os_ at 1. cbn [bos set_bos]. rewrite run_shown_eq, Es.
  change (set_bos (set_bos (set_bos e w3) w4) w5) with (set_bos e w5).
  destruct st as [status|].
  - destruct (size_defined dpath w5) as (size & w6 & E6). exists size, w6. split; [done|].
    unfold bind, os_. cbn [bos set_bos]. rewrite E6. change (set_bos (set_bos e w5) w6) with (set_bos e w6).
    destruct (Z.eqb_spec status 0) as [->|Hne]; rewrite Hsave.
    + done.
    + unfold create_result, recorded_success. rewrite !bool_decide_eq_false_2 by congruence.
      by destruct status.
  - exists 0, w5. split; [done|]. by rewrite Hsave.
Qed.

Lemma create_runs src dest type e :
  backup_db e = DbOpen -> (type = BACKUP_INCREMENTAL -> Forall listable (rows (bos e))) ->
  exists r e' during, backup_create src dest type e = Some (r, e') /\ trace (bos e') = trace (bos e) ++ during.
Proof.
  intros Hdb Hl. destruct (time (bos e)) as [now w1] eqn:Et.
  assert (exists id w2, backup_generate_id w1 = Some (id, w2)) as (id & w2 & Ei).
  { unfold backup_generate_id, bind, call, reads, ret. destruct (time w1). eauto. }
  pose proof (create_eq src dest type e now w1 id w2 Hdb Hl Et Ei) as G. cbv zeta in G.
  destruct (chosen _ _ _ _) as [[cmd parent] w4]. destruct (shown cmd w4) as [st w5].
  destruct G as (size & w6 & _ & E). destruct (create_inv _ _ _ _ _ _ Hdb E) as
    (id' & dpath & cmd' & parent' & rw & w & tail & e1 & e2 & _ & _ & _ & _ & Htr & _). eauto.
Qed.


(** A differential backup copies nothing: the only commands it runs are
    "mkdir -p" on the new directory, twice, and "du"; it still records a
    backup and returns 0 when the second "mkdir" succeeds. *)
Theorem differential_copies_nothing src dest e r e' :
  backup_db e = DbOpen -> backup_create src dest BACKUP_DIFFERENTIAL e = Some (r, e') ->
  exists dpath tail,
    trace (bos e') = trace (bos e) ++ mkdir_cmd 2048 dpath :: mkdir_cmd 2048 dpath :: tail /\
    (tail = [] \/ tail = [du_cmd dpath]).
Proof.
  intros Hdb E. destruct (create_inv _ _ _ _ _ _ Hdb E) as
    (id & dpath & cmd & parent & rw & w & tail & e1 & e2 & Hd & Ec & D1 & Ht & Htr & _).
  destruct (choose_cases _ _ _ _ _ _ _ D1 Ec) as (_ & _ & _ & _ & Hdiff).
  exists dpath, tail. split; [|done]. rewrite Htr. by rewrite Hdiff.
Qed.

(** C16. Pruning keeps the newest backups: with [keep_count] not negative and
    paths short enough, [backup_cleanup_old] is defined; when it returns 0,
    the table holds exactly the first [keep_count] rows of the listing, none
    of them older than a removed one, and one "rm -rf" was run for the
    directory of each removed row, in order, and nothing else. *)
Theorem cleanup_keeps_newest keep_count e :
  0 <= keep_count -> backup_db e = DbOpen -> NoDup (r_id <$> rows (bos e)) ->
  Forall listable (rows (bos e)) ->
  exists r e', backup_cleanup_old keep_count e = Some (r, e') /\
  (r = 0 -> exists sel,
     db_select (bos e) = Some sel /\ rows (bos e') ≡ₚ take (Z.to_nat keep_count) sel /\
     (forall a b, a ∈ take (Z.to_nat keep_count) sel -> b ∈ drop (Z.to_nat keep_count) sel ->
        r_timestamp b <= r_timestamp a) /\
     trace (bos e') = trace (bos e) ++ ((fun r => rm_cmd (r_dest r)) <$> drop (Z.to_nat keep_count) sel)).
Proof.
  intros Hk Hdb Hnd Hl. destruct (list_defined e Hdb) as (r & l & e1 & E1).
  unfold backup_cleanup_old, bind at 1. rewrite E1.
  destruct (list_cases _ _ _ _ Hdb E1) as (R1 & T1 & D1 & Hsel).
  destruct (Z.eqb_spec r 0) as [->|Hr]; simpl; [|by eexists _, _].
  destruct (Hsel eq_refl) as (sel & Es & ->). destruct (select_rows _ _ Es) as [Hp Hs].
  destruct (Z.leb_spec (Z.of_nat (length (listed_of <$> sel))) keep_count) as [Hle|Hgt].
  - eexists _, _. split; [reflexivity|]. intros _. exists sel. rewrite length_fmap in Hle.
    rewrite take_ge, drop_ge by lia. simpl. rewrite app_nil_r, R1, T1. split_and!; try done.
    intros a b _ Hb. by apply elem_of_nil in Hb.
  - destruct (Z.ltb_spec keep_count 0); [lia|]. rewrite <- fmap_drop.
    destruct (remove_defined (drop (Z.to_nat keep_count) sel) e1 D1) as [e2 E2].
    { apply Forall_drop. by rewrite Hp. }
    unfold bind. rewrite E2. eexists _, _. split; [reflexivity|]. intros _. exists sel.
    apply remove_all_cases in E2 as [R2 T2]; [|done]. split_and!; [done| | |by rewrite T2, T1].
    + rewrite R2, R1, <- Hp, filter_kept; [done|]. by rewrite Hp.
    + intros a b Ha Hb. exact (sorted_split _ _ _ _ _ Hs Ha Hb).
Qed.

(** Two ways for pruning to go wrong: a negative [keep_count] reads
    before the array it listed; and a backup whose directory name has 255
    bytes or more, which [backup_create] records cut to 255, is listed with
    no end of string, so that removing it reads past its field. *)
Theorem cleanup_undefined keep_count e sel w :
  backup_db e = DbOpen -> db_select (bos e) = Some sel -> sel <> [] ->
  malloc (Z.of_nat (length sel) * 992) (bos e) = (true, w) ->
  (keep_count < 0 -> backup_cleanup_old keep_count e = None) /\
  (forall x rest, sel = x :: rest -> (255 <= String.length (r_dest x))%nat ->
     backup_cleanup_old 0 e = None).
Proof.
  intros Hdb Hsel Hne Hm.
  assert (backup_list e = Some ((0, listed_of <$> sel), set_bos e w)) as El.
  { unfold backup_list, bind, get_db. rewrite Hdb. unfold os_, reads, call. rewrite Hsel.
    destruct sel as [|x sel]; [done|]. change (bos (set_bos e (bos e))) with (bos e). by rewrite Hm. }
  unfold backup_cleanup_old, bind at 1. split.
  - intros Hk. rewrite El. change (negb (0 =? 0)) with false.
    destruct (Z.leb_spec (Z.of_nat (length (listed_of <$> sel))) keep_count); [lia|].
    by destruct (Z.ltb_spec keep_count 0); [|lia].
  - intros x rest -> Hlen. unfold bind at 1. rewrite El. simpl. unfold forM, foldM, remove_listed.
    unfold listed_of at 1 2, copied, use. cbn [l_id l_dest]. unfold bind, ub, ret.
    destruct (Nat.ltb_spec (String.length (r_id x)) (64 - 1)); [|done].
    destruct (Nat.ltb_spec (String.length (r_dest x)) (256 - 1)); [lia|done].
Qed.

(** C18. Backup and restore: when a full backup succeeded, added its row and
    its directory name fits, looking its id up gives that directory (and the
    source, type and success flag recorded), and restoring it runs exactly
    "mkdir -p" on the target and rsync from that directory to the target. *)
Theorem create_then_restore src dest target e e1 r2 e2 rw :
  backup_db e = DbOpen ->
  backup_create src dest BACKUP_FULL e = Some (0, e1) ->
  rows (bos e1) = rows (bos e) ++ [rw] ->
  let id := r_id rw in
  let dpath := snprintf 512 "%s/%s" [CStr dest; CStr id] in
  is_Some (db_find id (bos e1)) -> (String.length dpath <= 255)%nat ->
  backup_restore id target e1 = Some (r2, e2) ->
  (exists i, backup_get_info id e1 = Some (Some i, e1) /\ dest_path i = dpath /\
     source_path i = str_take 255 src /\ btype i = BACKUP_FULL /\ success i = 1) /\
  trace (bos e2) = trace (bos e1) ++ [mkdir_cmd 2048 target; rsync_cmd dpath target].
Proof.
  intros Hdb E Hrows id dpath Hfind Hfit Er. destruct (create_inv _ _ _ _ _ _ Hdb E) as
    (id' & dpath' & cmd & parent & rw' & w & tail & ea & eb & Hd & Ec & _ & _ & _ & Hid & Hty & Hs & Hde & Hr & Hw & Hb & D1).
  destruct Hr as [[_ Hok]|[? _]]; [|done].
  destruct (decide (r_id rw' ∈ (r_id <$> rows w))) as [Hin|Hnew].
  { apply (f_equal length) in Hrows. rewrite Hb, insert_dup, Hw, length_app in Hrows by done.
    simpl in Hrows. lia. }
  assert (rw' = rw) as ->.
  { rewrite Hb, insert_new, Hw in Hrows by done. apply app_inj_1 in Hrows as [_ Hx]; [|done].
    by injection Hx. }
  assert (dpath' = dpath) as -> by (unfold dpath, id; by rewrite Hid).
  assert (db_find id (bos e1) = Some (Some rw)) as Hf.
  { apply (find_new id rw (rows (bos e))); try done. by rewrite <- Hw. }
  assert (backup_get_info id e1 = Some (Some (info_of id rw), e1)) as Hget.
  { unfold backup_get_info, bind, get_db. rewrite D1. unfold os_, reads. simpl. rewrite Hf.
    by destruct e1. }
  assert (dest_path (info_of id rw) = dpath) as Hdp.
  { simpl. rewrite Hde, str_take_idemp. by apply str_take_ge. }
  split.
  - exists (info_of id rw). split; [done|]. split; [done|]. simpl.
    rewrite Hs, str_take_idemp. by split_and!.
  - unfold backup_restore, bind at 1 in Er. rewrite Hget, Hdp in Er.
    apply bind_Some in Er as (st & e3 & E3 & Er). apply bind_Some in Er as (st' & e4 & E4 & Er).
    injection Er as _ <-. apply (os_runs _ _ _ _ _ (runs_system _)) in E3 as (_ & T3 & _).
    apply (os_runs _ _ _ _ _ (runs_shown _)) in E4 as (_ & T4 & _).
    rewrite T4, T3, <- app_assoc. done.
Qed.

(** C19. A snapshot never outlives the backup made from it: when lvcreate did not
    end with the status 0 there is none, and -1 is returned after it alone was
    run; when the mount of the snapshot failed, "lvremove" is run next and -1
    returned; when it succeeded, the backup is made from the mount point and,
    whatever it returns, "umount", "lvremove" and "rmdir" are run after it and
    its result is returned. *)
Theorem snapshot_removed vg lv src dest type e t1 w1 t2 w2 :
  backup_db e = DbOpen -> (type = BACKUP_INCREMENTAL -> Forall listable (rows (bos e))) ->
  time (bos e) = (t1, w1) -> time w1 = (t2, w2) ->
  let snap := snprintf 128 "%s_snap_%ld" [CStr lv; CInt t1] in
  let mnt := snprintf 256 "/mnt/backup_snapshot_%ld" [CInt t2] in
  let '(created, w3) := shown (lvcreate_cmd vg lv snap 500) w2 in
  let '(mounted, w5) := system (mount_cmd vg snap mnt) (system (mkdir_cmd 512 mnt) w3).2 in
  exists r e', backup_create_with_snapshot vg lv src dest type e = Some (r, e') /\
  (created <> Some 0 -> r = -1 /\ trace (bos e') = trace (bos e) ++ [lvcreate_cmd vg lv snap 500]) /\
  (created = Some 0 -> mounted <> 0 ->
    r = -1 /\ trace (bos e') = trace (bos e) ++
      [lvcreate_cmd vg lv snap 500; mkdir_cmd 512 mnt; mount_cmd vg snap mnt; lvremove_cmd vg snap]) /\
  (created = Some 0 -> mounted = 0 ->
    exists e1 during, backup_create mnt dest type (set_bos e w5) = Some (r, e1) /\
      trace (bos e1) = trace w5 ++ during /\
      trace (bos e') = trace (bos e) ++
        [lvcreate_cmd vg lv snap 500; mkdir_cmd 512 mnt; mount_cmd vg snap mnt] ++ during ++
        [umount_cmd mnt; lvremove_cmd vg snap; rmdir_cmd mnt]).
Proof.
  intros Hdb Hl Et1 Et2 snap mnt. pose proof (shown_keeps (lvcreate_cmd vg lv snap 500) w2) as [R3 T3].
  destruct (shown _ w2) as [created w3] eqn:Ec. cbn [snd] in R3, T3.
  pose proof (system_rows (mkdir_cmd 512 mnt) w3) as R4. pose proof (system_trace (mkdir_cmd 512 mnt) w3) as T4.
  destruct (system (mkdir_cmd 512 mnt) w3) as [z4 w4] eqn:E4. cbn [snd] in R4, T4 |- *.
  pose proof (system_rows (mount_cmd vg snap mnt) w4) as R5.
  pose proof (system_trace (mount_cmd vg snap mnt) w4) as T5.
  destruct (system (mount_cmd vg snap mnt) w4) as [mounted w5] eqn:E5. cbn [snd] in R5, T5.
  pose proof (time_rows (bos e)) as R1. pose proof (time_trace (bos e)) as T1.
  pose proof (time_rows w1) as R2. pose proof (time_trace w1) as T2.
  rewrite Et1 in R1, T1. rewrite Et2 in R2, T2. cbn [snd] in *.
  unfold backup_create_with_snapshot. unfold bind at 1. unfold os_ at 1, call at 1. rewrite Et1.
  unfold bind at 1. unfold os_ at 1, call at 1. cbn [bos set_bos]. rewrite Et2. fold snap mnt. cbv zeta.
  unfold bind at 1. unfold os_ at 1, backup_create_snapshot, bind at 1. cbn [bos set_bos].
  rewrite run_shown_eq, Ec. unfold ret at 1. change (set_bos (set_bos (set_bos e w1) w2) w3) with (set_bos e w3).
  destruct (decide (created = Some 0)) as [->|Hne].
  2: { exists (-1), (set_bos e w3). split.
       { destruct created as [status|]; [|done]. destruct (Z.eqb_spec status 0) as [->|]; done. }
       split; [|naive_solver]. intros _. split; [done|]. cbn [bos set_bos]. congruence. }
  cbn [negb Z.eqb]. unfold bind at 1. unfold os_ at 1, backup_mount_snapshot, bind at 1, call at 1. cbn [bos set_bos].
  rewrite E4. unfold bind at 1, call at 1. rewrite E5. unfold ret at 1.
  change (set_bos (set_bos e w3) w5) with (set_bos e w5).
  destruct (Z.eqb_spec mounted 0) as [->|Hm]; cbn [negb Z.eqb].
  2: { unfold bind at 1. unfold os_ at 1, backup_remove_snapshot, bind at 1, call at 1. cbn [bos set_bos].
       pose proof (system_trace (lvremove_cmd vg snap) w5) as T6.
       destruct (system (lvremove_cmd vg snap) w5) as [z6 w6]. cbn [snd] in T6. unfold ret.
       exists (-1), (set_bos (set_bos e w5) w6). split; [done|]. split; [done|]. split; [|naive_solver]. intros _ _.
       split; [done|]. cbn [bos set_bos]. rewrite T6, T5, T4, T3, T2, T1, <- !app_assoc. done. }
  assert (type = BACKUP_INCREMENTAL -> Forall listable (rows (bos (set_bos e w5)))) as Hl5.
  { intros Ht. cbn [bos set_bos]. rewrite R5, R4, R3, R2, R1. by apply Hl. }
  destruct (create_runs mnt dest type (set_bos e w5) Hdb Hl5) as (r & e1 & during & E1 & T1').
  rewrite (bind_step E1). unfold bind at 1. unfold os_ at 1, backup_unmount_snapshot, bind at 1, call at 1.
  pose proof (system_trace (umount_cmd mnt) (bos e1)) as T6.
  destruct (system (umount_cmd mnt) (bos e1)) as [z6 w6]. cbn [snd] in T6. unfold ret at 1.
  unfold bind at 1. unfold os_ at 1, backup_remove_snapshot, bind at 1, call at 1. cbn [bos set_bos].
  pose proof (system_trace (lvremove_cmd vg snap) w6) as T7.
  destruct (system (lvremove_cmd vg snap) w6) as [z7 w7]. cbn [snd] in T7. unfold ret at 1.
  unfold bind at 1. unfold os_ at 1, call at 1. cbn [bos set_bos].
  pose proof (system_trace (rmdir_cmd mnt) w7) as T8.
  destruct (system (rmdir_cmd mnt) w7) as [z8 w8]. cbn [snd] in T8. unfold ret.
  eexists r, _. split; [reflexivity|]. split; [done|]. split; [done|]. intros _ _. exists e1, during.
  split; [done|]. split; [done|]. cbn [bos set_bos] in *. rewrite T8, T7, T6, T1', T5, T4, T3, T2, T1, <- !app_assoc.
  done.
Qed.
End Claims.

(** ** A concrete database beside the concrete system *)

Record bsim := mk_bsim { b_sim : sim; b_rows : list row }.

Definition lift {A} (f : sim -> A * sim) (b : bsim) : A * bsim :=
  let '(a, w) := f (b_sim b) in (a, mk_bsim w (b_rows b)).

#[global] Instance bsim_shell : Shell bsim := {
  geteuid b := geteuid (b_sim b);
  stat p b := stat p (b_sim b);
  popen c := lift (popen c);
  pclose c e := lift (pclose c e);
  system c := lift (system c);
  mkdir p := lift (mkdir p);
}.

#[global] Instance bsim_clock : Clock bsim := {
  time := lift time;
  localtime t w := localtime t (b_sim w);
}.

Definition newer (a b : row) : Prop := r_timestamp b <= r_timestamp a.
#[global] Instance newer_dec a b : Decision (newer a b).
Proof. unfold newer. apply _. Defined.
#[global] Instance newer_trans : Transitive newer.
Proof. unfold newer. intros x y z. lia. Qed.
#[global] Instance newer_total : Total newer.
Proof. unfold newer. intros x y. lia. Qed.

#[global] Instance bsim_db : Db bsim := {
  sqlite_open _ b := (true, b);
  sqlite_schema b := (true, b);
  sqlite_close b := b;
  db_insert r b := if bool_decide (r_id r ∈ (r_id <$> b_rows b)) then b
                   else mk_bsim (b_sim b) (b_rows b ++ [r]);
  db_select b := Some (merge_sort newer (b_rows b));
  db_find id b := Some (list_find (fun r => r_id r = id) (b_rows b) ≫= fun p => Some p.2);
  db_delete id b := mk_bsim (b_sim b) (filter (fun r => r_id r <> id) (b_rows b));
  malloc _ b := (true, b);
  pthread_create b := (true, b);
  pthread_join b := b;
  rows := b_rows;
}.

#[global] Instance bsim_laws : DbLaws bsim.
Proof.
  split; simpl; try done.
  - intros w l [= <-]. split; [apply merge_sort_Permutation|].
    apply (StronglySorted_merge_sort newer).
  - intros id w r [= E]. destruct (list_find _ _) as [[i x]|] eqn:F; simplify_eq/=.
    apply list_find_Some in F as (Hx & Hid & _). split; [by eapply list_elem_of_lookup_2|done].
  - intros id w [= E]. destruct (list_find _ _) eqn:F; [done|].
    apply list_find_None in F. intros (r & -> & Hr)%list_elem_of_fmap.
    rewrite Forall_forall in F. by apply (F r).
  - intros r w Hr. by rewrite bool_decide_eq_false_2.
  - intros r w Hr. by rewrite bool_decide_eq_true_2.
Qed.

#[global] Instance bsim_trace : ShellTrace bsim.
Proof.
  refine {| trace b := trace (b_sim b) |}; intros; simpl; try done.
  unfold lift. simpl. by destruct (sim_nodes _ !! _).
Defined.

#[global] Instance bsim_btrace : BackupTrace bsim.
Proof. split; intros; simpl; try done. by case_bool_decide. Qed.

(** An open database with nothing in it, and the same after one backup. *)
Definition empty_engine : engine bsim := mk_engine DbOpen 0 false false (mk_bsim blank []).
Definition after_backup {A} (c : M (engine bsim) A) : engine bsim :=
  match c empty_engine with Some (_, e) => e | None => empty_engine end.
Definition one_backup : engine bsim := after_backup (backup_create "/data" "/backup" BACKUP_FULL).

Lemma one_backup_eq : backup_create "/data" "/backup" BACKUP_FULL empty_engine = Some (0, one_backup).
Proof. vm_compute. reflexivity. Qed.



Lemma differential_copies_nothing_witness :
  exists e', backup_create "/data" "/backup" BACKUP_DIFFERENTIAL empty_engine = Some (0, e') /\
  exists dpath tail, trace (bos e') = mkdir_cmd 2048 dpath :: mkdir_cmd 2048 dpath :: tail.
Proof.
  exists (after_backup (backup_create "/data" "/backup" BACKUP_DIFFERENTIAL)).
  assert (backup_create "/data" "/backup" BACKUP_DIFFERENTIAL empty_engine =
    Some (0, after_backup (backup_create "/data" "/backup" BACKUP_DIFFERENTIAL))) as E
    by (vm_compute; reflexivity).
  split; [exact E|].
  destruct (differential_copies_nothing "/data" "/backup" empty_engine 0 _ eq_refl E)
    as (dpath & tail & Ht & _).
  exists dpath, tail. exact Ht.
Defined.

Definition a_row (id : string) (t : Z) : row :=
  mk_row id t 0 "/data" ("/backup/" +:+ id) 0 None 1 None None.
Definition three_backups : engine bsim :=
  mk_engine DbOpen 0 false false (mk_bsim blank [a_row "a" 10; a_row "c" 30; a_row "b" 20]).

Lemma cleanup_keeps_newest_witness :
  exists e', backup_cleanup_old 1 three_backups = Some (0, e') /\ rows (bos e') ≡ₚ [a_row "c" 30].
Proof.
  destruct (cleanup_keeps_newest 1 three_backups) as (r & e' & E & G).
  - lia.
  - reflexivity.
  - vm_compute. repeat constructor; set_solver.
  - repeat constructor; vm_compute; lia.
  - exists e'. assert (r = 0) as -> by (vm_compute in E; by injection E as <- _).
    split; [exact E|]. destruct (G eq_refl) as (sel & Hs & Hp & _).
    vm_compute in Hs. injection Hs as <-. exact Hp.
Defined.

Lemma cleanup_undefined_witness : backup_cleanup_old (-1) three_backups = None.
Proof.
  destruct (cleanup_undefined (-1) three_backups [a_row "c" 30; a_row "b" 20; a_row "a" 10]
    (bos three_backups)) as [G _].
  - reflexivity.
  - vm_compute. reflexivity.
  - discriminate.
  - reflexivity.
  - apply G. lia.
Defined.

Definition restored : engine bsim :=
  match backup_restore "backup-20250101-001641" "/restored" one_backup with
  | Some (_, e) => e | None => one_backup end.

Lemma create_then_restore_witness :
  backup_restore "backup-20250101-001641" "/restored" one_backup = Some (0, restored) /\
  trace (bos restored) = trace (bos one_backup) ++
    [mkdir_cmd 2048 "/restored"; rsync_cmd "/backup/backup-20250101-001641" "/restored"].
Proof.
  assert (backup_restore "backup-20250101-001641" "/restored" one_backup = Some (0, restored)) as E
    by (vm_compute; reflexivity).
  split; [exact E|].
  apply (create_then_restore "/data" "/backup" "/restored" empty_engine one_backup 0 restored
    (mk_row "backup-20250101-001641" 1000 0 "/data" "/backup/backup-20250101-001641" 0
       (Some "") 1 (Some "") (Some ""))).
  - reflexivity.
  - apply one_backup_eq.
  - vm_compute. reflexivity.
  - vm_compute. eexists. reflexivity.
  - vm_compute. lia.
  - exact E.
Defined.

Definition snap_mount : string := mount_cmd "vg0" "data_snap_1000" "/mnt/backup_snapshot_1001".
(** A machine on which the snapshot cannot be mounted. *)
Definition no_mount : engine bsim :=
  mk_engine DbOpen 0 false false (mk_bsim (sim_put_answers blank {[ snap_mount := ("", exited 32) ]}) []).

Lemma snapshot_removed_witness :
  (exists e', backup_create_with_snapshot "vg0" "data" "/data" "/backup" BACKUP_FULL no_mount = Some (-1, e') /\
    trace (bos e') = [lvcreate_cmd "vg0" "data" "data_snap_1000" 500; mkdir_cmd 512 "/mnt/backup_snapshot_1001";
                      snap_mount; lvremove_cmd "vg0" "data_snap_1000"]) /\
  (exists r e', backup_create_with_snapshot "vg0" "data" "/data" "/backup" BACKUP_FULL empty_engine = Some (r, e') /\
    lvremove_cmd "vg0" "data_snap_1000" ∈ trace (bos e')).
Proof.
  assert (BACKUP_FULL = BACKUP_INCREMENTAL -> Forall listable (rows (bos no_mount))) as Hl by discriminate.
  assert (BACKUP_FULL = BACKUP_INCREMENTAL -> Forall listable (rows (bos empty_engine))) as Hl' by discriminate.
  split.
  - pose proof (snapshot_removed "vg0" "data" "/data" "/backup" BACKUP_FULL no_mount 1000 _ 1001 _
      eq_refl Hl eq_refl eq_refl) as G. cbv zeta in G. destruct (shown _ _) as [created w3] eqn:Ec.
    vm_compute in Ec. injection Ec as <- <-. destruct (system _ _) as [mounted w5] eqn:Em.
    vm_compute in Em. injection Em as <- <-. destruct G as (r & e' & E & _ & Hm & _).
    destruct (Hm eq_refl) as [-> T]; [discriminate|]. exists e'. split; [exact E|exact T].
  - pose proof (snapshot_removed "vg0" "data" "/data" "/backup" BACKUP_FULL empty_engine 1000 _ 1001 _
      eq_refl Hl' eq_refl eq_refl) as G. cbv zeta in G. destruct (shown _ _) as [created w3] eqn:Ec.
    vm_compute in Ec. injection Ec as <- <-. destruct (system _ _) as [mounted w5] eqn:Em.
    vm_compute in Em. injection Em as <- <-. destruct G as (r & e' & E & _ & _ & Hm).
    destruct (Hm eq_refl eq_refl) as (e1 & during & _ & _ & T). exists r, e'. split; [exact E|].
    rewrite T. do 3 (apply elem_of_app; right). right. left.
Defined.
