(* ===== verification/Checksum.v ===== *)
(** * src/backup_engine.c: the checksum of a file

    [backup_calculate_checksum] reads a file in pieces of 8192 bytes, feeds
    them to the SHA-256 functions of OpenSSL and writes the digest in
    hexadecimal.  The three functions are an interface; that a digest does not
    depend on how its input is cut up is what the code relies on. *)

From stdpp Require Import base list strings.
From Stdlib Require Import Ascii ZArith Lia.
From S2P Require Import Prelude CString CFloat CFormat Sys SimOS.

(** [SHA256_Init], [SHA256_Update], [SHA256_Final] on the context; a digest is
    an array of bytes. *)
Class Sha256 := {
  sha_ctx : Type;
  sha_init : sha_ctx;
  sha_update : sha_ctx -> string -> sha_ctx;
  sha_final : sha_ctx -> list ascii;
}.

Definition SHA256_DIGEST_LENGTH : nat := 32.

(** A digest has 32 bytes; two updates are one with both inputs. *)
Class Sha256Laws `{Sha256} := {
  update_empty : forall c, sha_update c "" = c;
  update_app : forall c a b, sha_update (sha_update c a) b = sha_update c (a +:+ b);
  final_length : forall c, length (sha_final c) = SHA256_DIGEST_LENGTH;
}.

Section Checksum.
Context {W : Type} `{Files W} `{Sha256}.

(** [while ((bytes = fread(buffer, 1, sizeof(buffer), fp)) > 0)]: [None] when
    the fuel runs out before the file does. *)
Fixpoint update_loop (fuel : nat) (ctx : sha_ctx) (rest : string) : option sha_ctx :=
  match fuel with
  | O => None
  | S f =>
      let buffer := str_take 8192 rest in
      if (0 <? String.length buffer)%nat
      then update_loop f (sha_update ctx buffer) (str_drop 8192 rest)
      else Some ctx
  end.

(** [sprintf(checksum_out + i * 2, "%02x", hash[i])] for each byte. *)
Definition hex_text (hash : list ascii) : string :=
  str_concat ((fun b => sprintf "%02x" [CInt (char_code b)]) <$> hash).

(** The code and what [checksum_out] holds; the bytes of the file bound the
    turns of the loop. *)
Definition backup_calculate_checksum (path : string) : M W (Z * option string) :=
  let! fp := reads (fopen_r path) in
  match fp with
  | None => ret (-1, None)
  | Some text =>
      match update_loop (S (String.length text)) sha_init text with
      | None => ub
      | Some ctx => ret (0, Some (hex_text (sha_final ctx)))
      end
  end.

(** ** Reading back *)

(** The bytes two hexadecimal digits each stand for. *)
Fixpoint unhex (s : string) : option (list ascii) :=
  match s with
  | "" => Some []
  | String a (String b s') =>
      match digit_of true a, digit_of true b, unhex s' with
      | Some x, Some y, Some l => Some (ascii_of_nat (Z.to_nat (x * 16 + y)) :: l)
      | _, _, _ => None
      end
  | _ => None
  end.

Lemma hex_byte_decodes b :
  (unhex (sprintf "%02x" [CInt (char_code b)]), String.length (sprintf "%02x" [CInt (char_code b)])) =
  (Some [b], 2%nat).
Proof. destruct b as [[] [] [] [] [] [] [] []]; vm_compute; reflexivity. Qed.

Lemma hex_byte b : exists x y, sprintf "%02x" [CInt (char_code b)] = String x (String y "") /\
  unhex (String x (String y "")) = Some [b].
Proof.
  pose proof (hex_byte_decodes b) as G. destruct (sprintf _ _) as [|x [|y [|z s]]]; try discriminate G.
  exists x, y. by injection G as G.
Qed.

Lemma hex_text_cons b l : exists x y, hex_text (b :: l) = String x (String y (hex_text l)) /\
  unhex (String x (String y "")) = Some [b].
Proof.
  destruct (hex_byte b) as (x & y & E & D). exists x, y. split; [|done].
  unfold hex_text. rewrite fmap_cons. cbn [str_concat]. by rewrite E.
Qed.

Lemma unhex_text l : unhex (hex_text l) = Some l /\ String.length (hex_text l) = (2 * length l)%nat.
Proof.
  induction l as [|b l [IH IL]]; [done|]. destruct (hex_text_cons b l) as (x & y & -> & D). split.
  - simpl in *. rewrite IH. destruct (digit_of true x), (digit_of true y); try done.
    by injection D as ->.
  - simpl. rewrite IL. lia.
Qed.

Section Laws.
Context `{!Sha256Laws}.

Lemma take_first n c s : (0 < n)%nat -> (0 < String.length (str_take n (String c s)))%nat.
Proof. destruct n; simpl; lia. Qed.

Lemma update_loop_whole fuel : forall ctx rest,
  (String.length rest < fuel)%nat -> update_loop fuel ctx rest = Some (sha_update ctx rest).
Proof.
  assert (0 < 8192)%nat as Hn by (apply Nat.ltb_lt; reflexivity).
  induction fuel as [|fuel IH]; intros ctx rest Hf; [lia|]. cbn [update_loop].
  destruct rest as [|c rest].
  { rewrite str_take_ge by (simpl; lia). simpl. by rewrite update_empty. }
  pose proof (take_first 8192 c rest Hn) as Ht. rewrite (proj2 (Nat.ltb_lt _ _) Ht).
  pose proof (f_equal String.length (str_take_drop 8192 (String c rest))) as Hl.
  rewrite str_length_app in Hl. rewrite IH by lia. by rewrite update_app, str_take_drop.
Qed.

(** The checksum of a file that can be read is the SHA-256 digest of its
    whole content, however long, as 64 hexadecimal digits that can be decoded
    again, so that two files get the same checksum exactly when their digests
    are the same; a file that cannot be read gives -1, and nothing is changed
    either way. *)
Theorem checksum_spec path (w : W) :
  match fopen_r path w with
  | None => backup_calculate_checksum path w = Some ((-1, None), w)
  | Some text =>
      exists h, backup_calculate_checksum path w = Some ((0, Some h), w) /\
        String.length h = 64%nat /\ unhex h = Some (sha_final (sha_update sha_init text)) /\
        forall path' text' h', fopen_r path' w = Some text' ->
          backup_calculate_checksum path' w = Some ((0, Some h'), w) ->
          (h = h' <-> sha_final (sha_update sha_init text) = sha_final (sha_update sha_init text'))
  end.
Proof.
  assert (forall p t, fopen_r p w = Some t -> backup_calculate_checksum p w =
    Some ((0, Some (hex_text (sha_final (sha_update sha_init t)))), w)) as G.
  { intros p t E. unfold backup_calculate_checksum, bind, reads. rewrite E.
    by rewrite update_loop_whole by lia. }
  destruct (fopen_r path w) as [text|] eqn:E.
  2: { unfold backup_calculate_checksum, bind, reads. by rewrite E. }
  destruct (unhex_text (sha_final (sha_update sha_init text))) as [U L].
  eexists. split; [by apply G|]. rewrite L, final_length. split; [done|]. split; [done|].
  intros p' t' h' E' Eh. rewrite (G _ _ E') in Eh. injection Eh as <-.
  split; [|by intros ->]. intros Eq.
  destruct (unhex_text (sha_final (sha_update sha_init t'))) as [U' _]. congruence.
Qed.
End Laws.
End Checksum.

(** ** A digest: the sum of the bytes, 32 times *)

Fixpoint byte_sum (s : string) : Z :=
  match s with "" => 0 | String c s' => char_code c + byte_sum s' end.

Lemma byte_sum_app a b : byte_sum (a +:+ b) = byte_sum a + byte_sum b.
Proof. induction a as [|c a IH]; [done|]. change (String c a +:+ b) with (String c (a +:+ b)). simpl. lia. Qed.

#[local] Instance sum_sha : Sha256 := {
  sha_ctx := Z;
  sha_init := 0;
  sha_update c s := c + byte_sum s;
  sha_final c := replicate 32 (ascii_of_nat (Z.to_nat (c mod 256)));
}.
#[local] Instance sum_sha_laws : Sha256Laws.
Proof. split; simpl; intros; [lia|rewrite byte_sum_app; lia|done]. Qed.

Lemma checksum_spec_witness :
  exists h, backup_calculate_checksum "/a" (sim_put_files blank {[ "/a" := "AB" ]}) =
      Some ((0, Some h), sim_put_files blank {[ "/a" := "AB" ]}) /\
    String.length h = 64%nat.
Proof.
  pose proof (checksum_spec "/a" (sim_put_files blank {[ "/a" := "AB" ]})) as G.
  change (fopen_r "/a" (sim_put_files blank {[ "/a" := "AB" ]})) with (Some "AB") in G.
  destruct G as (h & E & L & _). by exists h.
Defined.
