(* ===== verification/Raid.v ===== *)
(** * src/raid_manager.c: RAID arrays through mdadm

    Creation, status, disks, stop and listing of arrays.  The text of
    "mdadm --detail" is parsed line by line into [raid_array_t]; the fixed
    buffers of the code are checked where it writes to them unchecked. *)

From stdpp Require Import base list gmap strings pretty.
From Stdlib Require Import Ascii ZArith Lia.
From S2P Require Import Prelude CString CFormat Sys.

Definition RAID_STATUS_ACTIVE : string := "active".
Definition RAID_STATUS_DEGRADED : string := "degraded".
Definition RAID_STATUS_FAILED : string := "failed".

Record raid_array_t := mk_raid {
  name : string;
  raid_level : Z;
  num_devices : Z;
  devices : list string;
  status : string;
  num_failed : Z;
  num_active : Z;
  size_kb : Z;
}.

Definition set_level (a : raid_array_t) (z : Z) : raid_array_t :=
  mk_raid (name a) z (num_devices a) (devices a) (status a) (num_failed a) (num_active a) (size_kb a).
Definition set_num_devices (a : raid_array_t) (z : Z) : raid_array_t :=
  mk_raid (name a) (raid_level a) z (devices a) (status a) (num_failed a) (num_active a) (size_kb a).
Definition set_devices (a : raid_array_t) (l : list string) : raid_array_t :=
  mk_raid (name a) (raid_level a) (num_devices a) l (status a) (num_failed a) (num_active a) (size_kb a).
Definition set_status (a : raid_array_t) (s : string) : raid_array_t :=
  mk_raid (name a) (raid_level a) (num_devices a) (devices a) s (num_failed a) (num_active a) (size_kb a).
Definition set_failed (a : raid_array_t) (z : Z) : raid_array_t :=
  mk_raid (name a) (raid_level a) (num_devices a) (devices a) (status a) z (num_active a) (size_kb a).
Definition set_active (a : raid_array_t) (z : Z) : raid_array_t :=
  mk_raid (name a) (raid_level a) (num_devices a) (devices a) (status a) (num_failed a) z (size_kb a).
Definition set_size (a : raid_array_t) (z : Z) : raid_array_t :=
  mk_raid (name a) (raid_level a) (num_devices a) (devices a) (status a) (num_failed a) (num_active a) z.

(** ** Parsing "mdadm --detail" *)

(** [sscanf(line, fmt, &field)]: the field keeps its value when the
    conversion fails. *)
Definition scan_field (fmt line : string) (old : Z) : Z :=
  match sscanf fmt line with CInt z :: _ => z | _ => old end.

(** The index up to which [devices] is filled: the loop that looks for a
    duplicate stops at the first empty entry. *)
Fixpoint listed_before (l : list string) (device : string) : bool :=
  match l with
  | [] => false
  | d :: l' => if streq d "" then false else streq d device || listed_before l' device
  end.

Definition add_device (l : list string) (device : string) : list string :=
  if listed_before l device then l
  else match find_idx (fun d => streq d "") l with
       | Some i => <[i := str_take (MAX_PATH - 1) device]> l
       | None => l
       end.

(** [char device[MAX_PATH]; sscanf(dev_start, "%s", device)] overflows for a
    word of MAX_PATH characters or more. *)
Definition scan_device (dev_start : string) : option string :=
  match sscanf "%s" dev_start with
  | CStr d :: _ => if (String.length d <? MAX_PATH)%nat then Some d else None
  | _ => Some ""
  end.

Definition parse_detail_line (a : raid_array_t) (line : string) : option raid_array_t :=
  if contains line "Raid Level :" then
    Some (set_level a (scan_field " Raid Level : raid%d" line (raid_level a)))
  else if contains line "State :" then
    Some (set_status a
      (if contains line "active" then
         if contains line "degraded" then RAID_STATUS_DEGRADED else RAID_STATUS_ACTIVE
       else RAID_STATUS_FAILED))
  else if contains line "Raid Devices :" then
    Some (set_num_devices a (scan_field " Raid Devices : %d" line (num_devices a)))
  else if contains line "Failed Devices :" then
    Some (set_failed a (scan_field " Failed Devices : %d" line (num_failed a)))
  else if contains line "Active Devices :" then
    Some (set_active a (scan_field " Active Devices : %d" line (num_active a)))
  else if contains line "Array Size :" then
    Some (set_size a (scan_field " Array Size : %llu" line (size_kb a)))
  else match strstr line "/dev/" with
       | Some dev_start =>
           if num_devices a <? 16 then
             match scan_device dev_start with
             | Some device => Some (set_devices a (add_device (devices a) device))
             | None => None
             end
           else Some a
       | None => Some a
       end.

Fixpoint parse_detail (a : raid_array_t) (lines : list string) : option raid_array_t :=
  match lines with
  | [] => Some a
  | l :: ls => match parse_detail_line a l with Some a' => parse_detail a' ls | None => None end
  end.

Section Raid.
Context {W : Type} `{Shell W} `{Files W} `{Procs W}.

(** The loop that checks the devices and joins their names; [inr] is an early
    return. *)
Fixpoint join_devices (buf : string) (devs : list string) : M W (string + Z) :=
  match devs with
  | [] => ret (inl buf)
  | d :: rest =>
      let! ok := reads (file_exists d) in
      if negb ok then ret (inr ERROR_NOT_FOUND)
      else
        let! buf1 := strcat buf d in
        match rest with
        | [] => ret (inl buf1)
        | _ => let! buf2 := strcat buf1 " " in join_devices buf2 rest
        end
  end.

Definition zero_cmd (device : string) : string :=
  snprintf MAX_COMMAND "mdadm --zero-superblock %s 2>/dev/null" [CStr device].
Definition create_cmd (array_name : string) (level count : Z) (devices_str : string) : string :=
  snprintf MAX_COMMAND "mdadm --create %s --level=%d --raid-devices=%d %s --force --run 2>&1"
    [CStr array_name; CInt level; CInt count; CStr devices_str].

Definition level_ok (level : Z) : bool :=
  (level =? 0) || (level =? 1) || (level =? 5) || (level =? 10).

Definition raid_create (array_name : string) (level : Z) (devs : list string) : M W Z :=
  let count := Z.of_nat (length devs) in
  let! root := reads is_root in
  if negb root then ret ERROR_PERMISSION
  else if count <? 2 then ret ERROR_INVALID_PARAM
  else if negb (level_ok level) then ret ERROR_INVALID_PARAM
  else
    let! j := join_devices "" devs in
    match j with
    | inr err => ret err
    | inl devices_str =>
        forM (fun d => exec_quiet (zero_cmd d) ;;! ret tt) devs ;;!
        let! ro := exec_logged (create_cmd array_name level count devices_str) in
        if negb (ro.1 =? SUCCESS) then ret ro.1
        else (fun w => Some (SUCCESS, sleep 1 w))
    end.

(** [raid_get_status(array_name, array)].  [inside] says that [array_name]
    points to [array->name], which the [memset] clears before the name is
    copied.  The second result is what [*array] holds, when it was written. *)
Definition raid_get_status (array_name : string) (inside : bool) : M W (Z * option raid_array_t) :=
  let! ok := reads (file_exists array_name) in
  if negb ok then ret (ERROR_NOT_FOUND, None)
  else
    let! ro := exec (snprintf MAX_COMMAND "mdadm --detail %s 2>&1" [CStr array_name]) in
    let '(result, output) := ro in
    if negb (result =? SUCCESS) then ret (result, None)
    else
      let nm := if inside then "" else str_take (MAX_NAME - 1) array_name in
      let a0 := mk_raid nm 0 0 (replicate 16 "") "" 0 0 0 in
      match parse_detail a0 (strtok output NL) with
      | None => ub
      | Some a => ret (SUCCESS, Some a)
      end.

Definition raid_monitor (array : raid_array_t) : M W (Z * option raid_array_t) :=
  if streq (name array) "" then ret (ERROR_INVALID_PARAM, None)
  else raid_get_status (name array) true.

Definition add_cmd (array_name device : string) : string :=
  snprintf MAX_COMMAND "mdadm --add %s %s 2>&1" [CStr array_name; CStr device].

Definition raid_add_disk (array_name device : string) : M W Z :=
  let! root := reads is_root in
  if negb root then ret ERROR_PERMISSION
  else
    let! a := reads (file_exists array_name) in
    if negb a then ret ERROR_NOT_FOUND
    else
      let! d := reads (file_exists device) in
      if negb d then ret ERROR_NOT_FOUND
      else exec_quiet (zero_cmd device) ;;! checked (add_cmd array_name device).

Definition raid_fail_disk (array_name device : string) : M W Z :=
  let! root := reads is_root in
  if negb root then ret ERROR_PERMISSION
  else checked (snprintf MAX_COMMAND "mdadm --fail %s %s 2>&1" [CStr array_name; CStr device]).

Definition raid_remove_disk (array_name device : string) : M W Z :=
  let! root := reads is_root in
  if negb root then ret ERROR_PERMISSION
  else checked (snprintf MAX_COMMAND "mdadm --remove %s %s 2>&1" [CStr array_name; CStr device]).

Definition raid_stop (array_name : string) : M W Z :=
  let! root := reads is_root in
  if negb root then ret ERROR_PERMISSION
  else checked (snprintf MAX_COMMAND "mdadm --stop %s 2>&1" [CStr array_name]).

(** One line of /proc/mdstat; [md_name] has room for 31 characters. *)
Definition list_line (max_arrays : nat) (acc : list raid_array_t) (line : string)
    : M W (list raid_array_t) :=
  if (length acc <? max_arrays)%nat && has_prefix "md" line then
    match sscanf "%s" line with
    | CStr md_name :: _ =>
        guard_ub (String.length md_name <? 32)%nat ;;!
        let! ra := raid_get_status (snprintf MAX_PATH "/dev/%s" [CStr md_name]) false in
        match ra with
        | (0, Some a) => ret (acc ++ [a])
        | _ => ret acc
        end
    | _ => ret acc
    end
  else ret acc.

(** The code and the arrays that were filled. *)
Definition raid_list_all (max_arrays : nat) : M W (Z * list raid_array_t) :=
  let! fp := reads (fopen_r "/proc/mdstat") in
  match fp with
  | None => ret (ERROR_SYSTEM_CALL, [])
  | Some text =>
      let! l := foldM (list_line max_arrays) [] (fgets_chunks 256 text) in ret (SUCCESS, l)
  end.
End Raid.
