(* ===== verification/Lvm.v ===== *)
(** * src/lvm_manager.c: physical volumes, volume groups, logical volumes,
    snapshots

    The wrappers of the LVM commands with their guards, and the parsers of
    the listings of pvs, vgs and lvs. *)

From stdpp Require Import base list gmap strings pretty.
From Stdlib Require Import Ascii ZArith Lia.
From S2P Require Import Prelude CString CFormat Sys.

Record pv_info_t := mk_pv {
  pv_name : string;
  pv_size : Z;
  pv_free : Z;
  pv_vg : string;
  is_allocated : Z;
}.

(** [pv_list], which no function fills, is left out. *)
Record vg_info_t := mk_vg {
  vg_name : string;
  vg_size : Z;
  vg_free : Z;
  pv_count : Z;
  lv_count : Z;
}.

(** [origin], which no function fills, is left out. *)
Record lv_info_t := mk_lv {
  lv_name : string;
  lv_vg : string;
  lv_size : Z;
  lv_path : string;
  is_snapshot : Z;
  is_active : Z;
}.

(** ** Listings *)

(** One line without its leading blanks; [None] when it does not count. *)
Definition parse_pv (line : string) : option pv_info_t :=
  match sscanf "%255s %llu %llu %63s" line with
  | [CStr n; CInt s; CInt f] => Some (mk_pv n s f "" 0)
  | [CStr n; CInt s; CInt f; CStr vg] => Some (mk_pv n s f (str_take (MAX_NAME - 1) vg) 1)
  | _ => None
  end.

Definition parse_vg (line : string) : option vg_info_t :=
  match sscanf "%63s %llu %llu %d %d" line with
  | [CStr n; CInt s; CInt f; CInt p; CInt l] => Some (mk_vg n s f p l)
  | _ => None
  end.

Definition parse_lv (line : string) : option lv_info_t :=
  match sscanf "%63s %63s %llu %255s" line with
  | [CStr n; CStr vg; CInt s] => Some (mk_lv n vg s "" 0 1)
  | [CStr n; CStr vg; CInt s; CStr p] => Some (mk_lv n vg s p 0 1)
  | _ => None
  end.

(** [while (line != NULL && *count < max)]: the entries filled so far and
    those the remaining lines add. *)
Fixpoint parse_lines {A} (parse : string -> option A) (max : nat) (acc : list A)
    (lines : list string) : list A :=
  match lines with
  | [] => acc
  | l :: rest =>
      if (max <=? length acc)%nat then acc
      else
        let line := skip_ws l in
        let acc' :=
          if 0 <? strlen line then
            match parse line with Some x => acc ++ [x] | None => acc end
          else acc in
        parse_lines parse max acc' rest
  end.

Section Lvm.
Context {W : Type} `{Shell W}.

(** The code is SUCCESS even when the command fails: there is then nothing
    to list. *)
Definition listing {A} (cmd : string) (parse : string -> option A) (max : nat) : M W (Z * list A) :=
  let! ro := exec cmd in
  let '(result, output) := ro in
  if negb (result =? SUCCESS) then ret (SUCCESS, [])
  else ret (SUCCESS, parse_lines parse max [] (strtok output NL)).

Definition pvs_cmd : string :=
  snprintf MAX_COMMAND "pvs --noheadings --units b --nosuffix -o pv_name,pv_size,pv_free,vg_name 2>&1" [].
Definition vgs_cmd : string :=
  snprintf MAX_COMMAND
    "vgs --noheadings --units b --nosuffix -o vg_name,vg_size,vg_free,pv_count,lv_count 2>&1" [].
Definition lvs_cmd : string :=
  snprintf MAX_COMMAND "lvs --noheadings --units b --nosuffix -o lv_name,vg_name,lv_size,lv_path 2>&1" [].

Definition lvm_pv_list (max_pvs : nat) : M W (Z * list pv_info_t) := listing pvs_cmd parse_pv max_pvs.
Definition lvm_vg_list (max_vgs : nat) : M W (Z * list vg_info_t) := listing vgs_cmd parse_vg max_vgs.
Definition lvm_lv_list (max_lvs : nat) : M W (Z * list lv_info_t) := listing lvs_cmd parse_lv max_lvs.

(** The first entry of a list that satisfies a test, as the search loops
    return it. *)
Definition pick {A} (p : A -> bool) (rl : Z * list A) : Z * option A :=
  let '(result, l) := rl in
  if negb (result =? SUCCESS) then (result, None)
  else match find_idx p l with
       | Some i => (SUCCESS, l !! i)
       | None => (ERROR_NOT_FOUND, None)
       end.

Definition lvm_pv_info (pv : string) : M W (Z * option pv_info_t) :=
  let! rl := lvm_pv_list 32 in ret (pick (fun x => streq (pv_name x) pv) rl).
Definition lvm_vg_info (vg : string) : M W (Z * option vg_info_t) :=
  let! rl := lvm_vg_list 32 in ret (pick (fun x => streq (vg_name x) vg) rl).
Definition lvm_lv_info (vg lv : string) : M W (Z * option lv_info_t) :=
  let! rl := lvm_lv_list 64 in
  ret (pick (fun x => streq (lv_vg x) vg && streq (lv_name x) lv) rl).

(** ** Commands *)

Definition lvm_pv_create (device : string) : M W Z :=
  let! root := reads is_root in
  if negb root then ret ERROR_PERMISSION
  else
    let! ok := reads (file_exists device) in
    if negb ok then ret ERROR_NOT_FOUND
    else checked (snprintf MAX_COMMAND "pvcreate %s 2>&1" [CStr device]).

Definition pvremove_cmd (pv : string) : string := snprintf MAX_COMMAND "pvremove -f %s 2>&1" [CStr pv].

Definition lvm_pv_remove (pv : string) : M W Z :=
  let! root := reads is_root in
  if negb root then ret ERROR_PERMISSION
  else
    let! info := lvm_pv_info pv in
    match info with
    | (0, Some i) =>
        if negb (is_allocated i =? 0) then ret ERROR_GENERIC else checked (pvremove_cmd pv)
    | _ => checked (pvremove_cmd pv)
    end.

(** The names joined by blanks, each [strcat] into the same buffer. *)
Fixpoint join_pvs (buf : string) (pvs : list string) : M W string :=
  match pvs with
  | [] => ret buf
  | p :: rest =>
      let! buf1 := strcat buf p in
      match rest with
      | [] => ret buf1
      | _ => let! buf2 := strcat buf1 " " in join_pvs buf2 rest
      end
  end.

Definition vgcreate_cmd (vg pvs_str : string) : string :=
  snprintf MAX_COMMAND "vgcreate %s %s 2>&1" [CStr vg; CStr pvs_str].

Definition lvm_vg_create (vg : string) (pvs : list string) : M W Z :=
  let! root := reads is_root in
  if negb root then ret ERROR_PERMISSION
  else if Z.of_nat (length pvs) <? 1 then ret ERROR_INVALID_PARAM
  else let! pvs_str := join_pvs "" pvs in checked (vgcreate_cmd vg pvs_str).

(** A command that needs root and nothing else. *)
Definition as_root (cmd : string) : M W Z :=
  let! root := reads is_root in
  if negb root then ret ERROR_PERMISSION else checked cmd.

Definition lvm_vg_extend (vg pv : string) : M W Z :=
  as_root (snprintf MAX_COMMAND "vgextend %s %s 2>&1" [CStr vg; CStr pv]).
Definition lvm_vg_remove (vg : string) : M W Z :=
  as_root (snprintf MAX_COMMAND "vgremove -f %s 2>&1" [CStr vg]).

Definition lvm_lv_create (vg lv : string) (size_mb : Z) : M W Z :=
  let! root := reads is_root in
  if negb root then ret ERROR_PERMISSION
  else if size_mb =? 0 then ret ERROR_INVALID_PARAM
  else checked (snprintf MAX_COMMAND "lvcreate -L %lluM -n %s %s 2>&1" [CInt size_mb; CStr lv; CStr vg]).

Definition lvm_lv_extend (vg lv : string) (add_size_mb : Z) : M W Z :=
  as_root (snprintf MAX_COMMAND "lvextend -L +%lluM /dev/%s/%s 2>&1" [CInt add_size_mb; CStr vg; CStr lv]).
Definition lvm_lv_remove (vg lv : string) : M W Z :=
  as_root (snprintf MAX_COMMAND "lvremove -f /dev/%s/%s 2>&1" [CStr vg; CStr lv]).
Definition lvm_snapshot_create (vg origin snap : string) (size_mb : Z) : M W Z :=
  as_root (snprintf MAX_COMMAND "lvcreate -L %lluM -s -n %s /dev/%s/%s 2>&1"
             [CInt size_mb; CStr snap; CStr vg; CStr origin]).
Definition lvm_snapshot_merge (vg snap : string) : M W Z :=
  as_root (snprintf MAX_COMMAND "lvconvert --merge /dev/%s/%s 2>&1" [CStr vg; CStr snap]).
End Lvm.
