(* ===== verification/RaidProps.v ===== *)
(** * Theorems about src/raid_manager.c *)

From stdpp Require Import base list gmap strings pretty.
From Stdlib Require Import Ascii ZArith Lia.
From S2P Require Import Prelude CString CFormat Sys SimOS Raid Lvm.

#[local] Opaque snprintf sprintf.

(** Sleeping gives no command to the shell. *)
Class SleepTrace (W : Type) `{Shell W} `{Procs W} `{!ShellTrace W} :=
  sleep_trace : forall n w, trace (sleep n w) = trace w.

#[global] Instance sim_sleep_trace : SleepTrace sim.
Proof. by intros n w. Qed.

(** ** Names joined by blanks *)

(** The device list mdadm and vgcreate are given. *)
Fixpoint spaced (l : list string) : string :=
  match l with
  | [] => ""
  | [x] => x
  | x :: rest => x +:+ " " +:+ spaced rest
  end.

Lemma spaced_cons x y l : spaced (x :: y :: l) = x +:+ " " +:+ spaced (y :: l).
Proof. done. Qed.

Section Join.
Context {W : Type} `{Shell W}.

Definition fits_buffer (buf : string) (l : list string) : bool :=
  (String.length buf + String.length (spaced l) <? MAX_COMMAND)%nat.

Lemma strcat_spec buf s (w : W) :
  strcat buf s w = if (String.length buf + String.length s <? MAX_COMMAND)%nat
                   then Some (buf +:+ s, w) else None.
Proof. unfold strcat, bind, guard_ub, ret, ub. by destruct (_ <? _)%nat. Qed.

Lemma fits_cons buf x y l :
  fits_buffer buf (x :: y :: l) = fits_buffer ((buf +:+ x) +:+ " ") (y :: l).
Proof.
  unfold fits_buffer. rewrite spaced_cons, !str_length_app.
  change (String.length " ") with 1%nat. f_equal. lia.
Qed.

Lemma fits_first buf x l :
  fits_buffer buf (x :: l) = true -> (String.length buf + String.length x < MAX_COMMAND)%nat.
Proof.
  unfold fits_buffer. intros Hf%Nat.ltb_lt. destruct l as [|y l]; [done|].
  rewrite spaced_cons, str_length_app in Hf. lia.
Qed.

Lemma fits_blank buf x y l :
  fits_buffer buf (x :: y :: l) = true -> (String.length (buf +:+ x) + 1 < MAX_COMMAND)%nat.
Proof.
  unfold fits_buffer. intros Hf%Nat.ltb_lt.
  rewrite spaced_cons, !str_length_app in Hf. rewrite str_length_app.
  change (String.length " ") with 1%nat in Hf. lia.
Qed.

Lemma app_blank buf x y l :
  ((buf +:+ x) +:+ " ") +:+ spaced (y :: l) = buf +:+ spaced (x :: y :: l).
Proof. by rewrite spaced_cons, !str_app_assoc. Qed.

(** The loop that joins names is defined exactly when the result leaves room
    for the terminator. *)
Lemma join_devices_spec x l buf (w : W) :
  Forall (fun d => file_exists d w = true) (x :: l) ->
  join_devices buf (x :: l) w =
    if fits_buffer buf (x :: l) then Some (inl (buf +:+ spaced (x :: l)), w) else None.
Proof.
  revert buf x. induction l as [|y l IH]; intros buf x Hex; inversion Hex as [|?? Hx Hl]; subst.
  - simpl. unfold bind, reads. rewrite Hx. cbn [negb]. rewrite strcat_spec. unfold fits_buffer.
    cbn [spaced]. by destruct (_ <? _)%nat.
  - change (join_devices buf (x :: y :: l) w) with
      ((let! ok := reads (file_exists x) in
        if negb ok then ret (inr ERROR_NOT_FOUND)
        else let! buf1 := strcat buf x in
             let! buf2 := strcat buf1 " " in join_devices buf2 (y :: l)) w).
    unfold bind at 1, reads. rewrite Hx. cbn [negb]. unfold bind at 1. rewrite strcat_spec.
    destruct (Nat.ltb_spec (String.length buf + String.length x) MAX_COMMAND) as [H1|H1].
    + unfold bind. rewrite strcat_spec. change (String.length " ") with 1%nat.
      destruct (Nat.ltb_spec (String.length (buf +:+ x) + 1) MAX_COMMAND) as [H2|H2].
      * rewrite IH by done. rewrite fits_cons, <- app_blank. done.
      * destruct (fits_buffer buf (x :: y :: l)) eqn:Hf; [apply fits_blank in Hf; lia|done].
    + destruct (fits_buffer buf (x :: y :: l)) eqn:Hf; [apply fits_first in Hf; lia|done].
Qed.

(** A missing device stops the loop, unless the names before it already
    overflow. *)
Lemma join_devices_missing l1 d l2 buf (w : W) :
  Forall (fun d => file_exists d w = true) l1 -> file_exists d w = false ->
  fits_buffer buf (l1 ++ [""]) = true ->
  join_devices buf (l1 ++ d :: l2) w = Some (inr ERROR_NOT_FOUND, w).
Proof.
  revert buf. induction l1 as [|x l1 IH]; intros buf Hex Hd Hf.
  - simpl. unfold bind, reads. by rewrite Hd.
  - inversion Hex as [|?? Hx Hl]; subst. simpl. unfold bind at 1, reads. rewrite Hx. cbn [negb].
    unfold bind at 1. rewrite strcat_spec. simpl in Hf.
    assert (exists z ls, l1 ++ d :: l2 = z :: ls) as (z & ls & E) by (destruct l1; eauto).
    assert (exists z ls, l1 ++ [""] = z :: ls) as (z' & ls' & E') by (destruct l1; eauto).
    rewrite E' in Hf. pose proof (fits_first _ _ _ Hf) as H1. pose proof (fits_blank _ _ _ _ Hf) as H2.
    apply Nat.ltb_lt in H1. rewrite H1, E. unfold bind. rewrite strcat_spec.
    change (String.length " ") with 1%nat. apply Nat.ltb_lt in H2. rewrite H2, <- E.
    apply IH; [done..|]. by rewrite E', <- fits_cons.
Qed.

Lemma join_pvs_spec x l buf (w : W) :
  join_pvs buf (x :: l) w =
    if fits_buffer buf (x :: l) then Some (buf +:+ spaced (x :: l), w) else None.
Proof.
  revert buf x. induction l as [|y l IH]; intros buf x.
  - simpl. unfold bind. rewrite strcat_spec. unfold fits_buffer. cbn [spaced]. by destruct (_ <? _)%nat.
  - change (join_pvs buf (x :: y :: l) w) with
      ((let! buf1 := strcat buf x in
        let! buf2 := strcat buf1 " " in join_pvs buf2 (y :: l)) w).
    unfold bind at 1. rewrite strcat_spec.
    destruct (Nat.ltb_spec (String.length buf + String.length x) MAX_COMMAND) as [H1|H1].
    + unfold bind. rewrite strcat_spec. change (String.length " ") with 1%nat.
      destruct (Nat.ltb_spec (String.length (buf +:+ x) + 1) MAX_COMMAND) as [H2|H2].
      * rewrite IH. by rewrite fits_cons, <- app_blank.
      * destruct (fits_buffer buf (x :: y :: l)) eqn:Hf; [apply fits_blank in Hf; lia|done].
    + destruct (fits_buffer buf (x :: y :: l)) eqn:Hf; [apply fits_first in Hf; lia|done].
Qed.
End Join.

(** ** Creation *)

Section Create.
Context {W : Type} `{Shell W} `{Files W} `{Procs W} `{!ShellTrace W} `{!ShellStarts W} `{!SleepTrace W}.

Lemma zero_all_runs devs (w : W) :
  exists w', forM (fun d => exec_quiet (zero_cmd d) ;;! ret tt) devs w = Some (tt, w') /\
    trace w' = trace w ++ (zero_cmd <$> devs).
Proof.
  unfold forM. revert w. induction devs as [|d devs IH]; intros w.
  { exists w. by rewrite app_nil_r. }
  destruct (execute_command_runs (zero_cmd d) None w) as (r & o & w1 & E & Ht & _).
  destruct (IH w1) as (w2 & E2 & Ht2). exists w2. split.
  - simpl. unfold bind, exec_quiet. by rewrite E.
  - by rewrite Ht2, Ht, <- app_assoc.
Qed.

(** The guards of [raid_create], in the order of the code. *)
Definition create_guard (level : Z) (devs : list string) (w : W) : option Z :=
  if negb (is_root w) then Some ERROR_PERMISSION
  else if (length devs <? 2)%nat then Some ERROR_INVALID_PARAM
  else if negb (bool_decide (level ∈ [0; 1; 5; 10])) then Some ERROR_INVALID_PARAM
  else None.

Lemma level_ok_spec level : level_ok level = bool_decide (level ∈ [0; 1; 5; 10]).
Proof.
  apply eq_true_iff_eq. unfold level_ok. rewrite bool_decide_eq_true, !orb_true_iff, !Z.eqb_eq.
  rewrite !elem_of_cons, elem_of_nil. tauto.
Qed.

Lemma raid_create_guarded name level devs w e :
  create_guard level devs w = Some e -> raid_create name level devs w = Some (e, w).
Proof.
  unfold create_guard, raid_create. unfold bind at 1, reads. rewrite level_ok_spec.
  destruct (is_root w); [|by intros [= <-]]. cbn [negb].
  destruct (Nat.ltb_spec (length devs) 2); destruct (Z.ltb_spec (Z.of_nat (length devs)) 2); try lia.
  { by intros [= <-]. }
  by case_match; intros [= <-].
Qed.

Lemma raid_create_joined name level devs w :
  create_guard level devs w = None ->
  raid_create name level devs w =
    (let! j := join_devices "" devs in
     match j with
     | inr err => ret err
     | inl s =>
         forM (fun d => exec_quiet (zero_cmd d) ;;! ret tt) devs ;;!
         let! ro := exec_logged (create_cmd name level (Z.of_nat (length devs)) s) in
         if negb (ro.1 =? SUCCESS) then ret ro.1 else (fun w => Some (SUCCESS, sleep 1 w))
     end) w.
Proof.
  unfold create_guard, raid_create. unfold bind at 1, reads. rewrite level_ok_spec.
  destruct (is_root w); [|done]. cbn [negb].
  destruct (Nat.ltb_spec (length devs) 2); destruct (Z.ltb_spec (Z.of_nat (length devs)) 2); try lia; [done|].
  by case_match.
Qed.

(** Once the names are joined, the superblock of each device is zeroed and one
    mdadm command is run. *)
Lemma create_commands name level devs s (w : W) :
  exists r w',
    (forM (fun d => exec_quiet (zero_cmd d) ;;! ret tt) devs ;;!
     let! ro := exec_logged (create_cmd name level (Z.of_nat (length devs)) s) in
     if negb (ro.1 =? SUCCESS) then ret ro.1 else (fun w => Some (SUCCESS, sleep 1 w))) w = Some (r, w') /\
    (r = SUCCESS \/ r = ERROR_SYSTEM_CALL) /\
    trace w' = trace w ++ (zero_cmd <$> devs) ++ [create_cmd name level (Z.of_nat (length devs)) s].
Proof.
  destruct (zero_all_runs devs w) as (w1 & E1 & T1).
  destruct (exec_logged_runs (create_cmd name level (Z.of_nat (length devs)) s) w1) as (r & o & w2 & E2 & T2 & Hr).
  rewrite (bind_step E1), (bind_step E2). destruct Hr as [-> | ->].
  - exists SUCCESS, (sleep 1 w2). split; [done|]. split; [by left|].
    by rewrite sleep_trace, T2, T1, <- app_assoc.
  - exists ERROR_SYSTEM_CALL, w2. split; [done|]. split; [by right|]. by rewrite T2, T1, <- app_assoc.
Qed.

Lemma create_guard_nil level (w : W) : create_guard level [] w <> None.
Proof. unfold create_guard. by destruct (is_root w). Qed.

Lemma fits_empty l : fits_buffer "" l = false <-> (MAX_COMMAND <= String.length (spaced l))%nat.
Proof. unfold fits_buffer. rewrite Nat.ltb_ge. done. Qed.

(** The two commands around the joined names: complete when they fit, the
    names themselves cut when they do not. *)
Definition command_text (head names tail cmd : string) : Prop :=
  ((String.length head + String.length names + String.length tail < MAX_COMMAND)%nat ->
    cmd = head +:+ names +:+ tail) /\
  ((MAX_COMMAND <= String.length head + String.length names)%nat ->
    cmd = str_take (MAX_COMMAND - 1) (head +:+ names)).

Lemma command_cut head names tail :
  command_text head names tail (str_take (MAX_COMMAND - 1) (head +:+ names +:+ tail)).
Proof.
  split; intros Hl.
  - apply str_take_short. rewrite !str_length_app. lia.
  - rewrite <- str_app_assoc. apply str_take_app_l. rewrite str_length_app. unfold MAX_COMMAND in *. lia.
Qed.

Definition create_head (name : string) (level count : Z) : string :=
  "mdadm --create " +:+ name +:+ " --level=" +:+ pretty level +:+ " --raid-devices=" +:+ pretty count +:+ " ".
Definition vgcreate_head (vg : string) : string := "vgcreate " +:+ vg +:+ " ".

Lemma create_cmd_text name level count names :
  command_text (create_head name level count) names " --force --run 2>&1" (create_cmd name level count names).
Proof.
  pose proof (command_cut (create_head name level count) names " --force --run 2>&1") as Hc.
  unfold create_head in *. by rewrite !str_app_assoc in Hc.
Qed.
Lemma vgcreate_cmd_text vg names : command_text (vgcreate_head vg) names " 2>&1" (vgcreate_cmd vg names).
Proof.
  pose proof (command_cut (vgcreate_head vg) names " 2>&1") as Hc. unfold vgcreate_head in *.
  by rewrite !str_app_assoc in Hc.
Qed.

(** ** Status *)

Lemma parse_detail_line_name a line a' : parse_detail_line a line = Some a' -> name a' = name a.
Proof. unfold parse_detail_line. intros E. repeat case_match; by simplify_eq/=. Qed.

Lemma parse_detail_name lines : forall a a', parse_detail a lines = Some a' -> name a' = name a.
Proof.
  induction lines as [|l ls IH]; simpl; intros a a' E; [by simplify_eq|].
  destruct (parse_detail_line a l) as [a1|] eqn:E1; [|done].
  rewrite (IH _ _ E). by eapply parse_detail_line_name.
Qed.

(** What the code copies to [array->name]. *)
Lemma status_name nm inside (w : W) a w' :
  raid_get_status nm inside w = Some ((SUCCESS, Some a), w') ->
  name a = if inside then "" else str_take (MAX_NAME - 1) nm.
Proof.
  unfold raid_get_status. unfold bind at 1, reads. destruct (file_exists nm w); [|done]. cbn [negb].
  intros ([r out] & w1 & _ & E)%bind_Some. simpl in E.
  destruct (negb (r =? SUCCESS)); [done|].
  destruct (parse_detail _ _) as [a1|] eqn:Ep; [|done]. injection E as <- _.
  exact (parse_detail_name _ _ _ Ep).
Qed.
End Create.

(** ** Parsing what mdadm prints *)

(** The lines of "mdadm --detail" the code looks at, as mdadm writes them; a
    member device is at the end of a line of the table. *)
Definition level_line (level : Z) : string := "        Raid Level : raid" +:+ pretty level.
Definition size_line (size : Z) (t : string) : string := "        Array Size : " +:+ pretty size +:+ t.
Definition devices_line (n : Z) : string := "      Raid Devices : " +:+ pretty n.
Definition state_line (st : string) : string := "             State : " +:+ st.
Definition active_line (n : Z) : string := "    Active Devices : " +:+ pretty n.
Definition failed_line (n : Z) : string := "    Failed Devices : " +:+ pretty n.

(** The words the parser looks for; a line without any of them says nothing to
    it: the version, the times, the other counts, the UUID, the titles of the
    table, an empty line. *)
Definition detail_keys : list string :=
  ["Raid Level :"; "State :"; "Raid Devices :"; "Failed Devices :"; "Active Devices :"; "Array Size :"; "/dev/"].
Definition other_line (x : string) : bool :=
  negb (str_mem nl x) && forallb (fun k => negb (contains x k)) detail_keys.

(** A row of the table of members: the columns before a device and its name,
    or a row that names no device, such as that of a removed disk. *)
Inductive member_row := Member (columns dev : string) | NoMember (text : string).
Definition row_text (r : member_row) : string :=
  match r with Member c d => c +:+ ("/dev/" +:+ d) | NoMember t => t end.
Definition row_device (r : member_row) : option string :=
  match r with Member _ d => Some ("/dev/" +:+ d) | NoMember _ => None end.

(** A device name: no blank, no colon, short enough for the buffers. *)
Definition device_word (d : string) : bool :=
  negb (str_mem ":" d) && no_space d && (String.length d <? 200)%nat.

Definition row_ok (r : member_row) : Prop :=
  match r with
  | Member c d => str_mem ":" c = false /\ str_mem "/" c = false /\ str_mem nl c = false /\ device_word d = true
  | NoMember t => other_line t = true
  end.

(** What mdadm prints: the array, the six lines the parser reads in the order
    mdadm has them, and whatever other lines before, between and after them,
    then the table of members. *)
Record mdadm_detail := mk_detail {
  md_name : string; md_level : Z; md_size : Z; md_size_more : string; md_devices : Z;
  md_state : string; md_active : Z; md_failed : Z; md_rows : list member_row;
  md_before_level : list string; md_before_size : list string; md_before_devices : list string;
  md_before_state : list string; md_before_active : list string; md_before_failed : list string;
}.
Definition detail_lines (x : mdadm_detail) : list string :=
  ["/dev/" +:+ (md_name x +:+ ":")] ++
  md_before_level x ++ level_line (md_level x) ::
  md_before_size x ++ size_line (md_size x) (md_size_more x) ::
  md_before_devices x ++ devices_line (md_devices x) ::
  md_before_state x ++ state_line (md_state x) ::
  md_before_active x ++ active_line (md_active x) ::
  md_before_failed x ++ failed_line (md_failed x) ::
  (row_text <$> md_rows x).

Record detail_ok (x : mdadm_detail) : Prop := {
  do_name : device_word (md_name x) = true;
  do_numbers : in_i32 (md_level x) /\ in_u64 (md_size x) /\ in_i32 (md_devices x) /\
    in_i32 (md_active x) /\ in_i32 (md_failed x);
  do_size_more : starts_digit (md_size_more x) = false /\ str_mem ":" (md_size_more x) = false /\
    str_mem nl (md_size_more x) = false;
  do_state : str_mem ":" (md_state x) = false /\ str_mem nl (md_state x) = false;
  do_others : Forall (fun l => Forall (fun y => other_line y = true) l)
    [md_before_level x; md_before_size x; md_before_devices x; md_before_state x; md_before_active x;
     md_before_failed x];
  do_rows : Forall row_ok (md_rows x);
  do_members : NoDup (omap row_device (md_rows x));
}.

Definition array_status (st : string) : string :=
  if contains st "active" then
    if contains st "degraded" then RAID_STATUS_DEGRADED else RAID_STATUS_ACTIVE
  else RAID_STATUS_FAILED.

Lemma pretty_no_colon (z : Z) : str_mem ":" (pretty z) = false.
Proof. by apply str_mem_pretty. Qed.

(** [tag] is a text that ends with a colon. *)
Ltac tags :=
  repeat first
    [ rewrite (contains_app_l _ _ "Raid Level :") by done
    | rewrite (contains_app_l _ _ "State :") by done
    | rewrite (contains_app_l _ _ "Raid Devices :") by done
    | rewrite (contains_app_l _ _ "Failed Devices :") by done
    | rewrite (contains_app_l _ _ "Active Devices :") by done
    | rewrite (contains_app_l _ _ "Array Size :") by done
    | rewrite (contains_app_last "Raid Level " ":") by done
    | rewrite (contains_app_last "State " ":") by done
    | rewrite (contains_app_last "Raid Devices " ":") by done
    | rewrite (contains_app_last "Failed Devices " ":") by done
    | rewrite (contains_app_last "Active Devices " ":") by done
    | rewrite (contains_app_last "Array Size " ":") by done ].

Lemma scan_d_field pre fmt old (z : Z) :
  in_i32 z -> sscanf_go fmt SPlain (pre +:+ pretty z) = sscanf_go "%d" SPlain (pretty z) ->
  scan_field fmt (pre +:+ pretty z) old = z.
Proof.
  intros Hz E. unfold scan_field, sscanf. rewrite E. pose proof (sscanf_d z "" Hz eq_refl) as Hd.
  rewrite str_app_nil_r in Hd. unfold sscanf in Hd. by rewrite Hd.
Qed.

Lemma scan_blank_d_field pre fmt old (z : Z) :
  in_i32 z -> sscanf_go fmt SPlain (pre +:+ pretty z) = sscanf_go "%d" SPlain (skip_ws (pretty z)) ->
  scan_field fmt (pre +:+ pretty z) old = z.
Proof.
  intros Hz E. apply scan_d_field; [done|]. rewrite E.
  pose proof (skip_ws_pretty z "") as Hs. rewrite str_app_nil_r in Hs. by rewrite Hs.
Qed.

Lemma parse_level a level : in_i32 level ->
  parse_detail_line a (level_line level) = Some (set_level a level).
Proof.
  intros Hl. unfold parse_detail_line, level_line. pose proof (pretty_no_colon level). tags.
  by rewrite scan_d_field.
Qed.

Lemma parse_array_size a size t : in_u64 size -> starts_digit t = false -> str_mem ":" t = false ->
  parse_detail_line a (size_line size t) = Some (set_size a size).
Proof.
  intros Hs Ht Hc. unfold parse_detail_line, size_line.
  assert (str_mem ":" (pretty size +:+ t) = false) by (by rewrite str_mem_app, pretty_no_colon). tags.
  unfold scan_field. change (sscanf " Array Size : %llu" ("        Array Size : " +:+ pretty size +:+ t))
    with (sscanf "%llu" (skip_ws (pretty size +:+ t))). by rewrite skip_ws_pretty, sscanf_llu.
Qed.

Lemma parse_num a n : in_i32 n -> parse_detail_line a (devices_line n) = Some (set_num_devices a n).
Proof.
  intros Hl. unfold parse_detail_line, devices_line. pose proof (pretty_no_colon n). tags.
  by rewrite scan_blank_d_field.
Qed.

Lemma parse_act a n : in_i32 n -> parse_detail_line a (active_line n) = Some (set_active a n).
Proof.
  intros Hl. unfold parse_detail_line, active_line. pose proof (pretty_no_colon n). tags.
  by rewrite scan_blank_d_field.
Qed.

Lemma parse_fail a n : in_i32 n -> parse_detail_line a (failed_line n) = Some (set_failed a n).
Proof.
  intros Hl. unfold parse_detail_line, failed_line. pose proof (pretty_no_colon n). tags.
  by rewrite scan_blank_d_field.
Qed.

Lemma parse_state a st : str_mem ":" st = false ->
  parse_detail_line a (state_line st) = Some (set_status a (array_status st)).
Proof. intros Hst. unfold parse_detail_line, state_line. tags. done. Qed.

(** ** Member devices *)

Lemma scan_device_word d : no_space d = true -> (String.length d < 250)%nat ->
  scan_device ("/dev/" +:+ d) = Some ("/dev/" +:+ d).
Proof.
  intros Hw Hl. unfold scan_device.
  assert (sscanf "%s" ("/dev/" +:+ d) = [CStr ("/dev/" +:+ d)]) as ->.
  { unfold sscanf. change (sscanf_go "%s" SPlain ("/dev/" +:+ d)) with
      (let '(x, r) := take_word (String.length ("/dev/" +:+ d)) ("/dev/" +:+ d) in
       if streq x "" then [] else CStr x :: sscanf_go "" SPlain r).
    by rewrite take_word_all. }
  destruct (Nat.ltb_spec (String.length ("/dev/" +:+ d)) MAX_PATH) as [|Hge]; [done|].
  rewrite str_length_app in Hge. unfold MAX_PATH in Hge. simpl in Hge. lia.
Qed.

(** The array of devices: names, then free entries. *)
Definition entries (l : list string) : list string := l ++ replicate (16 - length l) "".

Lemma listed_before_slots l k d : Forall (fun x => x <> "") l -> d ∉ l ->
  listed_before (l ++ replicate k "") d = false.
Proof.
  induction 1 as [|x l Hx Hl IH]; intros Hd; [by destruct k|]. simpl.
  apply not_elem_of_cons in Hd as [Hne Hd]. rewrite (streq_ne x "") by done.
  rewrite (streq_ne x d) by congruence. by apply IH.
Qed.

Lemma first_free l k : Forall (fun x => x <> "") l ->
  find_idx (fun d => streq d "") (l ++ replicate (S k) "") = Some (length l).
Proof. induction 1 as [|x l Hx Hl IH]; [done|]. simpl in *. rewrite streq_ne by done. by rewrite IH. Qed.

Lemma none_free l : Forall (fun x => x <> "") l -> find_idx (fun d => streq d "") l = None.
Proof. induction 1 as [|x l Hx Hl IH]; [done|]. simpl in *. rewrite streq_ne by done. by rewrite IH. Qed.

(** A new device takes the next free entry; a full table stays as it is. *)
Lemma add_device_slots l d : Forall (fun x => x <> "") l -> d ∉ l -> (String.length d < MAX_PATH)%nat ->
  add_device (entries (take 16 l)) d = entries (take 16 (l ++ [d])).
Proof.
  intros Hl Hd Hlen. assert (Forall (fun x => x <> "") (take 16 l)) as Ht by (by apply Forall_take).
  assert (d ∉ take 16 l) as Hdt by (intros Hin; apply Hd; apply (subseteq_take 16 l); done).
  unfold add_device, entries. rewrite listed_before_slots by done.
  destruct (decide (length l < 16)%nat) as [Hn|Hn].
  - rewrite (take_ge l), (take_ge (l ++ [d])) by (rewrite ?length_app; simpl; lia).
    replace (16 - length l)%nat with (S (16 - length (l ++ [d]))) by (rewrite length_app; simpl; lia).
    rewrite first_free by done. rewrite insert_app_r_alt by lia. rewrite Nat.sub_diag. simpl.
    rewrite <- app_assoc. simpl. rewrite str_take_ge; [done|unfold MAX_PATH in Hlen; lia].
  - rewrite take_app_le by lia. rewrite length_take.
    replace (16 - min 16 (length l))%nat with 0%nat by lia. simpl. rewrite app_nil_r.
    by rewrite none_free.
Qed.

Lemma strstr_dev c t : str_mem "/" c = false -> strstr (c +:+ ("/dev/" +:+ t)) "/dev/" = Some ("/dev/" +:+ t).
Proof.
  induction c as [|a c IH]; [done|]. intros [Ha Hc]%orb_false_iff. rewrite str_app_cons.
  generalize dependent ("/dev/" +:+ t). intros u IH. cbn [strstr has_prefix].
  rewrite Ascii.eqb_sym, Ha. by apply IH.
Qed.

Lemma parse_other a x : other_line x = true -> parse_detail_line a x = Some a.
Proof.
  unfold other_line, detail_keys. cbn [forallb]. rewrite !andb_true_iff, !negb_true_iff.
  intros (_ & K1 & K2 & K3 & K4 & K5 & K6 & K7 & _). unfold parse_detail_line. rewrite K1, K2, K3, K4, K5, K6.
  unfold contains in K7. by destruct (strstr x "/dev/").
Qed.

Lemma parse_others o : Forall (fun y => other_line y = true) o ->
  forall a l, parse_detail a (o ++ l) = parse_detail a l.
Proof. induction 1 as [|x o Hx Ho IH]; intros a l; [done|]. cbn [app parse_detail]. by rewrite parse_other. Qed.

Lemma parse_nonempty l : forall a, parse_detail a (filter (fun x => x <> "") l) = parse_detail a l.
Proof.
  induction l as [|x l IH]; intros a; [done|]. rewrite filter_cons. case_decide as Hx.
  - cbn [parse_detail]. destruct (parse_detail_line a x); [apply IH|done].
  - subst x. cbn [parse_detail]. by rewrite parse_other.
Qed.

(** One row of the table. *)
Lemma parse_row a l r :
  devices a = entries (take 16 l) -> Forall (fun x => x <> "") l -> row_ok r ->
  (forall d, row_device r = Some d -> d ∉ l) ->
  parse_detail_line a (row_text r) =
    Some (if num_devices a <? 16 then set_devices a (entries (take 16 (l ++ option_list (row_device r)))) else a).
Proof.
  intros Ha Hl Hr Hd. destruct r as [c d|t]; cbn [row_text row_device option_list row_ok] in *.
  2: { rewrite parse_other by done. rewrite app_nil_r, <- Ha. by destruct a, (_ <? 16). }
  destruct Hr as (Hcc & Hcs & _ & Hw). unfold device_word in Hw.
  apply andb_true_iff in Hw as [[Hc%negb_true_iff Hs]%andb_true_iff Hlt%Nat.ltb_lt].
  assert (forall p, str_mem ":" p = true -> contains (c +:+ ("/dev/" +:+ d)) p = false) as Ht.
  { intros p Hp. apply (contains_char ":"); [done|]. by rewrite !str_mem_app, Hcc, Hc. }
  unfold parse_detail_line. rewrite !Ht by done. rewrite strstr_dev by done.
  destruct (num_devices a <? 16); [|done]. rewrite scan_device_word, Ha by (done || lia). do 2 f_equal.
  apply add_device_slots; [done|by apply Hd|]. rewrite str_length_app. unfold MAX_PATH. simpl. lia.
Qed.

Lemma parse_rows rows : forall a l,
  devices a = entries (take 16 l) -> Forall (fun x => x <> "") l -> Forall row_ok rows ->
  NoDup (l ++ omap row_device rows) ->
  parse_detail a (row_text <$> rows) =
    Some (if num_devices a <? 16 then set_devices a (entries (take 16 (l ++ omap row_device rows))) else a).
Proof.
  induction rows as [|r rows IH]; intros a l Ha Hl Hr Hnd.
  { simpl. rewrite app_nil_r, <- Ha. by destruct a, (_ <? 16). }
  inversion Hr as [|?? Hr1 Hr2]; subst. rewrite fmap_cons. cbn [parse_detail].
  assert (omap row_device (r :: rows) = option_list (row_device r) ++ omap row_device rows) as Eo by (by destruct r).
  rewrite Eo in Hnd |- *. rewrite (parse_row a l r); [|done..|].
  2: { intros d Hd. rewrite Hd in Hnd. apply NoDup_app in Hnd as (_ & Hnd & _). intros Hin.
       apply (Hnd d Hin). simpl. set_solver. }
  rewrite app_assoc in Hnd |- *. destruct (num_devices a <? 16) eqn:En.
  - rewrite (IH _ (l ++ option_list (row_device r))); cbn [num_devices devices set_devices]; [by rewrite En|done| |done..].
    apply Forall_app. split; [done|]. destruct r; cbn [row_device option_list]; by repeat constructor.
  - rewrite (IH _ l); [by rewrite En|done..|].
    rewrite <- app_assoc in Hnd. apply NoDup_app in Hnd as (? & Hdis & [_ [_ ?]]%NoDup_app).
    apply NoDup_app. split; [done|]. split; [|done]. intros d Hin Hd. apply (Hdis d Hin). set_solver.
Qed.

(** The first line names the array itself, followed by a colon. *)
Lemma parse_title a md :
  devices a = entries [] -> num_devices a < 16 -> device_word md = true ->
  parse_detail_line a ("/dev/" +:+ (md +:+ ":")) = Some (set_devices a (entries ["/dev/" +:+ (md +:+ ":")])).
Proof.
  intros Ha Hn Hw. unfold device_word in Hw.
  apply andb_true_iff in Hw as [[_ Hs]%andb_true_iff Hlt%Nat.ltb_lt].
  assert (forall p, str_mem " " p = true -> contains ("/dev/" +:+ (md +:+ ":")) p = false) as Ht.
  { intros p Hp. apply (contains_char " "); [done|]. by rewrite !str_mem_app, (no_space_mem md). }
  unfold parse_detail_line. rewrite !Ht by done.
  change (strstr ("/dev/" +:+ (md +:+ ":")) "/dev/") with (Some ("/dev/" +:+ (md +:+ ":"))). cbv iota.
  apply Z.ltb_lt in Hn. rewrite Hn, Ha.
  assert (String.length (md +:+ ":") < 250)%nat by (rewrite str_length_app; simpl; lia).
  rewrite scan_device_word; [|by rewrite no_space_app, Hs|done]. do 2 f_equal.
  apply (add_device_slots []); [done|set_solver|].
  rewrite str_length_app. unfold MAX_PATH. simpl. lia.
Qed.

(** What the parser makes of it. *)
Definition status_of (nm : string) (x : mdadm_detail) : raid_array_t :=
  mk_raid nm (md_level x) (md_devices x)
    (entries (take 16 (("/dev/" +:+ (md_name x +:+ ":")) ::
       if md_devices x <? 16 then omap row_device (md_rows x) else [])))
    (array_status (md_state x)) (md_failed x) (md_active x) (md_size x).

Lemma rows_no_title md rows : Forall row_ok rows -> ("/dev/" +:+ (md +:+ ":")) ∉ omap row_device rows.
Proof.
  intros Hr Hin. apply list_elem_of_omap in Hin as ([c d|t] & Hin & E); [|done].
  rewrite Forall_forall in Hr. destruct (Hr _ Hin) as (_ & _ & _ & Hw). injection E as E. change ("" +:+ ?x) with x in E. subst d.
  unfold device_word in Hw. by rewrite str_mem_app, orb_true_r in Hw.
Qed.

Lemma detail_parsed nm x : detail_ok x ->
  parse_detail (mk_raid nm 0 0 (replicate 16 "") "" 0 0 0) (detail_lines x) = Some (status_of nm x).
Proof.
  intros [Hmd (Hlevel & Hsize & Hn & Hact & Hfl) (Ht & Htc & _) [Hst _] Ho Hrows Hnd]. unfold detail_lines.
  repeat match goal with H : Forall _ (_ :: _) |- _ => apply Forall_cons in H as [? ?] end.
  cbn [app parse_detail]. rewrite parse_title by done.
  rewrite parse_others by done. cbn [parse_detail]. rewrite parse_level by done.
  rewrite parse_others by done. cbn [parse_detail]. rewrite parse_array_size by done.
  rewrite parse_others by done. cbn [parse_detail]. rewrite parse_num by done.
  rewrite parse_others by done. cbn [parse_detail]. rewrite parse_state by done.
  rewrite parse_others by done. cbn [parse_detail]. rewrite parse_act by done.
  rewrite parse_others by done. cbn [parse_detail]. rewrite parse_fail by done.
  rewrite (parse_rows _ _ ["/dev/" +:+ (md_name x +:+ ":")]); [|done| |done|].
  - unfold status_of. simpl. by destruct (md_devices x <? 16).
  - by repeat constructor.
  - constructor; [by apply rows_no_title|done].
Qed.

(** No line has a line end inside. *)
Lemma detail_lines_ok x : detail_ok x -> Forall (fun y => str_mem nl y = false) (detail_lines x).
Proof.
  intros [Hmd _ (_ & _ & Ht) [_ Hst] Ho Hrows _].
  assert (forall z : Z, str_mem nl (pretty z) = false) as Hp by (intros; by apply str_mem_pretty).
  assert (forall d, device_word d = true -> str_mem nl d = false) as Hw.
  { intros d Hd. unfold device_word in Hd. apply andb_true_iff in Hd as [[_ Hs]%andb_true_iff _].
    by apply no_space_mem. }
  assert (forall o, Forall (fun y => other_line y = true) o -> Forall (fun y => str_mem nl y = false) o) as Hother.
  { intros o Hall. eapply Forall_impl; [exact Hall|]. intros y Hy. unfold other_line in Hy. apply andb_true_iff in Hy as [Hy _].
    by apply negb_true_iff in Hy. }
  repeat match goal with H : Forall _ (_ :: _) |- _ => apply Forall_cons in H as [? ?] end.
  unfold detail_lines.
  repeat first [apply Forall_app; split|apply Forall_cons; split|apply Forall_nil_2|by apply Hother];
    try (unfold level_line, size_line, devices_line, state_line, active_line, failed_line;
         rewrite ?str_mem_app, ?Hp, ?Ht, ?Hst, ?(Hw (md_name x)) by done; done).
  apply Forall_fmap. eapply Forall_impl; [exact Hrows|]. intros [c d|t]; unfold compose; cbn [row_ok row_text].
  - intros (_ & _ & Hc & Hd). by rewrite !str_mem_app, Hc, (Hw d Hd).
  - intros Hy. unfold other_line in Hy. apply andb_true_iff in Hy as [Hy _]. by apply negb_true_iff in Hy.
Qed.

Section Claims.
Context {W : Type} `{Shell W} `{Files W} `{Procs W} `{!ShellTrace W} `{!ShellStarts W} `{!SleepTrace W}.

(** [raid_create] checks, in this order, the caller's privileges, that
    there are at least two devices, and that the level is 0, 1, 5 or 10; a
    failed check, or a device that does not exist, returns its error code with
    nothing run.  Otherwise it zeroes the superblock of every device, in
    order, then runs one "mdadm --create" with the level, the number of
    devices and the device names joined by blanks, and returns SUCCESS or
    ERROR_SYSTEM_CALL. *)
Theorem raid_create_spec name level devs (w : W) :
  (forall e, create_guard level devs w = Some e -> raid_create name level devs w = Some (e, w)) /\
  (create_guard level devs w = None ->
    (forall l1 d l2, devs = l1 ++ d :: l2 -> Forall (fun x => file_exists x w = true) l1 ->
      file_exists d w = false -> fits_buffer "" (l1 ++ [""]) = true ->
      raid_create name level devs w = Some (ERROR_NOT_FOUND, w)) /\
    (Forall (fun x => file_exists x w = true) devs -> fits_buffer "" devs = true ->
      exists r w', raid_create name level devs w = Some (r, w') /\
        (r = SUCCESS \/ r = ERROR_SYSTEM_CALL) /\
        trace w' = trace w ++ (zero_cmd <$> devs) ++
          [create_cmd name level (Z.of_nat (length devs)) (spaced devs)])).
Proof.
  split; [intros e; apply raid_create_guarded|]. intros Hg. rewrite (raid_create_joined _ _ _ _ Hg). split.
  - intros l1 d l2 -> Hl Hd Hf. by rewrite (bind_step (join_devices_missing l1 d l2 "" w Hl Hd Hf)).
  - intros Hex Hf. destruct devs as [|x l]; [by apply create_guard_nil in Hg|].
    pose proof (join_devices_spec x l "" w Hex) as Hj. rewrite Hf in Hj.
    rewrite (bind_step Hj). apply create_commands.
Qed.

(** C22. Both functions that build a device list with [strcat] run past the
    end of their MAX_COMMAND-byte buffer exactly when the names joined by
    blanks take MAX_COMMAND bytes or more: no check of the code prevents it.
    Below that, the command that is run is complete when all of it fits in
    MAX_COMMAND bytes, and cut inside the list of names when the text up to
    their end does not: mdadm and vgcreate then get fewer names, the last of
    them possibly a shorter one. *)
Theorem joined_names_bound (w : W) :
  (forall name level devs,
    create_guard level devs w = None -> Forall (fun x => file_exists x w = true) devs ->
    (raid_create name level devs w = None <-> (MAX_COMMAND <= String.length (spaced devs))%nat) /\
    let count := Z.of_nat (length devs) in
    command_text (create_head name level count) (spaced devs) " --force --run 2>&1"
      (create_cmd name level count (spaced devs))) /\
  (forall vg pvs, is_root w = true -> pvs <> [] ->
    (lvm_vg_create vg pvs w = None <-> (MAX_COMMAND <= String.length (spaced pvs))%nat) /\
    command_text (vgcreate_head vg) (spaced pvs) " 2>&1" (vgcreate_cmd vg (spaced pvs))).
Proof.
  split.
  - intros name level devs Hg Hex. split; [|apply create_cmd_text]. rewrite (raid_create_joined _ _ _ _ Hg).
    destruct devs as [|x l]; [by apply create_guard_nil in Hg|].
    rewrite <- fits_empty. unfold bind at 1. rewrite join_devices_spec by done.
    destruct (fits_buffer "" (x :: l)); [|done]. split; [|done].
    by destruct (create_commands name level (x :: l) ("" +:+ spaced (x :: l)) w) as (r & w' & -> & _).
  - intros vg pvs Hroot Hne. split; [|apply vgcreate_cmd_text]. destruct pvs as [|x l]; [done|].
    rewrite <- fits_empty. unfold lvm_vg_create. unfold bind at 1, reads. rewrite Hroot. cbn [negb].
    destruct (Z.ltb_spec (Z.of_nat (length (x :: l))) 1) as [Hl|_]; [simpl in Hl; lia|].
    unfold bind at 1. rewrite join_pvs_spec. destruct (fits_buffer "" (x :: l)); [|done].
    split; [|done]. by destruct (checked_runs (vgcreate_cmd vg ("" +:+ spaced (x :: l))) w) as (r & w' & -> & _).
Qed.

(** [raid_monitor] hands [raid_get_status] a pointer into the structure it
    clears: after every success the array has lost its name, so that
    monitoring the same structure again is refused as an invalid parameter
    with nothing run. *)
Theorem raid_monitor_loses_name a (w : W) a' w' :
  raid_monitor a w = Some ((SUCCESS, Some a'), w') ->
  name a <> "" /\ name a' = "" /\
  forall w2 : W, raid_monitor a' w2 = Some ((ERROR_INVALID_PARAM, None), w2).
Proof.
  unfold raid_monitor. destruct (streq (name a) "") eqn:Hn; [done|].
  intros E. apply status_name in E. simpl in E. split; [|split; [done|]].
  - intros Ha. by rewrite Ha in Hn.
  - intros w2. by rewrite E.
Qed.
(** C21. What "mdadm --detail" prints for an array is read back, whatever other
    lines (version, times, UUID, titles, empty lines) are among those the
    program looks for: level, size, number of devices, and the active and
    failed counts are the printed numbers; with fewer than 16 devices, the
    devices of the table follow in order up to the 16 entries there are, and
    from 16 on none is listed; the state is "degraded" or "active" when the
    printed state says so.  A state without the word "active", such as the
    "clean" of a healthy idle array, is reported as "failed", and the title
    line is listed as a first device.  A path that does not exist is reported
    with nothing run, a failing mdadm by its error. *)
Theorem raid_status_roundtrip nm x (w w' : W) r out :
  exec (snprintf MAX_COMMAND "mdadm --detail %s 2>&1" [CStr nm]) w = Some ((r, out), w') ->
  (file_exists nm w = false -> raid_get_status nm false w = Some ((ERROR_NOT_FOUND, None), w)) /\
  (file_exists nm w = true -> r <> SUCCESS -> raid_get_status nm false w = Some ((r, None), w')) /\
  (file_exists nm w = true -> r = SUCCESS ->
    detail_ok x -> out = str_concat ((fun y => y +:+ NL) <$> detail_lines x) ->
    raid_get_status nm false w = Some ((SUCCESS, Some (status_of (str_take (MAX_NAME - 1) nm) x)), w')).
Proof.
  intros He. unfold raid_get_status. unfold bind at 1 3 5, reads. split_and!; intros Hex; rewrite Hex; cbn [negb].
  - done.
  - intros Hr. rewrite (bind_step He). by destruct (Z.eqb_spec r SUCCESS).
  - intros -> Hx ->. rewrite (bind_step He). cbn [negb Z.eqb SUCCESS].
    rewrite strtok_text by (by apply detail_lines_ok). by rewrite parse_nonempty, detail_parsed.
Qed.
End Claims.

(** ** A machine with two disks and an array *)

Definition two_disks : sim :=
  sim_put_nodes blank (<["/dev/sdb" := KOther]> (<["/dev/sdc" := KOther]> (<["/dev/md0" := KOther]> ∅))).

(** A healthy mirror, as mdadm 4 prints it. *)
Definition md0_detail : mdadm_detail := {|
  md_name := "md0"; md_level := 1; md_size := 1046528; md_size_more := " (1022.00 MiB 1071.64 MB)";
  md_devices := 2; md_state := "clean "; md_active := 2; md_failed := 0;
  md_rows :=
    [NoMember "     Spare Devices : 0"; NoMember ""; NoMember "Consistency Policy : resync"; NoMember "";
     NoMember "              Name : storage:0  (local to host storage)";
     NoMember "              UUID : 3aaa0122:29827cfa:5331ad66:ca767371";
     NoMember "            Events : 17"; NoMember "";
     NoMember "    Number   Major   Minor   RaidDevice State";
     Member "       0       8       16        0      active sync   " "sdb";
     Member "       1       8       32        1      active sync   " "sdc"];
  md_before_level := ["           Version : 1.2"; "     Creation Time : Fri Nov 21 10:00:00 2025"];
  md_before_size := [];
  md_before_devices := ["     Used Dev Size : 1046528 (1022.00 MiB 1071.64 MB)"];
  md_before_state := ["     Total Devices : 2"; "       Persistence : Superblock is persistent"; "";
                      "       Update Time : Fri Nov 21 10:05:00 2025"];
  md_before_active := [];
  md_before_failed := ["   Working Devices : 2"];
|}.
Definition md0_text : string := str_concat ((fun x => x +:+ NL) <$> detail_lines md0_detail).
Lemma md0_detail_ok : detail_ok md0_detail.
Proof.
  split; try (vm_compute; reflexivity); unfold in_i32, in_u64; simpl; try lia; try done.
  - repeat constructor.
  - repeat constructor.
  - apply (bool_decide_eq_true_1 _). vm_compute. reflexivity.
Qed.
Definition detail_md0 : string := snprintf MAX_COMMAND "mdadm --detail %s 2>&1" [CStr "/dev/md0"].
Definition with_array : sim := sim_put_answers two_disks {[ detail_md0 := (md0_text, 0) ]}.
Definition after_status : sim := logged detail_md0 with_array.

Lemma raid_create_spec_witness :
  exists r w', raid_create "/dev/md0" 1 ["/dev/sdb"; "/dev/sdc"] two_disks = Some (r, w') /\
    (r = SUCCESS \/ r = ERROR_SYSTEM_CALL) /\
    trace w' = [zero_cmd "/dev/sdb"; zero_cmd "/dev/sdc"; create_cmd "/dev/md0" 1 2 "/dev/sdb /dev/sdc"].
Proof.
  refine (proj2 (proj2 (raid_create_spec "/dev/md0" 1 ["/dev/sdb"; "/dev/sdc"] two_disks) _) _ _).
  - vm_compute. reflexivity.
  - repeat constructor.
  - vm_compute. reflexivity.
Defined.

Definition long_name : string := str_repeat "x" 1023.

Lemma joined_names_bound_witness :
  lvm_vg_create "vg" ["/dev/sdb"; long_name] two_disks = None.
Proof.
  refine (proj2 (proj1 (proj2 (joined_names_bound two_disks) "vg" ["/dev/sdb"; long_name] _ _)) _).
  - reflexivity.
  - discriminate.
  - apply Nat.leb_le. vm_compute. reflexivity.
Defined.

Lemma raid_monitor_loses_name_witness :
  name (mk_raid "/dev/md0" 0 0 [] "" 0 0 0) <> "" /\
  name (mk_raid "" 1 2 (entries ["/dev/md0:"; "/dev/sdb"; "/dev/sdc"]) RAID_STATUS_FAILED 0 2 1046528) = "" /\
  forall w2 : sim,
    raid_monitor (mk_raid "" 1 2 (entries ["/dev/md0:"; "/dev/sdb"; "/dev/sdc"]) RAID_STATUS_FAILED 0 2 1046528) w2
      = Some ((ERROR_INVALID_PARAM, None), w2).
Proof. eapply (raid_monitor_loses_name _ with_array _ after_status). vm_compute. reflexivity. Defined.

Lemma raid_status_roundtrip_witness :
  raid_get_status "/dev/md0" false with_array =
    Some ((SUCCESS, Some (mk_raid "/dev/md0" 1 2 (entries ["/dev/md0:"; "/dev/sdb"; "/dev/sdc"])
             RAID_STATUS_FAILED 0 2 1046528)), after_status).
Proof.
  refine (proj2 (proj2 (raid_status_roundtrip "/dev/md0" md0_detail with_array after_status SUCCESS md0_text _))
    _ _ md0_detail_ok _); vm_compute; reflexivity.
Defined.
