(* ===== verification/LvmProps.v ===== *)
(** * Theorems about src/lvm_manager.c *)

From stdpp Require Import base list gmap strings pretty.
From Stdlib Require Import Ascii ZArith Lia.
From S2P Require Import Prelude CString CFormat Sys SimOS Lvm.

#[local] Opaque snprintf sprintf.

(** ** Listings of one line per entry *)

(** The white space of a row: before the first column, between the columns and
    after the last, as the LVM commands align them. *)
Record spacing := mk_spacing {
  sp_lead : string; sp_1 : string; sp_2 : string; sp_3 : string; sp_4 : string; sp_tail : string;
}.
Definition blanks (s : string) : Prop := all_space s = true /\ str_mem nl s = false.
Record spacing_ok (g : spacing) : Prop := {
  spo_ends : blanks (sp_lead g) /\ blanks (sp_tail g);
  spo_gaps : gap (sp_1 g) /\ gap (sp_2 g) /\ gap (sp_3 g) /\ gap (sp_4 g);
}.

(** The text of a listing: entries, each with the white space of its row. *)
Definition listing_text {A} (columns : A -> spacing -> string) (l : list (A * spacing)) : string :=
  str_concat ((fun x => x +:+ NL) <$> ((fun r => sp_lead r.2 +:+ columns r.1 r.2) <$> l)).

Section Listings.
Context {A : Type} (parse : string -> option A) (columns : A -> spacing -> string) (ok : A -> Prop).
(** An entry that can be printed is printed without leading blanks or line
    ends, and its columns are parsed as the entry, however they are aligned. *)
Hypothesis columns_parsed : forall x g, ok x -> spacing_ok g -> parse (columns x g) = Some x.
Hypothesis columns_line : forall x g, ok x -> spacing_ok g ->
  skip_ws (columns x g) = columns x g /\ columns x g <> "" /\ str_mem nl (columns x g) = false.

Definition row_ok (r : A * spacing) : Prop := ok r.1 /\ spacing_ok r.2.

Lemma parse_lines_all n l : Forall row_ok l -> forall acc, (length acc <= n)%nat ->
  parse_lines parse n acc ((fun r => sp_lead r.2 +:+ columns r.1 r.2) <$> l) = take n (acc ++ l.*1).
Proof.
  induction 1 as [|[x g] l [Hx Hg] Hl IH]; intros acc Hacc.
  { simpl. rewrite app_nil_r. by rewrite take_ge by lia. }
  rewrite !fmap_cons. cbn [parse_lines fst snd] in *. destruct (Nat.leb_spec n (length acc)) as [Hge|Hlt].
  - rewrite take_app_le, take_ge by lia. done.
  - destruct (columns_line x g Hx Hg) as (Hs & Hne & _).
    rewrite skip_gap by apply (spo_ends g Hg). rewrite Hs.
    assert ((0 <? strlen (columns x g)) = true) as -> by (destruct (columns x g); done).
    rewrite columns_parsed, IH by (done || rewrite length_app; simpl; lia). by rewrite <- app_assoc.
Qed.

Lemma listing_parsed {W : Type} `{Shell W} cmd n l (w w' : W) :
  Forall row_ok l -> exec cmd w = Some ((SUCCESS, listing_text columns l), w') ->
  listing cmd parse n w = Some ((SUCCESS, take n l.*1), w').
Proof.
  intros Hl He. unfold listing. rewrite (bind_step He). cbn [negb Z.eqb SUCCESS].
  unfold listing_text. rewrite strtok_lines.
  - by rewrite parse_lines_all by (simpl; lia || done).
  - apply Forall_fmap. eapply Forall_impl; [exact Hl|]. intros [x g] [Hx Hg]. unfold compose. cbn [fst snd] in *.
    destruct (columns_line x g Hx Hg) as (_ & Hne & Hn). destruct (spo_ends g Hg) as [[_ Hlead] _]. split.
    + by destruct (sp_lead g).
    + by rewrite str_mem_app, Hlead, Hn.
Qed.
End Listings.

(** ** Printing *)

(** A row of "pvs --noheadings"; a volume that belongs to no group has an
    empty last column. *)
Definition pv_columns (p : pv_info_t) (g : spacing) : string :=
  pv_name p +:+ (sp_1 g +:+ (pretty (pv_size p) +:+ (sp_2 g +:+ (pretty (pv_free p) +:+
    (sp_3 g +:+ (pv_vg p +:+ sp_tail g)))))).

(** What LVM can print: names without white space that fit the fields, sizes
    of 64 bits, and a group exactly when the volume is allocated. *)
Record pv_ok (p : pv_info_t) : Prop := {
  ok_name : no_space (pv_name p) = true /\ pv_name p <> "" /\ (String.length (pv_name p) <= 255)%nat;
  ok_sizes : in_u64 (pv_size p) /\ in_u64 (pv_free p);
  ok_vg : no_space (pv_vg p) = true /\ (String.length (pv_vg p) <= 63)%nat;
  ok_alloc : is_allocated p = if streq (pv_vg p) "" then 0 else 1;
}.

(** A blank of the format and a number of the text. *)
Lemma scan_llu_gap f g (z : Z) t : all_space g = true -> in_u64 z -> starts_digit t = false ->
  sscanf_go (String " " (String "%" (String "l" (String "l" (String "u" f))))) SPlain (g +:+ (pretty z +:+ t)) =
    CInt z :: sscanf_go f SPlain t.
Proof.
  intros Hg Hz Ht. rewrite blank_conversion by (done || by apply skip_ws_pretty). rewrite !at_long.
  by rewrite scan_u_gap.
Qed.
(** The last word, when there is one. *)
Lemma blank_last f g x t : all_space g = true -> no_space x = true -> all_space t = true ->
  sscanf_go (String " " (String "%" f)) SPlain (g +:+ (x +:+ t)) =
    sscanf_go f (SSpec 0) ("" +:+ (x +:+ (if streq x "" then "" else t))).
Proof.
  intros Hg Hx Ht. rewrite scan_blank_gap by done. destruct x as [|c x].
  - change ("" +:+ t) with t. by assert (skip_ws t = "") as -> by (rewrite <- (str_app_nil_r t); by rewrite skip_gap).
  - by rewrite skip_ws_word.
Qed.


Lemma parse_pv_columns p g : pv_ok p -> spacing_ok g -> parse_pv (pv_columns p g) = Some p.
Proof.
  intros [(Hn & Hne & Hnl) [Hs Hf] [Hv Hvl] Ha] [[_ [Ht _]] (G1 & G2 & G3 & _)].
  unfold parse_pv, sscanf, pv_columns. rewrite at_percent, width_255.
  rewrite scan_s_gap by (done || (right; lia) || by apply gap_ends).
  rewrite scan_llu_gap by (done || by apply G1 || by apply gap_ends).
  rewrite scan_llu_gap by (done || by apply G2 || by apply gap_ends).
  rewrite blank_last by (done || by apply G3). rewrite width_63, scan_last by (done || by destruct (pv_vg p)).
  destruct p as [nm sz fr vg al]. simpl in *.
  destruct (streq vg "") eqn:E; subst al.
  - apply streq_spec in E. by subst vg.
  - by rewrite str_take_ge.
Qed.

(** A line that starts with a name. *)
Lemma named_line name rest :
  no_space name = true -> name <> "" -> str_mem nl rest = false ->
  skip_ws (name +:+ rest) = name +:+ rest /\ name +:+ rest <> "" /\ str_mem nl (name +:+ rest) = false.
Proof.
  intros Hn Hne Hr. split; [by apply skip_ws_word|]. split; [by destruct name|].
  by rewrite str_mem_app, (no_space_mem name).
Qed.

(** No white space of a row has a line end. *)
Lemma spacing_line g : spacing_ok g ->
  str_mem nl (sp_1 g) = false /\ str_mem nl (sp_2 g) = false /\ str_mem nl (sp_3 g) = false /\
  str_mem nl (sp_4 g) = false /\ str_mem nl (sp_tail g) = false.
Proof. by intros [[_ [_ ?]] ((_ & _ & ?) & (_ & _ & ?) & (_ & _ & ?) & (_ & _ & ?))]. Qed.

Lemma pv_columns_line p g : pv_ok p -> spacing_ok g ->
  skip_ws (pv_columns p g) = pv_columns p g /\ pv_columns p g <> "" /\ str_mem nl (pv_columns p g) = false.
Proof.
  intros [(Hn & Hne & _) _ [Hv _] _] (L1 & L2 & L3 & _ & L5)%spacing_line. apply named_line; [done..|].
  by rewrite !str_mem_app, (no_space_mem (pv_vg p)), !(str_mem_pretty nl), L1, L2, L3, L5.
Qed.








(** What each command prints, and that its rows are well formed. *)
Definition pvs_text : list (pv_info_t * spacing) -> string := listing_text pv_columns.

Section Claims.
Context {W : Type} `{Shell W} `{!ShellTrace W} `{!ShellStarts W}.

Lemma pv_list_parsed n l (w w' : W) :
  Forall (row_ok pv_ok) l -> exec pvs_cmd w = Some ((SUCCESS, pvs_text l), w') ->
  lvm_pv_list n w = Some ((SUCCESS, take n l.*1), w').
Proof. apply (listing_parsed parse_pv pv_columns pv_ok parse_pv_columns pv_columns_line). Qed.



(** What the search in the listing leads to. *)
Lemma pv_remove_step pv l (w w1 : W) :
  is_root w = true -> Forall (row_ok pv_ok) l -> exec pvs_cmd w = Some ((SUCCESS, pvs_text l), w1) ->
  lvm_pv_remove pv w =
    match find_idx (fun p => streq (pv_name p) pv) (take 32 l.*1) ≫= (take 32 l.*1 !!.) with
    | Some p => if is_allocated p =? 0 then checked (pvremove_cmd pv) w1 else Some (ERROR_GENERIC, w1)
    | None => checked (pvremove_cmd pv) w1
    end.
Proof.
  intros Hroot Hl He. unfold lvm_pv_remove. unfold bind at 1, reads. rewrite Hroot. cbn [negb].
  unfold lvm_pv_info. rewrite bind_assoc, (bind_step (pv_list_parsed 32 l w w1 Hl He)).
  unfold bind, ret, pick. cbn [negb Z.eqb SUCCESS].
  destruct (find_idx _ (take 32 l.*1)) as [i|] eqn:Ei; cbn [mbind option_bind]; [|done].
  destruct (take 32 l.*1 !! i) as [p|] eqn:Ep; [by destruct (is_allocated p =? 0)|done].
Qed.


(** When pvs fails there is nothing in the listing. *)
Lemma pv_remove_blind pv e out (w w1 : W) :
  is_root w = true -> exec pvs_cmd w = Some ((e, out), w1) -> e <> SUCCESS ->
  lvm_pv_remove pv w = checked (pvremove_cmd pv) w1.
Proof.
  intros Hroot He Hne. unfold lvm_pv_remove. unfold bind at 1, reads. rewrite Hroot. cbn [negb].
  unfold lvm_pv_info, lvm_pv_list, listing. rewrite !bind_assoc, (bind_step He). unfold bind, ret.
  by destruct (Z.eqb_spec e SUCCESS).
Qed.

(** C24. Removing a physical volume: when pvs shows it with a volume group among
    its first 32 volumes, however it aligns its columns, ERROR_GENERIC is
    returned and nothing but pvs is run; otherwise "pvremove -f" is run once,
    after pvs, and its result returned.  It is also run when pvs itself
    failed, whatever group the volume is in. *)
Theorem pv_remove_refuses_allocated pv e out (w w1 : W) :
  is_root w = true -> exec pvs_cmd w = Some ((e, out), w1) ->
  let removed :=
    let '(ok, w2) := ran (pvremove_cmd pv) w1 in
    lvm_pv_remove pv w = Some (if ok then SUCCESS else ERROR_SYSTEM_CALL, w2) /\
    trace w2 = trace w ++ [pvs_cmd; pvremove_cmd pv] in
  (e <> SUCCESS -> removed) /\
  (forall l, e = SUCCESS -> out = pvs_text l -> Forall (row_ok pv_ok) l ->
    match find_idx (fun p => streq (pv_name p) pv) (take 32 l.*1) ≫= (take 32 l.*1 !!.) with
    | Some p =>
        if is_allocated p =? 0 then removed
        else lvm_pv_remove pv w = Some (ERROR_GENERIC, w1) /\ trace w1 = trace w ++ [pvs_cmd]
    | None => removed
    end).
Proof.
  intros Hroot He removed.
  assert (trace w1 = trace w ++ [pvs_cmd]) as Ht.
  { destruct (exec_runs pvs_cmd w) as (r & o & w2 & E & Ht & _). congruence. }
  pose proof (checked_ran (pvremove_cmd pv) w1 (popen_starts _ _)) as Ec.
  pose proof (ran_trace (pvremove_cmd pv) w1) as Htc.
  assert (lvm_pv_remove pv w = checked (pvremove_cmd pv) w1 -> removed) as Hrun.
  { intros E. unfold removed. rewrite E, Ec. destruct (ran _ w1) as [ok w2]. split; [done|].
    simpl in Htc. by rewrite Htc, Ht, <- app_assoc. }
  split; [intros Hne; by apply Hrun, (pv_remove_blind pv e out)|].
  intros l -> -> Hl. pose proof (pv_remove_step pv l w w1 Hroot Hl He) as Hs.
  destruct (find_idx _ (take 32 l.*1) ≫= _) as [p|]; [|auto]. by destruct (is_allocated p =? 0); auto.
Qed.
End Claims.

(** ** A machine with two physical volumes *)

(** The rows as LVM prints them: two blanks, names padded on the right, numbers
    on the left. *)
Definition two_pvs : list (pv_info_t * spacing) :=
  [(mk_pv "/dev/sdb" 1073741824 536870912 "vg0" 1, mk_spacing "  " "   " "  " " " " " "");
   (mk_pv "/dev/sdc" 2147483648 2147483648 "" 0, mk_spacing "  " "   " " " "    " " " "")].
Definition pv_rows : string :=
  "  /dev/sdb   1073741824  536870912 vg0" +:+ NL +:+ "  /dev/sdc   2147483648 2147483648    " +:+ NL.
Definition lvm_machine : sim := sim_put_answers blank {[ pvs_cmd := (pv_rows, 0) ]}.
Definition after_pvs : sim := logged pvs_cmd lvm_machine.

Lemma two_pvs_ok : Forall (row_ok pv_ok) two_pvs.
Proof.
  repeat apply Forall_cons_2; try apply Forall_nil_2; repeat split; simpl; unfold in_u64; lia || done.
Qed.



Lemma pv_remove_refuses_allocated_witness :
  lvm_pv_remove "/dev/sdb" lvm_machine = Some (ERROR_GENERIC, after_pvs) /\
  trace after_pvs = trace lvm_machine ++ [pvs_cmd].
Proof.
  refine (proj2 (pv_remove_refuses_allocated "/dev/sdb" SUCCESS pv_rows lvm_machine after_pvs _ _)
            two_pvs _ _ two_pvs_ok).
  - reflexivity.
  - vm_compute. reflexivity.
  - reflexivity.
  - reflexivity.
Defined.
