(* ===== verification/Fs.v ===== *)
(** * src/filesystem_ops.c: creation, mounting, checking, resizing and
    inspection of file systems *)

From stdpp Require Import base list gmap strings pretty.
From Stdlib Require Import Ascii ZArith Lia.
From S2P Require Import Prelude CString CFormat Sys.

Inductive fs_type_t := FS_TYPE_EXT4 | FS_TYPE_XFS | FS_TYPE_BTRFS | FS_TYPE_UNKNOWN.

#[global] Instance fs_type_eq_dec : EqDecision fs_type_t.
Proof. solve_decision. Defined.

Definition fs_string_to_type (type_str : string) : fs_type_t :=
  if streq type_str "ext4" then FS_TYPE_EXT4
  else if streq type_str "xfs" then FS_TYPE_XFS
  else if streq type_str "btrfs" then FS_TYPE_BTRFS
  else FS_TYPE_UNKNOWN.

Definition fs_type_to_string (type : fs_type_t) : string :=
  match type with
  | FS_TYPE_EXT4 => "ext4"
  | FS_TYPE_XFS => "xfs"
  | FS_TYPE_BTRFS => "btrfs"
  | FS_TYPE_UNKNOWN => "unknown"
  end.

(** An entry of /proc/mounts and the answer of [statvfs]. *)
Record mntent := mk_mnt { mnt_fsname : string; mnt_dir : string; mnt_type : string; mnt_opts : string }.
Record vfs := mk_vfs {
  f_blocks : Z; f_bfree : Z; f_bavail : Z; f_frsize : Z; f_files : Z; f_ffree : Z;
}.

(** [setmntent]/[getmntent] on /proc/mounts ([None] when it cannot be
    opened), and [statvfs]. *)
Class Mounts (W : Type) := {
  mounts : W -> option (list mntent);
  statvfs : string -> W -> option vfs;
}.

Record fs_info_t := mk_fs {
  fs_device : option string;
  fs_mount_point : option string;
  fs_type : fs_type_t;
  fs_type_str : option string;
  fs_options : option string;
  fs_usage : option (Z * Z * Z);
  is_mounted : Z;
}.

Section Fs.
Context {W : Type} `{Shell W} `{Mounts W}.

Definition fs_create_mount_point (path : string) : M W Z :=
  let! st := reads (stat path) in
  match st with
  | Some KDir => ret SUCCESS
  | Some KOther => ret ERROR_GENERIC
  | None =>
      let! r := call (mkdir path) in
      if negb (r =? 0) then ret ERROR_SYSTEM_CALL else ret SUCCESS
  end.

(** ** Creation *)

Definition mkfs_cmd (type : fs_type_t) : option string :=
  match type with
  | FS_TYPE_EXT4 => Some "mkfs.ext4 -F"
  | FS_TYPE_XFS => Some "mkfs.xfs -f"
  | FS_TYPE_BTRFS => Some "mkfs.btrfs -f"
  | FS_TYPE_UNKNOWN => None
  end.

(** A label that is NULL or empty is not passed. *)
Definition has_label (label : option string) : option string :=
  match label with Some l => if 0 <? strlen l then Some l else None | None => None end.

Definition mkfs_line (fs_cmd device : string) (label : option string) : string :=
  match has_label label with
  | Some l => snprintf MAX_COMMAND ("%s -L " +:+ quoted "%s" +:+ " %s 2>&1") [CStr fs_cmd; CStr l; CStr device]
  | None => snprintf MAX_COMMAND "%s %s 2>&1" [CStr fs_cmd; CStr device]
  end.

Definition fs_create (device : string) (type : fs_type_t) (label : option string) : M W Z :=
  let! root := reads is_root in
  if negb root then ret ERROR_PERMISSION
  else
    let! ok := reads (file_exists device) in
    if negb ok then ret ERROR_NOT_FOUND
    else match mkfs_cmd type with
         | None => ret ERROR_INVALID_PARAM
         | Some fs_cmd => checked (mkfs_line fs_cmd device label)
         end.

(** [snprintf(opts + strlen(opts), sizeof(opts) - strlen(opts), ...)] *)
Definition append_opt (opts : string) (f : string) (args : list carg) : string :=
  opts +:+ snprintf (256 - String.length opts) f args.

Definition fs_create_ext4_advanced (device : string) (block_size inode_ratio : Z)
    (label : option string) : M W Z :=
  let! root := reads is_root in
  if negb root then ret ERROR_PERMISSION
  else
    let o1 := if 0 <? block_size then append_opt "" "-b %d " [CInt block_size] else "" in
    let o2 := if 0 <? inode_ratio then append_opt o1 "-i %d " [CInt inode_ratio] else o1 in
    let o3 := match has_label label with
              | Some l => append_opt o2 ("-L " +:+ quoted "%s" +:+ " ") [CStr l] | None => o2 end in
    checked (snprintf MAX_COMMAND "mkfs.ext4 -F %s %s 2>&1" [CStr o3; CStr device]).

Definition fs_create_xfs_advanced (device : string) (block_size : Z) (label : option string) : M W Z :=
  let! root := reads is_root in
  if negb root then ret ERROR_PERMISSION
  else
    let o1 := if 0 <? block_size then snprintf 256 "-b size=%d " [CInt block_size] else "" in
    let o2 := match has_label label with
              | Some l => append_opt o1 ("-L " +:+ quoted "%s" +:+ " ") [CStr l] | None => o1 end in
    checked (snprintf MAX_COMMAND "mkfs.xfs -f %s %s 2>&1" [CStr o2; CStr device]).

(** ** Mounting *)

Definition fs_mount_cmd (device mount_point : string) (type : fs_type_t) (options : option string) : string :=
  match has_label options with
  | Some o => snprintf MAX_COMMAND "mount -t %s -o %s %s %s 2>&1"
                [CStr (fs_type_to_string type); CStr o; CStr device; CStr mount_point]
  | None => snprintf MAX_COMMAND "mount -t %s %s %s 2>&1"
              [CStr (fs_type_to_string type); CStr device; CStr mount_point]
  end.

Definition fs_mount (device mount_point : string) (type : fs_type_t) (options : option string) : M W Z :=
  let! root := reads is_root in
  if negb root then ret ERROR_PERMISSION
  else
    let! ok := reads (file_exists device) in
    if negb ok then ret ERROR_NOT_FOUND
    else
      fs_create_mount_point mount_point ;;!
      checked (fs_mount_cmd device mount_point type options).

Definition fs_unmount (mount_point : string) (force : bool) : M W Z :=
  let! root := reads is_root in
  if negb root then ret ERROR_PERMISSION
  else checked (if force then snprintf MAX_COMMAND "umount -f %s 2>&1" [CStr mount_point]
                else snprintf MAX_COMMAND "umount %s 2>&1" [CStr mount_point]).

(** The entry the loops over /proc/mounts stop at. *)
Definition mnt_matches (what : string) (m : mntent) : bool :=
  streq (mnt_fsname m) what || streq (mnt_dir m) what.

Definition fs_is_mounted (device_or_mount : string) : W -> Z :=
  fun w => match mounts w with
           | None => -1
           | Some l => if existsb (mnt_matches device_or_mount) l then 1 else 0
           end.

(** ** Checking and repairing *)

(** The command, its result as it is; a repair logs the output when it
    failed. *)
Definition plain (cmd : string) : M W Z := let! ro := exec cmd in ret ro.1.
Definition plain_logged (cmd : string) : M W Z := let! ro := exec_logged cmd in ret ro.1.

Definition fs_check (device : string) (type : fs_type_t) : M W Z :=
  let! root := reads is_root in
  if negb root then ret ERROR_PERMISSION
  else
    let! m := reads (fs_is_mounted device) in
    if negb (m =? 0) then ret ERROR_GENERIC
    else match type with
         | FS_TYPE_EXT4 => plain (snprintf MAX_COMMAND "e2fsck -n %s 2>&1" [CStr device])
         | FS_TYPE_XFS => plain (snprintf MAX_COMMAND "xfs_repair -n %s 2>&1" [CStr device])
         | _ => ret ERROR_INVALID_PARAM
         end.

Definition fs_repair (device : string) (type : fs_type_t) (auto_repair : bool) : M W Z :=
  let! root := reads is_root in
  if negb root then ret ERROR_PERMISSION
  else
    let! m := reads (fs_is_mounted device) in
    if negb (m =? 0) then ret ERROR_GENERIC
    else match type with
         | FS_TYPE_EXT4 =>
             plain_logged (if auto_repair then snprintf MAX_COMMAND "e2fsck -y %s 2>&1" [CStr device]
                    else snprintf MAX_COMMAND "e2fsck -p %s 2>&1" [CStr device])
         | FS_TYPE_XFS => plain_logged (snprintf MAX_COMMAND "xfs_repair %s 2>&1" [CStr device])
         | _ => ret ERROR_INVALID_PARAM
         end.

(** ** Resizing *)

Definition fs_resize (device : string) (type : fs_type_t) (new_size_mb : Z) : M W Z :=
  let! root := reads is_root in
  if negb root then ret ERROR_PERMISSION
  else match type with
       | FS_TYPE_EXT4 =>
           checked (if new_size_mb =? 0 then snprintf MAX_COMMAND "resize2fs %s 2>&1" [CStr device]
                    else snprintf MAX_COMMAND "resize2fs %s %lluM 2>&1" [CStr device; CInt new_size_mb])
       | _ => ret ERROR_INVALID_PARAM
       end.

Definition fs_resize_ext4_online (device : string) : M W Z := fs_resize device FS_TYPE_EXT4 0.

Definition fs_resize_xfs_online (mount_point : string) : M W Z :=
  let! root := reads is_root in
  if negb root then ret ERROR_PERMISSION
  else checked (snprintf MAX_COMMAND "xfs_growfs %s 2>&1" [CStr mount_point]).

(** ** Information *)

(** The three sizes: products of unsigned 64-bit integers. *)
Definition usage (v : vfs) : Z * Z * Z :=
  (u64 (f_blocks v * f_frsize v), u64 (u64 (f_blocks v - f_bfree v) * f_frsize v),
   u64 (f_bavail v * f_frsize v)).

Definition fs_get_usage (mount_point : string) : M W (Z * option (Z * Z * Z)) :=
  let! v := reads (statvfs mount_point) in
  match v with
  | None => ret (ERROR_SYSTEM_CALL, None)
  | Some v => ret (SUCCESS, Some (usage v))
  end.

(** [info] was cleared: every string is cut and terminated, and the sizes
    stay 0 when [statvfs] fails. *)
Definition fs_get_info (device_or_mount : string) : M W (Z * option fs_info_t) :=
  let! ms := reads mounts in
  match ms with
  | None => ret (ERROR_SYSTEM_CALL, None)
  | Some l =>
      match find_idx (mnt_matches device_or_mount) l ≫= (l !!.) with
      | None => ret (ERROR_NOT_FOUND, None)
      | Some m =>
          let dir := str_take (MAX_PATH - 1) (mnt_dir m) in
          let! u := fs_get_usage dir in
          ret (SUCCESS, Some (mk_fs (Some (str_take (MAX_PATH - 1) (mnt_fsname m))) (Some dir)
            (fs_string_to_type (mnt_type m)) (Some (str_take 15 (mnt_type m)))
            (Some (str_take 255 (mnt_opts m))) (Some (default (0, 0, 0) u.2)) 1))
      end
  end.

(** The caller's array is not cleared: a string that fills its field is not
    terminated, and sizes are not written when [statvfs] fails. *)
Definition list_mount (acc : list fs_info_t) (m : mntent) : M W (list fs_info_t) :=
  match copied MAX_PATH (mnt_dir m) with
  | None => ub
  | Some dir =>
      let! u := fs_get_usage dir in
      ret (acc ++ [mk_fs (copied MAX_PATH (mnt_fsname m)) (Some dir) (fs_string_to_type (mnt_type m))
                     (copied 16 (mnt_type m)) (copied 256 (mnt_opts m)) u.2 1])
  end.

Definition fs_list_mounted (max_fs : nat) : M W (Z * list fs_info_t) :=
  let! ms := reads mounts in
  match ms with
  | None => ret (ERROR_SYSTEM_CALL, [])
  | Some l => let! r := foldM list_mount [] (take max_fs l) in ret (SUCCESS, r)
  end.
End Fs.
