(* ===== verification/Memory.v ===== *)
(** * src/memory_manager.c: swap files and memory monitoring

    The sizes of /proc/meminfo as the program reads them, the two ratios
    computed from them, the swap commands, the automatic swap, the monitoring
    loop and the texts that are printed. *)

From stdpp Require Import base list gmap strings pretty.
From Stdlib Require Import Ascii ZArith Lia.
From S2P Require Import Prelude CString CFormat CFloat Sys.

(** The integer fields of [memory_info_t], and the whole structure. *)
Record mem_kb := mk_mem {
  total_kb : Z;
  free_kb : Z;
  available_kb : Z;
  cached_kb : Z;
  buffers_kb : Z;
  swap_total_kb : Z;
  swap_free_kb : Z;
  swap_used_kb : Z;
}.
Record memory_info_t := mk_meminfo {
  kb : mem_kb;
  memory_pressure : single;
  swap_usage_percent : single;
}.
(** After [memset]. *)
Definition zero_mem : memory_info_t := mk_meminfo (mk_mem 0 0 0 0 0 0 0 0) d0 d0.

Record swap_info_t := mk_swap {
  sw_path : string;
  sw_type : string;
  sw_size_kb : option Z;
  sw_used_kb : option Z;
  sw_priority : Z;
  sw_active : Z;
}.

(** ** /proc/meminfo *)

(** [sscanf(line, fmt, &field) == 1] *)
Definition meminfo_value (fmt line : string) : option Z :=
  match sscanf fmt line with [CInt z] => Some z | _ => None end.

(** The seven tests of the loop, in order, with their [continue]; [value] is
    what the line gives for a format. *)
Definition meminfo_fields (value : string -> option Z) (i : mem_kb) : mem_kb :=
  match value "MemTotal: %llu" with
  | Some z => mk_mem z (free_kb i) (available_kb i) (cached_kb i) (buffers_kb i)
                (swap_total_kb i) (swap_free_kb i) (swap_used_kb i)
  | None =>
  match value "MemFree: %llu" with
  | Some z => mk_mem (total_kb i) z (available_kb i) (cached_kb i) (buffers_kb i)
                (swap_total_kb i) (swap_free_kb i) (swap_used_kb i)
  | None =>
  match value "MemAvailable: %llu" with
  | Some z => mk_mem (total_kb i) (free_kb i) z (cached_kb i) (buffers_kb i)
                (swap_total_kb i) (swap_free_kb i) (swap_used_kb i)
  | None =>
  match value "Cached: %llu" with
  | Some z => mk_mem (total_kb i) (free_kb i) (available_kb i) z (buffers_kb i)
                (swap_total_kb i) (swap_free_kb i) (swap_used_kb i)
  | None =>
  match value "Buffers: %llu" with
  | Some z => mk_mem (total_kb i) (free_kb i) (available_kb i) (cached_kb i) z
                (swap_total_kb i) (swap_free_kb i) (swap_used_kb i)
  | None =>
  match value "SwapTotal: %llu" with
  | Some z => mk_mem (total_kb i) (free_kb i) (available_kb i) (cached_kb i) (buffers_kb i)
                z (swap_free_kb i) (swap_used_kb i)
  | None =>
  match value "SwapFree: %llu" with
  | Some z => mk_mem (total_kb i) (free_kb i) (available_kb i) (cached_kb i) (buffers_kb i)
                (swap_total_kb i) z (swap_used_kb i)
  | None => i
  end end end end end end end.

Definition meminfo_line (i : mem_kb) (line : string) : mem_kb :=
  meminfo_fields (fun fmt => meminfo_value fmt line) i.

Definition meminfo_lines (i : mem_kb) (lines : list string) : mem_kb :=
  fold_left meminfo_line lines i.

Definition with_used (i : mem_kb) : mem_kb :=
  mk_mem (total_kb i) (free_kb i) (available_kb i) (cached_kb i) (buffers_kb i)
    (swap_total_kb i) (swap_free_kb i) (u64 (swap_total_kb i - swap_free_kb i)).

(** [(float) a / b], both converted. *)
Definition ratio (a b : Z) : single := fdiv (to_single a) (to_single b).

Definition swap_percent (i : mem_kb) (old : single) : single :=
  if 0 <? swap_total_kb i
  then narrow (dmul (widen (ratio (swap_used_kb i) (swap_total_kb i))) (to_double 100)) else old.

Definition memory_calculate_pressure (i : mem_kb) : single :=
  if total_kb i =? 0 then d0
  else
    let available_ratio := ratio (available_kb i) (total_kb i) in
    let pressure := narrow (dsub (to_double 1) (widen available_ratio)) in
    let pressure :=
      if (0 <? swap_total_kb i) && (0 <? swap_used_kb i) then
        let swap_factor := ratio (swap_used_kb i) (swap_total_kb i) in
        narrow (dadd (dmul (widen pressure) lit_0_7) (dmul (widen swap_factor) lit_0_3))
      else pressure in
    if dgt (widen pressure) (to_double 1) then to_single 1 else pressure.

Section Memory.
Context {W : Type} `{Shell W} `{Files W}.

Definition memory_parse_meminfo (info : memory_info_t) : M W (Z * memory_info_t) :=
  let! fp := reads (fopen_r "/proc/meminfo") in
  match fp with
  | None => ret (ERROR_SYSTEM_CALL, info)
  | Some text =>
      let i := with_used (meminfo_lines (kb info) (fgets_chunks 256 text)) in
      ret (SUCCESS, mk_meminfo i (memory_pressure info) (swap_percent i (swap_usage_percent info)))
  end.

Definition memory_get_info : M W (Z * memory_info_t) :=
  let! r := memory_parse_meminfo zero_mem in
  let '(result, info) := r in
  if negb (result =? SUCCESS) then ret (result, info)
  else ret (SUCCESS, mk_meminfo (kb info) (memory_calculate_pressure (kb info)) (swap_usage_percent info)).

Definition memory_check_low (threshold_mb : Z) : M W Z :=
  let! r := memory_get_info in
  if negb (r.1 =? SUCCESS) then ret (-1)
  else ret (if available_kb (kb r.2) <? u64 (threshold_mb * 1024) then 1 else 0).

(** ** Swap *)

(** [if (execute_command(...) != SUCCESS) return ERROR_SYSTEM_CALL] *)
Definition or_system_error (cmd : string) (k : M W Z) : M W Z :=
  let! ro := exec cmd in
  if negb (ro.1 =? SUCCESS) then ret ERROR_SYSTEM_CALL else k.

(** The same after the output was logged. *)
Definition or_logged_error (cmd : string) (k : M W Z) : M W Z :=
  let! ro := exec_logged cmd in
  if negb (ro.1 =? SUCCESS) then ret ERROR_SYSTEM_CALL else k.

Definition dd_cmd (path : string) (size_mb : Z) : string :=
  snprintf MAX_COMMAND "dd if=/dev/zero of=%s bs=1M count=%llu 2>&1" [CStr path; CInt size_mb].
Definition mkswap_cmd (device : string) : string := snprintf MAX_COMMAND "mkswap %s 2>&1" [CStr device].
Definition swapon_cmd (path : string) (priority : Z) : string :=
  if 0 <=? priority then snprintf MAX_COMMAND "swapon -p %d %s 2>&1" [CInt priority; CStr path]
  else snprintf MAX_COMMAND "swapon %s 2>&1" [CStr path].

Definition swap_create_file (path : string) (size_mb : Z) : M W Z :=
  let! root := reads is_root in
  if negb root then ret ERROR_PERMISSION
  else or_system_error (dd_cmd path size_mb) (call (chmod path 384) ;;! ret SUCCESS).

Definition swap_make (device : string) : M W Z :=
  let! root := reads is_root in
  if negb root then ret ERROR_PERMISSION
  else or_system_error (mkswap_cmd device) (ret SUCCESS).

Definition swap_enable (path : string) (priority : Z) : M W Z :=
  let! root := reads is_root in
  if negb root then ret ERROR_PERMISSION
  else or_logged_error (swapon_cmd path priority) (ret SUCCESS).

Definition swap_disable (path : string) : M W Z :=
  let! root := reads is_root in
  if negb root then ret ERROR_PERMISSION
  else or_system_error (snprintf MAX_COMMAND "swapoff %s 2>&1" [CStr path]) (ret SUCCESS).

(** A line of /proc/swaps: fields the conversion did not reach keep what the
    cleared structure held; the two sizes come from variables that were not
    initialised ([None]). *)
Definition parse_swap (line : string) : swap_info_t :=
  match sscanf "%255s %15s %lu %lu %d" line with
  | [CStr p; CStr t; CInt s; CInt u; CInt pr] => mk_swap p t (Some s) (Some u) pr 1
  | [CStr p; CStr t; CInt s; CInt u] => mk_swap p t (Some s) (Some u) 0 1
  | [CStr p; CStr t; CInt s] => mk_swap p t (Some s) None 0 1
  | [CStr p; CStr t] => mk_swap p t None None 0 1
  | [CStr p] => mk_swap p "" None None 0 1
  | _ => mk_swap "" "" None None 0 1
  end.

(** The first line is skipped. *)
Definition swap_list (max_swaps : nat) : M W (Z * list swap_info_t) :=
  let! fp := reads (fopen_r "/proc/swaps") in
  match fp with
  | None => ret (ERROR_SYSTEM_CALL, [])
  | Some text => ret (SUCCESS, parse_swap <$> take max_swaps (drop 1 (fgets_chunks 256 text)))
  end.

Definition memory_parse_swaps (max_swaps : nat) : M W (Z * list swap_info_t) := swap_list max_swaps.

Definition swap_remove_file (path : string) : M W Z :=
  let! r := call (unlink path) in
  if negb (r =? 0) then ret ERROR_SYSTEM_CALL else ret SUCCESS.

(** ** Automatic swap *)

Definition memory_auto_swap (threshold_mb swap_size_mb : Z) (swap_path : string) : M W Z :=
  let! low := memory_check_low threshold_mb in
  if low <=? 0 then ret 0
  else
    let! r1 := swap_create_file swap_path swap_size_mb in
    if negb (r1 =? SUCCESS) then ret ERROR_SYSTEM_CALL
    else
      let! r2 := swap_make swap_path in
      if negb (r2 =? SUCCESS) then swap_remove_file swap_path ;;! ret ERROR_SYSTEM_CALL
      else
        let! r3 := swap_enable swap_path (-1) in
        if negb (r3 =? SUCCESS) then swap_remove_file swap_path ;;! ret ERROR_SYSTEM_CALL
        else ret SUCCESS.

(** ** Continuous monitoring *)

(** The warnings of one turn: the level and the text given to the log. *)
Definition memory_alerts (info : memory_info_t) : list string :=
  (if dgt (widen (memory_pressure info)) lit_0_8
   then [sprintf "HIGH memory pressure: %.1f%%"
           [CDbl (widen (fmul (memory_pressure info) (to_single 100)))]] else []) ++
  (if dgt (widen (swap_usage_percent info)) (to_double 80)
   then [sprintf "HIGH swap usage: %.1f%%" [CDbl (widen (swap_usage_percent info))]] else []).

(** One turn of the endless loop; [callback] is NULL or a function of the
    caller. *)
Definition memory_monitor_turn `{Procs W} (check_interval_sec : Z)
    (callback : option (memory_info_t -> M W unit)) : M W (list string) :=
  let! r := memory_get_info in
  let! alerts :=
    if r.1 =? SUCCESS then
      (match callback with Some f => f r.2 | None => ret tt end) ;;!
      ret (memory_alerts r.2)
    else ret [] in
  (fun w => Some (tt, sleep check_interval_sec w)) ;;!
  ret alerts.

(** [memory_monitor_continuous] watched for a number of turns: it never
    returns. *)
Fixpoint memory_monitor_continuous `{Procs W} (turns : nat) (check_interval_sec : Z)
    (callback : option (memory_info_t -> M W unit)) : M W (list string) :=
  match turns with
  | O => ret []
  | S turns' =>
      let! alerts := memory_monitor_turn check_interval_sec callback in
      let! rest := memory_monitor_continuous turns' check_interval_sec callback in
      ret (alerts ++ rest)
  end.
End Memory.

(** ** Printing *)

(** What [memory_format_size(kb, buffer, size)] leaves in [buffer]. *)
Definition memory_format_size (kb : Z) (size : nat) : string :=
  if kb <? 1024 then snprintf size "%llu KB" [CInt kb]
  else if kb <? 1024 * 1024 then snprintf size "%.2f MB" [CDbl (ddiv (to_double kb) (to_double 1024))]
  else snprintf size "%.2f GB"
         [CDbl (ddiv (to_double kb) (dmul (to_double 1024) (to_double 1024)))].

(** One line of [memory_print_info]. *)
Definition size_line (label : string) (kb : Z) : string :=
  sprintf (label +:+ "%s" +:+ NL) [CStr (memory_format_size kb 64)].

(** The text [memory_print_info(info)] prints. *)
Definition memory_print_info (info : memory_info_t) : string :=
  NL +:+ "========== Memory Information ==========" +:+ NL +:+
  size_line "Total Memory:     " (total_kb (kb info)) +:+
  size_line "Free Memory:      " (free_kb (kb info)) +:+
  size_line "Available Memory: " (available_kb (kb info)) +:+
  size_line "Cached:           " (cached_kb (kb info)) +:+
  size_line "Buffers:          " (buffers_kb (kb info)) +:+
  NL +:+
  size_line "Total Swap:       " (swap_total_kb (kb info)) +:+
  size_line "Used Swap:        " (swap_used_kb (kb info)) +:+
  sprintf ("Swap Usage:       %.1f%%" +:+ NL) [CDbl (widen (swap_usage_percent info))] +:+
  sprintf ("Memory Pressure:  %.1f%%" +:+ NL)
    [CDbl (widen (fmul (memory_pressure info) (to_single 100)))] +:+
  "========================================" +:+ NL +:+ NL.

(** The line [memory_print_swap(swap)] prints; sizes that were never set
    cannot be printed. *)
Definition memory_print_swap (swap : swap_info_t) : option string :=
  match sw_size_kb swap, sw_used_kb swap with
  | Some size, Some used =>
      Some (sprintf ("%-30s %-10s %10s %10s %5d" +:+ NL)
              [CStr (sw_path swap); CStr (sw_type swap); CStr (memory_format_size size 64);
               CStr (memory_format_size used 64); CInt (sw_priority swap)])
  | _, _ => None
  end.
