(* ===== verification/Security.v ===== *)
(** * src/security_manager.c: access control lists, LUKS volumes, file
    attributes, audit log *)

From stdpp Require Import base list gmap strings pretty.
From Stdlib Require Import Ascii ZArith Lia.
From S2P Require Import Prelude CString CFormat Sys Utils.

Record acl_entry_t := mk_acl { acl_user : string; acl_permissions : string }.

(** [dm_name] and [key_size], which no function fills, are left out. *)
Record encrypted_volume_t := mk_vol {
  ev_device : string; ev_name : string; ev_dm_path : string; ev_is_open : Z; ev_cipher : string;
}.

Definition ATTR_IMMUTABLE : Z := 16.
Definition ATTR_APPEND_ONLY : Z := 32.
Definition ATTR_NO_DUMP : Z := 64.
Definition ATTR_SECURE_DEL : Z := 1024.

Definition AUDIT_LOG_FILE : string := "/var/log/storage_audit.log".

Inductive audit_operation_t :=
  | AUDIT_RAID_CREATE | AUDIT_RAID_MODIFY | AUDIT_LVM_CREATE | AUDIT_LVM_MODIFY
  | AUDIT_FS_MOUNT | AUDIT_FS_UNMOUNT | AUDIT_ENCRYPT | AUDIT_DECRYPT
  | AUDIT_ACL_CHANGE | AUDIT_SECURITY_EVENT.

(** [mkstemp] gives the name of a new file; [write_fd] is the [write] and
    [close] on it, with the number of bytes written, -1 for a failure; the flags of a file, as the two ioctls see them; the name
    of the user; [truncate] of a file to nothing. *)
Class Secure (W : Type) := {
  mkstemp : string -> W -> option string * W;
  write_fd : string -> string -> W -> Z * W;
  get_flags : string -> W -> option Z;
  set_flags : string -> Z -> W -> bool * W;
  can_open : string -> W -> bool;
  truncate_file : string -> W -> Z * W;
  user_name : W -> option string;
}.

Section Security.
Context {W : Type} `{Shell W} `{Files W} `{Clock W} `{Secure W}.

(** [if (execute_command(...) != SUCCESS) return ERROR_SYSTEM_CALL; return
    SUCCESS;] *)
Definition or_error (cmd : string) : M W Z :=
  let! ro := exec cmd in
  if negb (ro.1 =? SUCCESS) then ret ERROR_SYSTEM_CALL else ret SUCCESS.

(** The same for a caller that logs the output of a failed command. *)
Definition or_logged (cmd : string) : M W Z :=
  let! ro := exec_logged cmd in
  if negb (ro.1 =? SUCCESS) then ret ERROR_SYSTEM_CALL else ret SUCCESS.

(** ** ACLs *)

Definition acl_set (path user perms : string) : M W Z :=
  let! root := reads is_root in
  if negb root then ret ERROR_PERMISSION
  else
    let! ok := reads (file_exists path) in
    if negb ok then ret ERROR_NOT_FOUND
    else or_logged (snprintf MAX_COMMAND "setfacl -m u:%s:%s %s 2>&1" [CStr user; CStr perms; CStr path]).

Definition acl_set_default (path user perms : string) : M W Z :=
  let! root := reads is_root in
  if negb root then ret ERROR_PERMISSION
  else or_error (snprintf MAX_COMMAND "setfacl -d -m u:%s:%s %s 2>&1" [CStr user; CStr perms; CStr path]).

(** A line "user:NAME:PERMS" with a name of 1 to 63 characters. *)
Definition parse_acl (line : string) : option acl_entry_t :=
  if has_prefix "user:" line then
    let user_start := str_drop 5 line in
    match strchr user_start ":" with
    | Some colon =>
        let user := str_before user_start ":" in
        let user_len := strlen user in
        if (0 <? user_len) && (user_len <? 64)
        then Some (mk_acl user (str_take 15 (str_drop 1 colon))) else None
    | None => None
    end
  else None.

(** The loop stops when the caller's array is full. *)
Fixpoint acl_lines (max : nat) (acc : list acl_entry_t) (lines : list string) : list acl_entry_t :=
  match lines with
  | [] => acc
  | l :: rest =>
      if (max <=? length acc)%nat then acc
      else acl_lines max (match parse_acl l with Some e => acc ++ [e] | None => acc end) rest
  end.

Definition acl_get (path : string) (max_entries : nat) : M W (Z * list acl_entry_t) :=
  let! ok := reads (file_exists path) in
  if negb ok then ret (ERROR_NOT_FOUND, [])
  else
    let! ro := exec (snprintf MAX_COMMAND "getfacl %s 2>&1" [CStr path]) in
    if negb (ro.1 =? SUCCESS) then ret (ERROR_SYSTEM_CALL, [])
    else ret (SUCCESS, acl_lines max_entries [] (strtok ro.2 NL)).

Definition acl_remove (path user : string) : M W Z :=
  let! root := reads is_root in
  if negb root then ret ERROR_PERMISSION
  else or_error (snprintf MAX_COMMAND "setfacl -x u:%s %s 2>&1" [CStr user; CStr path]).

Definition acl_remove_all (path : string) : M W Z :=
  let! root := reads is_root in
  if negb root then ret ERROR_PERMISSION
  else or_error (snprintf MAX_COMMAND "setfacl -b %s 2>&1" [CStr path]).

Definition acl_set_recursive (path user perms : string) : M W Z :=
  let! root := reads is_root in
  if negb root then ret ERROR_PERMISSION
  else or_error (snprintf MAX_COMMAND "setfacl -R -m u:%s:%s %s 2>&1" [CStr user; CStr perms; CStr path]).

(** ** LUKS *)

Definition luks_format_cmd (pass_file device : string) (cipher : option string) (key_size : Z) : string :=
  match cipher with
  | Some c =>
      if 0 <? key_size then
        snprintf MAX_COMMAND
          "cryptsetup luksFormat --batch-mode --key-file %s --cipher %s --key-size %d %s 2>&1"
          [CStr pass_file; CStr c; CInt key_size; CStr device]
      else snprintf MAX_COMMAND "cryptsetup luksFormat --batch-mode --key-file %s %s 2>&1"
             [CStr pass_file; CStr device]
  | None => snprintf MAX_COMMAND "cryptsetup luksFormat --batch-mode --key-file %s %s 2>&1"
              [CStr pass_file; CStr device]
  end.

(** Run a command with the passphrase in a temporary file, removed after; the
    output of a failed command is logged then.  The result of the write is
    not looked at. *)
Definition with_pass_file (passphrase : string) (cmd : string -> string) : M W Z :=
  let! f := call (mkstemp "/tmp/luks_pass_XXXXXX") in
  match f with
  | None => ret ERROR_SYSTEM_CALL
  | Some pass_file =>
      call (write_fd pass_file passphrase) ;;!
      let! ro := exec_raw (cmd pass_file) in
      call (unlink pass_file) ;;!
      if negb (ro.1 =? SUCCESS) then
        match ro.2 with Some _ => ret ro.1 | None => ub end
      else ret SUCCESS
  end.

Definition luks_format_advanced (device passphrase : string) (cipher : option string) (key_size : Z) : M W Z :=
  let! root := reads is_root in
  if negb root then ret ERROR_PERMISSION
  else
    let! ok := reads (file_exists device) in
    if negb ok then ret ERROR_NOT_FOUND
    else with_pass_file passphrase (fun f => luks_format_cmd f device cipher key_size).

Definition luks_format (device passphrase : string) : M W Z :=
  luks_format_advanced device passphrase None 0.

Definition luks_open_cmd (device name pass_file : string) : string :=
  snprintf MAX_COMMAND "cryptsetup luksOpen --key-file %s %s %s 2>&1" [CStr pass_file; CStr device; CStr name].

Definition luks_open (device name passphrase : string) : M W Z :=
  let! root := reads is_root in
  if negb root then ret ERROR_PERMISSION
  else with_pass_file passphrase (luks_open_cmd device name).

Definition luks_close (name : string) : M W Z :=
  let! root := reads is_root in
  if negb root then ret ERROR_PERMISSION
  else or_error (snprintf MAX_COMMAND "cryptsetup luksClose %s 2>&1" [CStr name]).

Definition luks_is_luks (device : string) : M W Z :=
  let! ro := exec (snprintf MAX_COMMAND "cryptsetup isLuks %s 2>&1" [CStr device]) in
  ret (if ro.1 =? SUCCESS then 1 else 0).

(** The result of the dump is not checked: when the command could not be
    started, the buffer that is searched was never written. *)
Definition luks_get_info (device : string) : M W (Z * option encrypted_volume_t) :=
  let! is_luks := luks_is_luks device in
  if is_luks =? 0 then ret (ERROR_NOT_FOUND, None)
  else
    let! ro := exec_raw (snprintf MAX_COMMAND "cryptsetup luksDump %s 2>&1" [CStr device]) in
    match ro.2 with
    | None => ub
    | Some output =>
        let cipher :=
          match strstr output "Cipher:" with
          | Some l => match sscanf "Cipher: %63s" l with [CStr c] => c | _ => "" end
          | None => ""
          end in
        ret (SUCCESS, Some (mk_vol (str_take (MAX_PATH - 1) device) "" "" 0 cipher))
    end.

Definition change_key_cmd (device old_file new_file : string) : string :=
  snprintf MAX_COMMAND "cryptsetup luksChangeKey %s --key-file %s %s 2>&1"
    [CStr device; CStr old_file; CStr new_file].

(** When only one of the two files could be created it is left behind. *)
Definition luks_change_password (device old_pass new_pass : string) : M W Z :=
  let! root := reads is_root in
  if negb root then ret ERROR_PERMISSION
  else
    let! f1 := call (mkstemp "/tmp/luks_old_XXXXXX") in
    let! f2 := call (mkstemp "/tmp/luks_new_XXXXXX") in
    match f1, f2 with
    | Some old_file, Some new_file =>
        call (write_fd old_file old_pass) ;;! call (write_fd new_file new_pass) ;;!
        let! ro := exec_quiet (change_key_cmd device old_file new_file) in
        call (unlink old_file) ;;! call (unlink new_file) ;;! ret ro.1
    | _, _ => ret ERROR_SYSTEM_CALL
    end.

Definition luks_line (max : nat) (acc : list encrypted_volume_t) (line : string) : list encrypted_volume_t :=
  if (length acc <? max)%nat && negb (streq line "control")
  then acc ++ [mk_vol "" (str_take (MAX_NAME - 1) line) (snprintf MAX_PATH "/dev/mapper/%s" [CStr line]) 1 ""]
  else acc.

Definition luks_list_open (max_volumes : nat) : M W (Z * list encrypted_volume_t) :=
  let! ro := exec (snprintf MAX_COMMAND "ls -1 /dev/mapper/ 2>&1" []) in
  if negb (ro.1 =? SUCCESS) then ret (ERROR_SYSTEM_CALL, [])
  else ret (SUCCESS, fold_left (luks_line max_volumes) (strtok ro.2 NL) []).

(** ** File attributes *)

Definition attr_set (path : string) (flags : Z) : M W Z :=
  let! ok := reads (can_open path) in
  if negb ok then ret ERROR_SYSTEM_CALL
  else let! r := call (set_flags path flags) in ret (if r then SUCCESS else ERROR_SYSTEM_CALL).

Definition attr_unset (path : string) (flags : Z) : M W Z :=
  let! ok := reads (can_open path) in
  if negb ok then ret ERROR_SYSTEM_CALL
  else
    let! cur := reads (get_flags path) in
    match cur with
    | None => ret ERROR_SYSTEM_CALL
    | Some attrs =>
        let! r := call (set_flags path (Z.land attrs (u32 (Z.lnot flags)))) in
        ret (if r then SUCCESS else ERROR_SYSTEM_CALL)
    end.

Definition attr_get (path : string) : M W (Z * option Z) :=
  let! ok := reads (can_open path) in
  if negb ok then ret (ERROR_SYSTEM_CALL, None)
  else
    let! cur := reads (get_flags path) in
    ret (match cur with Some attrs => (SUCCESS, Some (u32 attrs)) | None => (ERROR_SYSTEM_CALL, None) end).

Definition attr_set_immutable (path : string) : M W Z := attr_set path ATTR_IMMUTABLE.
Definition attr_set_append_only (path : string) : M W Z := attr_set path ATTR_APPEND_ONLY.
Definition attr_unset_immutable (path : string) : M W Z := attr_unset path ATTR_IMMUTABLE.

(** ** Audit log *)

Definition op_str (op : audit_operation_t) : string :=
  match op with
  | AUDIT_RAID_CREATE => "RAID_CREATE" | AUDIT_RAID_MODIFY => "RAID_MODIFY"
  | AUDIT_LVM_CREATE => "LVM_CREATE" | AUDIT_LVM_MODIFY => "LVM_MODIFY"
  | AUDIT_FS_MOUNT => "FS_MOUNT" | AUDIT_FS_UNMOUNT => "FS_UNMOUNT"
  | AUDIT_ENCRYPT => "ENCRYPT" | AUDIT_DECRYPT => "DECRYPT"
  | AUDIT_ACL_CHANGE => "ACL_CHANGE" | AUDIT_SECURITY_EVENT => "SECURITY"
  end.

Definition audit_line (now : string) (op : audit_operation_t) (user details : string) : string :=
  sprintf "[%s] %s by %s: %s" [CStr now; CStr (op_str op); CStr user; CStr details] +:+ NL.

(** Opening the file and writing to it are one step.  When the file cannot be
    opened to append, it is opened with "w", which empties it.  A date that
    does not fit its 64 bytes would be printed from an unset buffer. *)
Definition audit_log (op : audit_operation_t) (user details : string) : M W Z :=
  let! now := get_timestamp_string 64 in
  match now with
  | None => ub
  | Some time_buf =>
      let text := audit_line time_buf op user details in
      let! ok := call (fopen_a AUDIT_LOG_FILE text) in
      if ok then ret SUCCESS
      else
        let! ok2 := call (fopen_w AUDIT_LOG_FILE text) in
        if ok2 then ret SUCCESS else ret ERROR_SYSTEM_CALL
  end.

(** [strncat(output, line, size - strlen(output) - 1)] *)
Definition append_line (size : nat) (output line : string) : string :=
  output +:+ str_take (size - String.length output - 1) line.

(** [None] in the second place: "No audit log found" without a terminator in
    a buffer of 19 bytes or less.  A buffer of no bytes is written to when
    there is a log. *)
Definition audit_get_log (size : nat) (num_entries : Z) : M W (Z * option string) :=
  let! fp := reads (fopen_r AUDIT_LOG_FILE) in
  match fp with
  | None =>
      let msg := "No audit log found" +:+ NL in
      ret (SUCCESS, if (String.length msg <? size)%nat then Some msg else None)
  | Some text =>
      let lines := fgets_chunks 512 text in
      let chosen := if num_entries =? 0 then lines else take (Z.to_nat num_entries) lines in
      guard_ub (0 <? size)%nat ;;!
      ret (SUCCESS, Some (fold_left (append_line size) chosen ""))
  end.

Definition audit_clear_log : M W Z :=
  let! root := reads is_root in
  if negb root then ret ERROR_PERMISSION
  else
    let! r := call (truncate_file AUDIT_LOG_FILE) in
    if negb (r =? 0) then ret ERROR_SYSTEM_CALL else ret SUCCESS.

Definition audit_verify_integrity : M W Z :=
  let! ok := reads (file_exists AUDIT_LOG_FILE) in ret (if ok then SUCCESS else ERROR_NOT_FOUND).

(** [size - 1] wraps around for a buffer of no bytes. *)
Definition security_get_current_user (size : nat) : M W (Z * option string) :=
  let! u := reads user_name in
  match u with
  | None => ret (ERROR_SYSTEM_CALL, None)
  | Some n => guard_ub (0 <? size)%nat ;;! ret (SUCCESS, Some (str_take (size - 1) n))
  end.

Definition security_is_root : W -> bool := is_root.
End Security.

Definition flag_set (flags bit : Z) : bool := negb (Z.land flags bit =? 0).

(** [None]: a buffer of no bytes is written to. *)
Definition security_attrs_to_string (flags : Z) (size : nat) : option string :=
  let add (buffer : string) (bit : Z) (s : string) :=
    if flag_set flags bit then append_line size buffer s else buffer in
  let b := add (add (add (add "" ATTR_IMMUTABLE "immutable ") ATTR_APPEND_ONLY "append-only ")
             ATTR_NO_DUMP "no-dump ") ATTR_SECURE_DEL "secure-delete " in
  if (0 <? size)%nat then
    Some (if (String.length b =? 0)%nat then str_take (size - 1) "none" else b)
  else None.
