(* ===== verification/Perf.v ===== *)
(** * src/performance_tuner.c: I/O scheduler, queue and VM parameters

    The setters and getters of the files under /sys/block and /proc/sys/vm,
    the tuning profiles and their application, and the sequential
    benchmarks. *)

From stdpp Require Import base list gmap strings pretty.
From Stdlib Require Import Ascii ZArith Lia.
From S2P Require Import Prelude CString CFormat CFloat Sys.

Inductive workload_type_t :=
  | WORKLOAD_DATABASE | WORKLOAD_WEB_SERVER | WORKLOAD_FILE_SERVER
  | WORKLOAD_GENERAL | WORKLOAD_RANDOM_IO | WORKLOAD_SEQUENTIAL_IO.

Record tuning_profile_t := mk_profile {
  scheduler : string;
  read_ahead_kb : Z;
  queue_depth : Z;
  nr_requests : Z;
  vm_swappiness : Z;
  vm_dirty_ratio : Z;
  vm_dirty_background_ratio : Z;
  vm_vfs_cache_pressure : Z;
}.

(** The fields the benchmark fills; the others stay 0. *)
Record benchmark_results_t := mk_results { seq_read_mbs : double; seq_write_mbs : double }.

(** Descriptors, the allocator and the monotonic clock (seconds and
    nanoseconds).  [open_rd] and [open_wr] are told whether O_DIRECT was
    asked for and give a descriptor or a negative number. *)
Class Bench (W : Type) := {
  open_rd : string -> bool -> W -> Z * W;
  open_wr : string -> bool -> W -> Z * W;
  aligned_alloc : Z -> W -> bool * W;
  clock_gettime : W -> (Z * Z) * W;
  read_fd : Z -> Z -> W -> Z * W;
  write_buf : Z -> Z -> W -> Z * W;
  fsync : Z -> W -> W;
  close_fd : Z -> W -> W;
}.

Definition SYSFS_BLOCK_PATH : string := "/sys/block".

Definition get_device_basename (device : string) : string :=
  match strrchr device "/" with Some base => str_drop 1 base | None => device end.

(** The paths, built in a buffer of 256 bytes. *)
Definition scheduler_path (device : string) : string :=
  snprintf 256 "%s/%s/queue/scheduler" [CStr SYSFS_BLOCK_PATH; CStr (get_device_basename device)].
Definition readahead_path (device : string) : string :=
  snprintf 256 "%s/%s/queue/read_ahead_kb" [CStr SYSFS_BLOCK_PATH; CStr (get_device_basename device)].
Definition depth_path (device : string) : string :=
  snprintf 256 "%s/%s/device/queue_depth" [CStr SYSFS_BLOCK_PATH; CStr (get_device_basename device)].
Definition requests_path (device : string) : string :=
  snprintf 256 "%s/%s/queue/nr_requests" [CStr SYSFS_BLOCK_PATH; CStr (get_device_basename device)].
Definition swappiness_path : string := "/proc/sys/vm/swappiness".
Definition dirty_path : string := "/proc/sys/vm/dirty_ratio".
Definition dirty_background_path : string := "/proc/sys/vm/dirty_background_ratio".
Definition cache_pressure_path : string := "/proc/sys/vm/vfs_cache_pressure".

Section Perf.
Context {W : Type} `{Files W}.

(** [fopen(path, "w")], [fprintf] of one value, [fclose]. *)
Definition put (path text : string) : M W Z :=
  let! ok := call (fopen_w path text) in ret (if ok then 0 else -1).

(** [value = -1]; [fscanf(fp, "%d", &value)] when the file opens. *)
Definition scan_value (fp : option string) : Z :=
  match fp with
  | Some text => match sscanf "%d" text with CInt v :: _ => v | _ => -1 end
  | None => -1
  end.
Definition get (path : string) : M W Z :=
  let! fp := reads (fopen_r path) in ret (scan_value fp).

(** ** Schedulers *)

Definition perf_set_scheduler (device sched : string) : M W Z :=
  put (scheduler_path device) (sprintf "%s" [CStr sched]).

(** The text between the first '[' and the first ']', cut to the caller's
    buffer; "unknown" when there is none, which a buffer of 8 bytes or less
    does not terminate ([None]). *)
Definition current_scheduler (line : string) (size : nat) : option string :=
  match strchr line "[", strchr line "]" with
  | Some start, Some end_ =>
      if (String.length end_ <? String.length start)%nat then
        let len := (String.length start - String.length end_ - 1)%nat in
        let len := if (size <=? len)%nat then (size - 1)%nat else len in
        Some (str_take len (str_drop 1 start))
      else copied size "unknown"
  | _, _ => copied size "unknown"
  end.

(** A buffer of no bytes is written to all the same. *)
Definition perf_get_scheduler (device : string) (size : nat) : M W (Z * option string) :=
  let! fp := reads (fopen_r (scheduler_path device)) in
  match fp with
  | None => ret (-1, None)
  | Some text =>
      match fgets_chunks 256 text with
      | [] => ret (-1, None)
      | line :: _ => guard_ub (0 <? size)%nat ;;! ret (0, current_scheduler line size)
      end
  end.

(** [schedulers] is never written; [count] stops at 10. *)
Definition perf_list_schedulers (device : string) : M W (Z * option Z) :=
  let! fp := reads (fopen_r (scheduler_path device)) in
  match fp with
  | None => ret (-1, None)
  | Some text =>
      match fgets_chunks 256 text with
      | [] => ret (-1, None)
      | line :: _ =>
          let delim := " " +:+ String "009" (String nl "[]") in
          ret (0, Some (Z.of_nat (Nat.min 10 (length (strtok line delim)))))
      end
  end.

(** ** Queue parameters *)

Definition perf_set_readahead (device : string) (size_kb : Z) : M W Z :=
  put (readahead_path device) (sprintf "%d" [CInt size_kb]).
Definition perf_get_readahead (device : string) : M W Z := get (readahead_path device).

(** The alternative path is tried when the first cannot be opened. *)
Definition perf_set_queue_depth (device : string) (depth : Z) : M W Z :=
  let! r := put (depth_path device) (sprintf "%d" [CInt depth]) in
  if r =? 0 then ret 0 else put (requests_path device) (sprintf "%d" [CInt depth]).

Definition perf_get_queue_depth (device : string) : M W Z :=
  let! fp := reads (fopen_r (depth_path device)) in
  match fp with
  | Some _ => ret (scan_value fp)
  | None => get (requests_path device)
  end.

Definition perf_set_nr_requests (device : string) (requests : Z) : M W Z :=
  put (requests_path device) (sprintf "%d" [CInt requests]).

(** ** VM parameters *)

Definition perf_set_vm_swappiness (value : Z) : M W Z := put swappiness_path (sprintf "%d" [CInt value]).
Definition perf_get_vm_swappiness : M W Z := get swappiness_path.
Definition perf_set_vm_dirty_ratio (value : Z) : M W Z := put dirty_path (sprintf "%d" [CInt value]).
Definition perf_get_vm_dirty_ratio : M W Z := get dirty_path.
Definition perf_set_vm_dirty_background_ratio (value : Z) : M W Z :=
  put dirty_background_path (sprintf "%d" [CInt value]).
Definition perf_set_vm_vfs_cache_pressure (value : Z) : M W Z :=
  put cache_pressure_path (sprintf "%d" [CInt value]).

(** ** Profiles *)

Definition perf_get_default_profile (workload : workload_type_t) : Z * tuning_profile_t :=
  (0, match workload with
      | WORKLOAD_DATABASE => mk_profile "deadline" 256 128 256 10 15 5 50
      | WORKLOAD_WEB_SERVER => mk_profile "deadline" 512 64 128 10 20 10 100
      | WORKLOAD_FILE_SERVER => mk_profile "cfq" 2048 64 128 1 40 10 50
      | _ => mk_profile "mq-deadline" 128 32 128 60 20 10 100
      end).

(** [if (cond) setter(...);]: the setter's result is dropped. *)
Definition when (cond : bool) (c : M W Z) : M W unit :=
  if cond then c ;;! ret tt else ret tt.

Definition perf_apply_profile (device : string) (p : tuning_profile_t) : M W Z :=
  when (0 <? strlen (scheduler p)) (perf_set_scheduler device (scheduler p)) ;;!
  when (0 <? read_ahead_kb p) (perf_set_readahead device (read_ahead_kb p)) ;;!
  when (0 <? queue_depth p) (perf_set_queue_depth device (queue_depth p)) ;;!
  when (0 <? nr_requests p) (perf_set_nr_requests device (nr_requests p)) ;;!
  when (0 <=? vm_swappiness p) (perf_set_vm_swappiness (vm_swappiness p)) ;;!
  when (0 <? vm_dirty_ratio p) (perf_set_vm_dirty_ratio (vm_dirty_ratio p)) ;;!
  when (0 <? vm_dirty_background_ratio p)
    (perf_set_vm_dirty_background_ratio (vm_dirty_background_ratio p)) ;;!
  when (0 <? vm_vfs_cache_pressure p) (perf_set_vm_vfs_cache_pressure (vm_vfs_cache_pressure p)) ;;!
  ret 0.

Definition perf_recommend (device : string) (workload : workload_type_t) : Z * tuning_profile_t :=
  (0, (perf_get_default_profile workload).2).
End Perf.

Definition perf_workload_to_string (workload : workload_type_t) : string :=
  match workload with
  | WORKLOAD_DATABASE => "Database"
  | WORKLOAD_WEB_SERVER => "Web Server"
  | WORKLOAD_FILE_SERVER => "File Server"
  | WORKLOAD_RANDOM_IO => "Random I/O"
  | WORKLOAD_SEQUENTIAL_IO => "Sequential I/O"
  | WORKLOAD_GENERAL => "General"
  end.

(** ** Benchmarks *)

Definition BUFFER_SIZE : Z := 1024 * 1024.
Definition TEST_FILE_SIZE : Z := 100 * 1024 * 1024.
Definition MB : double := to_double (1024 * 1024).

(** What the two functions around the component do: a line of text. *)
Definition perf_init : Z * string := (0, "Performance Tuner: Initialized" +:+ NL).
Definition perf_cleanup : string := "Performance Tuner: Cleanup" +:+ NL.

(** The change in per cent. *)
Definition improvement (before after : double) : double :=
  dmul (ddiv (dsub after before) before) (to_double 100).

(** The code and what the caller's buffer of [size] bytes holds. *)
Definition perf_compare_benchmarks (before after : benchmark_results_t) (size : nat) : Z * string :=
  (0, snprintf size
        (NL +:+ "=== Performance Comparison ===" +:+ NL +:+
         "Sequential Read:" +:+ NL +:+
         "  Before: %.2f MB/s" +:+ NL +:+
         "  After:  %.2f MB/s" +:+ NL +:+
         "  Change: %+.2f%%" +:+ NL +:+ NL +:+
         "Sequential Write:" +:+ NL +:+
         "  Before: %.2f MB/s" +:+ NL +:+
         "  After:  %.2f MB/s" +:+ NL +:+
         "  Change: %+.2f%%" +:+ NL)
        [CDbl (seq_read_mbs before); CDbl (seq_read_mbs after);
         CDbl (improvement (seq_read_mbs before) (seq_read_mbs after));
         CDbl (seq_write_mbs before); CDbl (seq_write_mbs after);
         CDbl (improvement (seq_write_mbs before) (seq_write_mbs after))]).

Section Benchmarks.
Context {W : Type} `{Shell W} `{Files W} `{Procs W} `{Bench W}.

(** Open with O_DIRECT, and without it when that fails. *)
Definition open_either (open : bool -> W -> Z * W) : M W Z :=
  let! f := call (open true) in if f <? 0 then call (open false) else ret f.

(** The bytes read until the file ends; [None]: the fuel ran out before. *)
Fixpoint read_loop (fuel : nat) (f total : Z) : M W (option Z) :=
  match fuel with
  | O => ret None
  | S n =>
      let! b := call (read_fd f BUFFER_SIZE) in
      if 0 <? b then read_loop n f (total + b) else ret (Some total)
  end.

(** The bytes written until there are [target] of them or a write fails. *)
Fixpoint write_loop (fuel : nat) (f total target : Z) : M W (option Z) :=
  if total <? target then
    match fuel with
    | O => ret None
    | S n =>
        let! b := call (write_buf f BUFFER_SIZE) in
        if b <? 0 then ret (Some total) else write_loop n f (u64 (total + b)) target
    end
  else ret (Some total).

Definition elapsed (start stop : Z * Z) : double :=
  dadd (to_double (stop.1 - start.1)) (ddiv (to_double (stop.2 - start.2)) lit_1e9).
Definition mbs (total : Z) (start stop : Z * Z) : double :=
  ddiv (ddiv (to_double total) MB) (elapsed start stop).

(** The code and what [*mbs] holds afterwards, [old] when it is not written;
    [None] when the fuel ran out. *)
Definition perf_benchmark_sequential_read (fuel : nat) (file : string) (old : double)
    : M W (option (Z * double)) :=
  let! f := open_either (open_rd file) in
  if f <? 0 then ret (Some (-1, old))
  else
    let! ok := call (aligned_alloc BUFFER_SIZE) in
    if negb ok then (fun w => Some (Some (- ENOMEM, old), close_fd f w))
    else
      let! start := call clock_gettime in
      let! total := read_loop fuel f 0 in
      match total with
      | None => ret None
      | Some total =>
          let! stop := call clock_gettime in
          (fun w => Some (Some (0, mbs total start stop), close_fd f w))
      end.

Definition perf_benchmark_sequential_write (fuel : nat) (file : string) (old : double)
    : M W (option (Z * double)) :=
  let! f := open_either (open_wr file) in
  if f <? 0 then ret (Some (-1, old))
  else
    let! ok := call (aligned_alloc BUFFER_SIZE) in
    if negb ok then (fun w => Some (Some (- ENOMEM, old), close_fd f w))
    else
      let! start := call clock_gettime in
      let! total := write_loop fuel f 0 TEST_FILE_SIZE in
      match total with
      | None => ret None
      | Some total =>
          (fun w => Some (tt, fsync f w)) ;;!
          let! stop := call clock_gettime in
          (fun w => Some (Some (0, mbs total start stop), close_fd f w))
      end.

Definition cp_cmd (from to : string) : string :=
  snprintf 1024 ("cp " +:+ quoted "%s" +:+ " " +:+ quoted "%s") [CStr from; CStr to].
Definition drop_caches_cmd : string := "echo 3 > /proc/sys/vm/drop_caches 2>/dev/null".

Definition perf_benchmark (fuel : nat) (device test_file : string) : M W (option (Z * benchmark_results_t)) :=
  let write_file := snprintf 512 "%s.write_test" [CStr test_file] in
  let read_file := snprintf 512 "%s.read_test" [CStr test_file] in
  let! wr := perf_benchmark_sequential_write fuel write_file d0 in
  match wr with
  | None => ret None
  | Some (_, wmbs) =>
      call (system (cp_cmd write_file read_file)) ;;!
      call (system "sync") ;;!
      call (system drop_caches_cmd) ;;!
      (fun w => Some (tt, sleep 1 w)) ;;!
      let! rd := perf_benchmark_sequential_read fuel read_file d0 in
      match rd with
      | None => ret None
      | Some (_, rmbs) =>
          call (unlink write_file) ;;! call (unlink read_file) ;;!
          ret (Some (0, mk_results rmbs wmbs))
      end
  end.
End Benchmarks.
