(* ===== verification/Monitor.v ===== *)
(** * src/monitor.c: device statistics, performance samples, disk usage

    The counters of /proc/diskstats, the sample computed from two readings
    (kept in the function's [static] variables), the history in SQLite and the
    monitoring thread. *)

From stdpp Require Import base list gmap strings pretty sorting.
From Stdlib Require Import Ascii ZArith Lia.
From S2P Require Import Prelude CString CFormat CFloat Sys Utils Backup Fs.

Definition MON_DB_PATH : string := "/var/lib/storage_mgr/monitoring.db".
Definition DISKSTATS_PATH : string := "/proc/diskstats".

Record device_stats_t := mk_stats {
  ds_device : string;
  ds_reads : Z;
  ds_writes : Z;
  ds_read_bytes : Z;
  ds_write_bytes : Z;
  avg_read_latency_ms : double;
  avg_write_latency_ms : double;
  ds_queue_depth : Z;
  last_update : Z;
}.
(** After [memset]. *)
Definition cleared_stats : device_stats_t := mk_stats "" 0 0 0 0 d0 d0 0 0.

(** The four measures of a sample, and the sample; memory that was not
    written is [None]. *)
Record measures := mk_measures {
  iops : double;
  throughput_mbs : double;
  latency_ms : double;
  active_requests : Z;
}.
Record performance_sample_t := mk_sample {
  s_timestamp : Z;
  s_measures : option measures;
}.

Record disk_usage_t := mk_usage {
  u_mount_point : string;
  u_device : string;
  total_bytes : Z;
  used_bytes : Z;
  available_bytes : Z;
  usage_percent : double;
  total_inodes : Z;
  used_inodes : Z;
  free_inodes : Z;
}.

(** A row of performance_history: device, timestamp, measures. *)
Record hrow := mk_hrow { h_device : string; h_time : Z; h_measures : measures }.

(** The statements the monitor runs: the booleans say that the statement was
    prepared and ended with SQLITE_DONE; [h_select] is the rows of a device
    between two times, [None] when it cannot be prepared. *)
Class HistDb (W : Type) := {
  h_open : string -> W -> bool * W;
  h_schema : W -> bool * W;
  h_close : W -> W;
  h_insert : hrow -> W -> bool * W;
  h_select : string -> Z -> Z -> W -> option (list hrow);
  h_delete_before : Z -> W -> bool * W;
  opendir : string -> W -> bool;
}.

(** ** /proc/diskstats *)

Definition base_name (device : string) : string :=
  match strrchr device "/" with Some b => str_drop 1 b | None => device end.

(** The word a line puts in [dev_name], 64 bytes long. *)
Definition name_fits (vals : list carg) : bool :=
  match vals with
  | _ :: _ :: CStr n :: _ => (String.length n <? 64)%nat
  | _ => true
  end.

(** Reads, writes, sectors read, sectors written, of the first line of the
    device; the outer [None] is a name that overflows [dev_name]. *)
Fixpoint diskstats_lines (base : string) (lines : list string) : option (option (Z * Z * Z * Z)) :=
  match lines with
  | [] => Some None
  | line :: rest =>
      let vals := sscanf "%d %d %s %llu %llu %llu %llu %llu %llu %llu" line in
      if negb (name_fits vals) then None
      else match vals with
           | [_; _; CStr n; CInt rd; _; CInt rd_sec; _; CInt wr; _; CInt wr_sec] =>
               if streq n base then Some (Some (rd, wr, rd_sec, wr_sec))
               else diskstats_lines base rest
           | _ => diskstats_lines base rest
           end
  end.

Section Reading.
Context {W : Type} `{Files W} `{Clock W}.

Definition parse_diskstats (device : string) : M W (option (Z * Z * Z * Z)) :=
  let! fp := reads (fopen_r DISKSTATS_PATH) in
  match fp with
  | None => ret None
  | Some text =>
      match diskstats_lines (base_name device) (fgets_chunks 512 text) with
      | None => ub
      | Some r => ret r
      end
  end.

(** The code and what [*stats] holds. *)
Definition monitor_get_device_stats (device : string) : M W (Z * device_stats_t) :=
  let name := str_take 63 device in
  let! r := parse_diskstats device in
  match r with
  | None => ret (-1, mk_stats name 0 0 0 0 d0 d0 0 0)
  | Some (rd, wr, rs, ws) =>
      let! now := call time in
      ret (0, mk_stats name rd wr (u64 (rs * 512)) (u64 (ws * 512)) d0 d0 0 now)
  end.

Definition monitor_get_io_stats (device : string) : M W (Z * device_stats_t) :=
  monitor_get_device_stats device.

(** ** Texts *)

(** Nothing is reset: the text printed, and the code. *)
Definition monitor_reset_stats (device : string) : Z * string :=
  (0, sprintf ("Monitor: Reset stats for %s" +:+ NL) [CStr device]).

(** The text [monitor_print_stats(stats)] prints. *)
Definition monitor_print_stats (stats : device_stats_t) : M W string :=
  let! upd := ctime (last_update stats) in
  ret (NL +:+ sprintf ("=== Device Statistics: %s ===" +:+ NL) [CStr (ds_device stats)] +:+
       sprintf ("Read Operations:  %llu" +:+ NL) [CInt (ds_reads stats)] +:+
       sprintf ("Write Operations: %llu" +:+ NL) [CInt (ds_writes stats)] +:+
       sprintf ("Bytes Read:       %llu" +:+ NL) [CInt (ds_read_bytes stats)] +:+
       sprintf ("Bytes Written:    %llu" +:+ NL) [CInt (ds_write_bytes stats)] +:+
       sprintf ("Avg Read Latency: %.3f ms" +:+ NL) [CDbl (avg_read_latency_ms stats)] +:+
       sprintf ("Avg Write Latency: %.3f ms" +:+ NL) [CDbl (avg_write_latency_ms stats)] +:+
       sprintf ("Queue Depth:      %d" +:+ NL) [CInt (ds_queue_depth stats)] +:+
       sprintf "Last Update:      %s" [CStr upd]).

(** Measures that were never written cannot be printed. *)
Definition monitor_print_performance (sample : performance_sample_t) : M W string :=
  let! stamp := ctime (s_timestamp sample) in
  match s_measures sample with
  | None => ub
  | Some ms =>
      ret (NL +:+ "=== Performance Sample ===" +:+ NL +:+
           sprintf "Timestamp:      %s" [CStr stamp] +:+
           sprintf ("IOPS:           %.2f" +:+ NL) [CDbl (iops ms)] +:+
           sprintf ("Throughput:     %.2f MB/s" +:+ NL) [CDbl (throughput_mbs ms)] +:+
           sprintf ("Avg Latency:    %.3f ms" +:+ NL) [CDbl (latency_ms ms)] +:+
           sprintf ("Active Requests: %d" +:+ NL) [CInt (active_requests ms)])
  end.

(** [start] and [end] are not used.  Opening the file empties it; whether the
    text that follows could be written is not looked at. *)
Definition monitor_generate_report (output_file : string) (start stop : Z) : M W Z :=
  let! ok := call (fopen_w output_file "") in
  if negb ok then ret (-1)
  else
    let! now := call time in
    let! stamp := ctime now in
    call (fopen_w output_file
            (sprintf ("Storage Monitoring Report" +:+ NL +:+ "%s") [CStr stamp])) ;;!
    ret 0.
End Reading.

(** ** State of the component: the file's variables and the two [static]
    variables of [monitor_get_current_performance]. *)

Record monitor (W : Type) := mk_monitor {
  mdb : db_ptr;
  monitor_thread : bool;
  monitoring_active : Z;
  monitor_interval : Z;
  monitor_mutex : bool;
  prev_stats : device_stats_t;
  prev_time : Z;
  mos : W;
}.
Arguments mk_monitor {W}.
Arguments mdb {W}.
Arguments monitor_thread {W}.
Arguments monitoring_active {W}.
Arguments monitor_interval {W}.
Arguments monitor_mutex {W}.
Arguments prev_stats {W}.
Arguments prev_time {W}.
Arguments mos {W}.

Definition monitor_start {W} (w : W) : monitor W := mk_monitor DbNull false 0 1 false cleared_stats 0 w.

Section Monitor.
Context {W : Type} `{Shell W} `{Files W} `{Clock W} `{Procs W} `{Db W} `{HistDb W} `{Mounts W}.

Definition set_mos (m : monitor W) (w : W) : monitor W :=
  mk_monitor (mdb m) (monitor_thread m) (monitoring_active m) (monitor_interval m)
    (monitor_mutex m) (prev_stats m) (prev_time m) w.
Definition mon_os {A} (c : M W A) : M (monitor W) A :=
  fun m => match c (mos m) with Some (a, w) => Some (a, set_mos m w) | None => None end.
Definition set_mdb (p : db_ptr) : M (monitor W) unit :=
  fun m => Some (tt, mk_monitor p (monitor_thread m) (monitoring_active m) (monitor_interval m)
                       (monitor_mutex m) (prev_stats m) (prev_time m) (mos m)).
Definition set_prev (st : device_stats_t) (t : Z) : M (monitor W) unit :=
  fun m => Some (tt, mk_monitor (mdb m) (monitor_thread m) (monitoring_active m) (monitor_interval m)
                       (monitor_mutex m) st t (mos m)).

(** The value of [db]; a closed handle cannot be used. *)
Definition get_mdb : M (monitor W) db_ptr :=
  fun m => match mdb m with DbDangling => None | p => Some (p, m) end.

(** ** Thread *)

Definition monitor_stop_continuous : M (monitor W) Z :=
  fun m =>
    if monitor_mutex m then None
    else Some (0, mk_monitor (mdb m) false 0 (monitor_interval m) false (prev_stats m) (prev_time m)
                    (if monitor_thread m then pthread_join (mos m) else mos m)).

Definition monitor_start_continuous (interval_seconds : Z) : M (monitor W) Z :=
  fun m =>
    if monitor_mutex m then None
    else if negb (monitoring_active m =? 0) then Some (-1, m)
    else
      let '(ok, w) := pthread_create (mos m) in
      if ok then Some (0, mk_monitor (mdb m) true 1 interval_seconds false (prev_stats m) (prev_time m) w)
      else Some (-1, mk_monitor (mdb m) (monitor_thread m) 0 interval_seconds false
                       (prev_stats m) (prev_time m) w).

Definition monitor_init : M (monitor W) Z :=
  mon_os (call (system "mkdir -p /var/lib/storage_mgr")) ;;!
  let! ok := mon_os (call (h_open MON_DB_PATH)) in
  if negb ok then set_mdb DbFailed ;;! ret (-1)
  else
    set_mdb DbOpen ;;!
    let! ok2 := mon_os (call h_schema) in
    if negb ok2 then mon_os (fun w => Some (tt, h_close w)) ;;! set_mdb DbDangling ;;! ret (-1)
    else ret 0.

Definition monitor_cleanup : M (monitor W) unit :=
  (fun m => (if negb (monitoring_active m =? 0) then monitor_stop_continuous ;;! ret tt else ret tt) m) ;;!
  let! db := get_mdb in
  match db with
  | DbNull => ret tt
  | _ => mon_os (fun w => Some (tt, h_close w)) ;;! set_mdb DbNull
  end.

(** ** Performance samples *)

(** The sums and differences are unsigned; [time_diff * 1024 * 1024] is a
    signed 64-bit product. *)
Definition rates (prev curr : device_stats_t) (time_diff : Z) : measures :=
  let read_diff := u64 (ds_read_bytes curr - ds_read_bytes prev) in
  let write_diff := u64 (ds_write_bytes curr - ds_write_bytes prev) in
  let ops_diff := u64 (u64 (ds_reads curr + ds_writes curr) - u64 (ds_reads prev + ds_writes prev)) in
  mk_measures (ddiv (to_double ops_diff) (to_double time_diff))
    (ddiv (to_double (u64 (read_diff + write_diff))) (to_double (time_diff * 1024 * 1024)))
    (avg_read_latency_ms curr) (ds_queue_depth curr).

Definition in_i64 (z : Z) : bool := (- 2 ^ 63 <=? z) && (z <? 2 ^ 63).

(** [old] is what the caller's sample held: when no time went by between two
    readings of the device its measures are not written. *)
Definition monitor_get_current_performance (device : string) (old : performance_sample_t)
    : M (monitor W) (Z * performance_sample_t) :=
  let! rc := mon_os (monitor_get_device_stats device) in
  let '(r, curr) := rc in
  if negb (r =? 0) then ret (-1, old)
  else
    let! curr_time := mon_os (call time) in
    let! prev := (fun m => Some ((prev_stats m, prev_time m), m)) in
    let '(pst, pt) := prev in
    let! ms :=
      (if (0 <? pt) && streq (ds_device pst) device then
         let time_diff := curr_time - pt in
         if 0 <? time_diff then
           guard_ub (in_i64 (time_diff * 1024 * 1024)) ;;! ret (Some (rates pst curr time_diff))
         else ret (s_measures old)
       else ret (Some (mk_measures d0 d0 d0 0))) in
    set_prev curr curr_time ;;! ret (0, mk_sample curr_time ms).

(** Binding a measure that was never written reads an indeterminate value. *)
Definition monitor_track_performance (device : string) (sample : performance_sample_t) : M (monitor W) Z :=
  let! db := get_mdb in
  match db with
  | DbNull => ret (-1)
  | DbOpen =>
      match s_measures sample with
      | None => ub
      | Some ms =>
          let! ok := mon_os (call (h_insert (mk_hrow device (s_timestamp sample) ms))) in
          ret (if ok then 0 else -1)
      end
  | _ => ret (-1)
  end.

Definition monitor_save_sample (device : string) (sample : performance_sample_t) : M (monitor W) Z :=
  monitor_track_performance device sample.

(** One turn of [monitor_thread_func]; [sample] is a local variable of the
    turn.  [false] when the loop ends. *)
Definition monitor_turn (device : string) : M (monitor W) bool :=
  fun m =>
    if monitoring_active m =? 0 then Some (false, m)
    else
      (let! rs := monitor_get_current_performance device (mk_sample 0 None) in
       (if rs.1 =? 0 then monitor_save_sample device rs.2 ;;! ret tt else ret tt) ;;!
       (fun m' => Some (tt, set_mos m' (sleep (monitor_interval m') (mos m')))) ;;!
       ret true) m.

(** ** History *)

Definition monitor_get_history (device : string) (start stop : Z)
    : M (monitor W) (Z * list performance_sample_t) :=
  let! db := get_mdb in
  match db with
  | DbOpen =>
      let! sel := mon_os (reads (h_select device start stop)) in
      match sel with
      | None => ret (-1, [])
      | Some [] => ret (0, [])
      | Some l =>
          let! ok := mon_os (call (malloc (Z.of_nat (length l) * 40))) in
          if negb ok then ret (- ENOMEM, [])
          else ret (0, (fun r => mk_sample (h_time r) (Some (h_measures r))) <$> l)
      end
  | _ => ret (-1, [])
  end.

(** [keep_days * 24 * 3600] is a product of [int]s, and the handle is used
    without a test for NULL. *)
Definition monitor_cleanup_old_data (keep_days : Z) : M (monitor W) Z :=
  guard_ub (bool_decide (- 2 ^ 31 <= keep_days * 24 * 3600 < 2 ^ 31)) ;;!
  let! now := mon_os (call time) in
  let cutoff := now - keep_days * 24 * 3600 in
  let! db := get_mdb in
  match db with
  | DbOpen => let! ok := mon_os (call (h_delete_before cutoff)) in ret (if ok then 0 else -1)
  | DbNull => ub
  | _ => ret (-1)
  end.

(** ** Disk usage *)

Definition usage_of (mount_point : string) (v : vfs) : disk_usage_t :=
  let total := u64 (f_blocks v * f_frsize v) in
  let used := u64 (total - u64 (f_bfree v * f_frsize v)) in
  mk_usage (str_take 255 mount_point) "" total used (u64 (f_bavail v * f_frsize v))
    (dmul (ddiv (to_double used) (to_double total)) (to_double 100))
    (f_files v) (u64 (f_files v - f_ffree v)) (f_ffree v).

Definition monitor_get_disk_usage (mount_point : string) : M W (Z * option disk_usage_t) :=
  let! v := reads (statvfs mount_point) in
  ret (match v with None => (-1, None) | Some v => (0, Some (usage_of mount_point v)) end).

Definition monitor_check_disk_space (mount_point : string) (threshold : double) : M W Z :=
  let! u := monitor_get_disk_usage mount_point in
  ret (match u with
       | (0, Some us) => if dge (usage_percent us) threshold then 1 else 0
       | _ => -1
       end).

(** The list is always empty. *)
Definition monitor_list_open_files : M W (Z * Z) :=
  let! ok := reads (opendir "/proc") in ret (if ok then 0 else -1, 0).
End Monitor.
