(* ===== verification/Cli.v ===== *)
(** * cli/storage_cli.c: the command line

    The command functions and the dispatch of [main], composed from the
    components they call.  A command gives its code and the text it prints on
    the standard output; the messages on the standard error and the progress
    lines the managers print while they work are left out. *)

From stdpp Require Import base list gmap strings pretty.
From Stdlib Require Import Ascii ZArith Lia.
From S2P Require Import Prelude CString CFormat CFloat Sys Utils Ipc Backup Raid Lvm Fs Memory Perf Monitor.

(** An unknown name is ext4 here. *)
Definition parse_fs_type (type_str : string) : fs_type_t :=
  if streq type_str "ext4" then FS_TYPE_EXT4
  else if streq type_str "xfs" then FS_TYPE_XFS
  else if streq type_str "btrfs" then FS_TYPE_BTRFS
  else FS_TYPE_EXT4.

Definition parse_backup_type (type_str : string) : Z :=
  if streq type_str "incremental" then BACKUP_INCREMENTAL
  else if streq type_str "differential" then BACKUP_DIFFERENTIAL
  else BACKUP_FULL.

Definition parse_workload (workload_str : string) : workload_type_t :=
  if streq workload_str "database" then WORKLOAD_DATABASE
  else if streq workload_str "web" then WORKLOAD_WEB_SERVER
  else if streq workload_str "fileserver" then WORKLOAD_FILE_SERVER
  else WORKLOAD_GENERAL.

(** The last argument that starts with a prefix gives the option. *)
Definition last_option (pre : string) (args : list string) : option string :=
  fold_left (fun o a => if has_prefix pre a then Some (str_drop (String.length pre) a) else o) args None.

(** The loop over the arguments of [perf tune]. *)
Definition tune_options (args : list string) : option string * Z :=
  fold_left (fun o a =>
    if has_prefix "--scheduler=" a then (Some (str_drop 12 a), o.2)
    else if has_prefix "--readahead=" a then (o.1, atoi (str_drop 12 a)) else o) args (None, 0).

(** ** Texts *)

Definition line (s : string) : string := s +:+ NL.

(** The lines of the help that do not name the program. *)
Definition help_body : string :=
  str_concat (line <$>
    ["Storage Manager CLI"; "";
     "Monitor Commands:";
     "  monitor stats <device>       - Show device statistics";
     "  monitor start [interval]     - Start continuous monitoring";
     "  monitor stop                 - Stop continuous monitoring"; "";
     "Backup Commands:";
     "  backup create <src> <dest> <type>  - Create backup (full/incremental/differential)";
     "  backup list                         - List all backups";
     "  backup restore <id> <dest>          - Restore backup";
     "  backup verify <id>                  - Verify backup integrity"; "";
     "Performance Commands:";
     "  perf benchmark <device> <file>     - Run performance benchmark";
     "  perf tune <device> --scheduler=X --readahead=Y  - Tune device";
     "  perf recommend <device> <workload> - Get tuning recommendations";
     "                                       (workload: database/web/fileserver/general)"; "";
     "RAID Commands (básicos):";
     "  raid create <array> <level> <dev1> [dev2 ...]";
     "  raid status <array>"; "";
     "LVM Commands (básicos):";
     "  lvm pv-create <device>";
     "  lvm vg-create <vg_name> <pv1> [pv2 ...]";
     "  lvm lv-create <vg_name> <lv_name> <size_mb>"; "";
     "Filesystem Commands (básicos):";
     "  fs create <device> <type> [--label=NAME]";
     "  fs mount <device> <mount_point> <type>";
     "  fs unmount <mount_point>";
     "  fs check <device> <type>"; "";
     "Memory Commands:";
     "  memory status                  - Show memory/swap status"; "";
     "General Commands:";
     "  status                       - Show daemon status";
     "  help                         - Show this help"; "";
     "Examples:"]).

(** The text of [show_help(prog_name)]. *)
Definition show_help (prog_name : string) : string :=
  sprintf (line "Usage: %s mmand> [options]" +:+ NL) [CStr prog_name] +:+
  help_body +:+
  sprintf (line "  %s monitor stats sda") [CStr prog_name] +:+
  sprintf (line "  %s backup create /data /backup full") [CStr prog_name] +:+
  sprintf (line "  %s perf benchmark sda /mnt/data/test") [CStr prog_name] +:+
  sprintf (line "  %s raid status /dev/md0") [CStr prog_name].

Definition type_text (t : Z) : string :=
  if t =? BACKUP_FULL then "Full" else if t =? BACKUP_INCREMENTAL then "Incremental" else "Differential".

Definition recommend_text (p : tuning_profile_t) : string :=
  NL +:+ line "Recommended profile:" +:+
  sprintf (line "  Scheduler : %s") [CStr (scheduler p)] +:+
  sprintf (line "  Readahead : %d KB") [CInt (read_ahead_kb p)] +:+
  sprintf (line "  QueueDepth: %d") [CInt (queue_depth p)] +:+
  NL +:+ "Apply these settings? (y/n): ".

Definition raid_text (a : raid_array_t) : string :=
  sprintf (line "RAID Array: %s") [CStr (name a)] +:+
  sprintf (line "  Level     : %d") [CInt (raid_level a)] +:+
  sprintf (line "  Devices   : %d") [CInt (num_devices a)] +:+
  sprintf (line "  Status    : %s") [CStr (status a)] +:+
  sprintf (line "  Failed    : %d") [CInt (num_failed a)].

Definition memory_text (i : memory_info_t) : string :=
  sprintf (line "Memory (KB): total=%llu free=%llu available=%llu cached=%llu buffers=%llu")
    [CInt (total_kb (kb i)); CInt (free_kb (kb i)); CInt (available_kb (kb i));
     CInt (cached_kb (kb i)); CInt (buffers_kb (kb i))] +:+
  sprintf (line "Swap  (KB): total=%llu free=%llu") [CInt (swap_total_kb (kb i)); CInt (swap_free_kb (kb i))] +:+
  sprintf (line "Memory pressure: %.2f") [CDbl (widen (memory_pressure i))].

Section Cli.
Context {W : Type} `{Shell W} `{Files W} `{Clock W} `{Procs W} `{Db W} `{HistDb W} `{Mounts W}
  `{Bench W} `{Net W}.

(** A command that uses a component with variables of its own, from their
    initial values. *)
Definition with_engine {A} (c : M (engine W) A) : M W A :=
  fun w => match c (engine_start w) with Some (a, e) => Some (a, bos e) | None => None end.
Definition with_monitor {A} (c : M (monitor W) A) : M W A :=
  fun w => match c (monitor_start w) with Some (a, m) => Some (a, mos m) | None => None end.

(** The answer to the question [cmd_perf_recommend] asks; [None] when nothing
    can be read, and the character tested was never set. *)
Variable stdin_char : W -> option ascii.

(** ** Commands *)

Definition cmd_monitor_stats (device : string) : M W (Z * string) :=
  with_monitor
    (let! r := monitor_init in
     if negb (r =? 0) then ret (-1, "")
     else
       let! s := mon_os (monitor_get_device_stats device) in
       if negb (s.1 =? 0) then monitor_cleanup ;;! ret (-1, "")
       else
         let! text := mon_os (monitor_print_stats s.2) in
         monitor_cleanup ;;! ret (0, text)).

Definition cmd_monitor_start (interval : Z) : M W (Z * string) :=
  ret (0, sprintf (line "Starting continuous monitoring (interval: %d seconds)") [CInt interval]).
Definition cmd_monitor_stop : M W (Z * string) := ret (0, line "Stopping continuous monitoring").

(** [backup_init(NULL)], the command, [backup_cleanup()]. *)
Definition with_backup (c : M (engine W) (Z * string)) : M W (Z * string) :=
  with_engine
    (let! r := backup_init None in
     if negb (r =? 0) then ret (-1, "")
     else let! result := c in backup_cleanup ;;! ret result).

(** A command whose own function prints nothing. *)
Definition silent {S} (c : M S Z) : M S (Z * string) := let! r := c in ret (r, "").

Definition cmd_backup_create (source dest type_str : string) : M W (Z * string) :=
  with_backup (silent (backup_create source dest (parse_backup_type type_str))).

(** What is printed of an element; its strings must be set and terminated. *)
Definition show_backup (b : listed) : M (engine W) string :=
  let! id := use (l_id b) in
  let! date := os_ (ctime (l_timestamp b)) in
  let! src := use (l_source b) in
  let! err := (if l_success b =? 0 then use (l_error b) else ret "") in
  ret (sprintf (line "Backup: %s") [CStr id] +:+
       sprintf (line "  Type:      %s") [CStr (type_text (l_type b))] +:+
       sprintf "  Date:      %s" [CStr date] +:+
       sprintf (line "  Source:    %s") [CStr src] +:+
       sprintf (line "  Size:      %.2f MB")
         [CDbl (ddiv (to_double (l_size b)) (to_double (1024 * 1024)))] +:+
       sprintf (line "  Success:   %s") [CStr (if l_success b =? 0 then "No" else "Yes")] +:+
       (if 0 <? strlen err then sprintf (line "  Error:     %s") [CStr err] else "") +:+ NL).

Fixpoint show_backups (l : list listed) : M (engine W) string :=
  match l with
  | [] => ret ""
  | b :: rest => let! t := show_backup b in let! u := show_backups rest in ret (t +:+ u)
  end.

Definition cmd_backup_list : M W (Z * string) :=
  with_backup
    (let! rl := backup_list in
     if negb (rl.1 =? 0) then ret (-1, "")
     else
       let! text := (match rl.2 with [] => ret (line "No backups found.") | l => show_backups l end) in
       ret (0, NL +:+ line "=== Available Backups ===" +:+ NL +:+ text)).

Definition cmd_backup_restore (id dest : string) : M W (Z * string) :=
  with_backup (silent (backup_restore id dest)).
Definition cmd_backup_verify (id : string) : M W (Z * string) := with_backup (silent (backup_verify id)).

(** A command between [perf_init()], which cannot fail, and [perf_cleanup()],
    with the lines the two print. *)
Definition with_perf (c : M W (Z * string)) : M W (Z * string) :=
  if negb (perf_init.1 =? 0) then ret (-1, perf_init.2)
  else let! r := c in ret (r.1, perf_init.2 +:+ r.2 +:+ perf_cleanup).

Definition cmd_perf_benchmark (fuel : nat) (device test_file : string) : M W (option (Z * string)) :=
  if negb (perf_init.1 =? 0) then ret (Some (-1, perf_init.2))
  else
    let! r := perf_benchmark fuel device test_file in
    ret ((fun p => (p.1, perf_init.2 +:+ perf_cleanup)) <$> r).

Definition cmd_perf_tune (device : string) (sched : option string) (readahead : Z) : M W (Z * string) :=
  with_perf
    ((match sched with Some s => perf_set_scheduler device s ;;! ret tt | None => ret tt end) ;;!
     when (0 <? readahead) (perf_set_readahead device readahead) ;;! ret (0, "")).

Definition cmd_perf_recommend (device workload_str : string) : M W (Z * string) :=
  with_perf
    (let '(result, profile) := perf_recommend device (parse_workload workload_str) in
     if result =? 0 then
       let! response := reads stdin_char in
       match response with
       | None => ub
       | Some c =>
           when (Ascii.eqb c "y" || Ascii.eqb c "Y") (perf_apply_profile device profile) ;;!
           ret (result, recommend_text profile)
       end
     else ret (result, "")).

Definition cmd_raid_create (array_name : string) (level : Z) (devs : list string) : M W Z :=
  raid_create array_name level devs.

Definition cmd_raid_status (array_name : string) : M W (Z * string) :=
  let array := mk_raid (str_take (MAX_NAME - 1) array_name) 0 0 (replicate 16 "") "" 0 0 0 in
  let! ra := raid_monitor array in
  match ra with
  | (0, Some a) => ret (0, raid_text a)
  | _ => ret (-1, "")
  end.

Definition cmd_lvm_pv_create (device : string) : M W Z := lvm_pv_create device.
Definition cmd_lvm_vg_create (vg : string) (pvs : list string) : M W Z := lvm_vg_create vg pvs.
Definition cmd_lvm_lv_create (vg lv : string) (size_mb : Z) : M W Z := lvm_lv_create vg lv size_mb.

Definition cmd_fs_create (device type_str : string) (label : option string) : M W Z :=
  fs_create device (parse_fs_type type_str) label.
Definition cmd_fs_mount (device mount_point type_str : string) : M W Z :=
  fs_mount device mount_point (parse_fs_type type_str) (Some "").
Definition cmd_fs_unmount (mount_point : string) : M W Z := fs_unmount mount_point false.
Definition cmd_fs_check (device type_str : string) : M W Z := fs_check device (parse_fs_type type_str).

Definition cmd_memory_status : M W (Z * string) :=
  let! r := memory_get_info in
  ret (if negb (r.1 =? 0) then (-1, "") else (0, memory_text r.2)).

(** ** main *)

(** "Unknown command". *)
Definition unknown : M W (option (Z * string)) := ret (Some (1, "")).
(** A "Usage" message on the standard error. *)
Definition usage_error : M W (option (Z * string)) := ret (Some (1, "")).
Definition shows (c : M W (Z * string)) : M W (option (Z * string)) := let! r := c in ret (Some r).
Definition done_ (c : M W Z) : M W (option (Z * string)) := shows (silent c).

Definition main_monitor (args : list string) : M W (option (Z * string)) :=
  match args with
  | [] => usage_error
  | subcmd :: rest =>
      if streq subcmd "stats" then
        match rest with device :: _ => shows (cmd_monitor_stats device) | _ => usage_error end
      else if streq subcmd "start" then
        shows (cmd_monitor_start (match rest with i :: _ => atoi i | [] => 5 end))
      else if streq subcmd "stop" then shows cmd_monitor_stop
      else unknown
  end.

Definition main_backup (args : list string) : M W (option (Z * string)) :=
  match args with
  | [] => usage_error
  | subcmd :: rest =>
      if streq subcmd "create" then
        match rest with s :: d :: t :: _ => shows (cmd_backup_create s d t) | _ => usage_error end
      else if streq subcmd "list" then shows cmd_backup_list
      else if streq subcmd "restore" then
        match rest with id :: d :: _ => shows (cmd_backup_restore id d) | _ => usage_error end
      else if streq subcmd "verify" then
        match rest with id :: _ => shows (cmd_backup_verify id) | _ => usage_error end
      else unknown
  end.

Definition main_perf (fuel : nat) (args : list string) : M W (option (Z * string)) :=
  match args with
  | [] => usage_error
  | subcmd :: rest =>
      if streq subcmd "benchmark" then
        match rest with d :: f :: _ => cmd_perf_benchmark fuel d f | _ => usage_error end
      else if streq subcmd "tune" then
        match rest with
        | d :: opts => let '(sched, ra) := tune_options opts in shows (cmd_perf_tune d sched ra)
        | _ => usage_error
        end
      else if streq subcmd "recommend" then
        match rest with d :: wl :: _ => shows (cmd_perf_recommend d wl) | _ => usage_error end
      else unknown
  end.

Definition main_raid (args : list string) : M W (option (Z * string)) :=
  match args with
  | [] => usage_error
  | subcmd :: rest =>
      if streq subcmd "create" then
        match rest with
        | array :: level :: d :: ds => done_ (cmd_raid_create array (atoi level) (d :: ds))
        | _ => usage_error
        end
      else if streq subcmd "status" then
        match rest with
        | array :: _ => shows (cmd_raid_status array)
        | _ => usage_error
        end
      else unknown
  end.

Definition main_lvm (args : list string) : M W (option (Z * string)) :=
  match args with
  | [] => usage_error
  | subcmd :: rest =>
      if streq subcmd "pv-create" then
        match rest with d :: _ => done_ (cmd_lvm_pv_create d) | _ => usage_error end
      else if streq subcmd "vg-create" then
        match rest with
        | vg :: (p :: ps) => done_ (cmd_lvm_vg_create vg (p :: ps))
        | _ => usage_error
        end
      else if streq subcmd "lv-create" then
        match rest with
        | vg :: lv :: size :: _ => done_ (cmd_lvm_lv_create vg lv (strtoull size))
        | _ => usage_error
        end
      else unknown
  end.

Definition main_fs (args : list string) : M W (option (Z * string)) :=
  match args with
  | [] => usage_error
  | subcmd :: rest =>
      if streq subcmd "create" then
        match rest with
        | d :: t :: opts => done_ (cmd_fs_create d t (Some (default "storage_vol" (last_option "--label=" opts))))
        | _ => usage_error
        end
      else if streq subcmd "mount" then
        match rest with d :: mp :: t :: _ => done_ (cmd_fs_mount d mp t) | _ => usage_error end
      else if streq subcmd "unmount" then
        match rest with mp :: _ => done_ (cmd_fs_unmount mp) | _ => usage_error end
      else if streq subcmd "check" then
        match rest with d :: t :: _ => done_ (cmd_fs_check d t) | _ => usage_error end
      else unknown
  end.

Definition main_memory (args : list string) : M W (option (Z * string)) :=
  match args with
  | [] => usage_error
  | subcmd :: _ => if streq subcmd "status" then shows cmd_memory_status else unknown
  end.

(** The line [send_command] prints on the standard output. *)
Definition status_text (o : option shown) : string :=
  match o with Some (Out s) => sprintf (line "%s") [CStr s] | _ => "" end.

(** [prog] is the program's name, [args] the words after it; [fuel] bounds the
    benchmark, the only command that loops on what a system call returns. *)
Definition main (fuel : nat) (prog : string) (args : list string) : M W (option (Z * string)) :=
  match args with
  | [] => ret (Some (1, show_help prog))
  | command :: rest =>
      if streq command "monitor" then main_monitor rest
      else if streq command "backup" then main_backup rest
      else if streq command "perf" then main_perf fuel rest
      else if streq command "raid" then main_raid rest
      else if streq command "lvm" then main_lvm rest
      else if streq command "fs" then main_fs rest
      else if streq command "memory" then main_memory rest
      else if streq command "status" then let! r := cmd_status in ret (Some (r.2, status_text r.1))
      else if streq command "help" || streq command "--help" || streq command "-h" then
        ret (Some (0, show_help prog))
      else unknown
  end.
End Cli.
