(* ===== verification/FsProps.v ===== *)
(** * Theorems about src/filesystem_ops.c, and the disk usage of src/monitor.c *)

From stdpp Require Import base list gmap strings pretty.
From Stdlib Require Import Ascii ZArith Lia.
From S2P Require Import Prelude CString CFormat CFloat Sys SimOS Fs Monitor.

#[local] Opaque snprintf sprintf.

(** The device is neither the source nor the directory of a mount. *)
Definition offline {W} `{Mounts W} (device : string) (w : W) : Prop :=
  exists l, mounts w = Some l /\ Forall (fun m => mnt_fsname m <> device /\ mnt_dir m <> device) l.

Section Offline.
Context {W : Type} `{Shell W} `{Mounts W} `{!ShellTrace W} `{!ShellStarts W}.

Lemma fs_is_mounted_offline device (w : W) : fs_is_mounted device w = 0 <-> offline device w.
Proof.
  unfold fs_is_mounted, offline. destruct (mounts w) as [l|]; [|naive_solver].
  destruct (existsb (mnt_matches device) l) eqn:E; split; try done.
  - intros (l' & [= <-] & Hl). apply existsb_exists in E as (m & Hm & Hx).
    rewrite Forall_forall in Hl. destruct (Hl m) as [H1 H2]; [by apply list_elem_of_In|].
    unfold mnt_matches in Hx. apply orb_true_iff in Hx as [?%streq_spec|?%streq_spec]; done.
  - intros _. exists l. split; [done|]. apply Forall_forall. intros m Hm%list_elem_of_In.
    assert (mnt_matches device m = false) as Hx.
    { destruct (mnt_matches device m) eqn:Ex; [|done].
      assert (existsb (mnt_matches device) l = true) by (apply existsb_exists; eauto). congruence. }
    unfold mnt_matches in Hx. apply orb_false_iff in Hx as [H1 H2].
    split; intros E2; [by rewrite E2, streq_refl in H1|by rewrite E2, streq_refl in H2].
Qed.

(** The commands, for the types that have one: a check only reads. *)
Definition check_cmd (device : string) (type : fs_type_t) : option string :=
  match type with
  | FS_TYPE_EXT4 => Some (snprintf MAX_COMMAND "e2fsck -n %s 2>&1" [CStr device])
  | FS_TYPE_XFS => Some (snprintf MAX_COMMAND "xfs_repair -n %s 2>&1" [CStr device])
  | _ => None
  end.
Definition repair_cmd (device : string) (type : fs_type_t) (auto_repair : bool) : option string :=
  match type with
  | FS_TYPE_EXT4 =>
      Some (if auto_repair then snprintf MAX_COMMAND "e2fsck -y %s 2>&1" [CStr device]
            else snprintf MAX_COMMAND "e2fsck -p %s 2>&1" [CStr device])
  | FS_TYPE_XFS => Some (snprintf MAX_COMMAND "xfs_repair %s 2>&1" [CStr device])
  | _ => None
  end.

(** What a check or repair does: the guards in the order of the code, then
    its command, once. *)
Definition guarded (device : string) (cmd : option string) (w : W) (r : Z) (w' : W) : Prop :=
  if is_root w then
    (~ offline device w /\ r = ERROR_GENERIC /\ w' = w) \/
    (offline device w /\
     match cmd with
     | None => r = ERROR_INVALID_PARAM /\ w' = w
     | Some c => trace w' = trace w ++ [c] /\ (r = SUCCESS \/ r = ERROR_SYSTEM_CALL)
     end)
  else r = ERROR_PERMISSION /\ w' = w.

(** [run] is one of the two ways to run the command. *)
Lemma offline_guard device cmd (run : string -> M W Z) (w : W) :
  (forall c w, exists r w', run c w = Some (r, w') /\ trace w' = trace w ++ [c] /\
     (r = SUCCESS \/ r = ERROR_SYSTEM_CALL)) ->
  exists r w',
    (let! root := reads is_root in
     if negb root then ret ERROR_PERMISSION
     else let! m := reads (fs_is_mounted device) in
          if negb (m =? 0) then ret ERROR_GENERIC
          else match cmd with Some c => run c | None => ret ERROR_INVALID_PARAM end) w = Some (r, w') /\
    guarded device cmd w r w'.
Proof.
  intros Hrun. unfold bind, reads, guarded. destruct (is_root w); simpl; [|unfold ret; naive_solver].
  destruct (Z.eqb_spec (fs_is_mounted device w) 0) as [Hm|Hm]; simpl; rewrite fs_is_mounted_offline in Hm.
  - destruct cmd as [c|]; simpl; [|unfold ret; naive_solver].
    destruct (Hrun c w) as (r & w' & E & Ht). exists r, w'. split; [done|]. by right.
  - unfold ret. eexists _, _. split; [done|]. by left.
Qed.

Lemma plain_runs cmd (w : W) : exists r w', plain cmd w = Some (r, w') /\ trace w' = trace w ++ [cmd] /\
  (r = SUCCESS \/ r = ERROR_SYSTEM_CALL).
Proof.
  destruct (exec_runs cmd w) as (r & o & w' & E & ?). exists r, w'. split; [|done].
  unfold plain. by rewrite (bind_step E).
Qed.
Lemma plain_logged_runs cmd (w : W) : exists r w', plain_logged cmd w = Some (r, w') /\
  trace w' = trace w ++ [cmd] /\ (r = SUCCESS \/ r = ERROR_SYSTEM_CALL).
Proof.
  destruct (exec_logged_runs cmd w) as (r & o & w' & E & ?). exists r, w'. split; [|done].
  unfold plain_logged. by rewrite (bind_step E).
Qed.

(** Checking and repairing a file system touch only an unmounted device:
    for root, a type that is supported, and when /proc/mounts could be read
    and names the device neither as a source nor as a directory, each runs
    exactly one command, which for a check is a read-only one, and returns
    SUCCESS or ERROR_SYSTEM_CALL.  In every other case the state is left alone
    and the error code of the first guard that failed is returned. *)
Theorem fs_offline_only device type auto (w : W) :
  (exists r w', fs_check device type w = Some (r, w') /\ guarded device (check_cmd device type) w r w') /\
  (exists r w', fs_repair device type auto w = Some (r, w') /\
     guarded device (repair_cmd device type auto) w r w').
Proof.
  split.
  - pose proof (offline_guard device (check_cmd device type) plain w plain_runs). by destruct type.
  - pose proof (offline_guard device (repair_cmd device type auto) plain_logged w plain_logged_runs).
    by destruct type.
Qed.
End Offline.

(** ** Sizes of a mounted file system *)

(** What [statvfs] reports of a real file system. *)
Record vfs_ok (v : vfs) : Prop := {
  vfs_free : 0 <= f_bavail v <= f_bfree v /\ f_bfree v <= f_blocks v;
  vfs_size : 0 <= f_frsize v /\ f_blocks v * f_frsize v < 2 ^ 64;
}.

Lemma usage_exact v : vfs_ok v ->
  usage v = (f_blocks v * f_frsize v, (f_blocks v - f_bfree v) * f_frsize v, f_bavail v * f_frsize v).
Proof.
  intros [[[H1 H2] H3] [H4 H5]]. unfold usage.
  destruct (decide (f_frsize v = 0)) as [E|E].
  { rewrite E, !Z.mul_0_r. done. }
  assert (f_blocks v < 2 ^ 64) by nia.
  rewrite (u64_small (f_blocks v - f_bfree v)) by (unfold in_u64; lia).
  rewrite !u64_small; unfold in_u64; try nia. done.
Qed.

Lemma usage_of_sizes mount_point v :
  (let u := usage_of mount_point v in (total_bytes u, used_bytes u, available_bytes u)) = usage v.
Proof.
  unfold usage_of, usage. simpl. f_equal. f_equal. unfold u64.
  rewrite <- Zminus_mod. rewrite Z.mul_mod_idemp_l by lia. f_equal. lia.
Qed.

(** C36. The two computations of a file system's sizes, [fs_get_usage] with
    its product of a difference and [monitor_get_disk_usage] with its
    difference of products, agree on every answer of [statvfs], wrap-around
    included.  For the answers real file systems give, total and used space are
    the exact products, and used and available space together fit in the
    total. *)
Theorem usage_agree mount_point v :
  (let u := usage_of mount_point v in (total_bytes u, used_bytes u, available_bytes u)) = usage v /\
  (vfs_ok v -> exists total used available, usage v = (total, used, available) /\
     total = f_blocks v * f_frsize v /\ used = (f_blocks v - f_bfree v) * f_frsize v /\
     0 <= available /\ 0 <= used /\ used + available <= total).
Proof.
  split; [apply usage_of_sizes|].
  intros Hv. rewrite usage_exact by done. destruct Hv as [[[H1 H2] H3] [H4 H5]].
  eexists _, _, _. split; [done|]. repeat split; nia.
Qed.

Lemma usage_agree_witness :
  exists total used available, usage (mk_vfs 1000 400 300 4096 64 32) = (total, used, available) /\
     total = 1000 * 4096 /\ used = (1000 - 400) * 4096 /\
     0 <= available /\ 0 <= used /\ used + available <= total.
Proof. apply (usage_agree "/data" (mk_vfs 1000 400 300 4096 64 32)). split; simpl; lia. Defined.

(** ** A machine with one mounted device *)

#[global] Instance sim_mounts : Mounts sim := {
  mounts _ := Some [mk_mnt "/dev/sdb1" "/data" "ext4" "rw"];
  statvfs _ _ := Some (mk_vfs 1000 400 300 4096 64 32);
}.

Lemma fs_offline_only_witness :
  (exists r w', fs_check "/dev/sdb1" FS_TYPE_EXT4 blank = Some (r, w') /\
     guarded "/dev/sdb1" (check_cmd "/dev/sdb1" FS_TYPE_EXT4) blank r w') /\
  (exists r w', fs_repair "/dev/sdb1" FS_TYPE_EXT4 true blank = Some (r, w') /\
     guarded "/dev/sdb1" (repair_cmd "/dev/sdb1" FS_TYPE_EXT4 true) blank r w').
Proof. apply (fs_offline_only "/dev/sdb1" FS_TYPE_EXT4 true blank). Defined.
