(* ===== verification/MemoryProps.v ===== *)
(** * Theorems about src/memory_manager.c *)

From stdpp Require Import base list gmap strings pretty.
From Stdlib Require Import Ascii ZArith Lia SpecFloat.
From S2P Require Import Prelude CString CFloat CFloatFacts CFormat Sys SimOS Memory.

#[local] Opaque snprintf sprintf dd_cmd mkswap_cmd swapon_cmd.

(** Commands run in other processes and file operations do not change the
    caller's credentials; file operations give nothing to the shell. *)
Class SwapLaws (W : Type) `{Shell W} `{Files W} `{!ShellTrace W} := {
  popen_euid : forall c (w : W), geteuid (popen c w).2 = geteuid w;
  pclose_euid : forall c b (w : W), geteuid (pclose c b w).2 = geteuid w;
  chmod_euid : forall p m (w : W), geteuid (chmod p m w).2 = geteuid w;
  chmod_trace : forall p m (w : W), trace (chmod p m w).2 = trace w;
  unlink_trace : forall p (w : W), trace (unlink p w).2 = trace w;
}.

#[global] Instance sim_swap_laws : SwapLaws sim.
Proof. split; try done. intros p w. simpl. by case_match. Qed.

Section Swap.
Context {W : Type} `{Shell W} `{Files W} `{!ShellTrace W} `{!ShellStarts W} `{!SwapLaws W}.

Lemma execute_command_root cmd n (w : W) x w' :
  execute_command cmd n w = Some (x, w') -> is_root w' = is_root w.
Proof.
  unfold is_root, execute_command. run. pose proof (popen_euid cmd w) as Hp.
  destruct (popen cmd w) as [[text|] w1]; simpl in Hp; [|intros [= <- <-]; by rewrite Hp].
  case_match. pose proof (pclose_euid cmd b w1) as Hc.
  destruct (pclose cmd b w1) as [st w2]. simpl in Hc.
  repeat case_match; intros [= <- <-]; congruence.
Qed.

Lemma exec_root cmd (w : W) x w' : exec cmd w = Some (x, w') -> is_root w' = is_root w.
Proof.
  unfold exec. intros (ro & w1 & E & E2)%bind_Some. injection E2 as _ <-. by eapply execute_command_root.
Qed.

Lemma exec_logged_root cmd (w : W) x w' : exec_logged cmd w = Some (x, w') -> is_root w' = is_root w.
Proof.
  unfold exec_logged. intros (ro & w1 & E & E2)%bind_Some. destruct ro.2; [|done].
  injection E2 as _ <-. by eapply execute_command_root.
Qed.

Lemma ran_root cmd (w : W) : is_root (ran cmd w).2 = is_root w.
Proof. destruct (exec_ran cmd w) as (out & E). by apply exec_root in E. Qed.

(** A command whose failure is turned into ERROR_SYSTEM_CALL, followed by [k]. *)
Lemma or_system_error_ran cmd (k : M W Z) (w : W) :
  or_system_error cmd k w =
    if (ran cmd w).1 then k (ran cmd w).2 else Some (ERROR_SYSTEM_CALL, (ran cmd w).2).
Proof.
  destruct (exec_ran cmd w) as (out & E). unfold or_system_error. rewrite (bind_step E).
  by destruct (ran cmd w).1.
Qed.
Lemma or_logged_error_ran cmd (k : M W Z) (w : W) :
  or_logged_error cmd k w =
    if (ran cmd w).1 then k (ran cmd w).2 else Some (ERROR_SYSTEM_CALL, (ran cmd w).2).
Proof.
  destruct (exec_logged_ran cmd w (popen_starts cmd w)) as (out & E). unfold or_logged_error.
  rewrite (bind_step E). by destruct (ran cmd w).1.
Qed.

Lemma swap_remove_step path (w : W) :
  (swap_remove_file path ;;! ret ERROR_SYSTEM_CALL) w = Some (ERROR_SYSTEM_CALL, (unlink path w).2).
Proof. unfold swap_remove_file. run. destruct (unlink path w) as [z w1]. by destruct (z =? 0). Qed.

(** Memory is low: /proc/meminfo can be read and the available memory it
    states is below the threshold, in kB, of 64 bits. *)
Definition memory_low (threshold_mb : Z) (w : W) : bool :=
  match fopen_r "/proc/meminfo" w with
  | Some text =>
      available_kb (meminfo_lines (kb zero_mem) (fgets_chunks 256 text)) <? u64 (threshold_mb * 1024)
  | None => false
  end.

Lemma check_low_spec threshold (w : W) :
  memory_check_low threshold w =
    Some (match fopen_r "/proc/meminfo" w with
          | Some _ => if memory_low threshold w then 1 else 0 | None => -1 end, w).
Proof.
  unfold memory_check_low, memory_get_info, memory_parse_meminfo, memory_low. run.
  by destruct (fopen_r "/proc/meminfo" w).
Qed.

(** The three commands of the automatic swap, each run in the state the one
    before left; the permissions of the file are set after dd.  The code
    returned, the state, and the commands that were run. *)
Definition swap_steps (path : string) (size : Z) (w : W) : Z * W * list string :=
  let '(dd_ok, w1) := ran (dd_cmd path size) w in
  if negb dd_ok then (ERROR_SYSTEM_CALL, w1, [dd_cmd path size])
  else
    let '(mkswap_ok, w2) := ran (mkswap_cmd path) (chmod path 384 w1).2 in
    if negb mkswap_ok then (ERROR_SYSTEM_CALL, (unlink path w2).2, [dd_cmd path size; mkswap_cmd path])
    else
      let '(swapon_ok, w3) := ran (swapon_cmd path (-1)) w2 in
      if negb swapon_ok
      then (ERROR_SYSTEM_CALL, (unlink path w3).2, [dd_cmd path size; mkswap_cmd path; swapon_cmd path (-1)])
      else (SUCCESS, w3, [dd_cmd path size; mkswap_cmd path; swapon_cmd path (-1)]).

Lemma auto_swap_root threshold size path (w : W) :
  memory_low threshold w = true -> is_root w = true ->
  memory_auto_swap threshold size path w = Some ((swap_steps path size w).1.1, (swap_steps path size w).1.2) /\
  trace (swap_steps path size w).1.2 = trace w ++ (swap_steps path size w).2.
Proof.
  intros Hlow Hroot. unfold memory_auto_swap. rewrite (bind_step (check_low_spec threshold w)), Hlow.
  assert (exists text, fopen_r "/proc/meminfo" w = Some text) as [text ->].
  { unfold memory_low in Hlow. destruct (fopen_r _ w); eauto. done. }
  cbn [Z.leb Z.compare]. unfold swap_steps, swap_create_file, swap_make, swap_enable.
  unfold bind at 1, bind at 1, reads at 1. rewrite Hroot. cbn [negb]. rewrite or_system_error_ran.
  pose proof (ran_root (dd_cmd path size) w) as R1. pose proof (ran_trace (dd_cmd path size) w) as T1.
  destruct (ran (dd_cmd path size) w) as [[] w1]; cbn [fst snd negb] in *; [|done].
  unfold bind at 1, call. pose proof (chmod_euid path 384 w1) as Rc. pose proof (chmod_trace path 384 w1) as Tc.
  destruct (chmod path 384 w1) as [z w1']. cbn [fst snd ret negb Z.eqb SUCCESS] in *.
  assert (is_root w1' = true) as R1' by (unfold is_root in *; congruence).
  unfold bind at 1, bind at 1, reads at 1. rewrite R1'. cbn [negb]. rewrite or_system_error_ran.
  pose proof (ran_root (mkswap_cmd path) w1') as R2. pose proof (ran_trace (mkswap_cmd path) w1') as T2.
  destruct (ran (mkswap_cmd path) w1') as [[] w2]; cbn [fst snd negb ret Z.eqb SUCCESS ERROR_SYSTEM_CALL] in *.
  2: { rewrite swap_remove_step. split; [done|]. by rewrite unlink_trace, T2, Tc, T1, <- app_assoc. }
  unfold bind at 1, bind at 1, reads at 1. rewrite R2, R1'. cbn [negb]. rewrite or_logged_error_ran.
  pose proof (ran_trace (swapon_cmd path (-1)) w2) as T3.
  destruct (ran (swapon_cmd path (-1)) w2) as [[] w3]; cbn [fst snd negb ret Z.eqb SUCCESS ERROR_SYSTEM_CALL] in *.
  - split; [done|]. by rewrite T3, T2, Tc, T1, <- !app_assoc.
  - rewrite swap_remove_step. split; [done|]. by rewrite unlink_trace, T3, T2, Tc, T1, <- !app_assoc.
Qed.

(** C32. The automatic swap: when memory is not low, or cannot be read, 0 is
    returned with nothing run; when it is low but the caller is not root,
    ERROR_SYSTEM_CALL is returned with nothing run.  As root with low memory,
    dd, mkswap and swapon are run in this order, each only after the one
    before succeeded.  SUCCESS is returned exactly when all three succeeded,
    and the file stays; after a failed mkswap or swapon, and only then, the
    file is removed; after a failed dd what dd left of the file stays. *)
Theorem auto_swap_spec threshold size path (w : W) :
  (memory_low threshold w = false -> memory_auto_swap threshold size path w = Some (0, w)) /\
  (memory_low threshold w = true -> is_root w = false ->
    memory_auto_swap threshold size path w = Some (ERROR_SYSTEM_CALL, w)) /\
  (memory_low threshold w = true -> is_root w = true ->
    let '(r, w', cmds) := swap_steps path size w in
    memory_auto_swap threshold size path w = Some (r, w') /\ trace w' = trace w ++ cmds).
Proof.
  split; [|split].
  - intros Hlow. unfold memory_auto_swap. rewrite (bind_step (check_low_spec threshold w)), Hlow.
    by destruct (fopen_r _ w).
  - intros Hlow Hroot. unfold memory_auto_swap. rewrite (bind_step (check_low_spec threshold w)), Hlow.
    unfold memory_low in Hlow. destruct (fopen_r _ w); [|done]. cbn [Z.leb Z.compare].
    unfold swap_create_file. run. by rewrite Hroot.
  - intros Hlow Hroot. pose proof (auto_swap_root threshold size path w Hlow Hroot) as E.
    by destruct (swap_steps path size w) as [[r w'] cmds].
Qed.
End Swap.

Definition low_machine : sim :=
  sim_put_files blank {[ "/proc/meminfo" := "MemTotal:       2000000 kB" +:+ NL +:+ "MemAvailable:   1000 kB" +:+ NL ]}.

(** There, mkswap fails and the swap file is removed. *)
Definition mkswap_fails : sim :=
  sim_put_files (sim_put_answers low_machine {[ mkswap_cmd "/swapfile" := ("", exited 1) ]})
    (<["/swapfile" := ""]> (sim_files low_machine)).

Lemma auto_swap_spec_witness :
  exists w', memory_auto_swap 512 1024 "/swapfile" mkswap_fails = Some (ERROR_SYSTEM_CALL, w') /\
    trace w' = [dd_cmd "/swapfile" 1024; mkswap_cmd "/swapfile"] /\ fopen_r "/swapfile" w' = None.
Proof.
  pose proof (proj2 (proj2 (auto_swap_spec 512 1024 "/swapfile" mkswap_fails))) as E.
  assert (memory_low 512 mkswap_fails = true) as Hl by (vm_compute; reflexivity).
  specialize (E Hl eq_refl). destruct (swap_steps "/swapfile" 1024 mkswap_fails) as [[r w'] cmds] eqn:Es.
  exists w'. destruct E as [E Ht]. vm_compute in Es. injection Es as <- <- <-.
  split; [exact E|]. split; [exact Ht|]. vm_compute. reflexivity.
Defined.

(** ** /proc/meminfo *)

(** A line of /proc/meminfo: a name, blanks, a number and what follows it:
    " kB", or nothing for the counts of huge pages. *)
Record mem_entry := mk_entry { me_name : string; me_blanks : nat; me_value : Z; me_unit : string }.
Definition mem_line (x : mem_entry) : string :=
  me_name x +:+ ":" +:+ str_repeat " " (me_blanks x) +:+ pretty (me_value x) +:+ me_unit x.
Record entry_ok (x : mem_entry) : Prop := {
  eo_name : str_mem ":" (me_name x) = false /\ str_mem nl (me_name x) = false;
  eo_value : in_u64 (me_value x);
  eo_unit : starts_digit (me_unit x) = false /\ str_mem nl (me_unit x) = false;
  eo_line : (String.length (mem_line x) < 255)%nat;
}.
(** The whole file, and its content as a map. *)
Definition meminfo_text (l : list mem_entry) : string :=
  str_concat ((fun x => x +:+ NL) <$> (mem_line <$> l)).
Definition meminfo_map (l : list mem_entry) : gmap string Z :=
  list_to_map ((fun x => (me_name x, me_value x)) <$> l).

(** The fields of [i], replaced by the numbers of [m] where it has them. *)
Definition from_map (m : gmap string Z) (i : mem_kb) : mem_kb :=
  mk_mem (default (total_kb i) (m !! "MemTotal")) (default (free_kb i) (m !! "MemFree"))
    (default (available_kb i) (m !! "MemAvailable")) (default (cached_kb i) (m !! "Cached"))
    (default (buffers_kb i) (m !! "Buffers")) (default (swap_total_kb i) (m !! "SwapTotal"))
    (default (swap_free_kb i) (m !! "SwapFree")) (swap_used_kb i).

Lemma meminfo_value_line label fmt x :
  fmt = label +:+ ": %llu" -> plain_label label = true -> entry_ok x ->
  meminfo_value fmt (mem_line x +:+ NL) = if streq (me_name x) label then Some (me_value x) else None.
Proof.
  intros -> Hl [[Hc _] Hv [Hu _] _]. unfold meminfo_value, mem_line. rewrite !str_app_assoc.
  rewrite sscanf_label; [by destruct (streq (me_name x) label)|done..|]. by destruct (me_unit x).
Qed.

Lemma default_insert (m : gmap string Z) name (v d : Z) label :
  m !! name = None ->
  default d (<[name := v]> m !! label) = default (default d (({[ name := v ]} : gmap string Z) !! label)) (m !! label).
Proof.
  intros Hm. destruct (decide (name = label)) as [<-|Hne].
  - by rewrite Hm, lookup_insert_eq, lookup_singleton_eq.
  - by rewrite lookup_insert_ne, lookup_singleton_ne.
Qed.

Lemma from_map_insert m name (v : Z) i :
  m !! name = None -> from_map (<[name := v]> m) i = from_map m (from_map {[ name := v ]} i).
Proof. intros Hm. unfold from_map. simpl. f_equal; by apply default_insert. Qed.

Lemma meminfo_fields_entry value name (v : Z) i :
  (forall label fmt, fmt = label +:+ ": %llu" -> plain_label label = true ->
     value fmt = if streq name label then Some v else None) ->
  meminfo_fields value i = from_map {[ name := v ]} i.
Proof.
  intros Hv. unfold meminfo_fields.
  rewrite (Hv "MemTotal" "MemTotal: %llu" eq_refl eq_refl),
    (Hv "MemFree" "MemFree: %llu" eq_refl eq_refl),
    (Hv "MemAvailable" "MemAvailable: %llu" eq_refl eq_refl),
    (Hv "Cached" "Cached: %llu" eq_refl eq_refl),
    (Hv "Buffers" "Buffers: %llu" eq_refl eq_refl),
    (Hv "SwapTotal" "SwapTotal: %llu" eq_refl eq_refl),
    (Hv "SwapFree" "SwapFree: %llu" eq_refl eq_refl).
  unfold from_map.
  assert (forall label d, streq name label = false ->
    default d (({[ name := v ]} : gmap string Z) !! label) = d) as Hother.
  { intros label d E. rewrite lookup_singleton_ne; [done|]. intros ->. by rewrite streq_refl in E. }
  repeat match goal with |- context [streq name ?l] =>
    let H := fresh in destruct (streq name l) eqn:H;
    [apply streq_spec in H; subst name;
     by rewrite lookup_singleton_eq, !lookup_singleton_ne by (intros [=])|] end.
  rewrite !Hother by done. by destruct i.
Qed.

Lemma meminfo_line_entry i x :
  entry_ok x -> meminfo_line i (mem_line x +:+ NL) = from_map {[ me_name x := me_value x ]} i.
Proof. intros Hx. apply meminfo_fields_entry. intros label fmt E Hl. by apply meminfo_value_line. Qed.

Lemma meminfo_lines_cons i x l : meminfo_lines i (x :: l) = meminfo_lines (meminfo_line i x) l.
Proof. reflexivity. Qed.

Lemma meminfo_lines_map l : Forall entry_ok l -> NoDup (me_name <$> l) ->
  forall i, meminfo_lines i ((fun x => x +:+ NL) <$> (mem_line <$> l)) = from_map (meminfo_map l) i.
Proof.
  induction 1 as [|x l Hx Hl IH]; intros Hd i; [by destruct i|].
  rewrite fmap_cons in Hd. apply NoDup_cons in Hd as [Hn Hd].
  rewrite !fmap_cons, meminfo_lines_cons, meminfo_line_entry, IH by done.
  unfold meminfo_map. simpl. rewrite from_map_insert; [done|].
  apply not_elem_of_list_to_map_1. by rewrite <- list_fmap_compose.
Qed.

Lemma mem_lines_short l : Forall entry_ok l ->
  Forall (fun x => str_mem nl x = false /\ (String.length x < 256 - 1)%nat) (mem_line <$> l).
Proof.
  intros Hl. apply Forall_fmap. eapply Forall_impl; [exact Hl|].
  intros x [[_ Hn] _ [_ Hu] Hlen]. unfold compose. split; [|exact Hlen]. unfold mem_line.
  by rewrite !str_mem_app, Hn, Hu, str_mem_pretty, str_mem_repeat.
Qed.

(** ** The two ratios *)

(** Every field read is a 64-bit number. *)
Definition mem_range (i : mem_kb) : Prop :=
  in_u64 (total_kb i) /\ in_u64 (free_kb i) /\ in_u64 (available_kb i) /\ in_u64 (cached_kb i) /\
  in_u64 (buffers_kb i) /\ in_u64 (swap_total_kb i) /\ in_u64 (swap_free_kb i) /\ in_u64 (swap_used_kb i).

Lemma meminfo_value_range label fmt line z :
  fmt = label +:+ ": %llu" -> plain_label label = true -> meminfo_value fmt line = Some z -> in_u64 z.
Proof.
  intros -> Hl. unfold meminfo_value. destruct (sscanf _ line) as [|[|v|] [|]] eqn:E; try done.
  intros [= <-]. by eapply sscanf_label_range.
Qed.

Lemma meminfo_fields_range value i :
  (forall label fmt z, fmt = label +:+ ": %llu" -> plain_label label = true -> value fmt = Some z -> in_u64 z) ->
  mem_range i -> mem_range (meminfo_fields value i).
Proof.
  intros Hv (? & ? & ? & ? & ? & ? & ? & ?). unfold meminfo_fields.
  pose proof (fun z => Hv "MemTotal" "MemTotal: %llu" z eq_refl eq_refl).
  pose proof (fun z => Hv "MemFree" "MemFree: %llu" z eq_refl eq_refl).
  pose proof (fun z => Hv "MemAvailable" "MemAvailable: %llu" z eq_refl eq_refl).
  pose proof (fun z => Hv "Cached" "Cached: %llu" z eq_refl eq_refl).
  pose proof (fun z => Hv "Buffers" "Buffers: %llu" z eq_refl eq_refl).
  pose proof (fun z => Hv "SwapTotal" "SwapTotal: %llu" z eq_refl eq_refl).
  pose proof (fun z => Hv "SwapFree" "SwapFree: %llu" z eq_refl eq_refl).
  repeat match goal with |- context [value ?f] => destruct (value f) end;
    unfold mem_range; simpl; auto 12.
Qed.

Lemma meminfo_line_range i line : mem_range i -> mem_range (meminfo_line i line).
Proof. apply meminfo_fields_range. intros label fmt z E Hl. by eapply meminfo_value_range. Qed.

Lemma meminfo_lines_range lines : forall i, mem_range i -> mem_range (meminfo_lines i lines).
Proof.
  induction lines as [|x l IH]; intros i Hi; [done|]. rewrite meminfo_lines_cons.
  by apply IH, meminfo_line_range.
Qed.

Lemma u64_digits z : in_u64 z -> Zdigits2 z + 1 <= 128.
Proof.
  intros [H0 Hz]. destruct (Z.eq_dec z 0) as [->|]; [simpl; lia|].
  pose proof (digits_le z 64 ltac:(lia) Hz). lia.
Qed.

(** The quotient of two sizes in order lies between 0 and 1. *)
Lemma ratio_range a b : in_u64 b -> 0 <= a <= b -> 0 < b -> unit_range 24 (ratio a b).
Proof.
  intros Hb Hab H0. unfold ratio, fdiv, to_single.
  apply ratio_unit; try lia. by apply u64_digits.
Qed.

Lemma pressure_range i :
  mem_range i -> available_kb i <= total_kb i -> swap_used_kb i <= swap_total_kb i ->
  unit_range 24 (memory_calculate_pressure i).
Proof.
  intros Hi Ha Hs. unfold mem_range, in_u64 in Hi. unfold memory_calculate_pressure.
  destruct (Z.eqb_spec (total_kb i) 0) as [|Ht]; [done|].
  assert (unit_range 24 (ratio (available_kb i) (total_kb i))) as Hr
    by (apply ratio_range; unfold in_u64; lia).
  set (p := narrow (dsub (to_double 1) (widen _))).
  assert (unit_range 24 p) as Hp.
  { apply (convert_unit 24 128 ltac:(lia) ltac:(lia) 53); [lia|].
    apply (one_minus_unit 53 1024 ltac:(lia) ltac:(lia)).
    by apply (convert_unit 53 1024 ltac:(lia) ltac:(lia) 24); [lia|]. }
  destruct (Z.ltb_spec 0 (swap_total_kb i)) as [Hst|]; [destruct (Z.ltb_spec 0 (swap_used_kb i))|]; cbn [andb].
  - set (q := narrow (dadd _ _)). assert (unit_range 24 q); [|by destruct (dgt _ _)].
    apply (convert_unit 24 128 ltac:(lia) ltac:(lia) 53); [lia|].
    assert (unit_range 24 (ratio (swap_used_kb i) (swap_total_kb i))) as Hf
      by (apply ratio_range; unfold in_u64; lia).
    eapply (dadd_unit _ _ 6305039478318694 (-53) 5404319552844595 (-54)); try lia.
    + apply dmul_at_most; [|unfold full; lia|lia].
      by apply (convert_unit 53 1024 ltac:(lia) ltac:(lia) 24); [lia|].
    + apply dmul_at_most; [|unfold full; lia|lia].
      by apply (convert_unit 53 1024 ltac:(lia) ltac:(lia) 24); [lia|].
  - by destruct (dgt _ _).
  - by destruct (dgt _ _).
Qed.

(** The percentage is at most 100, which is 13107200 / 2^17. *)
Lemma percent_range i :
  mem_range i -> swap_used_kb i <= swap_total_kb i -> at_most 13107200 (-17) (swap_percent i d0).
Proof.
  intros Hi Hs. unfold mem_range, in_u64 in Hi. unfold swap_percent.
  destruct (Z.ltb_spec 0 (swap_total_kb i)); [|done].
  assert (unit_range 24 (ratio (swap_used_kb i) (swap_total_kb i))) as Hf
    by (apply ratio_range; unfold in_u64; lia).
  assert (at_most 7036874417766400 (-46)
    (dmul (widen (ratio (swap_used_kb i) (swap_total_kb i))) (to_double 100))) as Hd.
  { change (to_double 100) with (S754_finite false 7036874417766400 (-46)).
    apply dmul_at_most; [|unfold full; lia|lia].
    by apply (convert_unit 53 1024 ltac:(lia) ltac:(lia) 24); [lia|]. }
  destruct (dmul _ _) as [[]|[]| |[] m e]; try done. destruct Hd as [He Hm].
  unfold narrow, convert. cbn [cond_Zopp].
  apply normalize_at_most; try lia; [unfold full; lia|unfold emin; lia|].
  replace (-17 - e) with (29 + (-46 - e)) by lia. rewrite Z.pow_add_r by lia. lia.
Qed.

Section Info.
Context {W : Type} `{Shell W} `{Files W}.

(** C30. /proc/meminfo is read exactly: for a file of lines "name: number" with
    or without a unit, with different names and each shorter than 255 bytes,
    the seven fields are the numbers of their lines, 0 where there is no such
    line, whatever other lines there are, and the used swap is the difference,
    modulo 2^64.  A file that cannot be read gives ERROR_SYSTEM_CALL. *)
Theorem meminfo_roundtrip l (w : W) :
  Forall entry_ok l -> NoDup (me_name <$> l) ->
  (fopen_r "/proc/meminfo" w = Some (meminfo_text l) ->
    exists info, memory_get_info w = Some ((SUCCESS, info), w) /\
      kb info = with_used (from_map (meminfo_map l) (mk_mem 0 0 0 0 0 0 0 0))) /\
  (fopen_r "/proc/meminfo" w = None -> memory_get_info w = Some ((ERROR_SYSTEM_CALL, zero_mem), w)).
Proof.
  intros Hl Hd. split; [|intros Hf; unfold memory_get_info, memory_parse_meminfo; run; by rewrite Hf].
  intros Hf. eexists. split.
  - unfold memory_get_info, memory_parse_meminfo. run. by rewrite Hf.
  - cbn [kb zero_mem]. unfold meminfo_text. rewrite fgets_chunks_lines by (by apply mem_lines_short).
    by rewrite meminfo_lines_map.
Qed.

(** C31. As memory_manager.h documents, the memory pressure is a number from 0
    to 1, and the swap usage one from 0 to 100, whenever /proc/meminfo states
    no more available than total memory and no more free than total swap:
    the roundings to float and double do not leave the ranges. *)
Theorem memory_pressure_range (w : W) info w' :
  memory_get_info w = Some ((SUCCESS, info), w') ->
  available_kb (kb info) <= total_kb (kb info) -> swap_free_kb (kb info) <= swap_total_kb (kb info) ->
  unit_range 24 (memory_pressure info) /\ at_most 13107200 (-17) (swap_usage_percent info).
Proof.
  unfold memory_get_info, memory_parse_meminfo. run.
  destruct (fopen_r "/proc/meminfo" w) as [text|]; [|done]. intros [= <- <-] Ha Hs.
  cbn [memory_pressure swap_usage_percent kb zero_mem] in *.
  set (i := meminfo_lines _ _) in *.
  assert (mem_range i) as Hi by (by apply meminfo_lines_range; unfold mem_range, in_u64; simpl; lia).
  assert (swap_used_kb (with_used i) = swap_total_kb i - swap_free_kb i) as Hu.
  { simpl in *. apply u64_small. unfold mem_range, in_u64 in *. lia. }
  assert (mem_range (with_used i)) as Hw.
  { pose proof (u64_range (swap_total_kb i - swap_free_kb i)).
    unfold mem_range in *. simpl in *. tauto. }
  assert (swap_used_kb (with_used i) <= swap_total_kb (with_used i)).
  { rewrite Hu. simpl. unfold mem_range, in_u64 in Hi. lia. }
  split; [by apply pressure_range|by apply percent_range].
Qed.
End Info.

Definition meminfo_entries : list mem_entry :=
  [mk_entry "MemTotal" 7 16000000 " kB"; mk_entry "MemFree" 8 2000000 " kB";
   mk_entry "MemAvailable" 3 1000000 " kB"; mk_entry "Buffers" 9 300000 " kB"; mk_entry "Cached" 10 500000 " kB";
   mk_entry "SwapCached" 6 77 " kB"; mk_entry "Active(anon)" 4 123456 " kB"; mk_entry "SwapTotal" 6 2000000 " kB";
   mk_entry "SwapFree" 7 500000 " kB"; mk_entry "HugePages_Total" 7 0 ""; mk_entry "HugePages_Free" 8 0 "";
   mk_entry "Hugepagesize" 7 2048 " kB"].
Definition loaded_machine : sim :=
  sim_put_files blank {[ "/proc/meminfo" := meminfo_text meminfo_entries ]}.

Lemma meminfo_entries_ok : Forall entry_ok meminfo_entries.
Proof.
  repeat constructor; unfold in_u64; simpl; try lia; vm_compute; lia.
Qed.

Lemma meminfo_roundtrip_witness :
  exists info, memory_get_info loaded_machine = Some ((SUCCESS, info), loaded_machine) /\
    kb info = mk_mem 16000000 2000000 1000000 500000 300000 2000000 500000 1500000.
Proof.
  assert (NoDup (me_name <$> meminfo_entries)) as Hd
    by (apply (bool_decide_unpack (NoDup (me_name <$> meminfo_entries))); vm_compute; done).
  destruct (proj1 (meminfo_roundtrip meminfo_entries loaded_machine meminfo_entries_ok Hd)) as (info & E & Hk).
  - vm_compute. done.
  - exists info. split; [exact E|]. rewrite Hk. vm_compute. done.
Defined.

Lemma memory_pressure_range_witness :
  exists info, memory_get_info loaded_machine = Some ((SUCCESS, info), loaded_machine) /\
    unit_range 24 (memory_pressure info) /\ at_most 13107200 (-17) (swap_usage_percent info) /\
    fmt_f false 3 (memory_pressure info) = "0.881" /\ fmt_f false 1 (swap_usage_percent info) = "75.0".
Proof.
  eexists. split; [vm_compute; reflexivity|].
  match goal with |- unit_range 24 (memory_pressure ?i) /\ _ =>
    destruct (memory_pressure_range loaded_machine i loaded_machine) as [Hp Hs] end;
    [vm_compute; reflexivity|vm_compute; discriminate|vm_compute; discriminate|].
  split; [exact Hp|]. split; [exact Hs|]. split; vm_compute; reflexivity.
Defined.
