(* ===== verification/SecurityProps.v ===== *)
(** * Theorems about src/security_manager.c *)

From stdpp Require Import base list gmap strings pretty.
From Stdlib Require Import Ascii ZArith Lia.
From S2P Require Import Prelude CString CFormat Sys SimOS Utils Security.

#[local] Opaque snprintf sprintf luks_format_cmd luks_open_cmd change_key_cmd.

(** Documented behaviour: [mkstemp] creates a new, empty file or changes
    nothing; a write that returns [n] has put the first [n] bytes in the file,
    one that fails nothing; none of the file calls gives anything to the
    shell. *)
Class SecureLaws (W : Type) `{Shell W} `{Files W} `{Secure W} `{!ShellTrace W} := {
  mkstemp_new : forall t (w : W) f w', mkstemp t w = (Some f, w') ->
    fopen_r f w = None /\ fopen_r f w' = Some "" /\ trace w' = trace w;
  mkstemp_none : forall t (w w' : W), mkstemp t w = (None, w') -> w' = w;
  write_fd_spec : forall f t (w : W) n w', fopen_r f w = Some "" -> write_fd f t w = (n, w') ->
    -1 <= n <= strlen t /\ fopen_r f w' = Some (str_take (Z.to_nat n) t) /\ trace w' = trace w;
}.

Section Luks.
Context {W : Type} `{Shell W} `{Files W} `{!FilesLaws W} `{Secure W} `{!ShellTrace W} `{!ShellStarts W}
  `{!SecureLaws W}.

(** The computation [c] gives the passphrase to a command through a file:
    when the file [f] is made, it is new, and the write, which may be short or
    fail, puts the first [n] bytes of the passphrase in it.  The command runs
    once, in the state the write left, with whatever was written; [c] returns
    its result, and the last step is to remove the file. *)
Definition through_file (passphrase : string) (cmd : string -> string) (c : M W Z) (w : W) : Prop :=
  forall f w1 n w2,
  mkstemp "/tmp/luks_pass_XXXXXX" w = (Some f, w1) -> write_fd f passphrase w1 = (n, w2) ->
  exists r out w3, exec_raw (cmd f) w2 = Some ((r, Some out), w3) /\ c w = Some (r, (unlink f w3).2) /\
    fopen_r f w = None /\ fopen_r f w2 = Some (str_take (Z.to_nat n) passphrase) /\
    (n = strlen passphrase -> fopen_r f w2 = Some passphrase) /\
    trace w3 = trace w ++ [cmd f] /\ ((unlink f w3).1 = 0 -> fopen_r f (unlink f w3).2 = None).

Lemma with_pass_file_spec passphrase cmd (w : W) :
  through_file passphrase cmd (with_pass_file passphrase cmd) w.
Proof.
  intros f w1 n w2 E Ew. destruct (mkstemp_new _ _ _ _ E) as (Hnew & Hempty & Ht).
  destruct (write_fd_spec f passphrase w1 n w2 Hempty Ew) as (Hn & Hw & Htw).
  destruct (exec_raw_runs (cmd f) w2) as (r & o & w3 & Ee & Te & Hr).
  exists r, o, w3. split; [done|]. split.
  - unfold with_pass_file. unfold bind at 1, call at 1. rewrite E. cbv iota beta.
    unfold bind at 1, call at 1. rewrite Ew. rewrite (bind_step Ee). unfold bind, call.
    destruct (unlink f w3) as [z w4]. by destruct Hr as [-> | ->].
  - do 2 (split; [done|]). split; [|split; [congruence|]].
    + intros ->. rewrite Hw. f_equal. apply str_take_ge. unfold strlen. lia.
    + destruct (unlink f w3) as [z w4] eqn:Eu. simpl. intros ->. by apply unlink_ok in Eu as [? _].
Qed.

(** C26. LUKS passphrases do not reach the command line: formatting and opening
    a volume, as root, create a new temporary file, write the passphrase to
    it, run exactly one cryptsetup command, which names the file and is the
    same for every passphrase, in the state the write left, return that
    command's result and remove the file last, whether the command succeeded
    or not; when no file can be created they return ERROR_SYSTEM_CALL and run
    nothing.  A short or failed write is not noticed: the command runs with
    the part of the passphrase that was written.  Changing the password leaves
    a temporary file behind when only the first of its two files could be
    created. *)
Theorem luks_passphrase_in_file device name passphrase new_pass cipher key_size (w : W) :
  is_root w = true ->
  (file_exists device w = true ->
    through_file passphrase (fun f => luks_format_cmd f device cipher key_size)
      (luks_format_advanced device passphrase cipher key_size) w) /\
  through_file passphrase (luks_open_cmd device name) (luks_open device name passphrase) w /\
  ((mkstemp "/tmp/luks_pass_XXXXXX" w).1 = None ->
    (file_exists device w = true ->
      luks_format_advanced device passphrase cipher key_size w = Some (ERROR_SYSTEM_CALL, w)) /\
    luks_open device name passphrase w = Some (ERROR_SYSTEM_CALL, w)) /\
  (forall f w1 w2, mkstemp "/tmp/luks_old_XXXXXX" w = (Some f, w1) ->
    mkstemp "/tmp/luks_new_XXXXXX" w1 = (None, w2) ->
    luks_change_password device passphrase new_pass w = Some (ERROR_SYSTEM_CALL, w2) /\
    fopen_r f w2 = Some "").
Proof.
  intros Hroot. split_and!.
  - intros Hex f w1 n w2 E Ew. unfold luks_format_advanced. unfold bind at 1, reads at 1. rewrite Hroot.
    cbn [negb]. unfold bind at 1, reads. rewrite Hex.
    by apply (with_pass_file_spec passphrase (fun f => luks_format_cmd f device cipher key_size) w f w1 n w2).
  - intros f w1 n w2 E Ew. unfold luks_open. unfold bind at 1, reads. rewrite Hroot.
    by apply (with_pass_file_spec passphrase (luks_open_cmd device name) w f w1 n w2).
  - intros Hnone. destruct (mkstemp _ w) as [f w'] eqn:E. simpl in Hnone. subst f.
    pose proof (mkstemp_none _ _ _ E) as ->.
    unfold luks_format_advanced, luks_open, with_pass_file, bind, reads, call, ret. rewrite Hroot. cbn [negb].
    split; [intros ->; simpl|]; by rewrite E.
  - intros f w1 w2 E1 E2. unfold luks_change_password, bind, reads, call. rewrite Hroot. cbn [negb].
    rewrite E1. cbv iota beta. rewrite E2. apply mkstemp_none in E2 as ->.
    apply mkstemp_new in E1 as (_ & ? & _). done.
Qed.
End Luks.

(** ** The audit log *)

(** Documented behaviour: appending adds to the end of a file or changes
    nothing, truncating empties it or changes nothing, reading the clock
    changes no file, and a date takes less than 64 bytes. *)
Class AuditLaws (W : Type) `{Shell W} `{Files W} `{Clock W} `{Secure W} := {
  append_ok : forall p t (w w' : W), fopen_a p t w = (true, w') ->
    fopen_r p w' = Some (default "" (fopen_r p w) +:+ t);
  append_fail : forall p t (w w' : W), fopen_a p t w = (false, w') -> w' = w;
  truncate_ok : forall p (w w' : W), truncate_file p w = (0, w') -> fopen_r p w' = Some "";
  truncate_fail : forall p (w w' : W) e, truncate_file p w = (e, w') -> e <> 0 -> w' = w;
  time_files : forall p (w : W), fopen_r p (time w).2 = fopen_r p w;
  stamp_fits : forall t (w : W), strftime_stamp 64 (localtime t w) <> None;
}.

(** The line of an event, without its newline. *)
Definition audit_entry (stamp : string) (op : audit_operation_t) (user details : string) : string :=
  "[" +:+ stamp +:+ "] " +:+ op_str op +:+ " by " +:+ user +:+ ": " +:+ details.

(** The text of a log that holds some entries. *)
Definition log_text (es : list string) : string := str_concat ((fun e => e +:+ NL) <$> es).

(** An entry is one line that [fgets] reads at once. *)
Definition entry_ok (e : string) : Prop := str_mem nl e = false /\ (String.length e < 511)%nat.
(** A user and details that make such an entry. *)
Definition event_ok (user details : string) : Prop :=
  str_mem nl user = false /\ str_mem nl details = false /\
  (String.length user + String.length details <= 400)%nat.

(** What is done to the log: an event is recorded, or the log is cleared. *)
Inductive audit_action := Record_ (op : audit_operation_t) (user details : string) | Clear.

Definition action_ok (a : audit_action) : Prop :=
  match a with Record_ _ user details => event_ok user details | Clear => True end.

Lemma op_str_ok op : str_mem nl (op_str op) = false /\ (String.length (op_str op) <= 11)%nat.
Proof. destruct op; simpl; split; done || lia. Qed.

Lemma str_mem_pad0 w s : str_mem nl s = false -> str_mem nl (pad true false w s) = false.
Proof.
  intros Hs. assert (str_mem nl (str_repeat "0" (w - String.length s) +:+ s) = false) as H0
    by (by rewrite str_mem_app, str_mem_repeat).
  unfold pad. repeat case_match; try done. simpl in *. by rewrite str_mem_app, str_mem_repeat.
Qed.

Lemma stamp_ok t s : strftime_stamp 64 t = Some s -> str_mem nl s = false /\ (String.length s < 64)%nat.
Proof.
  set (two z := pad true false 2 (pretty (z : Z))).
  unfold strftime_stamp. case_match eqn:E; [|done]. apply Nat.ltb_lt in E. intros [= <-]. split; [|done].
  change (str_mem nl (pretty (tm_year t + 1900) +:+ "-" +:+ two (tm_mon t + 1) +:+ "-" +:+ two (tm_mday t) +:+
    " " +:+ two (tm_hour t) +:+ ":" +:+ two (tm_min t) +:+ ":" +:+ two (tm_sec t) +:+ "") = false).
  assert (forall z, str_mem nl (two z) = false) as Ht by (intros z; by apply str_mem_pad0, str_mem_pretty).
  by rewrite !str_mem_app, !Ht, (str_mem_pretty nl).
Qed.

Lemma audit_entry_line stamp op user details :
  audit_line stamp op user details = audit_entry stamp op user details +:+ NL.
Proof.
  unfold audit_line. f_equal.
  change (("[" +:+ stamp +:+ "] " +:+ op_str op +:+ " by " +:+ user +:+ ": " +:+ details +:+ "") =
    audit_entry stamp op user details). by rewrite str_app_nil_r.
Qed.

Lemma audit_entry_ok t stamp op user details :
  strftime_stamp 64 t = Some stamp -> event_ok user details -> entry_ok (audit_entry stamp op user details).
Proof.
  intros [Hs Hl]%stamp_ok (Hu & Hd & Hn). destruct (op_str_ok op) as [Ho Hol]. unfold audit_entry. split.
  - by rewrite !str_mem_app, Hs, Ho, Hu, Hd.
  - rewrite !str_length_app. simpl. lia.
Qed.

Lemma log_text_snoc es e : log_text (es ++ [e]) = log_text es +:+ (e +:+ NL).
Proof.
  unfold log_text. rewrite fmap_app, str_concat_app. simpl. by rewrite str_app_nil_r.
Qed.

(** Lines added to a buffer of [size] bytes until it is full. *)
Lemma append_lines size l : forall out, (String.length out < size)%nat ->
  fold_left (append_line size) l out = str_take (size - 1) (out +:+ str_concat l).
Proof.
  induction l as [|x l IH]; intros out Hout; simpl.
  { by rewrite str_app_nil_r, str_take_short. }
  unfold append_line at 2.
  destruct (decide (String.length out + String.length x < size)%nat) as [Hx|Hx].
  - rewrite (str_take_ge _ x) by lia. rewrite IH by (rewrite str_length_app; lia). by rewrite str_app_assoc.
  - assert (String.length (str_take (size - String.length out - 1) x) = size - String.length out - 1)%nat as Hl
      by (apply str_take_full; lia).
    rewrite IH by (rewrite str_length_app, Hl; lia).
    rewrite str_take_app_l by (rewrite str_length_app, Hl; lia).
    rewrite str_take_ge by (rewrite str_length_app, Hl; lia).
    rewrite <- str_app_assoc, str_take_app_l by (rewrite str_length_app; lia).
    rewrite str_take_app_r by lia. do 2 f_equal. lia.
Qed.

Section Audit.
Context {W : Type} `{Shell W} `{Files W} `{!FilesLaws W} `{Clock W} `{Secure W} `{!AuditLaws W}.

(** The file holds the entries; a log that was never written is empty. *)
Definition log_holds (es : list string) (w : W) : Prop :=
  Forall entry_ok es /\
  (fopen_r AUDIT_LOG_FILE w = Some (log_text es) \/ es = [] /\ fopen_r AUDIT_LOG_FILE w = None).

Lemma log_holds_text es (w : W) : log_holds es w -> default "" (fopen_r AUDIT_LOG_FILE w) = log_text es.
Proof. by intros [_ [-> | [-> ->]]]. Qed.

(** The specification, on the log as a list of entries.  An event recorded in
    the state [w] carries the date of the clock there.  Its entry is added at
    the end when the file can be opened to append; only when it cannot and it
    can be opened to write does a new log with that entry alone replace the
    old one; otherwise the log stays and the event is lost, with an error.
    Clearing is for root, and removes all entries or none. *)
Inductive log_step (w : W) (es : list string) : audit_action -> Z -> list string -> Prop :=
  | step_append now w1 stamp op user details :
      time w = (now, w1) -> strftime_stamp 64 (localtime now w1) = Some stamp ->
      (fopen_a AUDIT_LOG_FILE (audit_entry stamp op user details +:+ NL) w1).1 = true ->
      log_step w es (Record_ op user details) SUCCESS (es ++ [audit_entry stamp op user details])
  | step_restart now w1 stamp op user details :
      time w = (now, w1) -> strftime_stamp 64 (localtime now w1) = Some stamp ->
      (fopen_a AUDIT_LOG_FILE (audit_entry stamp op user details +:+ NL) w1).1 = false ->
      (fopen_w AUDIT_LOG_FILE (audit_entry stamp op user details +:+ NL) w1).1 = true ->
      log_step w es (Record_ op user details) SUCCESS [audit_entry stamp op user details]
  | step_lost now w1 stamp op user details :
      time w = (now, w1) -> strftime_stamp 64 (localtime now w1) = Some stamp ->
      (fopen_a AUDIT_LOG_FILE (audit_entry stamp op user details +:+ NL) w1).1 = false ->
      (fopen_w AUDIT_LOG_FILE (audit_entry stamp op user details +:+ NL) w1).1 = false ->
      log_step w es (Record_ op user details) ERROR_SYSTEM_CALL es
  | step_clear :
      geteuid w = 0 -> (truncate_file AUDIT_LOG_FILE w).1 = 0 -> log_step w es Clear SUCCESS []
  | step_denied : geteuid w <> 0 -> log_step w es Clear ERROR_PERMISSION es
  | step_not_cleared :
      geteuid w = 0 -> (truncate_file AUDIT_LOG_FILE w).1 <> 0 -> log_step w es Clear ERROR_SYSTEM_CALL es.

Definition act (a : audit_action) : M W Z :=
  match a with Record_ op user details => audit_log op user details | Clear => audit_clear_log end.
Fixpoint acts (l : list audit_action) : M W (list Z) :=
  match l with
  | [] => ret []
  | a :: l' => let! r := act a in let! rs := acts l' in ret (r :: rs)
  end.

(** A sequence of actions, each a step of the specification in the state the
    one before it left. *)
Inductive log_steps : W -> list string -> list audit_action -> list Z -> list string -> Prop :=
  | steps_nil w es : log_steps w es [] [] es
  | steps_cons w es a r w1 es1 l rs es2 :
      log_step w es a r es1 -> act a w = Some (r, w1) -> log_steps w1 es1 l rs es2 ->
      log_steps w es (a :: l) (r :: rs) es2.

Lemma record_step es op user details (w : W) :
  log_holds es w -> event_ok user details ->
  exists r w' es', audit_log op user details w = Some (r, w') /\
    log_step w es (Record_ op user details) r es' /\ log_holds es' w'.
Proof.
  intros Hes Hev. unfold audit_log, get_timestamp_string, bind, call, reads, ret.
  pose proof (time_files AUDIT_LOG_FILE w) as Ht. destruct (time w) as [now w1] eqn:Etime. simpl in Ht.
  cbv beta iota.
  destruct (strftime_stamp 64 (localtime now w1)) as [stamp|] eqn:Es; [|by apply stamp_fits in Es].
  pose proof (audit_entry_ok _ _ op _ _ Es Hev) as Hok. rewrite audit_entry_line.
  assert (log_holds es w1) as Hes1 by (unfold log_holds in *; by rewrite Ht).
  destruct (fopen_a _ _ w1) as [[] w2] eqn:Ea; cbv beta iota.
  - exists SUCCESS, w2, (es ++ [audit_entry stamp op user details]). split; [done|].
    split; [eapply step_append; [done..|by rewrite Ea]|]. apply append_ok in Ea. rewrite (log_holds_text es w1 Hes1), <- log_text_snoc in Ea.
    split; [|by left]. apply Forall_app. split; [by destruct Hes|by constructor].
  - pose proof (append_fail _ _ _ _ Ea) as ->. destruct (fopen_w _ _ w1) as [[] w3] eqn:Ew; cbv beta iota.
    + exists SUCCESS, w3, [audit_entry stamp op user details]. split; [done|].
      split; [eapply step_restart; [done..|by rewrite Ea|by rewrite Ew]|].
      apply fopen_w_read in Ew as [Er _]. split; [by constructor|]. left. rewrite Er. unfold log_text. simpl.
      by rewrite str_app_nil_r.
    + pose proof (fopen_w_fail _ _ _ _ Ew) as ->. exists ERROR_SYSTEM_CALL, w1, es. split; [done|].
      split; [eapply step_lost; [done..|by rewrite Ea|by rewrite Ew]|done].
Qed.

Lemma clear_step es (w : W) : log_holds es w ->
  exists r w' es', audit_clear_log w = Some (r, w') /\ log_step w es Clear r es' /\ log_holds es' w'.
Proof.
  intros Hes. unfold audit_clear_log, bind, reads, call, ret, is_root.
  destruct (Z.eqb_spec (geteuid w) 0) as [Hroot|Hroot]; simpl.
  2: { exists ERROR_PERMISSION, w, es. split; [done|]. split; [by constructor|done]. }
  destruct (truncate_file AUDIT_LOG_FILE w) as [e w1] eqn:Et. destruct (Z.eqb_spec e 0) as [->|He]; simpl.
  - exists SUCCESS, w1, []. split; [done|]. split; [constructor; [done|by rewrite Et]|]. apply truncate_ok in Et.
    split; [constructor|by left].
  - pose proof (truncate_fail _ _ _ _ Et He) as ->. exists ERROR_SYSTEM_CALL, w, es. split; [done|].
    split; [apply step_not_cleared; [done|by rewrite Et]|done].
Qed.

Lemma act_step es a (w : W) : log_holds es w -> action_ok a ->
  exists r w' es', act a w = Some (r, w') /\ log_step w es a r es' /\ log_holds es' w'.
Proof. destruct a; [apply record_step|intros ? _; by apply clear_step]. Qed.

Lemma acts_steps l : forall es (w : W), log_holds es w -> Forall action_ok l ->
  exists rs w' es', acts l w = Some (rs, w') /\ log_steps w es l rs es' /\ log_holds es' w'.
Proof.
  induction l as [|a l IH]; intros es w Hes Hl.
  { exists [], w, es. split; [done|]. split; [constructor|done]. }
  inversion Hl as [|?? Ha Hl']; subst. destruct (act_step es a w Hes Ha) as (r & w1 & es1 & E1 & S1 & L1).
  destruct (IH es1 w1 L1 Hl') as (rs & w2 & es2 & E2 & S2 & L2).
  exists (r :: rs), w2, es2. split; [|split; [by econstructor|done]].
  simpl. by rewrite (bind_step E1), (bind_step E2).
Qed.

(** What reading gives: the oldest entries, cut to the buffer. *)
Lemma get_log_reads es size n (w : W) : log_holds es w -> fopen_r AUDIT_LOG_FILE w <> None -> (0 < size)%nat ->
  audit_get_log size n w =
    Some ((SUCCESS, Some (str_take (size - 1) (log_text (if n =? 0 then es else take (Z.to_nat n) es)))), w).
Proof.
  intros [Hok Hes] Hne Hs. destruct Hes as [Hes|[_ Hes]]; [|done].
  unfold audit_get_log, bind, reads. rewrite Hes. unfold log_text at 1 2.
  rewrite fgets_chunks_lines by (by eapply Forall_impl; [exact Hok|intros e [? ?]; split; [done|lia]]).
  apply Nat.ltb_lt in Hs. rewrite Hs. apply Nat.ltb_lt in Hs. unfold guard_ub, ret.
  rewrite append_lines by done. unfold log_text. destruct (n =? 0); [done|]. by rewrite fmap_take.
Qed.

Lemma get_log_none size n (w : W) : fopen_r AUDIT_LOG_FILE w = None -> (19 < size)%nat ->
  audit_get_log size n w = Some ((SUCCESS, Some ("No audit log found" +:+ NL)), w).
Proof.
  intros E Hs%Nat.ltb_lt. unfold audit_get_log, bind, reads, ret. rewrite E. cbv zeta.
  change (String.length ("No audit log found" +:+ NL)) with 19%nat. by rewrite Hs.
Qed.

(** C37. The audit log file implements a list of entries: from a log that
    holds a list, every sequence of events to record and requests to clear is
    defined and moves the list as the specification says, with its results: an
    entry with the date of the clock is added at the end when the file can be
    opened to append; only when it cannot and it can be rewritten are the
    older entries lost; only root clears the log.  Reading then
    gives the first entries of the list in order, all of them for a request of
    0, cut to the size of the buffer. *)
Theorem audit_log_refines es l (w : W) :
  log_holds es w -> Forall action_ok l ->
  exists rs w' es', acts l w = Some (rs, w') /\ log_steps w es l rs es' /\ log_holds es' w' /\
    (fopen_r AUDIT_LOG_FILE w' <> None -> forall size n, (0 < size)%nat ->
      audit_get_log size n w' =
        Some ((SUCCESS,
               Some (str_take (size - 1) (log_text (if n =? 0 then es' else take (Z.to_nat n) es')))), w')) /\
    (fopen_r AUDIT_LOG_FILE w' = None -> forall size n, (19 < size)%nat ->
      audit_get_log size n w' = Some ((SUCCESS, Some ("No audit log found" +:+ NL)), w')).
Proof.
  intros Hes Hl. destruct (acts_steps l es w Hes Hl) as (rs & w' & es' & E & S & L').
  exists rs, w', es'. split_and!; [done..| |].
  - intros Hne size n Hs. by apply get_log_reads.
  - intros Hne size n Hs. by apply get_log_none.
Qed.
End Audit.

(** ** File attributes *)

(** Documented behaviour: the flags a successful ioctl sets are those the next
    one gets, and the file can still be opened to read. *)
Class FlagLaws (W : Type) `{Secure W} := {
  set_flags_get : forall p v (w w' : W), set_flags p v w = (true, w') ->
    get_flags p w' = Some v /\ can_open p w' = can_open p w;
  set_flags_fail : forall p v (w w' : W), set_flags p v w = (false, w') -> w' = w;
  get_flags_range : forall p (w : W) v, get_flags p w = Some v -> in_u32 v;
}.

Section Attributes.
Context {W : Type} `{Secure W} `{!FlagLaws W}.

Lemma attr_get_flags path v (w : W) : can_open path w = true -> get_flags path w = Some v ->
  attr_get path w = Some ((SUCCESS, Some v), w).
Proof.
  intros Ho Hg. unfold attr_get, bind, reads, ret. rewrite Ho. simpl. rewrite Hg.
  by rewrite u32_small by (by eapply get_flags_range).
Qed.

Lemma land_not attrs flags : in_u32 attrs -> Z.land attrs (u32 (Z.lnot flags)) = Z.ldiff attrs flags.
Proof.
  intros Ha. unfold u32. rewrite <- Z.land_ones by lia. apply Z.bits_inj'. intros n Hn.
  rewrite Z.ldiff_spec, !Z.land_spec, Z.lnot_spec by lia.
  destruct (decide (n < 32)) as [Hl|Hl].
  - rewrite Z.ones_spec_low by lia. by rewrite andb_true_r.
  - rewrite Z.ones_spec_high, !andb_false_r by lia. symmetry. apply andb_false_iff. left.
    destruct (decide (attrs = 0)) as [->|Hz]; [apply Z.testbit_0_l|].
    apply Z.bits_above_log2; [by destruct Ha|]. apply Z.log2_lt_pow2; [destruct Ha; lia|].
    destruct Ha as [_ Ha]. eapply Z.lt_le_trans; [exact Ha|]. apply Z.pow_le_mono_r; lia.
Qed.

(** Setting attributes replaces all of them: what is read afterwards is what
    was given.  Unsetting removes exactly the given bits of those the file
    had.  Both either succeed so or return ERROR_SYSTEM_CALL and change
    nothing. *)
Theorem attr_bits path flags (w : W) :
  (exists r w', attr_set path flags w = Some (r, w') /\
    (r = SUCCESS /\ attr_get path w' = Some ((SUCCESS, Some flags), w') \/ r = ERROR_SYSTEM_CALL /\ w' = w)) /\
  (exists r w', attr_unset path flags w = Some (r, w') /\
    (r = ERROR_SYSTEM_CALL /\ w' = w \/
     r = SUCCESS /\ exists old, get_flags path w = Some old /\
       attr_get path w' = Some ((SUCCESS, Some (Z.ldiff old flags)), w'))).
Proof.
  unfold attr_set, attr_unset, bind, reads, call, ret.
  destruct (can_open path w) eqn:Ho; simpl; [|naive_solver]. split.
  - destruct (set_flags path flags w) as [[] w'] eqn:Es; simpl; eexists _, _; split; [done| |done|].
    + left. destruct (set_flags_get _ _ _ _ Es) as [Hg Hc]. split; [done|].
      apply attr_get_flags; congruence.
    + right. by apply set_flags_fail in Es.
  - destruct (get_flags path w) as [old|] eqn:Eg; simpl; [|naive_solver].
    destruct (set_flags path _ w) as [[] w'] eqn:Es; simpl; eexists _, _; split; [done| |done|].
    + right. split; [done|]. exists old. split; [done|]. destruct (set_flags_get _ _ _ _ Es) as [Hg Hc].
      rewrite land_not in Hg by (by eapply get_flags_range). apply attr_get_flags; congruence.
    + left. by apply set_flags_fail in Es.
Qed.
End Attributes.

(** ** Machines *)

#[global] Instance sim_secure : Secure sim := {
  mkstemp t w :=
    let f := t +:+ "1" in
    match sim_files w !! f with
    | Some _ => (None, w)
    | None => (Some f, sim_put_files w (<[f := ""]> (sim_files w)))
    end;
  write_fd f t w := (strlen t, sim_put_files w (<[f := default "" (sim_files w !! f) +:+ t]> (sim_files w)));
  get_flags _ _ := Some 0;
  set_flags _ _ w := (true, w);
  can_open _ _ := true;
  truncate_file f w := (0, sim_put_files w (<[f := ""]> (sim_files w)));
  user_name _ := Some "root";
}.

#[global] Instance sim_secure_laws : SecureLaws sim.
Proof.
  split; simpl.
  - intros t w f w'. destruct (sim_files w !! (t +:+ "1")) eqn:E; [done|]. intros [= <- <-].
    simpl. rewrite lookup_insert_eq. done.
  - intros t w w'. by case_match; intros [= <-].
  - intros f t w n w' E. rewrite E. intros [= <- <-]. simpl. rewrite lookup_insert_eq.
    pose proof (strlen_nonneg t). split; [lia|]. by rewrite str_take_ge by (unfold strlen; lia).
Qed.

Definition luks_machine : sim := sim_put_nodes blank {["/dev/sdb" := KOther]}.

Lemma luks_passphrase_in_file_witness :
  file_exists "/dev/sdb" luks_machine = true /\
  through_file "secret" (fun f => luks_format_cmd f "/dev/sdb" (Some "aes") 256)
    (luks_format_advanced "/dev/sdb" "secret" (Some "aes") 256) luks_machine /\
  through_file "secret" (luks_open_cmd "/dev/sdb" "vol") (luks_open "/dev/sdb" "vol" "secret") luks_machine.
Proof.
  assert (is_root luks_machine = true) as Hr by reflexivity.
  assert (file_exists "/dev/sdb" luks_machine = true) as He by reflexivity.
  destruct (luks_passphrase_in_file "/dev/sdb" "vol" "secret" "" (Some "aes") 256 luks_machine Hr)
    as (Hf & Ho & _). split; [exact He|]. split; [exact (Hf He)|exact Ho].
Defined.

(** Two digits for every number below 100. *)
Lemma two_digits z : 0 <= z < 100 -> String.length (pad true false 2 (pretty z)) = 2%nat.
Proof.
  intros Hz. assert (Forall (fun n => String.length (pad true false 2 (pretty (Z.of_nat n))) = 2%nat) (seq 0 100))
    as Hall by (apply (bool_decide_unpack _); vm_compute; exact I).
  rewrite Forall_forall in Hall. rewrite <- (Z2Nat.id z) by lia. apply Hall, elem_of_seq. lia.
Qed.

#[global] Instance sim_audit_laws : AuditLaws sim.
Proof.
  split; simpl.
  - intros p t w w'. case_bool_decide; intros [= <-]. simpl. by rewrite lookup_insert_eq.
  - intros p t w w'. by case_bool_decide; intros [= <-].
  - intros p w w' [= <-]. simpl. by rewrite lookup_insert_eq.
  - by intros p w w' e [= <- <-].
  - done.
  - intros t w. unfold strftime_stamp. set (two z := pad true false 2 (pretty (z : Z))).
    change (sprintf _ _) with (pretty 2025 +:+ "-" +:+ two (t / 2678400 mod 12 + 1) +:+ "-" +:+
      two (t / 86400 mod 31 + 1) +:+ " " +:+ two (t / 3600 mod 24) +:+ ":" +:+ two (t / 60 mod 60) +:+ ":" +:+
      two (t mod 60) +:+ "").
    rewrite !str_length_app. unfold two.
    rewrite !two_digits by (match goal with |- context [?a mod ?n] => pose proof (Z.mod_pos_bound a n); lia end).
    done.
Qed.

(** A machine with one entry in its log, and what is done to it. *)
Definition old_entry : string := "[2025-01-01 00:00:00] RAID_CREATE by root: /dev/md0".
Definition audit_machine : sim := sim_put_files blank {[AUDIT_LOG_FILE := log_text [old_entry]]}.
Definition audit_session : list audit_action :=
  [Record_ AUDIT_ENCRYPT "root" "/dev/sdb"; Record_ AUDIT_DECRYPT "root" "/dev/sdb"].

Lemma audit_log_refines_witness :
  exists rs w' es', acts audit_session audit_machine = Some (rs, w') /\
    log_steps audit_machine [old_entry] audit_session rs es' /\ log_holds es' w' /\
    (fopen_r AUDIT_LOG_FILE w' <> None -> forall size n, (0 < size)%nat ->
      audit_get_log size n w' =
        Some ((SUCCESS,
               Some (str_take (size - 1) (log_text (if n =? 0 then es' else take (Z.to_nat n) es')))), w')) /\
    (fopen_r AUDIT_LOG_FILE w' = None -> forall size n, (19 < size)%nat ->
      audit_get_log size n w' = Some ((SUCCESS, Some ("No audit log found" +:+ NL)), w')).
Proof.
  apply (audit_log_refines [old_entry] audit_session audit_machine).
  - split; [|left; reflexivity]. constructor; [|constructor]. split; [reflexivity|]. simpl. lia.
  - repeat constructor; simpl; lia.
Defined.

(** A table of flags: [set_flags] keeps what an unsigned int can. *)
#[local] Abbreviation flag_table := (gmap string Z).
#[global] Instance flag_secure : Secure flag_table := {
  mkstemp _ w := (None, w); write_fd _ _ w := (-1, w);
  get_flags p w := u32 <$> w !! p;
  set_flags p v w :=
    if bool_decide (is_Some (w !! p) /\ u32 v = v) then (true, <[p := v]> w) else (false, w);
  can_open p w := bool_decide (is_Some (w !! p));
  truncate_file _ w := (0, w); user_name _ := None;
}.
#[global] Instance flag_laws : FlagLaws flag_table.
Proof.
  split; simpl.
  - intros p v w w'. case_bool_decide as Hb; intros [= <-]. destruct Hb as [Hs Hv].
    rewrite lookup_insert_eq. simpl. rewrite Hv. split; [done|].
    by rewrite !bool_decide_eq_true_2.
  - intros p v w w'. by case_bool_decide; intros [= <-].
  - intros p w v. destruct (w !! p); [|done]. intros [= <-]. apply u32_range.
Qed.

(** A file with the flags 0x30 has 0x20 after its immutable flag is removed. *)
Example attr_bits_example :
  attr_get "f" (({["f" := 48]} : flag_table)) = Some ((SUCCESS, Some 48), {["f" := 48]}) /\
  (attr_unset_immutable "f" ({["f" := 48]} : flag_table) ≫= fun r => attr_get "f" r.2) =
    Some ((SUCCESS, Some 32), {["f" := 32]}).
Proof. split; vm_compute; reflexivity. Qed.
