(* ===== verification/PerfProps.v ===== *)
(** * Theorems about src/performance_tuner.c *)

From stdpp Require Import base list gmap strings pretty.
From Stdlib Require Import Ascii ZArith Lia.
From S2P Require Import Prelude CString CFormat CFloat Sys SimOS Perf.

(** ** Paths *)

Lemma str_app_inj s t1 t2 : s +:+ t1 = s +:+ t2 -> t1 = t2.
Proof. induction s as [|c s IH]; [done|]. rewrite !str_app_cons. intros [= E]. auto. Qed.

(** The path of a queue parameter, when it fits the buffer. *)
Definition sys_path (device rest : string) : string :=
  "/sys/block/" +:+ (get_device_basename device +:+ rest).

Lemma path_fits device rest :
  (String.length (get_device_basename device) <= 200)%nat -> (String.length rest <= 40)%nat ->
  str_take (256 - 1) (sys_path device rest) = sys_path device rest.
Proof.
  intros Hd Hr. apply str_take_ge. unfold sys_path. rewrite !str_length_app. simpl. lia.
Qed.

(** The settings of a profile: files and what is written to them, in order. *)
Definition settings (device : string) (p : tuning_profile_t) : list (string * string) :=
  [(sys_path device "/queue/scheduler", scheduler p);
   (sys_path device "/queue/read_ahead_kb", pretty (read_ahead_kb p));
   (sys_path device "/device/queue_depth", pretty (queue_depth p));
   (sys_path device "/queue/nr_requests", pretty (nr_requests p));
   (swappiness_path, pretty (vm_swappiness p));
   (dirty_path, pretty (vm_dirty_ratio p));
   (dirty_background_path, pretty (vm_dirty_background_ratio p));
   (cache_pressure_path, pretty (vm_vfs_cache_pressure p))].

Lemma settings_distinct device p : NoDup (settings device p).*1.
Proof.
  simpl. repeat (apply NoDup_cons; split); [..|apply NoDup_nil_2];
    rewrite ?not_elem_of_cons; repeat split; try apply not_elem_of_nil; try done;
    unfold sys_path; intros E%str_app_inj%str_app_inj; done.
Qed.

Lemma sprintf_s s : sprintf "%s" [CStr s] = s.
Proof. unfold sprintf. simpl. unfold pad. simpl. by rewrite str_app_nil_r. Qed.

(** ** The scheduler file *)

(** A text without brackets and line ends. *)
Definition bare (s : string) : Prop :=
  str_mem "[" s = false /\ str_mem "]" s = false /\ str_mem nl s = false.

(** What the scheduler file holds: the names the disk supports on one line,
    the one in use in brackets. *)
Definition bracketed (sched text : string) : Prop :=
  exists before after, bare before /\ str_mem nl after = false /\
    text = before +:+ String "[" (sched +:+ String "]" (after +:+ NL)) /\
    (String.length before + String.length after <= 150)%nat.

Lemma current_bracketed sched before rest size : bare before -> bare sched -> (String.length sched < size)%nat ->
  current_scheduler (before +:+ String "[" (sched +:+ String "]" rest)) size = Some sched.
Proof.
  intros (Hb1 & Hb2 & _) (Hs1 & Hs2 & _) Hl. unfold current_scheduler. rewrite strchr_at by done.
  replace (before +:+ String "[" (sched +:+ String "]" rest)) with
    ((before +:+ String "[" sched) +:+ String "]" rest) by (by rewrite str_app_assoc, str_app_cons).
  rewrite strchr_at by (rewrite str_mem_app, Hb2; cbn [str_mem]; by rewrite Hs2).
  cbn [String.length]. rewrite str_length_app. cbn [String.length].
  rewrite (proj2 (Nat.ltb_lt _ _)) by lia.
  replace (S (String.length sched + S (String.length rest)) - S (String.length rest) - 1)%nat
    with (String.length sched) by lia.
  rewrite (proj2 (Nat.leb_gt _ _)) by lia. f_equal.
  change (str_drop 1 (String "[" (sched +:+ String "]" rest))) with (sched +:+ String "]" rest).
  by rewrite str_take_app_l, str_take_ge by lia.
Qed.

Lemma first_line size x : str_mem nl x = false -> (S (String.length x) < size)%nat ->
  fgets_chunks size (x +:+ NL) = [x +:+ NL].
Proof.
  intros Hn Hl. pose proof (fgets_chunks_lines size [x]) as G. cbn [fmap list_fmap str_concat] in G.
  rewrite str_app_nil_r in G. apply G. constructor; [|constructor]. split; [done|lia].
Qed.

(** A profile that sets everything, on a device with a name that fits. *)
Record profile_ok (device : string) (p : tuning_profile_t) : Prop := {
  short_name : (String.length (get_device_basename device) <= 200)%nat;
  sets_all : 0 < strlen (scheduler p) /\ 0 < read_ahead_kb p /\ 0 < queue_depth p /\ 0 < nr_requests p /\
    0 <= vm_swappiness p /\ 0 < vm_dirty_ratio p /\ 0 < vm_dirty_background_ratio p /\
    0 < vm_vfs_cache_pressure p;
  are_ints : in_i32 (read_ahead_kb p) /\ in_i32 (queue_depth p) /\ in_i32 (nr_requests p) /\
    in_i32 (vm_swappiness p) /\ in_i32 (vm_dirty_ratio p);
  plain_scheduler : bare (scheduler p) /\ (String.length (scheduler p) <= 63)%nat;
}.

Section Apply.
Context {W : Type} `{Files W}.
Variable device : string.

(** What a parameter file holds after [text] was written to it: the scheduler
    file all names with the new one in brackets, another file the text, with
    or without a line end. *)
Definition holds (path text content : string) : Prop :=
  if decide (path = sys_path device "/queue/scheduler") then bracketed text content
  else content = text \/ content = text +:+ NL.

(** States in which every parameter file can be written, and the kernel takes
    what is written; writing one leaves the others. *)
Variable writable : W -> Prop.
Hypothesis writable_put : forall path text w, writable w ->
  let '(ok, w') := fopen_w path text w in
  ok = true /\ writable w' /\
  (bare text -> text <> "" -> exists content, fopen_r path w' = Some content /\ holds path text content) /\
  forall q, q <> path -> fopen_r q w' = fopen_r q w.

Definition write_all (l : list (string * string)) (w : W) : W :=
  fold_left (fun w x => (fopen_w x.1 x.2 w).2) l w.

Lemma write_all_other l : forall w q, writable w -> q ∉ l.*1 -> fopen_r q (write_all l w) = fopen_r q w.
Proof.
  induction l as [|[p t] l IH]; intros w q Hw Hq; [done|]. simpl in *.
  apply not_elem_of_cons in Hq as [Hne Hq]. pose proof (writable_put p t w Hw) as G.
  destruct (fopen_w p t w) as [b w1]. destruct G as (-> & Hw1 & _ & Ho). simpl.
  rewrite IH by done. by apply Ho.
Qed.

Lemma write_all_read l : NoDup l.*1 -> Forall (fun x => bare x.2 /\ x.2 <> "") l -> forall w, writable w ->
  forall p t, (p, t) ∈ l -> exists c, fopen_r p (write_all l w) = Some c /\ holds p t c.
Proof.
  induction l as [|[p0 t0] l IH]; intros Hnd Hb w Hw p t Hin; [by apply elem_of_nil in Hin|].
  simpl in *. apply NoDup_cons in Hnd as [Hni Hnd]. inversion Hb as [|?? [Hb0 Hn0] Hb']; subst.
  pose proof (writable_put p0 t0 w Hw) as G.
  destruct (fopen_w p0 t0 w) as [b w1] eqn:Ef. destruct G as (-> & Hw1 & Hc & _). simpl in *.
  apply elem_of_cons in Hin as [[= -> ->]|Hin]; [|by apply IH].
  destruct (Hc Hb0 Hn0) as (c & Hr & Hh). exists c. split; [|done]. by rewrite write_all_other.
Qed.

Lemma put_step path text (w : W) : writable w ->
  put path text w = Some (0, (fopen_w path text w).2).
Proof.
  intros Hw. pose proof (writable_put path text w Hw) as G. unfold put. run.
  destruct (fopen_w path text w) as [b w1]. by destruct G as [-> _].
Qed.

Lemma when_put c path text (k : M W Z) (w : W) : c = true -> writable w ->
  (when c (put path text) ;;! k) w = k (fopen_w path text w).2.
Proof. intros -> Hw. unfold when, bind, ret. by rewrite put_step. Qed.

Lemma when_depth c depth (k : M W Z) (w : W) : c = true -> writable w ->
  (when c (perf_set_queue_depth device depth) ;;! k) w =
    k (fopen_w (depth_path device) (sprintf "%d" [CInt depth]) w).2.
Proof. intros -> Hw. unfold when, perf_set_queue_depth, bind, ret. by rewrite put_step. Qed.

Lemma apply_writes p (w : W) : writable w -> profile_ok device p ->
  perf_apply_profile device p w = Some (0, write_all (settings device p) w).
Proof.
  intros Hw [Hn Hs _ _]. rewrite <- !Z.ltb_lt, <- Z.leb_le in Hs.
  destruct Hs as (H1 & H2 & H3 & H4 & H5 & H6 & H7 & H8).
  assert (forall path text w, writable w -> writable (fopen_w path text w).2) as Hk
    by (intros path text w0 Hw0; pose proof (writable_put path text w0 Hw0) as G;
        destruct (fopen_w path text w0); by destruct G as (_ & ? & _)).
  unfold perf_apply_profile, perf_set_scheduler, perf_set_readahead, perf_set_nr_requests,
    perf_set_vm_swappiness, perf_set_vm_dirty_ratio, perf_set_vm_dirty_background_ratio,
    perf_set_vm_vfs_cache_pressure.
  do 2 rewrite when_put by auto 12. rewrite when_depth by auto 12. do 5 rewrite when_put by auto 12.
  unfold ret, settings, write_all. cbn [fold_left fst snd].
  rewrite sprintf_s, !sprintf_d.
  assert (scheduler_path device = sys_path device "/queue/scheduler") as -> by (by apply path_fits; simpl; lia).
  assert (readahead_path device = sys_path device "/queue/read_ahead_kb") as -> by (by apply path_fits; simpl; lia).
  assert (depth_path device = sys_path device "/device/queue_depth") as -> by (by apply path_fits; simpl; lia).
  assert (requests_path device = sys_path device "/queue/nr_requests") as -> by (by apply path_fits; simpl; lia).
  done.
Qed.

Lemma settings_bare p : profile_ok device p -> Forall (fun x => bare x.2 /\ x.2 <> "") (settings device p).
Proof.
  intros [_ (Hs & _) _ [Hb _]]. assert (forall z : Z, bare (pretty z) /\ pretty z <> "") as Hp.
  { intros z. split; [|intros E; pose proof (scan_int_pretty z "" eq_refl) as Hz; by rewrite E in Hz].
    unfold bare. by rewrite !str_mem_pretty by done. }
  unfold settings. repeat (apply Forall_cons_2; [first [apply Hp|split; [done|]]|]); [|apply Forall_nil_2].
  cbn [snd]. intros E. by rewrite E in Hs.
Qed.

(** A number is read back, with or without a line end after it. *)
Lemma scan_shown (z : Z) c : in_i32 z -> c = pretty z \/ c = pretty z +:+ NL -> scan_value (Some c) = z.
Proof.
  intros Hz [-> | ->]; unfold scan_value.
  - pose proof (sscanf_d z "" Hz eq_refl) as Hd. rewrite str_app_nil_r in Hd. by rewrite Hd.
  - by rewrite (sscanf_d z NL Hz eq_refl).
Qed.

Lemma get_shown path (z : Z) (w : W) : in_i32 z -> path <> sys_path device "/queue/scheduler" ->
  (exists c, fopen_r path w = Some c /\ holds path (pretty z) c) -> get path w = Some (z, w).
Proof.
  intros Hz Hp (c & E & Hh). unfold get, bind, reads, ret. rewrite E. unfold holds in Hh.
  rewrite decide_False in Hh by done. by rewrite (scan_shown z c).
Qed.

Lemma depth_shown (z : Z) (w : W) : in_i32 z -> depth_path device <> sys_path device "/queue/scheduler" ->
  (exists c, fopen_r (depth_path device) w = Some c /\ holds (depth_path device) (pretty z) c) ->
  perf_get_queue_depth device w = Some (z, w).
Proof.
  intros Hz Hp Hc. pose proof (get_shown _ _ _ Hz Hp Hc) as Hg. destruct Hc as (c & E & _).
  unfold get, perf_get_queue_depth, bind, reads in *. rewrite E in *. exact Hg.
Qed.

Lemma scheduler_shown sched size (w : W) :
  (String.length sched < size)%nat -> (String.length sched <= 63)%nat -> bare sched ->
  (exists c, fopen_r (scheduler_path device) w = Some c /\ bracketed sched c) ->
  perf_get_scheduler device size w = Some ((0, Some sched), w).
Proof.
  intros Hl Hl2 Hs (c & E & before & after & Hb & Ha & -> & Hc). unfold perf_get_scheduler, bind, reads. rewrite E.
  set (line := before +:+ String "[" (sched +:+ String "]" after)).
  assert (before +:+ String "[" (sched +:+ String "]" (after +:+ NL)) = line +:+ NL) as Hline.
  { unfold line. by rewrite !str_app_assoc, !str_app_cons, !str_app_assoc, !str_app_cons. }
  rewrite Hline. rewrite first_line.
  - rewrite <- Hline. unfold guard_ub, ret. rewrite (proj2 (Nat.ltb_lt 0 size)) by lia.
    by rewrite current_bracketed.
  - unfold line. rewrite str_mem_app. cbn [str_mem]. rewrite str_mem_app. cbn [str_mem].
    destruct Hb as (_ & _ & ->), Hs as (_ & _ & ->). by rewrite Ha.
  - unfold line. rewrite str_length_app. cbn [String.length]. rewrite str_length_app. cbn [String.length]. lia.
Qed.

(** Nothing is reported when nothing could be written. *)
Lemma apply_refused p (w : W) :
  (forall path text, fopen_w path text w = (false, w)) -> perf_apply_profile device p w = Some (0, w).
Proof.
  intros Hf. assert (forall path text, put path text w = Some (-1, w)) as Hp.
  { intros path text. unfold put. run. by rewrite Hf. }
  assert (forall c path text (k : M W Z), (when c (put path text) ;;! k) w = k w) as Hw.
  { intros c path text k. unfold when. destruct c; unfold bind, ret; by rewrite ?Hp. }
  assert (forall c depth (k : M W Z), (when c (perf_set_queue_depth device depth) ;;! k) w = k w) as Hd.
  { intros c depth k. unfold when, perf_set_queue_depth. destruct c; unfold bind, ret; [|done].
    rewrite Hp. simpl. by rewrite Hp. }
  unfold perf_apply_profile, perf_set_scheduler, perf_set_readahead, perf_set_nr_requests,
    perf_set_vm_swappiness, perf_set_vm_dirty_ratio, perf_set_vm_dirty_background_ratio,
    perf_set_vm_vfs_cache_pressure.
  by do 2 rewrite Hw; rewrite Hd; do 5 rewrite Hw.
Qed.

(** C34. Applying a profile that sets every parameter, where the kernel takes
    every value written: afterwards each file of the device's queue and of the
    VM settings holds the profile's value, and the getters read back the
    scheduler, from the brackets the kernel puts around it, the read-ahead,
    the queue depth, the swappiness and the dirty ratio of the profile.  Where
    no file can be written, nothing is changed and the result is 0 all the
    same. *)
Theorem profile_applied p size (w : W) :
  profile_ok device p -> (String.length (scheduler p) < size)%nat ->
  (writable w ->
    exists w', perf_apply_profile device p w = Some (0, w') /\
    (forall path text, (path, text) ∈ settings device p ->
       exists c, fopen_r path w' = Some c /\ holds path text c) /\
    perf_get_scheduler device size w' = Some ((0, Some (scheduler p)), w') /\
    perf_get_readahead device w' = Some (read_ahead_kb p, w') /\
    perf_get_queue_depth device w' = Some (queue_depth p, w') /\
    perf_get_vm_swappiness w' = Some (vm_swappiness p, w') /\
    perf_get_vm_dirty_ratio w' = Some (vm_dirty_ratio p, w')) /\
  ((forall path text, fopen_w path text w = (false, w)) -> perf_apply_profile device p w = Some (0, w)).
Proof.
  intros Hok Hl. split; [|apply apply_refused]. intros Hw.
  exists (write_all (settings device p) w). split; [by apply apply_writes|].
  pose proof (write_all_read _ (settings_distinct device p) (settings_bare p Hok) w Hw) as Hr. split; [done|].
  destruct Hok as [Hn _ (I1 & I2 & I3 & I4 & I5) [Hb Hs]].
  assert (scheduler_path device = sys_path device "/queue/scheduler") as Es by (by apply path_fits; simpl; lia).
  assert (readahead_path device = sys_path device "/queue/read_ahead_kb") as Er by (by apply path_fits; simpl; lia).
  assert (depth_path device = sys_path device "/device/queue_depth") as Ed by (by apply path_fits; simpl; lia).
  assert (forall rest, rest <> "/queue/scheduler" -> sys_path device rest <> sys_path device "/queue/scheduler") as Hp.
  { intros rest Hrest E. unfold sys_path in E. by apply str_app_inj, str_app_inj in E. }
  split_and!.
  - apply scheduler_shown; [done..|]. rewrite Es. destruct (Hr (sys_path device "/queue/scheduler") (scheduler p))
      as (c & E & Hh); [unfold settings; set_solver|]. exists c. split; [done|].
    unfold holds in Hh. by rewrite decide_True in Hh.
  - apply get_shown; [done| |]; rewrite Er; [by apply Hp|]. apply Hr. unfold settings. set_solver.
  - apply depth_shown; [done| |]; rewrite Ed; [by apply Hp|]. apply Hr. unfold settings. set_solver.
  - apply get_shown; [done..|]. apply Hr. unfold settings. set_solver.
  - apply get_shown; [done..|]. apply Hr. unfold settings. set_solver.
Qed.
End Apply.

(** The default profiles set everything. *)
Lemma default_profile_ok device workload :
  (String.length (get_device_basename device) <= 200)%nat ->
  profile_ok device (perf_get_default_profile workload).2.
Proof.
  intros Hd. split; [done|..]; destruct workload; simpl; unfold in_i32, strlen, bare; simpl; split_and!; lia || done.
Qed.

(** ** A kernel that shows its parameters *)

(** The parameter files of one disk: the scheduler in use is shown among the
    others, numbers end in a line end. *)
Record kernel := mk_kernel { k_disk : string; k_files : gmap string string }.
Definition k_shows (disk path text : string) : string :=
  if decide (path = sys_path disk "/queue/scheduler") then "none [" +:+ text +:+ "] kyber" +:+ NL
  else text +:+ NL.

#[global] Instance kernel_files : Files kernel := {
  fopen_r p k := k_files k !! p;
  fopen_w p t k := (true, mk_kernel (k_disk k) (<[p := k_shows (k_disk k) p t]> (k_files k)));
  fopen_a _ _ k := (false, k);
  unlink _ k := (ENOENT, k);
  chmod _ _ k := (0, k);
}.

Lemma kernel_put disk path text (k : kernel) : k_disk k = disk ->
  let '(ok, k') := fopen_w path text k in
  ok = true /\ k_disk k' = disk /\
  (bare text -> text <> "" -> exists content, fopen_r path k' = Some content /\ holds disk path text content) /\
  forall q, q <> path -> fopen_r q k' = fopen_r q k.
Proof.
  intros Hk. simpl. rewrite Hk. split_and!; [done..| |].
  - intros _ _. exists (k_shows disk path text). rewrite lookup_insert_eq. split; [done|].
    unfold holds, k_shows. case_decide; [|by right]. exists "none ", " kyber". by split_and!; [..|simpl; lia].
  - intros q Hq. by rewrite lookup_insert_ne.
Qed.

Lemma profile_applied_witness :
  exists w', perf_apply_profile "/dev/sda" (perf_get_default_profile WORKLOAD_DATABASE).2
      (mk_kernel "/dev/sda" ∅) = Some (0, w') /\
    (forall path text, (path, text) ∈ settings "/dev/sda" (perf_get_default_profile WORKLOAD_DATABASE).2 ->
       exists c, fopen_r path w' = Some c /\ holds "/dev/sda" path text c) /\
    perf_get_scheduler "/dev/sda" 64 w' = Some ((0, Some "deadline"), w') /\
    perf_get_readahead "/dev/sda" w' = Some (256, w') /\
    perf_get_queue_depth "/dev/sda" w' = Some (128, w') /\
    perf_get_vm_swappiness w' = Some (10, w') /\
    perf_get_vm_dirty_ratio w' = Some (15, w').
Proof.
  refine (proj1 (profile_applied "/dev/sda" (fun k : kernel => k_disk k = "/dev/sda")
            (fun path text => kernel_put "/dev/sda" path text)
            (perf_get_default_profile WORKLOAD_DATABASE).2 64 (mk_kernel "/dev/sda" ∅) _ _) _).
  - apply default_profile_ok. simpl. lia.
  - simpl. lia.
  - reflexivity.
Defined.

(** A speed of 0, which a benchmark that could not open its file leaves, makes
    the comparison divide by zero: the change is not a number, or infinite. *)
Lemma improvement_from_zero m e :
  improvement d0 d0 = SpecFloat.S754_nan /\
  improvement d0 (SpecFloat.S754_finite false m e) = SpecFloat.S754_infinity false.
Proof. done. Qed.
