(* ===== verification/BenchProps.v ===== *)
(** * Theorems about the benchmarks of src/performance_tuner.c

    The loops over [read] and [write] have no bound in the code.  Stated
    against the documented behaviour of the two calls, they end, and what they
    count is the size of the file read and at least the size asked for. *)

From stdpp Require Import base list gmap strings.
From Stdlib Require Import Ascii ZArith Lia.
From S2P Require Import Prelude CString CFormat CFloat Sys Perf.

(** [read] and [write] on files: [left_over f w] is what lies between the
    position of a descriptor and the end of its file, the whole file when it was
    just opened; [read] moves by what it returns, and returns 0 at the end only;
    [write] of a buffer that is not empty writes some of it or fails. *)
Class BenchLaws (W : Type) `{Bench W} := {
  left_over : Z -> W -> Z;
  file_size : string -> W -> Z;
  open_rd_left : forall p d w f w', open_rd p d w = (f, w') -> 0 <= f -> left_over f w' = file_size p w;
  open_rd_fails : forall p d w f w', open_rd p d w = (f, w') -> f < 0 -> file_size p w' = file_size p w;
  alloc_left : forall n f w, left_over f (aligned_alloc n w).2 = left_over f w;
  clock_left : forall f w, left_over f (clock_gettime w).2 = left_over f w;
  left_nonneg : forall f w, 0 <= left_over f w;
  read_moves : forall f n w b w', 0 < n -> read_fd f n w = (b, w') ->
    b < 0 \/ b = 0 /\ left_over f w = 0 \/ 0 < b <= n /\ left_over f w' = left_over f w - b;
  write_some : forall f n w b w', 0 < n -> write_buf f n w = (b, w') -> b < 0 \/ 0 < b <= n;
}.

Section Loops.
Context {W : Type} `{Shell W} `{Files W} `{Procs W} `{Bench W} `{!BenchLaws W}.

(** No read, no write of the machine fails. *)
Definition reads_ok : Prop := forall f n (w : W), 0 <= (read_fd f n w).1.
Definition writes_ok : Prop := forall f n (w : W), 0 <= (write_buf f n w).1.

(** [c] ends with [a] in [w'] whatever the fuel, from [n] on. *)
Definition ends {A} (c : nat -> M W (option A)) (w : W) (a : A) (w' : W) : Prop :=
  exists n, forall fuel, (n <= fuel)%nat -> c fuel w = Some (Some a, w').

Lemma buffer_pos : 0 < BUFFER_SIZE.
Proof. done. Qed.

Lemma read_loop_ends f : forall (w : W) total,
  exists t w', ends (fun fuel => read_loop fuel f total) w t w' /\
    total <= t <= total + left_over f w /\ (reads_ok -> t = total + left_over f w).
Proof.
  intros w. remember (Z.to_nat (left_over f w)) as k eqn:Ek. revert w Ek.
  induction (lt_wf k) as [k _ IH]. intros w Ek total. pose proof (left_nonneg f w) as Hw. destruct (read_fd f BUFFER_SIZE w) as [b w1] eqn:E.
  assert (forall n, read_loop (S n) f total w =
    if 0 <? b then read_loop n f (total + b) w1 else Some (Some total, w1)) as Hstep.
  { intros n. simpl. unfold bind, call. rewrite E. by destruct (0 <? b). }
  pose proof (left_nonneg f w1). destruct (read_moves f _ _ _ _ buffer_pos E) as [Hb|[[-> Hl]|[Hb Hl]]].
  - exists total, w1. split.
    + exists 1%nat. intros [|n] Hn; [lia|]. rewrite Hstep. by destruct (Z.ltb_spec 0 b); [lia|].
    + split; [lia|]. intros Hok. specialize (Hok f BUFFER_SIZE w). rewrite E in Hok. simpl in Hok. lia.
  - exists total, w1. split; [|lia]. exists 1%nat. intros [|n] Hn; [lia|]. apply Hstep.
  - destruct (IH (Z.to_nat (left_over f w1)) ltac:(lia) w1 eq_refl (total + b)) as (t & w' & [m Hm] & Ht & Hok).
    exists t, w'. split; [|split; [lia|intros; rewrite Hok by done; lia]].
    exists (S m). intros [|n] Hn; [lia|]. rewrite Hstep. destruct (Z.ltb_spec 0 b); [|lia].
    apply Hm. lia.
Qed.

Lemma write_loop_ends f target : target + BUFFER_SIZE < 2 ^ 64 -> forall (w : W) total,
  0 <= total < target + BUFFER_SIZE ->
  exists t w', ends (fun fuel => write_loop fuel f total target) w t w' /\
    total <= t < target + BUFFER_SIZE /\ (writes_ok -> target <= t).
Proof.
  intros Ht w total Hb. remember (Z.to_nat (target - total)) as k eqn:Ek. revert w total Hb Ek.
  induction (lt_wf k) as [k _ IH]. intros w total Hb Ek.
  destruct (Z.ltb_spec total target) as [Hlt|Hge].
  2: { exists total, w. split; [|lia]. exists 0%nat. intros fuel _.
       destruct fuel; simpl; by destruct (Z.ltb_spec total target); [lia|]. }
  destruct (write_buf f BUFFER_SIZE w) as [b w1] eqn:E.
  assert (forall n, write_loop (S n) f total target w =
    if b <? 0 then Some (Some total, w1) else write_loop n f (u64 (total + b)) target w1) as Hstep.
  { intros n. simpl. destruct (Z.ltb_spec total target); [|lia]. unfold bind, call. rewrite E.
    by destruct (b <? 0). }
  destruct (write_some f _ _ _ _ buffer_pos E) as [Hneg|Hpos].
  - exists total, w1. split.
    + exists 1%nat. intros [|n] Hn; [lia|]. rewrite Hstep. by destruct (Z.ltb_spec b 0); [|lia].
    + split; [lia|]. intros Hok. specialize (Hok f BUFFER_SIZE w). rewrite E in Hok. simpl in Hok. lia.
  - assert (u64 (total + b) = total + b) as Eu by (unfold u64; apply Z.mod_small; lia).
    destruct (IH (Z.to_nat (target - (total + b))) ltac:(lia) w1 (total + b) ltac:(lia) eq_refl)
      as (t & w' & [m Hm] & Hr & Hok).
    exists t, w'. split; [|split; [lia|done]].
    exists (S m). intros [|n] Hn; [lia|]. rewrite Hstep, Eu. destruct (Z.ltb_spec b 0); [lia|].
    apply Hm. lia.
Qed.

(** ** The benchmarks *)

Lemma ends_call {A B} (f : W -> A * W) (k : nat -> A -> M W (option B)) w r w' :
  ends (fun fuel => k fuel (f w).1) (f w).2 r w' -> ends (fun fuel => bind (call f) (k fuel)) w r w'.
Proof. intros [n Hn]. exists n. intros fuel Hf. unfold bind, call. specialize (Hn fuel Hf). by destruct (f w). Qed.

Lemma ends_eff {B} (f : W -> W) (k : nat -> unit -> M W (option B)) w r w' :
  ends (fun fuel => k fuel tt) (f w) r w' ->
  ends (fun fuel => bind (fun w => Some (tt, f w)) (k fuel)) w r w'.
Proof. done. Qed.

Lemma ends_loop {A B} (c : nat -> M W (option A)) (k : nat -> option A -> M W (option B)) w a w1 r w' :
  ends c w a w1 -> ends (fun fuel => k fuel (Some a)) w1 r w' ->
  ends (fun fuel => bind (c fuel) (k fuel)) w r w'.
Proof.
  intros [n Hn] [m Hm]. exists (max n m). intros fuel Hf. unfold bind.
  rewrite Hn by lia. apply Hm. lia.
Qed.

Lemma ends_done {A} (a : A) (f : W -> W) w : ends (fun _ w => Some (Some a, f w)) w a (f w).
Proof. by exists 0%nat. Qed.

(** Opening is one call or two, defined either way. *)
Definition opened (open : bool -> W -> Z * W) (w : W) : Z * W :=
  let '(f0, w0) := open true w in if f0 <? 0 then open false w0 else (f0, w0).

Lemma ends_open {B} (open : bool -> W -> Z * W) (k : nat -> Z -> M W (option B)) w r w' :
  ends (fun fuel => k fuel (opened open w).1) (opened open w).2 r w' ->
  ends (fun fuel => bind (open_either open) (k fuel)) w r w'.
Proof.
  intros [n Hn]. exists n. intros fuel Hf. specialize (Hn fuel Hf). revert Hn.
  unfold opened, open_either, bind, call. destruct (open true w) as [f0 w0].
  destruct (f0 <? 0); [by destruct (open false w0)|done].
Qed.

Lemma opened_left file (w : W) fd w1 :
  opened (open_rd file) w = (fd, w1) -> 0 <= fd -> left_over fd w1 = file_size file w.
Proof.
  unfold opened. destruct (open_rd file true w) as [f0 w0] eqn:E0. destruct (Z.ltb_spec f0 0) as [Hn|Hp].
  - intros E1 Hf. rewrite (open_rd_left _ _ _ _ _ E1 Hf). by eapply open_rd_fails.
  - intros [= <- <-] _. by eapply open_rd_left.
Qed.

(** The speed in MB/s of a number of bytes moved between two readings of the
    clock, of seconds and nanoseconds. *)
Definition speed (bytes : Z) (start stop : Z * Z) : double :=
  let seconds := dadd (to_double (stop.1 - start.1)) (ddiv (to_double (stop.2 - start.2)) lit_1e9) in
  ddiv (ddiv (to_double bytes) (to_double 1048576)) seconds.

(** A measurement from the state [w]: its code, what is left in the result
    (0 when nothing was measured) and the state after it.  A file that cannot
    be opened gives -1, a buffer that cannot be allocated -ENOMEM with the file
    closed, and nothing else does; otherwise the clock is read, the transfer
    is made, the clock is read again after [fin], and the file is closed. *)
Definition measurement (open : bool -> W -> Z * W) (transfer : Z -> W -> Z -> W -> Prop) (fin : Z -> W -> W)
    (w : W) (r : Z * double) (w' : W) : Prop :=
  let '(fd, w1) := opened open w in
  if fd <? 0 then r = (-1, d0) /\ w' = w1
  else
    let '(allocated, w2) := aligned_alloc BUFFER_SIZE w1 in
    if negb allocated then r = (- ENOMEM, d0) /\ w' = close_fd fd w2
    else
      let '(start, w3) := clock_gettime w2 in
      exists t w4, transfer fd w3 t w4 /\
        let '(stop, w5) := clock_gettime (fin fd w4) in
        r = (0, speed t start stop) /\ w' = close_fd fd w5.

(** What is written: at least [target] bytes unless a write fails, and less
    than one buffer more. *)
Definition written (target fd : Z) (w : W) (t : Z) (w' : W) : Prop :=
  ends (fun fuel => write_loop fuel fd 0 target) w t w' /\
  0 <= t < target + BUFFER_SIZE /\ (writes_ok -> target <= t).
(** What is read: the file of [size] bytes unless a read fails. *)
Definition read_all (size fd : Z) (w : W) (t : Z) (w' : W) : Prop :=
  ends (fun fuel => read_loop fuel fd 0) w t w' /\ 0 <= t <= size /\ (reads_ok -> t = size).

(** A benchmark that opened its file, allocated its buffer and read the clock
    runs its loop and ends. *)
Lemma measure_ends (open : bool -> W -> Z * W) (loop : nat -> Z -> M W (option Z))
    (fin : Z -> W -> W) (P : Z -> W -> Z -> W -> Prop) (w : W) :
  (forall fd w3 t w4, P fd w3 t w4 -> ends (fun fuel => loop fuel fd) w3 t w4) ->
  (forall fd w0, opened open w = (fd, w0) -> 0 <= fd ->
     exists t w4, P fd (clock_gettime (aligned_alloc BUFFER_SIZE w0).2).2 t w4) ->
  exists r w', ends (fun fuel =>
    let! f := open_either open in
    if f <? 0 then ret (Some (-1, d0))
    else
      let! ok := call (aligned_alloc BUFFER_SIZE) in
      if negb ok then (fun w => Some (Some (- ENOMEM, d0), close_fd f w))
      else
        let! start := call clock_gettime in
        let! total := loop fuel f in
        match total with
        | None => ret None
        | Some total =>
            (fun w => Some (tt, fin f w)) ;;!
            let! stop := call clock_gettime in
            (fun w => Some (Some (0, mbs total start stop), close_fd f w))
        end) w r w' /\ measurement open P fin w r w'.
Proof.
  intros HP Hl. unfold measurement. destruct (opened open w) as [fd w1] eqn:E1. destruct (fd <? 0) eqn:Hfd.
  { eexists _, _. split; [apply ends_open; rewrite E1; simpl; rewrite Hfd; apply (ends_done (-1, d0) id)|done]. }
  destruct (Hl fd w1 eq_refl ltac:(by apply Z.ltb_ge)) as (t & w4 & Ht).
  destruct (aligned_alloc BUFFER_SIZE w1) as [ok w2] eqn:E2. simpl in Ht.
  destruct ok; cbn [negb].
  2: { eexists _, _. split; [apply ends_open; rewrite E1; simpl; rewrite Hfd; apply ends_call; rewrite E2;
         apply ends_done|done]. }
  destruct (clock_gettime w2) as [start w3] eqn:E3. simpl in Ht.
  destruct (clock_gettime (fin fd w4)) as [stop w5] eqn:E5. exists (0, mbs t start stop), (close_fd fd w5). split.
  - apply ends_open. rewrite E1. simpl. rewrite Hfd. apply ends_call. rewrite E2. simpl. apply ends_call.
    rewrite E3. simpl. eapply ends_loop; [by apply HP|]. simpl. apply ends_eff, ends_call. rewrite E5.
    apply ends_done.
  - exists t, w4. rewrite E5. done.
Qed.

Lemma sequential_write_ends file (w : W) :
  exists r w', ends (fun fuel => perf_benchmark_sequential_write fuel file d0) w r w' /\
    measurement (open_wr file) (written TEST_FILE_SIZE) fsync w r w'.
Proof.
  apply (measure_ends (open_wr file) (fun fuel f => write_loop fuel f 0 TEST_FILE_SIZE) fsync).
  - by intros fd w3 t w4 [He _].
  - intros fd w0 _ _. destruct (write_loop_ends fd TEST_FILE_SIZE eq_refl
      (clock_gettime (aligned_alloc BUFFER_SIZE w0).2).2 0) as (t & w4 & He & Ht & Hok); [done|].
    by exists t, w4.
Qed.

Lemma sequential_read_ends file (w : W) :
  exists r w', ends (fun fuel => perf_benchmark_sequential_read fuel file d0) w r w' /\
    measurement (open_rd file) (read_all (file_size file w)) (fun _ w => w) w r w'.
Proof.
  apply (measure_ends (open_rd file) (fun fuel f => read_loop fuel f 0) (fun _ w => w)).
  - by intros fd w3 t w4 [He _].
  - intros fd w0 E Hfd. pose proof (opened_left _ _ _ _ E Hfd) as Hs.
    destruct (read_loop_ends fd (clock_gettime (aligned_alloc BUFFER_SIZE w0).2).2 0)
      as (t & w4 & He & Ht & Hok). rewrite clock_left, alloc_left, Hs in *. exists t, w4. split; [done|].
    split; [lia|]. intros Hr. by rewrite Hok.
Qed.

(** C33. The benchmark ends, for every file, speed and failure of a call: from
    some fuel on its result does not depend on the fuel, its code is 0, and
    removing the two test files is the last it does.  The write speed is that
    of at least 100 MB, unless a write failed, and of less than one buffer
    more, between the readings of the clock before the first write and after
    the fsync; the read speed is that of the size the second file had when it
    was opened, unless a read failed, between the readings before the first
    and after the last read; a speed is 0 without a measurement exactly when
    its file could not be opened or the buffer not be allocated. *)
Theorem benchmark_terminates device test_file (w : W) :
  let write_file := snprintf 512 "%s.write_test" [CStr test_file] in
  let read_file := snprintf 512 "%s.read_test" [CStr test_file] in
  exists rw w1 rr w3,
    measurement (open_wr write_file) (written TEST_FILE_SIZE) fsync w rw w1 /\
    let w2 := sleep 1 (system drop_caches_cmd (system "sync" (system (cp_cmd write_file read_file) w1).2).2).2 in
    measurement (open_rd read_file) (read_all (file_size read_file w2)) (fun _ w => w) w2 rr w3 /\
    ends (fun fuel => perf_benchmark fuel device test_file) w
      (0, mk_results rr.2 rw.2) (unlink read_file (unlink write_file w3).2).2.
Proof.
  intros write_file read_file. destruct (sequential_write_ends write_file w) as ([cw vw] & wa & Ew & Hw).
  set (w1 := sleep 1 (system drop_caches_cmd (system "sync" (system (cp_cmd write_file read_file) wa).2).2).2).
  destruct (sequential_read_ends read_file w1) as ([cr vr] & w2 & Er & Hr).
  exists (cw, vw), wa, (cr, vr), w2. split; [done|]. split; [done|].
  unfold perf_benchmark. fold write_file read_file. eapply ends_loop; [exact Ew|]. simpl.
  do 3 apply ends_call. apply ends_eff. eapply ends_loop; [exact Er|]. simpl.
  do 2 apply ends_call. apply (ends_done _ id).
Qed.
End Loops.

(** ** A machine with one file *)

(** [size] bytes in every file, read from [pos] on; a write stores a buffer. *)
Record disk := mk_disk { size : nat; pos : nat; ticks : Z }.

#[global] Instance disk_bench : Bench disk := {
  open_rd _ _ w := (3, mk_disk (size w) 0 (ticks w));
  open_wr _ _ w := (3, mk_disk 0 0 (ticks w));
  aligned_alloc _ w := (true, w);
  clock_gettime w := ((ticks w, 0), mk_disk (size w) (pos w) (ticks w + 1));
  read_fd _ n w := let b := Nat.min (Z.to_nat n) (size w - pos w) in
                   (Z.of_nat b, mk_disk (size w) (pos w + b) (ticks w));
  write_buf _ n w := (Z.max 0 n, mk_disk (size w + Z.to_nat n) (pos w) (ticks w));
  fsync _ w := w;
  close_fd _ w := w;
}.

#[global] Instance disk_laws : BenchLaws disk.
Proof.
  refine {| left_over _ w := Z.of_nat (size w - pos w); file_size _ w := Z.of_nat (size w) |}.
  - intros p d w f w' [= <- <-] _. simpl. lia.
  - intros p d w f w' [= <- <-]. lia.
  - done.
  - done.
  - intros. lia.
  - intros f n w b w' Hn [= <- <-]. simpl. lia.
  - intros f n w b w' Hn [= <- <-]. lia.
Defined.

#[global] Instance disk_shell : Shell disk := {
  geteuid _ := 0; stat _ _ := None; popen _ w := (None, w); pclose _ _ w := (0, w);
  system _ w := (0, w); mkdir _ w := (0, w);
}.
#[global] Instance disk_files : Files disk := {
  fopen_r _ _ := None; fopen_w _ _ w := (true, w); fopen_a _ _ w := (true, w);
  unlink _ w := (0, w); chmod _ _ w := (0, w);
}.
#[global] Instance disk_procs : Procs disk := {
  getpid _ := 100; fork w := (200, w); waitpid w := (None, w); kill _ _ w := (0, w); sleep _ w := w;
  zombies _ := 0%nat; running _ _ := false;
}.

Lemma benchmark_terminates_witness :
  exists tw tr sw sr er w', TEST_FILE_SIZE <= tw < TEST_FILE_SIZE + BUFFER_SIZE /\
    ends (fun fuel => perf_benchmark fuel "/dev/sda" "/mnt/t") (mk_disk 0 0 0)
      (0, mk_results (speed tr sr er) (speed tw (0, 0) sw)) w'.
Proof.
  destruct (benchmark_terminates "/dev/sda" "/mnt/t" (mk_disk 0 0 0)) as (rw & w1 & rr & w3 & Hw & Hr & He).
  destruct Hw as (tw & w4 & (_ & Ht & Hok) & Ew & _). destruct Hr as (tr & w5 & _ & Er & _).
  subst rw rr. exists tw, tr. do 3 eexists. exists (unlink "" w3).2.
  split; [|exact He]. split; [|apply Ht]. apply Hok. intros f n w. simpl. lia.
Defined.
