(* ===== verification/MonitorProps.v ===== *)
(** * Theorems about src/monitor.c *)

From stdpp Require Import base list gmap strings pretty.
From Stdlib Require Import Ascii ZArith Lia.
From S2P Require Import Prelude CString CFormat CFloat CFloatFacts Sys SimOS Backup Fs Monitor FsProps.

Section Samples.
Context {W : Type} `{Files W} `{Clock W} `{HistDb W}.

(** The counters of a device: reads, writes, sectors read and written. *)
Definition readings : Type := Z * Z * Z * Z.

Definition stats_at (device : string) (c : readings) (now : Z) : device_stats_t :=
  let '(rd, wr, rs, ws) := c in
  mk_stats (str_take 63 device) rd wr (u64 (rs * 512)) (u64 (ws * 512)) d0 d0 0 now.

(** What a call that reads the counters leaves: the sample's time, the
    device's counters in [prev_stats], and the measures. *)
Lemma current_performance_inv device old (m : monitor W) s m' c w :
  monitor_get_current_performance device old m = Some ((0, s), m') ->
  parse_diskstats device (mos m) = Some (Some c, w) ->
  (exists now, prev_stats m' = stats_at device c now) /\ prev_time m' = s_timestamp s /\ mdb m' = mdb m /\
  exists now,
  s_measures s =
    if (0 <? prev_time m) && streq (ds_device (prev_stats m)) device then
      if 0 <? s_timestamp s - prev_time m
      then Some (rates (prev_stats m) (stats_at device c now) (s_timestamp s - prev_time m))
      else s_measures old
    else Some (mk_measures d0 d0 d0 0).
Proof.
  intros E Hp. destruct c as [[[rd wr] rs] ws].
  unfold monitor_get_current_performance in E. unfold bind at 1, mon_os at 1 in E.
  assert (exists now w1, monitor_get_device_stats device (mos m) =
            Some ((0, stats_at device (rd, wr, rs, ws) now), w1)) as (now & w1 & Es).
  { unfold monitor_get_device_stats. rewrite (bind_step Hp). unfold bind, call, ret.
    destruct (time w) as [now w1]. by exists now, w1. }
  rewrite Es in E. cbn [negb Z.eqb] in E. unfold bind at 1, mon_os, call in E.
  cbn [mos set_mos] in E. destruct (time w1) as [t w2]. unfold bind at 1 in E.
  cbn [prev_stats prev_time set_mos] in E. unfold bind at 1 in E.
  destruct ((0 <? prev_time m) && streq (ds_device (prev_stats m)) device).
  - destruct (0 <? t - prev_time m) eqn:Hlt.
    + unfold bind at 1, guard_ub, ret, ub in E. destruct (in_i64 _); [|done].
      unfold bind, set_prev in E. injection E as <- <-. simpl. rewrite Hlt. eauto 10.
    + unfold ret, bind, set_prev in E. injection E as <- <-. simpl. rewrite Hlt. eauto 10.
  - unfold ret, bind, set_prev in E. injection E as <- <-. simpl. eauto 10.
Qed.

(** Counters that only grew, and do not wrap. *)
Definition grew (c1 c2 : readings) : Prop :=
  let '(rd1, wr1, rs1, ws1) := c1 in
  let '(rd2, wr2, rs2, ws2) := c2 in
  0 <= rd1 <= rd2 /\ 0 <= wr1 <= wr2 /\ 0 <= rs1 <= rs2 /\ 0 <= ws1 <= ws2 /\
  rd2 + wr2 < 2 ^ 64 /\ (rs2 + ws2) * 512 < 2 ^ 64.

(** The operations and the bytes between two readings. *)
Definition ops_between (c1 c2 : readings) : Z :=
  let '(rd1, wr1, _, _) := c1 in let '(rd2, wr2, _, _) := c2 in (rd2 + wr2) - (rd1 + wr1).
Definition bytes_between (c1 c2 : readings) : Z :=
  let '(_, _, rs1, ws1) := c1 in let '(_, _, rs2, ws2) := c2 in ((rs2 + ws2) - (rs1 + ws1)) * 512.

Lemma rates_exact device c1 c2 n1 n2 dt :
  grew c1 c2 ->
  rates (stats_at device c1 n1) (stats_at device c2 n2) dt =
    mk_measures (ddiv (to_double (ops_between c1 c2)) (to_double dt))
      (ddiv (to_double (bytes_between c1 c2)) (to_double (dt * 1024 * 1024))) d0 0.
Proof.
  destruct c1 as [[[rd1 wr1] rs1] ws1], c2 as [[[rd2 wr2] rs2] ws2].
  intros (G1 & G2 & G3 & G4 & G5 & G6). unfold rates, stats_at. simpl.
  assert (forall z, 0 <= z < 2 ^ 64 -> u64 z = z) as Hu by (intros; by apply u64_small).
  rewrite (Hu (rs1 * 512)), (Hu (rs2 * 512)), (Hu (ws1 * 512)), (Hu (ws2 * 512)) by lia.
  rewrite (Hu (rs2 * 512 - rs1 * 512)), (Hu (ws2 * 512 - ws1 * 512)) by lia.
  rewrite (Hu (rd2 + wr2)), (Hu (rd1 + wr1)) by lia. rewrite !Hu by lia. do 3 f_equal. lia.
Qed.

(** C35. Two samples of a device, with counters that grew in between: when time
    went by, the second holds the operations per second and the bytes between
    the two readings exactly, divided as doubles.  When the clock did not
    advance the measures of the caller's sample are not written, and saving a
    sample that held nothing reads indeterminate memory.  For a device name of
    64 characters or more every sample is zero. *)
Theorem two_samples device (m : monitor W) o1 s1 m1 w3 o2 s2 m2 c1 c2 wa wb :
  monitor_get_current_performance device o1 m = Some ((0, s1), m1) ->
  parse_diskstats device (mos m) = Some (Some c1, wa) ->
  monitor_get_current_performance device o2 (set_mos m1 w3) = Some ((0, s2), m2) ->
  parse_diskstats device w3 = Some (Some c2, wb) ->
  grew c1 c2 -> 0 < s_timestamp s1 ->
  let dt := s_timestamp s2 - s_timestamp s1 in
  ((String.length device <= 63)%nat -> 0 < dt ->
    s_measures s2 = Some (mk_measures (ddiv (to_double (ops_between c1 c2)) (to_double dt))
      (ddiv (to_double (bytes_between c1 c2)) (to_double (dt * 1024 * 1024))) d0 0)) /\
  ((String.length device <= 63)%nat -> dt <= 0 ->
    s_measures s2 = s_measures o2 /\
    (s_measures o2 = None -> mdb m = DbOpen -> monitor_save_sample device s2 m2 = None)) /\
  ((63 < String.length device)%nat -> s_measures s2 = Some (mk_measures d0 d0 d0 0)).
Proof.
  intros E1 P1 E2 P2 Hg Ht dt.
  destruct (current_performance_inv _ _ _ _ _ _ _ E1 P1) as ([n1 Hst] & Hpt & Hdb & _).
  destruct (current_performance_inv _ _ _ _ _ _ _ E2 P2) as (_ & _ & Hdb2 & n2 & Hm).
  cbn [set_mos prev_stats prev_time mdb] in Hm, Hdb2. rewrite Hpt, Hst in Hm.
  replace (0 <? s_timestamp s1) with true in Hm by (symmetry; by apply Z.ltb_lt).
  assert (ds_device (stats_at device c1 n1) = str_take 63 device) as Hd by (by destruct c1 as [[[??]?]?]).
  rewrite Hd in Hm. fold dt in Hm. cbn [andb] in Hm. split; [|split].
  - intros Hl Hdt. rewrite str_take_ge, streq_refl in Hm by done.
    apply Z.ltb_lt in Hdt. rewrite Hdt in Hm. rewrite Hm. f_equal. by apply rates_exact.
  - intros Hl Hdt. rewrite str_take_ge, streq_refl in Hm by done.
    apply Z.ltb_ge in Hdt. rewrite Hdt in Hm. split; [done|]. intros Hn Ho.
    unfold monitor_save_sample, monitor_track_performance, bind, get_mdb.
    rewrite Hdb2, Hdb, Ho, Hm, Hn. done.
  - intros Hl. rewrite streq_ne in Hm; [done|]. intros E. pose proof (str_take_length 63 device) as Hx.
    rewrite E in Hx. lia.
Qed.
End Samples.

(** ** A machine with one disk *)

#[global] Instance sim_hist : HistDb sim := {
  h_open _ w := (true, w); h_schema w := (true, w); h_close w := w;
  h_insert _ w := (true, w); h_select _ _ _ _ := Some []; h_delete_before _ w := (true, w);
  opendir _ _ := true;
}.

Definition disk_line (rd rs wr ws : Z) : string :=
  sprintf "   8       0 sda %d 0 %d 0 %d 0 %d 0 0 0 0" [CInt rd; CInt rs; CInt wr; CInt ws] +:+ NL.
Definition disk_at (clock rd rs wr ws : Z) : sim :=
  sim_put_clock (sim_put_files blank {[ DISKSTATS_PATH := disk_line rd rs wr ws ]}) clock.
Definition nothing : performance_sample_t := mk_sample 0 None.

(** 300 operations and 1 MiB in four seconds. *)
Definition m0 : monitor sim := monitor_start (disk_at 1000 100 2048 50 1024).
Definition r1 := default ((0, nothing), m0) (monitor_get_current_performance "/dev/sda" nothing m0).
Definition w_later : sim := disk_at 1004 300 3072 150 2048.
Definition r2 := default ((0, nothing), m0)
  (monitor_get_current_performance "/dev/sda" nothing (set_mos r1.2 w_later)).

Lemma two_samples_witness :
  let dt := s_timestamp r2.1.2 - s_timestamp r1.1.2 in
  ((String.length "/dev/sda" <= 63)%nat -> 0 < dt ->
    s_measures r2.1.2 = Some (mk_measures (ddiv (to_double 300) (to_double dt))
      (ddiv (to_double 1048576) (to_double (dt * 1024 * 1024))) d0 0)) /\
  ((String.length "/dev/sda" <= 63)%nat -> dt <= 0 ->
    s_measures r2.1.2 = None /\
    (s_measures nothing = None -> mdb m0 = DbOpen -> monitor_save_sample "/dev/sda" r2.1.2 r2.2 = None)) /\
  ((63 < String.length "/dev/sda")%nat -> s_measures r2.1.2 = Some (mk_measures d0 d0 d0 0)).
Proof.
  apply (two_samples "/dev/sda" m0 nothing r1.1.2 r1.2 w_later nothing r2.1.2 r2.2
           (100, 50, 2048, 1024) (300, 150, 3072, 2048) (mos m0) w_later); try (vm_compute; reflexivity).
  vm_compute. intuition discriminate.
Defined.

(** ** Disk usage *)

Section Usage.
Context {W : Type} `{Mounts W}.

(** For the answers real file systems give, the percentage of space in
    use is a number from 0 to 100 (7036874417766400 / 2^46), whatever the
    roundings, and the test against a threshold is the comparison with it.  A
    file system without blocks, such as /proc, has no percentage: the quotient
    is not a number, and no threshold is ever reached. *)
Theorem disk_usage_range mount_point (w : W) v :
  vfs_ok v -> statvfs mount_point w = Some v ->
  exists u, monitor_get_disk_usage mount_point w = Some ((0, Some u), w) /\
    (0 < total_bytes u -> at_most 7036874417766400 (-46) (usage_percent u)) /\
    (total_bytes u = 0 -> usage_percent u = SpecFloat.S754_nan /\
       forall threshold, monitor_check_disk_space mount_point threshold w = Some (0, w)) /\
    forall threshold, monitor_check_disk_space mount_point threshold w =
      Some (if dge (usage_percent u) threshold then 1 else 0, w).
Proof.
  intros Hv Hs. exists (usage_of mount_point v).
  assert (monitor_get_disk_usage mount_point w = Some ((0, Some (usage_of mount_point v)), w)) as E.
  { unfold monitor_get_disk_usage, bind, reads. by rewrite Hs. }
  assert (forall threshold, monitor_check_disk_space mount_point threshold w =
    Some (if dge (usage_percent (usage_of mount_point v)) threshold then 1 else 0, w)) as Hc.
  { intros threshold. unfold monitor_check_disk_space, bind. by rewrite E. }
  pose proof (usage_of_sizes mount_point v) as Hu. rewrite usage_exact in Hu by done.
  pose proof (f_equal (fun x => x.1.1) Hu) as Ht. pose proof (f_equal (fun x => x.1.2) Hu) as Hused.
  cbn [fst snd] in Ht, Hused. destruct Hv as [[[? ?] ?] [? ?]].
  assert (usage_percent (usage_of mount_point v) =
    dmul (ddiv (to_double (used_bytes (usage_of mount_point v))) (to_double (total_bytes (usage_of mount_point v))))
      (to_double 100)) as Ep by done.
  split; [done|]. rewrite Ep in Hc |- *. rewrite Ht, Hused in Hc |- *. split; [|split; [|done]].
  - intros Hpos. change (to_double 100) with (SpecFloat.S754_finite false 7036874417766400 (-46)).
    apply dmul_at_most; [|unfold full; lia|lia].
    assert (SpecFloat.Zdigits2 (f_blocks v * f_frsize v) <= 64) by (by apply digits_le).
    apply (ratio_unit 53 1024); lia || nia.
  - intros Hz. assert ((f_blocks v - f_bfree v) * f_frsize v = 0) as Hz' by nia. rewrite Hz, Hz'.
    assert (dmul (ddiv (to_double 0) (to_double 0)) (to_double 100) = SpecFloat.S754_nan) as En by (vm_compute; reflexivity).
    rewrite Hz, Hz', En in Hc. rewrite En. split; [done|]. intros threshold. rewrite Hc. by destruct threshold as [[]|[]| |[]].
Qed.
End Usage.

Lemma disk_usage_range_witness :
  exists u, monitor_get_disk_usage "/data" blank = Some ((0, Some u), blank) /\
    (0 < total_bytes u -> at_most 7036874417766400 (-46) (usage_percent u)).
Proof.
  destruct (disk_usage_range "/data" blank (mk_vfs 1000 400 300 4096 64 32)) as (u & E & R & _).
  - split; simpl; lia.
  - reflexivity.
  - by exists u.
Defined.
