(* ===== verification/CliProps.v ===== *)
(** * Theorems across the managers and the command line *)

From stdpp Require Import base list gmap strings pretty.
From Stdlib Require Import Ascii ZArith Lia.
From S2P Require Import Prelude CString CFormat CFloat Sys SimOS Ipc Backup Raid Lvm Fs Memory Security Perf.
From S2P Require Import Monitor RaidProps FsProps SecurityProps Cli.

#[local] Opaque snprintf sprintf.

(** ** Privileges *)

(** The operations of the managers that change the machine, with their
    arguments. *)
Inductive privileged :=
  | PRaidCreate (name : string) (level : Z) (devs : list string)
  | PRaidAdd (name dev : string) | PRaidFail (name dev : string) | PRaidRemove (name dev : string)
  | PRaidStop (name : string)
  | PPvCreate (dev : string) | PPvRemove (pv : string)
  | PVgCreate (vg : string) (pvs : list string) | PVgExtend (vg pv : string) | PVgRemove (vg : string)
  | PLvCreate (vg lv : string) (size : Z) | PLvExtend (vg lv : string) (size : Z) | PLvRemove (vg lv : string)
  | PSnapCreate (vg origin snap : string) (size : Z) | PSnapMerge (vg snap : string)
  | PFsCreate (dev : string) (type : fs_type_t) (label : option string)
  | PFsExt4 (dev : string) (block ratio : Z) (label : option string)
  | PFsXfs (dev : string) (block : Z) (label : option string)
  | PFsMount (dev mp : string) (type : fs_type_t) (options : option string)
  | PFsUnmount (mp : string) (force : bool)
  | PFsCheck (dev : string) (type : fs_type_t) | PFsRepair (dev : string) (type : fs_type_t) (auto : bool)
  | PFsResize (dev : string) (type : fs_type_t) (size : Z) | PFsResizeXfs (mp : string)
  | PSwapCreate (path : string) (size : Z) | PSwapMake (dev : string)
  | PSwapEnable (path : string) (prio : Z) | PSwapDisable (path : string)
  | PAclSet (path user perms : string) | PAclDefault (path user perms : string)
  | PAclRemove (path user : string) | PAclRemoveAll (path : string) | PAclRecursive (path user perms : string)
  | PLuksFormat (dev pass : string) (cipher : option string) (size : Z)
  | PLuksOpen (dev name pass : string) | PLuksClose (name : string)
  | PLuksChange (dev old new : string)
  | PAuditClear.

Section Privileges.
Context {W : Type} `{Shell W} `{!ShellStarts W} `{Files W} `{Procs W} `{Mounts W} `{Secure W}.

Definition perform (p : privileged) : M W Z :=
  match p with
  | PRaidCreate n l ds => raid_create n l ds
  | PRaidAdd n d => raid_add_disk n d
  | PRaidFail n d => raid_fail_disk n d
  | PRaidRemove n d => raid_remove_disk n d
  | PRaidStop n => raid_stop n
  | PPvCreate d => lvm_pv_create d
  | PPvRemove pv => lvm_pv_remove pv
  | PVgCreate vg pvs => lvm_vg_create vg pvs
  | PVgExtend vg pv => lvm_vg_extend vg pv
  | PVgRemove vg => lvm_vg_remove vg
  | PLvCreate vg lv s => lvm_lv_create vg lv s
  | PLvExtend vg lv s => lvm_lv_extend vg lv s
  | PLvRemove vg lv => lvm_lv_remove vg lv
  | PSnapCreate vg o s sz => lvm_snapshot_create vg o s sz
  | PSnapMerge vg s => lvm_snapshot_merge vg s
  | PFsCreate d t l => fs_create d t l
  | PFsExt4 d b r l => fs_create_ext4_advanced d b r l
  | PFsXfs d b l => fs_create_xfs_advanced d b l
  | PFsMount d mp t o => fs_mount d mp t o
  | PFsUnmount mp f => fs_unmount mp f
  | PFsCheck d t => fs_check d t
  | PFsRepair d t a => fs_repair d t a
  | PFsResize d t s => fs_resize d t s
  | PFsResizeXfs mp => fs_resize_xfs_online mp
  | PSwapCreate p s => swap_create_file p s
  | PSwapMake d => swap_make d
  | PSwapEnable p pr => swap_enable p pr
  | PSwapDisable p => swap_disable p
  | PAclSet p u x => acl_set p u x
  | PAclDefault p u x => acl_set_default p u x
  | PAclRemove p u => acl_remove p u
  | PAclRemoveAll p => acl_remove_all p
  | PAclRecursive p u x => acl_set_recursive p u x
  | PLuksFormat d p c s => luks_format_advanced d p c s
  | PLuksOpen d n p => luks_open d n p
  | PLuksClose n => luks_close n
  | PLuksChange d o n => luks_change_password d o n
  | PAuditClear => audit_clear_log
  end.

(** The codes common.h defines. *)
Definition error_codes : list Z :=
  [SUCCESS; ERROR_GENERIC; ERROR_NOT_FOUND; ERROR_PERMISSION; ERROR_INVALID_PARAM; ERROR_SYSTEM_CALL].

Ltac listed := apply (bool_decide_unpack _); exact I.

(** The names an operation joins in a buffer fit in it. *)
Definition names_fit (p : privileged) : bool :=
  match p with
  | PRaidCreate _ _ devs => fits_buffer "" devs
  | PVgCreate _ pvs => fits_buffer "" pvs
  | _ => true
  end.

(** [c] is defined on every machine, and its result satisfies [P]. *)
Definition gives {A} (P : A -> Prop) (c : M W A) : Prop := triple (fun _ => True) c (fun a _ => P a).

Lemma gives_ret {A} (P : A -> Prop) (a : A) : P a -> gives P (ret a).
Proof. intros Ha. by apply triple_ret. Qed.
Lemma gives_bind {A B} (P : A -> Prop) (Q : B -> Prop) (c : M W A) (k : A -> M W B) :
  gives P c -> (forall a, P a -> gives Q (k a)) -> gives Q (bind c k).
Proof.
  intros Hc Hk. eapply triple_bind; [exact Hc|]. intros a w Ha. by apply (Hk a Ha w).
Qed.
Lemma gives_safe {A} (c : M W A) : safe c -> gives (fun _ => True) c.
Proof. intros Hc w _. destruct (Hc w) as (a & w' & E). eauto. Qed.
Lemma gives_eff {A} (P : A -> Prop) (a : A) (f : W -> W) : P a -> gives P (fun w => Some (a, f w)).
Proof. intros Ha w _. eauto. Qed.
Lemma gives_forM {A} (f : A -> M W unit) l : (forall x, safe (f x)) -> gives (fun _ => True) (forM f l).
Proof. intros Hf. apply triple_forM. intros x _. by apply gives_safe. Qed.

Lemma coded_execute cmd size : gives (fun ro => ro.1 ∈ error_codes) (execute_command cmd size).
Proof.
  intros w _. destruct (execute_command_safe cmd size w) as ([r o] & w' & E). exists (r, o), w'.
  split; [done|]. destruct (execute_command_code _ _ _ _ _ _ E) as [-> | ->]; listed.
Qed.
Lemma coded_exec cmd : gives (fun ro => ro.1 ∈ error_codes) (exec cmd).
Proof. eapply gives_bind; [apply coded_execute|]. intros ro Hr. by apply gives_ret. Qed.
Lemma coded_raw cmd : gives (fun ro => ro.1 ∈ error_codes /\ is_Some ro.2) (exec_raw cmd).
Proof.
  intros w _. destruct (exec_raw_started cmd w (popen_starts cmd w)) as (r & o & w' & E).
  exists (r, Some o), w'. split; [done|]. split; [|by eexists]. unfold exec_raw in E.
  destruct (execute_command_code _ _ _ _ _ _ E) as [-> | ->]; listed.
Qed.
Lemma coded_logged cmd : gives (fun ro => ro.1 ∈ error_codes) (exec_logged cmd).
Proof. eapply gives_bind; [apply coded_raw|]. intros [r out] [Hr [text Ht]].
  simpl in Ht. rewrite Ht. by apply gives_ret. Qed.
Lemma coded_checked cmd : gives (fun r => r ∈ error_codes) (checked cmd).
Proof.
  eapply gives_bind; [apply coded_logged|]. intros ro Hr. case_match; apply gives_ret; [done|listed].
Qed.

Lemma coded_strcat buf s : (String.length buf + String.length s < MAX_COMMAND)%nat ->
  gives (fun b => b = buf +:+ s) (strcat buf s).
Proof. intros Hl%Nat.ltb_lt w _. exists (buf +:+ s), w. by rewrite strcat_spec, Hl. Qed.
Lemma coded_join devs : forall buf, fits_buffer buf devs = true ->
  gives (fun j => forall z, j = inr z -> z ∈ error_codes) (join_devices buf devs).
Proof.
  induction devs as [|d devs IH]; intros buf Hf; [by apply gives_ret|].
  eapply gives_bind; [apply gives_safe, safe_reads|]. intros ok _.
  case_match; [apply gives_ret; intros z [= <-]; listed|].
  eapply gives_bind; [apply coded_strcat; by eapply fits_first|]. intros buf1 ->.
  destruct devs as [|d2 devs]; [by apply gives_ret|].
  eapply gives_bind; [apply coded_strcat; by eapply fits_blank|]. intros buf2 ->.
  apply IH. by rewrite <- fits_cons.
Qed.
Lemma coded_pvs pvs : forall buf, fits_buffer buf pvs = true -> gives (fun _ => True) (join_pvs buf pvs).
Proof.
  induction pvs as [|p pvs IH]; intros buf Hf; [by apply gives_ret|].
  eapply gives_bind; [apply coded_strcat; by eapply fits_first|]. intros buf1 ->.
  destruct pvs as [|p2 pvs]; [by apply gives_ret|].
  eapply gives_bind; [apply coded_strcat; by eapply fits_blank|]. intros buf2 ->.
  apply IH. by rewrite <- fits_cons.
Qed.

Lemma coded_pass pass cmd : gives (fun r => r ∈ error_codes) (with_pass_file pass cmd).
Proof.
  eapply gives_bind; [apply gives_safe, safe_call|]. intros [f|] _; [|apply gives_ret; listed].
  eapply gives_bind; [apply gives_safe, safe_call|]. intros _ _.
  eapply gives_bind; [apply coded_raw|]. intros [r out] [Hr [text Ht]]. simpl in Ht. rewrite Ht.
  eapply gives_bind; [apply gives_safe, safe_call|]. intros _ _. case_match; apply gives_ret; [done|listed].
Qed.

Ltac head_of t := match t with ?f _ => head_of f | _ => t end.
Ltac coded_step :=
  first
    [ apply coded_checked | apply coded_pass | apply gives_eff; listed
    | apply gives_ret; first [assumption | listed | by eauto]
    | eapply gives_bind;
        [first [apply coded_exec | apply coded_logged | apply coded_execute
               | apply coded_join; assumption | apply coded_pvs; assumption
               | apply gives_forM; intros; safety
               | apply gives_safe; safety ]
        |intros ? ?]
    | progress case_match
    | match goal with |- gives _ ?c => let h := head_of c in unfold h end ].

(** On a machine that can start commands, every operation that changes
    the machine returns, and returns one of the codes common.h defines, for
    all arguments and whatever the commands it runs print and return, as long
    as the names it joins fit in its buffer. *)
Theorem operation_codes (p : privileged) (w : W) :
  names_fit p = true -> exists r w', perform p w = Some (r, w') /\ r ∈ error_codes.
Proof.
  intros Hp. cut (gives (fun r => r ∈ error_codes) (perform p)); [intros Hg; by apply (Hg w)|].
  destruct p; cbn [perform names_fit] in *; repeat coded_step.
Qed.

(** Every one of them starts with the test for root. *)
Lemma root_first (c : M W Z) (w : W) : is_root w = false ->
  (let! root := reads is_root in if negb root then ret ERROR_PERMISSION else c) w = Some (ERROR_PERMISSION, w).
Proof. intros Hroot. unfold bind, reads. by rewrite Hroot. Qed.

(** C27. None of the operations that change arrays, volumes, file systems,
    swap, access lists, encrypted volumes or the audit log does anything for a
    caller that is not root: each returns ERROR_PERMISSION and leaves the
    machine exactly as it was, whatever its arguments. *)
Theorem unprivileged_refused (p : privileged) (w : W) :
  is_root w = false -> perform p w = Some (ERROR_PERMISSION, w).
Proof. intros Hroot. destruct p; by apply root_first. Qed.
End Privileges.

Lemma unprivileged_refused_witness :
  perform (PFsCreate "/dev/sda" FS_TYPE_EXT4 None) (sim_as_user blank 1000) =
    Some (ERROR_PERMISSION, sim_as_user blank 1000).
Proof. apply (unprivileged_refused (PFsCreate "/dev/sda" FS_TYPE_EXT4 None)). reflexivity. Defined.

Lemma operation_codes_witness :
  exists r w', perform (PRaidCreate "/dev/md0" 1 ["/dev/sdb"; "/dev/sdc"]) blank = Some (r, w') /\ r ∈ error_codes.
Proof. apply (operation_codes (PRaidCreate "/dev/md0" 1 ["/dev/sdb"; "/dev/sdc"]) blank). reflexivity. Defined.

(** ** The words of a command *)

(** The commands of two words, and how many words must follow. *)
Definition grammar : list (string * string * nat) :=
  [("monitor", "stats", 1); ("monitor", "start", 0); ("monitor", "stop", 0);
   ("backup", "create", 3); ("backup", "list", 0); ("backup", "restore", 2); ("backup", "verify", 1);
   ("perf", "benchmark", 2); ("perf", "tune", 1); ("perf", "recommend", 2);
   ("raid", "create", 3); ("raid", "status", 1);
   ("lvm", "pv-create", 1); ("lvm", "vg-create", 2); ("lvm", "lv-create", 3);
   ("fs", "create", 2); ("fs", "mount", 3); ("fs", "unmount", 1); ("fs", "check", 2);
   ("memory", "status", 0)]%nat.
Definition single_words : list string := ["status"; "help"; "--help"; "-h"].

Definition accepted (args : list string) : bool :=
  match args with
  | [] => false
  | c :: rest =>
      bool_decide (c ∈ single_words) ||
      match rest with
      | [] => false
      | s :: more =>
          existsb (fun g => streq c g.1.1 && streq s g.1.2 && (g.2 <=? length more)%nat) grammar
      end
  end.

Section Words.
Context {W : Type} `{Shell W} `{Files W} `{Clock W} `{Procs W} `{Db W} `{HistDb W} `{Mounts W} `{Bench W}
  `{Net W}.

(** A command line that is not one of the twenty commands of two words
    with the words it needs, "status" or a request for help runs nothing: the
    program returns 1 with nothing printed on the standard output and nothing
    changed.  Without any word it prints the help and returns 1.  The help,
    which "help" prints with code 0, names every one of the commands. *)
Theorem cli_rejects stdin fuel prog args (w : W) :
  main stdin fuel prog [] w = Some (Some (1, show_help prog), w) /\
  (args <> [] -> accepted args = false -> main stdin fuel prog args w = Some (Some (1, ""), w)) /\
  main stdin fuel prog ["help"] w = Some (Some (0, show_help prog), w) /\
  Forall (fun g => contains (show_help prog) ("  " +:+ g.1.1 +:+ " " +:+ g.1.2) = true) grammar.
Proof.
  split; [done|]. split; [|split; [done|]].
  - intros Hne Hacc. destruct args as [|c rest]; [done|]. unfold accepted in Hacc.
    apply orb_false_iff in Hacc as [Hs Hg]. apply bool_decide_eq_false_1 in Hs.
    assert (forall x, x ∈ single_words -> streq c x = false) as Hw.
    { intros x Hx. apply streq_ne. by intros ->. }
    unfold main. rewrite (Hw "status"), (Hw "help"), (Hw "--help"), (Hw "-h") by (apply (bool_decide_unpack _); exact I).
    cbn [orb].
    repeat (let E := fresh "E" in destruct (streq c _) eqn:E at 1;
      [apply streq_spec in E; subst c; clear Hw Hs Hne|]); [..|done];
      (destruct rest as [|s more]; [done|]); simpl in Hg.
    all: unfold main_monitor, main_backup, main_perf, main_raid, main_lvm, main_fs, main_memory.
    all: repeat (let E := fresh "E" in destruct (streq s _) eqn:E at 1;
      [apply streq_spec in E; subst s; (destruct more as [|? [|? [|? more]]]); simpl in Hg; done|]); done.
  - apply Forall_forall. intros g Hg. apply contains_app_r, contains_app_l.
    revert g Hg. apply Forall_forall, (bool_decide_unpack _). vm_compute. exact I.
Qed.
End Words.

(** ** Names of file systems *)

Section Types.
Context {W : Type} `{Shell W} `{Files W} `{Clock W} `{Procs W} `{Db W} `{HistDb W} `{Mounts W} `{Bench W}
  `{Net W} `{!ShellTrace W} `{!ShellStarts W}.

Lemma type_round_trip t : t <> FS_TYPE_UNKNOWN -> fs_string_to_type (fs_type_to_string t) = t.
Proof. by destruct t. Qed.

Lemma parse_agrees s : fs_string_to_type s <> FS_TYPE_UNKNOWN -> parse_fs_type s = fs_string_to_type s.
Proof. unfold fs_string_to_type, parse_fs_type. by repeat case_match. Qed.

Lemma parse_unknown s : fs_string_to_type s = FS_TYPE_UNKNOWN -> parse_fs_type s = FS_TYPE_EXT4.
Proof. unfold fs_string_to_type, parse_fs_type. by repeat case_match. Qed.

Lemma done_run (c : M W Z) w r w' : c w = Some (r, w') -> done_ c w = Some (Some (r, ""), w').
Proof. intros E. unfold done_, shows, silent, bind. by rewrite E. Qed.

(** "fs create" on the command line, for root and an existing device: a
    known type runs the mkfs of that type, once.  A name that is no known type,
    which [fs_string_to_type] reports as unknown and [fs_create] would refuse
    with nothing run, formats the device as ext4. *)
Theorem cli_formats_unknown_as_ext4 stdin fuel prog device type_str opts (w : W) :
  is_root w = true -> file_exists device w = true ->
  let label := Some (default "storage_vol" (last_option "--label=" opts)) in
  let ran t fs_cmd :=
    mkfs_cmd t = Some fs_cmd /\
    exists r w', main stdin fuel prog ("fs" :: "create" :: device :: type_str :: opts) w = Some (Some (r, ""), w') /\
      trace w' = trace w ++ [mkfs_line fs_cmd device label] in
  (fs_string_to_type type_str <> FS_TYPE_UNKNOWN -> exists fs_cmd, ran (fs_string_to_type type_str) fs_cmd) /\
  (fs_string_to_type type_str = FS_TYPE_UNKNOWN ->
    ran FS_TYPE_EXT4 "mkfs.ext4 -F" /\
    fs_create device (fs_string_to_type type_str) label w = Some (ERROR_INVALID_PARAM, w)).
Proof.
  intros Hroot Hex label ran.
  assert (forall fs_cmd, mkfs_cmd (parse_fs_type type_str) = Some fs_cmd ->
    exists r w', main stdin fuel prog ("fs" :: "create" :: device :: type_str :: opts) w = Some (Some (r, ""), w') /\
      trace w' = trace w ++ [mkfs_line fs_cmd device label]) as Hrun.
  { intros fs_cmd Hc. destruct (checked_runs (mkfs_line fs_cmd device label) w) as (r & w' & E & Ht & _).
    exists r, w'. split; [|done].
    change (done_ (fs_create device (parse_fs_type type_str) label) w = Some (Some (r, ""), w')).
    apply done_run. unfold fs_create. unfold bind at 1, reads at 1. rewrite Hroot. cbn [negb].
    unfold bind at 1, reads. rewrite Hex. cbn [negb]. by rewrite Hc. }
  split.
  - intros Hk. rewrite <- (parse_agrees _ Hk).
    destruct (mkfs_cmd (parse_fs_type type_str)) as [c|] eqn:Ec; [by exists c; split; auto|].
    rewrite (parse_agrees _ Hk) in Ec. by destruct (fs_string_to_type type_str).
  - intros Hu. split.
    + split; [done|]. apply Hrun. by rewrite parse_unknown.
    + rewrite Hu. unfold fs_create. unfold bind at 1, reads at 1. rewrite Hroot. cbn [negb].
      unfold bind, reads. by rewrite Hex.
Qed.
End Types.

(** ** A machine without a daemon, databases in memory or a disk to measure *)

#[global] Instance sim_db : Db sim := {
  sqlite_open _ w := (false, w); sqlite_schema w := (false, w); sqlite_close w := w;
  db_insert _ w := w; db_select _ := None; db_find _ _ := None; db_delete _ w := w;
  malloc _ w := (true, w); pthread_create w := (true, w); pthread_join w := w; rows _ := [];
}.

#[global] Instance sim_bench : Bench sim := {
  open_rd _ _ w := (-1, w); open_wr _ _ w := (-1, w); aligned_alloc _ w := (false, w);
  clock_gettime w := ((sim_clock w, 0), w); read_fd _ _ w := (0, w); write_buf _ _ w := (-1, w);
  fsync _ w := w; close_fd _ w := w;
}.

#[global] Instance sim_hist_off : HistDb sim := {
  h_open _ w := (false, w); h_schema w := (false, w); h_close w := w; h_insert _ w := (false, w);
  h_select _ _ _ _ := None; h_delete_before _ w := (false, w); opendir _ _ := true;
}.

#[global] Instance sim_net : Net sim := {
  socket w := (-1, w); sock_bind _ _ w := (-1, w); listen _ w := (-1, w); connect _ _ w := (-1, w);
  accept _ w := (-1, w); select _ w := (None, w); sock_read _ _ w := ([], w); sock_write _ _ w := (-1, w);
  close _ w := w; shm_open w := (-1, w); ftruncate _ w := (-1, w); mmap w := (None, w); shm_unlink w := w;
  sem_open w := (false, w); sem_close w := w; sem_wait w := (-1, w); sem_post w := (-1, w);
  ftok _ := 0; msgget _ w := (-1, w); msgsnd _ _ _ w := (-1, w); msgrcv _ _ w := (None, w);
  msgctl_rmid _ w := w; is_open _ _ := false; mq _ _ := [];
}.

Definition cli_machine : sim := sim_put_nodes blank {["/dev/sdb" := KOther]}.

Lemma cli_rejects_witness :
  main (fun _ => None) 0 "storage-cli" ["fs"; "create"; "/dev/sdb"] cli_machine = Some (Some (1, ""), cli_machine).
Proof.
  refine (proj1 (proj2 (cli_rejects (fun _ => None) 0 "storage-cli" ["fs"; "create"; "/dev/sdb"] cli_machine)) _ _).
  - intros E. discriminate E.
  - reflexivity.
Defined.

Lemma cli_formats_unknown_as_ext4_witness :
  (mkfs_cmd FS_TYPE_EXT4 = Some "mkfs.ext4 -F" /\
   exists r w', main (fun _ => None) 0 "storage-cli" ["fs"; "create"; "/dev/sdb"; "ntfs"] cli_machine = Some (Some (r, ""), w') /\
     trace w' = trace cli_machine ++ [mkfs_line "mkfs.ext4 -F" "/dev/sdb" (Some "storage_vol")]) /\
  fs_create "/dev/sdb" FS_TYPE_UNKNOWN (Some "storage_vol") cli_machine = Some (ERROR_INVALID_PARAM, cli_machine).
Proof.
  refine (proj2 (cli_formats_unknown_as_ext4 (fun _ => None) 0 "storage-cli" "/dev/sdb" "ntfs" [] cli_machine _ _) _);
    vm_compute; reflexivity.
Defined.
