(* ===== verification/Plans.v ===== *)
(** * What every management operation runs, as a table

    The reference for the operations of the managers: each is a plan, the
    checks it makes with the code of each refusal, then the steps it takes,
    shell commands written as their words.  [follow] is how a plan is carried
    out.  The operations of src/raid_manager.c, src/lvm_manager.c,
    src/filesystem_ops.c, src/memory_manager.c and src/security_manager.c are
    shown to carry out their plans, and the command line of
    cli/storage_cli.c to be a way to ask for them. *)

From stdpp Require Import base list gmap strings pretty.
From Stdlib Require Import Ascii ZArith Lia.
From S2P Require Import Prelude CString CFormat CFloat Sys SimOS Ipc Backup Raid Lvm Fs Memory Security Perf.
From S2P Require Import Monitor RaidProps FsProps MemoryProps SecurityProps Cli CliProps.

(** ** Plans *)

(** The words of a command; what is longer than the buffer is cut. *)
Definition shell_line (words : list string) : string := str_take (MAX_COMMAND - 1) (spaced words).

(** A step of an operation: a command that must succeed, one whose result is
    not looked at, and three calls that cannot make the operation fail. *)
Inductive step :=
  | Must (words : list string)
  | Try (words : list string)
  | EnsureDir (path : string)
  | SetMode (path : string) (mode : Z)
  | Pause (seconds : Z).

Record plan := mk_plan { checks : list (bool * Z); steps : list step }.

Definition step_words (s : step) : option (list string) :=
  match s with Must ws | Try ws => Some ws | _ => None end.
Definition commands (l : list step) : list string := shell_line <$> omap step_words l.

(** The code of the first check that does not hold. *)
Fixpoint refusal (l : list (bool * Z)) : option Z :=
  match l with
  | [] => None
  | (ok, e) :: rest => if ok then refusal rest else Some e
  end.

Section Following.
Context {W : Type} `{Shell W} `{Files W} `{Procs W} `{Mounts W}.

(** The state an operation that cannot fail leaves. *)
Definition after {A} (c : M W A) (w : W) : W := match c w with Some (_, w') => w' | None => w end.

(** Whether the step allows to go on, and the state it leaves. *)
Definition do_step (s : step) (w : W) : bool * W :=
  match s with
  | Must ws =>
      match exec (shell_line ws) w with
      | Some (ro, w') => (ro.1 =? SUCCESS, w')
      | None => (false, w)
      end
  | Try ws => (true, after (exec_quiet (shell_line ws)) w)
  | EnsureDir path => (true, after (fs_create_mount_point path) w)
  | SetMode path mode => (true, (chmod path mode w).2)
  | Pause n => (true, sleep n w)
  end.

Fixpoint do_steps (l : list step) (w : W) : Z * W :=
  match l with
  | [] => (SUCCESS, w)
  | s :: rest =>
      let '(ok, w') := do_step s w in
      if ok then do_steps rest w' else (ERROR_SYSTEM_CALL, w')
  end.

(** A refused operation changes nothing. *)
Definition follow (p : plan) (w : W) : Z * W :=
  match refusal (checks p) with
  | Some e => (e, w)
  | None => do_steps (steps p) w
  end.

(** ** The table *)

Definition is_offline (device : string) (w : W) : bool :=
  match mounts w with
  | Some l => forallb (fun m => negb (streq (mnt_fsname m) device) && negb (streq (mnt_dir m) device)) l
  | None => false
  end.

(** A named option: what is absent or empty is left out. *)
Definition given (o : option string) : option string :=
  match o with Some "" => None | _ => o end.

Definition run_one (words : list string) : list step := [Must (words ++ ["2>&1"])].
Definition root_check (w : W) : bool * Z := (is_root w, ERROR_PERMISSION).
Definition exists_check (path : string) (w : W) : bool * Z := (file_exists path w, ERROR_NOT_FOUND).

Definition lv_path (vg lv : string) : string := "/dev/" +:+ vg +:+ "/" +:+ lv.
Definition megabytes (size : Z) : string := pretty size +:+ "M".
Definition acl_spec (user perms : string) : string := "u:" +:+ user +:+ ":" +:+ perms.

Definition mkfs_words (type : fs_type_t) : list string :=
  match type with
  | FS_TYPE_EXT4 => ["mkfs.ext4"; "-F"]
  | FS_TYPE_XFS => ["mkfs.xfs"; "-f"]
  | FS_TYPE_BTRFS => ["mkfs.btrfs"; "-f"]
  | FS_TYPE_UNKNOWN => []
  end.
Definition label_words (label : option string) : list string :=
  match given label with Some l => ["-L"; quoted l] | None => [] end.

(** The options of the advanced forms are collected in a buffer of 256 bytes,
    each followed by a blank. *)
Definition option_text (opts : list (list string)) : string :=
  str_take 255 (str_concat ((fun ws => spaced ws +:+ " ") <$> opts)).
Definition int_option (words : string -> list string) (v : Z) : list (list string) :=
  if 0 <? v then [words (pretty v)] else [].
Definition label_option (label : option string) : list (list string) :=
  match given label with Some l => [["-L"; quoted l]] | None => [] end.

(** [None]: the operations that pass a secret in a file, ask pvs first, or
    empty the audit log, which have theorems of their own. *)
Definition plan_of (p : privileged) (w : W) : option plan :=
  let root := root_check w in
  match p with
  | PRaidCreate name level devs =>
      Some (mk_plan
        ([root; (bool_decide (2 <= length devs)%nat, ERROR_INVALID_PARAM);
          (bool_decide (level ∈ [0; 1; 5; 10]), ERROR_INVALID_PARAM)] ++
         ((fun d => exists_check d w) <$> devs))
        (((fun d => Try ["mdadm"; "--zero-superblock"; d; "2>/dev/null"]) <$> devs) ++
         [Must (["mdadm"; "--create"; name; "--level=" +:+ pretty level;
                 "--raid-devices=" +:+ pretty (Z.of_nat (length devs))] ++
                devs ++ ["--force"; "--run"; "2>&1"]); Pause 1]))
  | PRaidAdd name dev =>
      Some (mk_plan [root; exists_check name w; exists_check dev w]
        [Try ["mdadm"; "--zero-superblock"; dev; "2>/dev/null"]; Must ["mdadm"; "--add"; name; dev; "2>&1"]])
  | PRaidFail name dev => Some (mk_plan [root] (run_one ["mdadm"; "--fail"; name; dev]))
  | PRaidRemove name dev => Some (mk_plan [root] (run_one ["mdadm"; "--remove"; name; dev]))
  | PRaidStop name => Some (mk_plan [root] (run_one ["mdadm"; "--stop"; name]))
  | PPvCreate dev => Some (mk_plan [root; exists_check dev w] (run_one ["pvcreate"; dev]))
  | PVgCreate vg pvs =>
      Some (mk_plan [root; (bool_decide (pvs <> []), ERROR_INVALID_PARAM)] (run_one (["vgcreate"; vg] ++ pvs)))
  | PVgExtend vg pv => Some (mk_plan [root] (run_one ["vgextend"; vg; pv]))
  | PVgRemove vg => Some (mk_plan [root] (run_one ["vgremove"; "-f"; vg]))
  | PLvCreate vg lv size =>
      Some (mk_plan [root; (bool_decide (size <> 0), ERROR_INVALID_PARAM)]
        (run_one ["lvcreate"; "-L"; megabytes size; "-n"; lv; vg]))
  | PLvExtend vg lv size =>
      Some (mk_plan [root] (run_one ["lvextend"; "-L"; "+" +:+ megabytes size; lv_path vg lv]))
  | PLvRemove vg lv => Some (mk_plan [root] (run_one ["lvremove"; "-f"; lv_path vg lv]))
  | PSnapCreate vg origin snap size =>
      Some (mk_plan [root] (run_one ["lvcreate"; "-L"; megabytes size; "-s"; "-n"; snap; lv_path vg origin]))
  | PSnapMerge vg snap => Some (mk_plan [root] (run_one ["lvconvert"; "--merge"; lv_path vg snap]))
  | PFsCreate dev type label =>
      Some (mk_plan [root; exists_check dev w; (bool_decide (type <> FS_TYPE_UNKNOWN), ERROR_INVALID_PARAM)]
        (run_one (mkfs_words type ++ label_words label ++ [dev])))
  | PFsExt4 dev block ratio label =>
      Some (mk_plan [root]
        (run_one ["mkfs.ext4"; "-F";
                  option_text (int_option (fun n => ["-b"; n]) block ++ int_option (fun n => ["-i"; n]) ratio ++
                               label_option label); dev]))
  | PFsXfs dev block label =>
      Some (mk_plan [root]
        (run_one ["mkfs.xfs"; "-f";
                  option_text (int_option (fun n => ["-b"; "size=" +:+ n]) block ++ label_option label); dev]))
  | PFsMount dev mp type options =>
      Some (mk_plan [root; exists_check dev w]
        (EnsureDir mp ::
         run_one (["mount"; "-t"; fs_type_to_string type] ++
                  match given options with Some o => ["-o"; o] | None => [] end ++ [dev; mp])))
  | PFsUnmount mp force =>
      Some (mk_plan [root] (run_one (["umount"] ++ (if force then ["-f"] else []) ++ [mp])))
  | PFsCheck dev type =>
      Some (mk_plan [root; (is_offline dev w, ERROR_GENERIC);
                     (bool_decide (type = FS_TYPE_EXT4 \/ type = FS_TYPE_XFS), ERROR_INVALID_PARAM)]
        (run_one (match type with FS_TYPE_EXT4 => ["e2fsck"; "-n"; dev] | _ => ["xfs_repair"; "-n"; dev] end)))
  | PFsRepair dev type auto =>
      Some (mk_plan [root; (is_offline dev w, ERROR_GENERIC);
                     (bool_decide (type = FS_TYPE_EXT4 \/ type = FS_TYPE_XFS), ERROR_INVALID_PARAM)]
        (run_one (match type with
                  | FS_TYPE_EXT4 => ["e2fsck"; if auto then "-y" else "-p"; dev]
                  | _ => ["xfs_repair"; dev] end)))
  | PFsResize dev type size =>
      Some (mk_plan [root; (bool_decide (type = FS_TYPE_EXT4), ERROR_INVALID_PARAM)]
        (run_one (["resize2fs"; dev] ++ if size =? 0 then [] else [megabytes size])))
  | PFsResizeXfs mp => Some (mk_plan [root] (run_one ["xfs_growfs"; mp]))
  | PSwapCreate path size =>
      Some (mk_plan [root]
        (run_one ["dd"; "if=/dev/zero"; "of=" +:+ path; "bs=1M"; "count=" +:+ pretty size] ++ [SetMode path 384]))
  | PSwapMake dev => Some (mk_plan [root] (run_one ["mkswap"; dev]))
  | PSwapEnable path prio =>
      Some (mk_plan [root] (run_one (["swapon"] ++ (if 0 <=? prio then ["-p"; pretty prio] else []) ++ [path])))
  | PSwapDisable path => Some (mk_plan [root] (run_one ["swapoff"; path]))
  | PAclSet path user perms =>
      Some (mk_plan [root; exists_check path w] (run_one ["setfacl"; "-m"; acl_spec user perms; path]))
  | PAclDefault path user perms =>
      Some (mk_plan [root] (run_one ["setfacl"; "-d"; "-m"; acl_spec user perms; path]))
  | PAclRemove path user => Some (mk_plan [root] (run_one ["setfacl"; "-x"; "u:" +:+ user; path]))
  | PAclRemoveAll path => Some (mk_plan [root] (run_one ["setfacl"; "-b"; path]))
  | PAclRecursive path user perms =>
      Some (mk_plan [root] (run_one ["setfacl"; "-R"; "-m"; acl_spec user perms; path]))
  | PLuksClose name => Some (mk_plan [root] (run_one ["cryptsetup"; "luksClose"; name]))
  | PPvRemove _ | PLuksFormat _ _ _ _ | PLuksOpen _ _ _ | PLuksChange _ _ _ | PAuditClear => None
  end.
End Following.

(** ** The operations carry out their plans *)

Section Refinement.
Context {W : Type} `{Shell W} `{!ShellStarts W} `{Files W} `{Procs W} `{Mounts W} `{Secure W}.

Lemma logged_exec cmd (w : W) : exec_logged cmd w = exec cmd w.
Proof.
  destruct (exec_raw_started cmd w (popen_starts cmd w)) as (r & o & w' & E).
  unfold exec_logged, exec, bind. by rewrite E.
Qed.

(** The ways the managers run a command that must succeed. *)
Lemma must_step ws k rest (w : W) :
  (forall w', k w' = Some (do_steps rest w')) ->
  (let! ro := exec (shell_line ws) in
   if negb (ro.1 =? SUCCESS) then ret ERROR_SYSTEM_CALL else k) w = Some (do_steps (Must ws :: rest) w).
Proof.
  intros Hk. simpl. destruct (exec_safe (shell_line ws) w) as (ro & w' & E). rewrite (bind_step E), E.
  destruct (ro.1 =? SUCCESS); [apply Hk|done].
Qed.

Lemma exec_result cmd (w : W) ro w' :
  exec cmd w = Some (ro, w') -> ro.1 = if ro.1 =? SUCCESS then SUCCESS else ERROR_SYSTEM_CALL.
Proof.
  unfold exec, exec_raw. intros ([r o] & w1 & E & E2)%bind_Some. injection E2 as <- _.
  by destruct (execute_command_code _ _ _ _ _ _ E) as [-> | ->].
Qed.

Lemma must_plain ws (w : W) :
  (let! ro := exec (shell_line ws) in ret ro.1) w = Some (do_steps [Must ws] w).
Proof.
  simpl. destruct (exec_safe (shell_line ws) w) as (ro & w' & E). rewrite (bind_step E), E.
  unfold ret. rewrite (exec_result _ _ _ _ E) at 1. by destruct (ro.1 =? SUCCESS).
Qed.

Lemma bind_ext {A B} (c d : M W A) (k : A -> M W B) (w : W) : c w = d w -> bind c k w = bind d k w.
Proof. unfold bind. by intros ->. Qed.

Lemma must_checked ws (w : W) : checked (shell_line ws) w = Some (do_steps [Must ws] w).
Proof.
  unfold checked. rewrite (bind_ext _ _ _ _ (logged_exec _ _)), <- must_plain.
  destruct (exec_safe (shell_line ws) w) as (ro & w' & E). rewrite !(bind_step E).
  destruct (Z.eqb_spec ro.1 SUCCESS) as [-> |]; done.
Qed.

Lemma must_plain_logged ws (w : W) : plain_logged (shell_line ws) w = Some (do_steps [Must ws] w).
Proof. unfold plain_logged. by rewrite (bind_ext _ _ _ _ (logged_exec _ _)), must_plain. Qed.
Lemma must_or_error ws (w : W) : or_error (shell_line ws) w = Some (do_steps [Must ws] w).
Proof. by apply must_step. Qed.
Lemma must_or_logged ws (w : W) : or_logged (shell_line ws) w = Some (do_steps [Must ws] w).
Proof. unfold or_logged. rewrite (bind_ext _ _ _ _ (logged_exec _ _)). by apply must_step. Qed.
Lemma must_system_error ws k rest (w : W) : (forall w', k w' = Some (do_steps rest w')) ->
  or_system_error (shell_line ws) k w = Some (do_steps (Must ws :: rest) w).
Proof. apply must_step. Qed.
Lemma must_logged_error ws k rest (w : W) : (forall w', k w' = Some (do_steps rest w')) ->
  or_logged_error (shell_line ws) k w = Some (do_steps (Must ws :: rest) w).
Proof. unfold or_logged_error. rewrite (bind_ext _ _ _ _ (logged_exec _ _)). apply must_step. Qed.

Lemma after_safe {A} (c : M W A) (w : W) : safe c -> exists a, c w = Some (a, after c w).
Proof. intros Hc. destruct (Hc w) as (a & w' & E). exists a. unfold after. by rewrite E. Qed.

Lemma try_step ws k rest (w : W) : (forall w', k w' = Some (do_steps rest w')) ->
  (exec_quiet (shell_line ws) ;;! k) w = Some (do_steps (Try ws :: rest) w).
Proof.
  intros Hk. destruct (after_safe (exec_quiet (shell_line ws)) w (exec_quiet_safe _)) as [a E].
  rewrite (bind_step E). apply Hk.
Qed.

Lemma mount_point_safe path : safe (fs_create_mount_point (W := W) path).
Proof. unfold fs_create_mount_point. safety. Qed.
Lemma dir_step path k rest (w : W) : (forall w', k w' = Some (do_steps rest w')) ->
  (fs_create_mount_point path ;;! k) w = Some (do_steps (EnsureDir path :: rest) w).
Proof.
  intros Hk. destruct (after_safe (fs_create_mount_point path) w (mount_point_safe _)) as [a E].
  rewrite (bind_step E). apply Hk.
Qed.

(** A check in the code and in the plan. *)
Lemma check_step ok e cs st (c : M W Z) (w : W) :
  (ok = true -> c w = Some (follow (mk_plan cs st) w)) ->
  (if negb ok then ret e else c) w = Some (follow (mk_plan ((ok, e) :: cs) st) w).
Proof. intros Hc. destruct ok; [by apply Hc|done]. Qed.

Lemma if_check (b ok : bool) e cs st (c : M W Z) (w : W) : b = negb ok ->
  (ok = true -> c w = Some (follow (mk_plan cs st) w)) ->
  (if b then ret e else c) w = Some (follow (mk_plan ((ok, e) :: cs) st) w).
Proof. intros ->. apply check_step. Qed.

Lemma reads_check (f : W -> bool) e cs st (c : M W Z) (w : W) :
  (f w = true -> c w = Some (follow (mk_plan cs st) w)) ->
  (let! b := reads f in if negb b then ret e else c) w = Some (follow (mk_plan ((f w, e) :: cs) st) w).
Proof. apply check_step. Qed.

Lemma one_command (run : string -> M W Z) cmd ws (w : W) :
  (forall ws w, run (shell_line ws) w = Some (do_steps [Must ws] w)) ->
  cmd = shell_line (ws ++ ["2>&1"]) ->
  run cmd w = Some (follow (mk_plan [] (run_one ws)) w).
Proof. intros Hrun ->. apply Hrun. Qed.

(** The text a format gives is the words of the plan. *)
Ltac same_words :=
  unfold shell_line, lv_path, megabytes, acl_spec; cbn [app spaced]; rewrite ?str_app_assoc; reflexivity.
Ltac runs_words :=
  first [ apply (one_command checked); [exact must_checked|same_words]
        | apply (one_command or_error); [exact must_or_error|same_words]
        | apply (one_command or_logged); [exact must_or_logged|same_words] ].
Ltac checks_then tac := repeat (apply reads_check; intros _); tac.

(** *** Arrays *)

Lemma join_devices_plan devs : forall buf (w : W), fits_buffer buf devs = true ->
  join_devices buf devs w =
    Some (match refusal ((fun d => exists_check d w) <$> devs) with
          | Some e => inr e | None => inl (buf +:+ spaced devs) end, w).
Proof.
  induction devs as [|d devs IH]; intros buf w Hf; [by rewrite str_app_nil_r|].
  cbn [join_devices fmap list_fmap refusal exists_check]. unfold exists_check at 1. unfold bind at 1, reads.
  destruct (file_exists d w); [|done]. cbn [negb]. unfold bind at 1. rewrite strcat_spec.
  pose proof (fits_first _ _ _ Hf) as Hl1%Nat.ltb_lt. rewrite Hl1. destruct devs as [|d2 devs]; [done|].
  pose proof (fits_blank _ _ _ _ Hf) as Hl2%Nat.ltb_lt. unfold bind. rewrite strcat_spec.
  change (String.length " ") with 1%nat. rewrite Hl2, IH by (by rewrite <- fits_cons). by rewrite app_blank.
Qed.

Lemma spaced_app l1 l2 : l1 <> [] -> l2 <> [] -> spaced (l1 ++ l2) = spaced l1 +:+ " " +:+ spaced l2.
Proof.
  intros Hn1 Hn2. induction l1 as [|x l1 IH]; [done|]. destruct l1 as [|y l1].
  - destruct l2 as [|z l2]; [done|]. cbn [app spaced]. done.
  - change ((x :: y :: l1) ++ l2) with (x :: y :: (l1 ++ l2)). rewrite !spaced_cons.
    change (y :: (l1 ++ l2)) with ((y :: l1) ++ l2). rewrite IH by done. by rewrite !str_app_assoc.
Qed.

Lemma zero_steps devs k rest : forall w : W, (forall w', k w' = Some (do_steps rest w')) ->
  (forM (fun d => exec_quiet (zero_cmd d) ;;! ret tt) devs ;;! k) w =
    Some (do_steps (((fun d => Try ["mdadm"; "--zero-superblock"; d; "2>/dev/null"]) <$> devs) ++ rest) w).
Proof.
  intros w Hk. revert w. induction devs as [|d devs IH]; intros w; [apply Hk|].
  rewrite fmap_cons, <- app_comm_cons. rewrite <- (try_step _ _ _ _ IH).
  change (shell_line ["mdadm"; "--zero-superblock"; d; "2>/dev/null"]) with (zero_cmd d).
  unfold forM. cbn [foldM]. unfold bind. destruct (exec_quiet _ w) as [[]|]; reflexivity.
Qed.

Lemma create_step name level devs (w : W) : devs <> [] ->
  (let! ro := exec_logged (create_cmd name level (Z.of_nat (length devs)) (spaced devs)) in
   if negb (ro.1 =? SUCCESS) then ret ro.1 else (fun w => Some (SUCCESS, sleep 1 w))) w =
  Some (do_steps
    [Must (["mdadm"; "--create"; name; "--level=" +:+ pretty level;
            "--raid-devices=" +:+ pretty (Z.of_nat (length devs))] ++
           devs ++ ["--force"; "--run"; "2>&1"]); Pause 1] w).
Proof.
  intros Hne. rewrite (bind_ext _ _ _ _ (logged_exec _ _)).
  rewrite <- (must_step _ (fun w => Some (SUCCESS, sleep 1 w))) by done.
  replace (create_cmd name level (Z.of_nat (length devs)) (spaced devs)) with
    (shell_line (["mdadm"; "--create"; name; "--level=" +:+ pretty level;
            "--raid-devices=" +:+ pretty (Z.of_nat (length devs))] ++
           devs ++ ["--force"; "--run"; "2>&1"])).
  - destruct (exec_safe (shell_line (["mdadm"; "--create"; name; "--level=" +:+ pretty level;
            "--raid-devices=" +:+ pretty (Z.of_nat (length devs))] ++
           devs ++ ["--force"; "--run"; "2>&1"])) w) as (ro & w' & E). rewrite !(bind_step E).
    rewrite (exec_result _ _ _ _ E). by destruct (ro.1 =? SUCCESS).
  - unfold shell_line. rewrite !spaced_app by (destruct devs; done). cbn [spaced].
    rewrite !str_app_assoc. reflexivity.
Qed.

Lemma raid_create_plan name level devs (w : W) pl : fits_buffer "" devs = true ->
  plan_of (PRaidCreate name level devs) w = Some pl -> raid_create name level devs w = Some (follow pl w).
Proof.
  intros Hf [= <-]. unfold raid_create. apply reads_check. intros _.
  apply if_check; [apply eq_true_iff_eq; rewrite negb_true_iff, bool_decide_eq_false, Z.ltb_lt; lia|].
  intros Hn%bool_decide_eq_true. apply if_check; [by rewrite level_ok_spec|]. intros _.
  unfold follow. cbn [checks steps]. rewrite (bind_step (join_devices_plan devs "" w Hf)).
  destruct (refusal _) as [e|]; [done|].
  apply zero_steps. intros w'. apply create_step. destruct devs; [simpl in Hn; lia|done].
Qed.

(** *** Volume groups and file systems *)

Lemma join_pvs_plan pvs (w : W) : pvs <> [] -> fits_buffer "" pvs = true ->
  join_pvs "" pvs w = Some (spaced pvs, w).
Proof. destruct pvs as [|x l]; [done|]. intros _ Hf. by rewrite join_pvs_spec, Hf. Qed.

Lemma vg_create_plan vg pvs (w : W) pl : fits_buffer "" pvs = true ->
  plan_of (PVgCreate vg pvs) w = Some pl -> lvm_vg_create vg pvs w = Some (follow pl w).
Proof.
  intros Hf [= <-]. unfold lvm_vg_create. apply reads_check. intros _.
  apply if_check; [destruct pvs; [done|]; apply Z.ltb_ge; simpl; lia|]. intros Hn%bool_decide_eq_true.
  rewrite (bind_step (join_pvs_plan pvs w Hn Hf)). apply (one_command checked); [exact must_checked|].
  destruct pvs as [|x l]; [done|]. unfold shell_line. rewrite spaced_app by done.
  cbn [app]. rewrite !spaced_cons, !str_app_assoc. reflexivity.
Qed.

Lemma has_label_given label : has_label label = given label.
Proof. by destruct label as [[|]|]. Qed.

(** Appending to the options is appending to a text that is cut. *)
Lemma append_opt_cut s f args : append_opt (str_take 255 s) f args = str_take 255 (s +:+ sprintf f args).
Proof.
  unfold append_opt, snprintf. destruct (Nat.le_gt_cases (String.length s) 255) as [Hl|Hl].
  - rewrite (str_take_ge 255 s) by done. rewrite str_take_app_r by done. do 2 f_equal. lia.
  - rewrite (str_take_app_l 255 s) by lia. rewrite str_take_full by lia. simpl. apply str_app_nil_r.
Qed.
Lemma option_text_snoc opts ws :
  option_text (opts ++ [ws]) = str_take 255 (str_concat ((fun ws => spaced ws +:+ " ") <$> opts) +:+ (spaced ws +:+ " ")).
Proof. unfold option_text. rewrite fmap_app, str_concat_app. simpl. by rewrite str_app_nil_r. Qed.

Lemma int_option_text opts f words v :
  (forall n, sprintf f [CInt n] = spaced (words (pretty n)) +:+ " ") ->
  (if 0 <? v then append_opt (option_text opts) f [CInt v] else option_text opts) =
    option_text (opts ++ int_option words v).
Proof.
  intros Hw. unfold int_option. destruct (0 <? v); [|by rewrite app_nil_r].
  rewrite option_text_snoc, <- Hw. apply append_opt_cut.
Qed.
Lemma first_option f args : snprintf 256 f args = append_opt "" f args.
Proof. done. Qed.
Lemma first_option_text f words v :
  (forall n, sprintf f [CInt n] = spaced (words (pretty n)) +:+ " ") ->
  (if 0 <? v then append_opt "" f [CInt v] else "") = option_text (int_option words v).
Proof. apply (int_option_text []). Qed.
Lemma label_option_text opts label :
  match has_label label with
  | Some l => append_opt (option_text opts) ("-L " +:+ quoted "%s" +:+ " ") [CStr l]
  | None => option_text opts
  end = option_text (opts ++ label_option label).
Proof.
  rewrite has_label_given. unfold label_option. destruct (given label) as [l|]; [|by rewrite app_nil_r].
  rewrite option_text_snoc. etransitivity; [apply append_opt_cut|]. do 2 f_equal.
  unfold quoted. cbn [spaced]. rewrite !str_app_assoc, !str_app_cons, !str_app_assoc. reflexivity.
Qed.

Lemma fs_create_plan dev type label (w : W) pl :
  plan_of (PFsCreate dev type label) w = Some pl -> fs_create dev type label w = Some (follow pl w).
Proof.
  intros [= <-]. unfold fs_create. do 2 (apply reads_check; intros _).
  unfold mkfs_line, label_words. rewrite has_label_given.
  destruct type; cbn [mkfs_cmd mkfs_words]; [..|done]; destruct (given label) as [l|];
    (apply (one_command checked); [exact must_checked|]; unfold shell_line, quoted; cbn [app spaced];
     rewrite ?str_app_cons, ?str_app_assoc; reflexivity).
Qed.

Lemma fs_advanced_plans dev block ratio label (w : W) :
  (forall pl, plan_of (PFsExt4 dev block ratio label) w = Some pl ->
     fs_create_ext4_advanced dev block ratio label w = Some (follow pl w)) /\
  (forall pl, plan_of (PFsXfs dev block label) w = Some pl ->
     fs_create_xfs_advanced dev block label w = Some (follow pl w)).
Proof.
  split; intros pl [= <-]; apply reads_check; intros _; cbv zeta.
  - rewrite (first_option_text "-b %d " (fun n => ["-b"; n])) by done.
    rewrite (int_option_text _ "-i %d " (fun n => ["-i"; n]) ratio) by done.
    rewrite label_option_text, <- app_assoc. runs_words.
  - rewrite first_option, (first_option_text "-b size=%d " (fun n => ["-b"; "size=" +:+ n])) by done.
    rewrite label_option_text. runs_words.
Qed.

Lemma fs_mount_plan dev mp type options (w : W) pl :
  plan_of (PFsMount dev mp type options) w = Some pl -> fs_mount dev mp type options w = Some (follow pl w).
Proof.
  intros [= <-]. unfold fs_mount. do 2 (apply reads_check; intros _). apply dir_step. intros w'.
  unfold fs_mount_cmd. rewrite has_label_given. destruct (given options) as [o|].
  - apply (one_command checked _ ["mount"; "-t"; fs_type_to_string type; "-o"; o; dev; mp]); [exact must_checked|same_words].
  - apply (one_command checked _ ["mount"; "-t"; fs_type_to_string type; dev; mp]); [exact must_checked|same_words].
Qed.

Lemma is_offline_mounted dev (w : W) : negb (fs_is_mounted dev w =? 0) = negb (is_offline dev w).
Proof.
  unfold fs_is_mounted, is_offline. destruct (mounts w) as [l|]; [|done]. f_equal.
  induction l as [|m l IH]; [done|]. simpl. unfold mnt_matches at 1.
  destruct (streq (mnt_fsname m) dev); [done|]. destruct (streq (mnt_dir m) dev); [done|]. apply IH.
Qed.

Lemma offline_check dev e cs st (c : M W Z) (w : W) :
  c w = Some (follow (mk_plan cs st) w) ->
  (let! m := reads (fs_is_mounted dev) in if negb (m =? 0) then ret e else c) w =
    Some (follow (mk_plan ((is_offline dev w, e) :: cs) st) w).
Proof. intros Hc. by apply if_check; [apply is_offline_mounted|]. Qed.

Lemma fs_check_repair_plans dev type auto (w : W) :
  (forall pl, plan_of (PFsCheck dev type) w = Some pl -> fs_check dev type w = Some (follow pl w)) /\
  (forall pl, plan_of (PFsRepair dev type auto) w = Some pl -> fs_repair dev type auto w = Some (follow pl w)).
Proof.
  split; intros pl [= <-]; apply reads_check; intros _; apply offline_check; destruct type; try done.
  1,2: apply (one_command plain); [exact must_plain|same_words].
  - destruct auto; (apply (one_command plain_logged); [exact must_plain_logged|same_words]).
  - apply (one_command plain_logged); [exact must_plain_logged|same_words].
Qed.

Lemma fs_resize_plan dev type size (w : W) pl :
  plan_of (PFsResize dev type size) w = Some pl -> fs_resize dev type size w = Some (follow pl w).
Proof.
  intros [= <-]. apply reads_check. intros _. destruct type; try done. destruct (size =? 0); runs_words.
Qed.

(** *** Swap *)

Lemma swap_plans path size prio (w : W) :
  (forall pl, plan_of (PSwapCreate path size) w = Some pl -> swap_create_file path size w = Some (follow pl w)) /\
  (forall pl, plan_of (PSwapMake path) w = Some pl -> swap_make path w = Some (follow pl w)) /\
  (forall pl, plan_of (PSwapEnable path prio) w = Some pl -> swap_enable path prio w = Some (follow pl w)) /\
  (forall pl, plan_of (PSwapDisable path) w = Some pl -> swap_disable path w = Some (follow pl w)).
Proof.
  split_and!; intros pl [= <-]; apply reads_check; intros _.
  - apply (must_system_error ["dd"; "if=/dev/zero"; "of=" +:+ path; "bs=1M"; "count=" +:+ pretty size; "2>&1"]).
    intros w'. unfold bind, call. simpl. by destruct (chmod path 384 w').
  - by apply (must_system_error ["mkswap"; path; "2>&1"]).
  - unfold swapon_cmd. destruct (0 <=? prio).
    + by apply (must_logged_error ["swapon"; "-p"; pretty prio; path; "2>&1"]).
    + by apply (must_logged_error ["swapon"; path; "2>&1"]).
  - by apply (must_system_error ["swapoff"; path; "2>&1"]).
Qed.

Lemma operation_plan p (w : W) pl :
  names_fit p = true -> plan_of p w = Some pl -> perform p w = Some (follow pl w).
Proof.
  intros Hf Hp. destruct p; try discriminate Hp;
    lazymatch goal with
    | |- perform (PRaidCreate _ _ _) _ = _ => exact (raid_create_plan _ _ _ _ _ Hf Hp)
    | |- perform (PVgCreate _ _) _ = _ => exact (vg_create_plan _ _ _ _ Hf Hp)
    | |- perform (PFsCreate _ _ _) _ = _ => exact (fs_create_plan _ _ _ _ _ Hp)
    | |- perform (PFsExt4 _ _ _ _) _ = _ => exact (proj1 (fs_advanced_plans _ _ _ _ _) _ Hp)
    | |- perform (PFsXfs _ _ _) _ = _ => exact (proj2 (fs_advanced_plans _ _ 0 _ _) _ Hp)
    | |- perform (PFsMount _ _ _ _) _ = _ => exact (fs_mount_plan _ _ _ _ _ _ Hp)
    | |- perform (PFsCheck _ _) _ = _ => exact (proj1 (fs_check_repair_plans _ _ true _) _ Hp)
    | |- perform (PFsRepair _ _ _) _ = _ => exact (proj2 (fs_check_repair_plans _ _ _ _) _ Hp)
    | |- perform (PFsResize _ _ _) _ = _ => exact (fs_resize_plan _ _ _ _ _ Hp)
    | |- perform (PSwapCreate _ _) _ = _ => exact (proj1 (swap_plans _ _ 0 _) _ Hp)
    | |- perform (PSwapMake _) _ = _ => exact (proj1 (proj2 (swap_plans _ 0 0 _)) _ Hp)
    | |- perform (PSwapEnable _ _) _ = _ => exact (proj1 (proj2 (proj2 (swap_plans _ 0 _ _))) _ Hp)
    | |- perform (PSwapDisable _) _ = _ => exact (proj2 (proj2 (proj2 (swap_plans _ 0 0 _))) _ Hp)
    | |- _ => injection Hp as <-; cbn [perform]
    end.
  { do 3 (apply reads_check; intros _). apply (try_step ["mdadm"; "--zero-superblock"; dev; "2>/dev/null"]).
    intros w'. apply (must_checked ["mdadm"; "--add"; name; dev; "2>&1"]). }
  all: try (checks_then runs_words).
  - apply reads_check. intros _. apply if_check; [|intros _; runs_words].
    apply eq_true_iff_eq. rewrite negb_true_iff, bool_decide_eq_false, Z.eqb_eq. lia.
  - destruct force; checks_then runs_words.
Qed.
End Refinement.

(** ** Commands that are run, and their words *)

(** A word the shell does not split. *)
Definition clean (word : string) : Prop := word <> "" /\ str_mem " " word = false.

Lemma split_words ws : Forall clean ws -> strtok (spaced ws) " " = ws.
Proof.
  intros Hl. unfold strtok.
  assert (strtok_go " " (spaced ws) = match ws with [] => ("", []) | x :: l => (x, l) end) as ->.
  { induction Hl as [|x l [Hx Hn] Hl IH]; [done|].
    assert (forall c, str_mem c x = true -> str_mem c " " = false) as Hd.
    { intros c Hc. simpl. rewrite orb_false_r. destruct (Ascii.eqb " " c) eqn:E; [|done].
      apply Ascii.eqb_eq in E. congruence. }
    destruct Hl as [|y l [Hy _] _].
    - cbn [spaced]. rewrite <- (str_app_nil_r x) at 1. rewrite strtok_go_app by done. simpl.
      by rewrite str_app_nil_r.
    - rewrite spaced_cons, strtok_go_app by done. generalize dependent (spaced (y :: l)). intros u IH.
      change (" " +:+ u) with (String " " u). cbn [strtok_go]. rewrite IH. cbn [fst snd].
      change (str_mem " " " ") with true. cbn [fst snd]. by rewrite str_app_nil_r, streq_ne. }
  destruct Hl as [|x l [Hx _] _]; [done|]. by rewrite streq_ne.
Qed.

Lemma shell_words ws : Forall clean ws -> (String.length (spaced ws) < MAX_COMMAND)%nat ->
  strtok (shell_line ws) " " = ws.
Proof. intros Hc Hl. unfold shell_line. rewrite str_take_short by done. by apply split_words. Qed.

Section Commands.
Context {W : Type} `{Shell W} `{!ShellStarts W} `{Files W} `{Procs W} `{Mounts W} `{Secure W}
  `{!ShellTrace W} `{!SleepTrace W} `{!SwapLaws W}.

Lemma do_step_trace st (w : W) :
  trace (do_step st w).2 = trace w ++ (shell_line <$> option_list (step_words st)).
Proof.
  destruct st as [ws|ws|path|path mode|n]; simpl; rewrite ?app_nil_r.
  - destruct (exec_runs (shell_line ws) w) as (r & o & w' & E & Ht & _). by rewrite E.
  - destruct (execute_command_runs (shell_line ws) None w) as (r & o & w' & E & Ht & _).
    unfold after, exec_quiet. by rewrite E.
  - unfold after, fs_create_mount_point, bind, reads. destruct (stat path w) as [[]|]; [done..|].
    unfold call. pose proof (mkdir_trace path w) as Ht. destruct (mkdir path w) as [r w1].
    by destruct (r =? 0).
  - apply chmod_trace.
  - apply sleep_trace.
Qed.

(** What carrying out steps runs: their commands in order, all of them when it
    ends well. *)
Lemma do_steps_runs l : forall w : W,
  exists n, trace (do_steps l w).2 = trace w ++ take n (commands l) /\
    ((do_steps l w).1 = SUCCESS /\ (length (commands l) <= n)%nat \/ (do_steps l w).1 = ERROR_SYSTEM_CALL).
Proof.
  induction l as [|s l IH]; intros w; [exists 0%nat; simpl; rewrite app_nil_r; by auto|].
  simpl. pose proof (do_step_trace s w) as Ht. destruct (do_step s w) as [ok w1] eqn:E. simpl in Ht.
  assert (commands (s :: l) = (shell_line <$> option_list (step_words s)) ++ commands l) as ->.
  { unfold commands. simpl. by destruct (step_words s). }
  set (k := shell_line <$> option_list (step_words s)) in *. destruct ok.
  - destruct (IH w1) as (n & Hn & Hr). exists (length k + n)%nat. split.
    + by rewrite Hn, Ht, take_app_add, app_assoc.
    + rewrite length_app. destruct Hr as [[-> ?]| ->]; [left; split; [done|lia]|by right].
  - exists (length k). rewrite take_app_length. simpl. by auto.
Qed.

(** C20. The 33 management operations with a plan carry it out, whatever their
    arguments and the machine, as long as joined names fit their buffer: each
    makes the checks in their order, a failed one giving its code with nothing
    changed; otherwise it runs the plan's commands in their order, all of them
    when it returns SUCCESS, and stops with ERROR_SYSTEM_CALL at the first one
    that must succeed and does not.  The line the shell gets for a command
    splits into exactly the plan's words, when it fits the buffer and none of
    them has a blank. *)
Theorem operation_plans p (w : W) pl :
  names_fit p = true -> plan_of p w = Some pl ->
  exists r w', perform p w = Some (r, w') /\ follow pl w = (r, w') /\
    match refusal (checks pl) with
    | Some e => r = e /\ w' = w
    | None =>
        exists n, trace w' = trace w ++ take n (commands (steps pl)) /\
          (r = SUCCESS /\ (length (commands (steps pl)) <= n)%nat \/ r = ERROR_SYSTEM_CALL)
    end /\
    Forall (fun ws => Forall clean ws -> (String.length (spaced ws) < MAX_COMMAND)%nat ->
              strtok (shell_line ws) " " = ws) (omap step_words (steps pl)).
Proof.
  intros Hf Hp. exists (follow pl w).1, (follow pl w).2. rewrite (operation_plan p w pl Hf Hp).
  split; [by destruct (follow pl w)|]. split; [by destruct (follow pl w)|]. split.
  - unfold follow. destruct (refusal (checks pl)) as [e|]; [done|]. apply do_steps_runs.
  - apply Forall_forall. intros ws _. apply shell_words.
Qed.
End Commands.

(** ** The command line *)

(** The operation a command line asks for: further words are ignored, but for
    the devices of a group or an array and the options of "fs create", whose
    label is the last one given. *)
Inductive asks : list string -> privileged -> Prop :=
  | asks_raid_create array level d ds :
      asks ("raid" :: "create" :: array :: level :: d :: ds) (PRaidCreate array (atoi level) (d :: ds))
  | asks_pv_create d more : asks ("lvm" :: "pv-create" :: d :: more) (PPvCreate d)
  | asks_vg_create vg pv pvs : asks ("lvm" :: "vg-create" :: vg :: pv :: pvs) (PVgCreate vg (pv :: pvs))
  | asks_lv_create vg lv size more :
      asks ("lvm" :: "lv-create" :: vg :: lv :: size :: more) (PLvCreate vg lv (strtoull size))
  | asks_fs_create d type opts :
      asks ("fs" :: "create" :: d :: type :: opts)
        (PFsCreate d (parse_fs_type type) (Some (default "storage_vol" (last_option "--label=" opts))))
  | asks_fs_mount d mp type more :
      asks ("fs" :: "mount" :: d :: mp :: type :: more) (PFsMount d mp (parse_fs_type type) (Some ""))
  | asks_fs_unmount mp more : asks ("fs" :: "unmount" :: mp :: more) (PFsUnmount mp false)
  | asks_fs_check d type more : asks ("fs" :: "check" :: d :: type :: more) (PFsCheck d (parse_fs_type type)).

Section CommandLine.
Context {W : Type} `{Shell W} `{Files W} `{Clock W} `{Procs W} `{Db W} `{HistDb W} `{Mounts W} `{Bench W}
  `{Net W} `{Secure W} `{!ShellStarts W}.

Lemma asks_performs stdin fuel prog args p (w : W) :
  asks args p -> main stdin fuel prog args w = done_ (perform p) w.
Proof. by intros []. Qed.

Lemma asks_planned args p (w : W) : asks args p -> exists pl, plan_of p w = Some pl.
Proof. intros []; by eexists. Qed.

(** C40. A command line that asks for an operation (eight of the twenty
    commands do) carries out that operation's plan, as long as joined names fit
    their buffer, prints nothing of its own and returns its code.  A
    command line that is not one of the twenty commands of two words with the
    words it needs, "status" or a request for help runs nothing: it returns 1,
    prints nothing on the standard output and changes nothing.  Without any
    word the help is printed with code 1; the help, which "help" prints with
    code 0, names every one of the commands. *)
Theorem cli_dispatch stdin fuel prog args (w : W) :
  (forall p, asks args p -> names_fit p = true ->
     accepted args = true /\
     exists pl, plan_of p w = Some pl /\
       main stdin fuel prog args w = Some (Some ((follow pl w).1, ""), (follow pl w).2)) /\
  (args <> [] -> accepted args = false -> main stdin fuel prog args w = Some (Some (1, ""), w)) /\
  main stdin fuel prog [] w = Some (Some (1, show_help prog), w) /\
  main stdin fuel prog ["help"] w = Some (Some (0, show_help prog), w) /\
  Forall (fun g => contains (show_help prog) ("  " +:+ g.1.1 +:+ " " +:+ g.1.2) = true) grammar.
Proof.
  destruct (cli_rejects stdin fuel prog args w) as (Hnone & Hrej & Hhelp & Hnames).
  split; [|done]. intros p Ha Hf. split; [by destruct Ha|].
  destruct (asks_planned args p w Ha) as [pl Hpl]. exists pl. split; [done|].
  rewrite (asks_performs stdin fuel prog args p w Ha).
  pose proof (operation_plan p w pl Hf Hpl) as E. destruct (follow pl w) as [r w']. by apply done_run.
Qed.
End CommandLine.

(** ** Instances *)

Lemma operation_plans_witness :
  exists r w', perform (PRaidCreate "/dev/md0" 1 ["/dev/sdb"; "/dev/sdc"])
      (sim_put_nodes blank {["/dev/sdb" := KOther; "/dev/sdc" := KOther]}) = Some (r, w') /\
    exists n, trace w' = take n
      ["mdadm --zero-superblock /dev/sdb 2>/dev/null"; "mdadm --zero-superblock /dev/sdc 2>/dev/null";
       "mdadm --create /dev/md0 --level=1 --raid-devices=2 /dev/sdb /dev/sdc --force --run 2>&1"].
Proof.
  edestruct (operation_plans (PRaidCreate "/dev/md0" 1 ["/dev/sdb"; "/dev/sdc"])
    (sim_put_nodes blank {["/dev/sdb" := KOther; "/dev/sdc" := KOther]})) as (r & w' & E & _ & Hc & _);
    [reflexivity|reflexivity|].
  exists r, w'. split; [exact E|].
  cbn [checks steps] in Hc.
  lazymatch type of Hc with match ?x with _ => _ end => change x with (@None Z) in Hc end.
  destruct Hc as (n & Hn & _). exists n. exact Hn.
Defined.

Lemma cli_dispatch_witness :
  main (fun _ => None) 0 "storage-cli" ["fs"; "unmount"; "/mnt/data"] blank =
    Some (Some ((do_steps (run_one ["umount"; "/mnt/data"]) blank).1, ""),
          (do_steps (run_one ["umount"; "/mnt/data"]) blank).2).
Proof.
  destruct (proj1 (cli_dispatch (fun _ => None) 0 "storage-cli" ["fs"; "unmount"; "/mnt/data"] blank)
    (PFsUnmount "/mnt/data" false) (asks_fs_unmount "/mnt/data" []) eq_refl) as (_ & pl & Hp & E).
  injection Hp as <-. exact E.
Defined.
