(* ===== verification/Listings.v ===== *)
(** * What the managers read of listings other programs print

    The output of getfacl (src/security_manager.c), /proc/swaps
    (src/memory_manager.c) and /proc/diskstats (src/monitor.c), printed from
    their entries and read back. *)

From stdpp Require Import base list gmap strings pretty.
From Stdlib Require Import Ascii ZArith Lia.
From S2P Require Import Prelude CString CFormat CFloat Sys SimOS Utils Backup Lvm Fs Memory Security Monitor.
From S2P Require Import LvmProps SecurityProps.

#[local] Opaque snprintf sprintf.

(** ** Access control lists *)

(** A line of getfacl: the entry of a named user, with everything after the
    name's colon (the permissions, and "#effective" with those the mask leaves
    when it takes some away); the owner's entry; or another line (a warning, a
    comment, a group, the mask, the others, a default entry, an empty line). *)
Inductive acl_line :=
  | NamedUser (user rest : string)
  | OwnerUser (perms : string)
  | OtherLine (text : string).

Definition acl_line_text (l : acl_line) : string :=
  match l with
  | NamedUser user rest => "user:" +:+ user +:+ ":" +:+ rest
  | OwnerUser perms => "user::" +:+ perms
  | OtherLine text => text
  end.

Definition acl_line_ok (l : acl_line) : Prop :=
  match l with
  | NamedUser user rest =>
      user <> "" /\ str_mem ":" user = false /\ str_mem nl user = false /\ str_mem nl rest = false
  | OwnerUser perms => str_mem nl perms = false
  | OtherLine text => str_mem nl text = false /\ has_prefix "user:" text = false
  end.

(** What is kept of a line: a named user whose name fits, with the first 15
    bytes after the name. *)
Definition named_user (l : acl_line) : option acl_entry_t :=
  match l with
  | NamedUser user rest =>
      if (String.length user <? 64)%nat then Some (mk_acl user (str_take 15 rest)) else None
  | _ => None
  end.

Definition getfacl_text (ls : list acl_line) : string :=
  str_concat ((fun x => x +:+ NL) <$> (acl_line_text <$> ls)).
Definition getfacl_cmd (path : string) : string := snprintf MAX_COMMAND "getfacl %s 2>&1" [CStr path].

Lemma parse_acl_line l : acl_line_ok l -> parse_acl (acl_line_text l) = named_user l.
Proof.
  destruct l as [user rest|perms|text]; cbn [acl_line_ok acl_line_text named_user].
  - intros (Hne & Hc & _ & _). unfold parse_acl.
    change (has_prefix "user:" ("user:" +:+ user +:+ ":" +:+ rest)) with true. cbv iota.
    change (str_drop 5 ("user:" +:+ user +:+ ":" +:+ rest)) with (user +:+ String ":" rest).
    rewrite strchr_at, str_before_at by done.
    assert ((0 <? strlen user) = true) as -> by (destruct user; [done|by apply Z.ltb_lt; unfold strlen; simpl; lia]).
    assert ((strlen user <? 64) = (String.length user <? 64)%nat) as ->.
    { unfold strlen. destruct (Nat.ltb_spec (String.length user) 64); [apply Z.ltb_lt|apply Z.ltb_ge]; lia. }
    done.
  - intros _. by unfold parse_acl.
  - intros (_ & Hp). unfold parse_acl. by rewrite Hp.
Qed.

(** Lines without an entry, the empty ones among them, make no difference. *)
Lemma acl_lines_nonempty max l : forall acc,
  acl_lines max acc (filter (fun x => x <> "") l) = acl_lines max acc l.
Proof.
  induction l as [|x l IH]; intros acc; [done|]. rewrite filter_cons. cbn [acl_lines].
  case_decide as Hx; [cbn [acl_lines]; by destruct (max <=? length acc)%nat|].
  subst x. change (parse_acl "") with (@None acl_entry_t). cbv iota. rewrite IH.
  destruct (Nat.leb_spec max (length acc)) as [Hle|]; [|done].
  destruct l as [|y l]; [done|]. cbn [acl_lines]. by rewrite (proj2 (Nat.leb_le _ _) Hle).
Qed.

Lemma acl_lines_parsed max ls : Forall acl_line_ok ls -> forall acc, (length acc <= max)%nat ->
  acl_lines max acc (acl_line_text <$> ls) = take max (acc ++ omap named_user ls).
Proof.
  induction 1 as [|l ls Hl Hls IH]; intros acc Ha.
  { simpl. rewrite app_nil_r. by rewrite take_ge by lia. }
  rewrite fmap_cons. cbn [acl_lines]. destruct (Nat.leb_spec max (length acc)) as [Hge|Hlt].
  - rewrite take_app_le, take_ge by lia. done.
  - rewrite parse_acl_line by done. cbn [omap list_omap]. destruct (named_user l) as [e|].
    + rewrite IH by (rewrite length_app; simpl; lia). by rewrite <- app_assoc.
    + by apply IH.
Qed.

Lemma acl_line_text_line l : acl_line_ok l -> str_mem nl (acl_line_text l) = false.
Proof.
  destruct l as [user rest|perms|text]; cbn [acl_line_ok acl_line_text].
  - intros (_ & _ & Hu & Hp). by rewrite !str_mem_app, Hu, Hp.
  - intros Hp. by rewrite str_mem_app, Hp.
  - by intros (? & _).
Qed.

Section Acl.
Context {W : Type} `{Shell W} `{Files W} `{Clock W} `{Secure W}.

(** C25. The named users of a file's access list are read back: for what
    getfacl prints of any list of lines, comments, warnings and empty lines
    included, [acl_get] gives exactly the entries of the named users whose
    name has fewer than 64 bytes, in their order, each with the first 15 bytes
    of what follows the name (the permissions, and the beginning of an
    "#effective" comment), up to the size of the caller's array; the owner,
    groups, mask, others and default entries are left out.  A file that does
    not exist is reported without running anything, and a failing getfacl,
    whatever it printed, as ERROR_SYSTEM_CALL with no entries. *)
Theorem acl_roundtrip path max (w w1 : W) r out :
  exec (getfacl_cmd path) w = Some ((r, out), w1) ->
  (file_exists path w = false -> acl_get path max w = Some ((ERROR_NOT_FOUND, []), w)) /\
  (file_exists path w = true -> r <> SUCCESS -> acl_get path max w = Some ((ERROR_SYSTEM_CALL, []), w1)) /\
  (forall ls, file_exists path w = true -> r = SUCCESS -> out = getfacl_text ls -> Forall acl_line_ok ls ->
    acl_get path max w = Some ((SUCCESS, take max (omap named_user ls)), w1)).
Proof.
  intros He. unfold acl_get. unfold bind at 1 3 5, reads. split_and!; [intros -> ; done| |].
  - intros -> Hr. cbn [negb]. rewrite (bind_step He). cbn [fst snd]. by destruct (Z.eqb_spec r SUCCESS).
  - intros ls -> -> -> Hls. cbn [negb]. rewrite (bind_step He). cbn [fst snd negb Z.eqb SUCCESS].
    unfold getfacl_text. rewrite strtok_text.
    + by rewrite acl_lines_nonempty, acl_lines_parsed by (done || simpl; lia).
    + apply Forall_fmap. eapply Forall_impl; [exact Hls|]. intros l. apply acl_line_text_line.
Qed.
End Acl.

(** ** /proc/swaps *)

(** A row: the entry and the white space between its five columns. *)
Record swap_row := mk_swap_row {
  sr_path : string; sr_type : string; sr_size : Z; sr_used : Z; sr_priority : Z;
  sr_gap1 : string; sr_gap2 : string; sr_gap3 : string; sr_gap4 : string;
}.
Definition swap_row_text (r : swap_row) : string :=
  sr_path r +:+ (sr_gap1 r +:+ (sr_type r +:+ (sr_gap2 r +:+ (pretty (sr_size r) +:+ (sr_gap3 r +:+
  (pretty (sr_used r) +:+ (sr_gap4 r +:+ pretty (sr_priority r)))))))).
Definition swap_row_entry (r : swap_row) : swap_info_t :=
  mk_swap (sr_path r) (sr_type r) (Some (sr_size r)) (Some (sr_used r)) (sr_priority r) 1.

Record swap_row_ok (r : swap_row) : Prop := {
  sro_path : no_space (sr_path r) = true /\ sr_path r <> "" /\ (String.length (sr_path r) <= 255)%nat;
  sro_type : no_space (sr_type r) = true /\ sr_type r <> "" /\ (String.length (sr_type r) <= 15)%nat;
  sro_nums : in_u64 (sr_size r) /\ in_u64 (sr_used r) /\ in_i32 (sr_priority r);
  sro_gaps : gap (sr_gap1 r) /\ gap (sr_gap2 r) /\ gap (sr_gap3 r) /\ gap (sr_gap4 r);
  sro_line : (String.length (swap_row_text r) < 255)%nat;
}.

Lemma parse_swap_row r : swap_row_ok r -> parse_swap (swap_row_text r +:+ NL) = swap_row_entry r.
Proof.
  intros [(P1 & P2 & P3) (T1 & T2 & T3) (N1 & N2 & N3) (G1 & G2 & G3 & G4) _].
  unfold parse_swap, sscanf, swap_row_text. rewrite !str_app_assoc.
  rewrite at_percent, width_255.
  rewrite scan_s_gap by (done || (right; lia) || by apply gap_ends).
  rewrite blank_conversion by (by apply G1 || by apply skip_ws_word).
  rewrite width_15.
  rewrite scan_s_gap by (done || (right; lia) || by apply gap_ends).
  rewrite blank_conversion by (by apply G2 || by apply skip_ws_pretty).
  rewrite at_long.
  rewrite scan_u_gap by (done || by apply gap_ends).
  rewrite blank_conversion by (by apply G3 || by apply skip_ws_pretty).
  rewrite at_long.
  rewrite scan_u_gap by (done || by apply gap_ends).
  rewrite blank_conversion by (by apply G4 || by apply skip_ws_pretty).
  by rewrite scan_d_gap by done.
Qed.

Lemma swap_row_line r : swap_row_ok r -> str_mem nl (swap_row_text r) = false.
Proof.
  intros [(P1 & _) (T1 & _) _ ((_ & _ & G1) & (_ & _ & G2) & (_ & _ & G3) & (_ & _ & G4)) _].
  unfold swap_row_text. rewrite !str_mem_app, G1, G2, G3, G4, !str_mem_pretty by done.
  by rewrite !(no_space_mem _ nl) by done.
Qed.

Section Swaps.
Context {W : Type} `{Shell W} `{Files W}.

(** C28. The active swap areas are read back: for what the kernel shows in
    /proc/swaps, a line of titles and one line per area, whatever white space
    separates the columns, [swap_list] gives the areas in order with their
    paths, types, sizes and priorities, up to the size of the caller's array;
    when the file cannot be read it gives an error and no area. *)
Theorem swaps_roundtrip n header rows (w : W) :
  str_mem nl header = false -> (String.length header < 255)%nat -> Forall swap_row_ok rows ->
  (fopen_r "/proc/swaps" w = Some (str_concat ((fun x => x +:+ NL) <$> (header :: (swap_row_text <$> rows)))) ->
   swap_list n w = Some ((SUCCESS, take n (swap_row_entry <$> rows)), w)) /\
  (fopen_r "/proc/swaps" w = None -> swap_list n w = Some ((ERROR_SYSTEM_CALL, []), w)).
Proof.
  intros Hh Hl Hr. unfold swap_list, bind, reads, ret. split; [|by intros ->].
  intros E. rewrite E, fgets_chunks_lines.
  - rewrite fmap_cons. cbn [drop]. rewrite drop_0. do 3 f_equal. rewrite <- !fmap_take.
    assert (Forall swap_row_ok (take n rows)) as Hn by (by apply Forall_take).
    revert Hn. generalize (take n rows). induction 1 as [|r l Hok _ IH]; [done|]. rewrite !fmap_cons, parse_swap_row by done. by f_equal.
  - constructor; [split; [done|lia]|]. apply Forall_fmap. eapply Forall_impl; [exact Hr|]. intros r Hok.
    split; [by apply swap_row_line|]. pose proof (sro_line r Hok). unfold compose. lia.
Qed.
End Swaps.

(** ** /proc/diskstats *)

(** A row: the device's numbers and name, reads, writes and sectors among the
    counters, and what follows them; major and minor number are padded. *)
Record disk_row := mk_disk_row {
  dr_pad1 : string; dr_major : Z; dr_pad2 : string; dr_minor : Z; dr_name : string;
  dr_reads : Z; dr_merged : Z; dr_read_sectors : Z; dr_read_ms : Z;
  dr_writes : Z; dr_write_merged : Z; dr_write_sectors : Z; dr_more : string;
}.
Definition disk_row_text (r : disk_row) : string :=
  dr_pad1 r +:+ (pretty (dr_major r) +:+ (dr_pad2 r +:+ (pretty (dr_minor r) +:+ (" " +:+ (dr_name r +:+
  (" " +:+ (pretty (dr_reads r) +:+ (" " +:+ (pretty (dr_merged r) +:+ (" " +:+ (pretty (dr_read_sectors r) +:+
  (" " +:+ (pretty (dr_read_ms r) +:+ (" " +:+ (pretty (dr_writes r) +:+ (" " +:+ (pretty (dr_write_merged r) +:+
  (" " +:+ (pretty (dr_write_sectors r) +:+ (" " +:+ dr_more r)))))))))))))))))))).

Record disk_row_ok (r : disk_row) : Prop := {
  dro_pads : all_space (dr_pad1 r) = true /\ str_mem nl (dr_pad1 r) = false /\ gap (dr_pad2 r);
  dro_ids : in_i32 (dr_major r) /\ in_i32 (dr_minor r);
  dro_name : no_space (dr_name r) = true /\ dr_name r <> "" /\ (String.length (dr_name r) <= 63)%nat;
  dro_reads : in_u64 (dr_reads r) /\ in_u64 (dr_merged r) /\ in_u64 (dr_read_sectors r) /\ in_u64 (dr_read_ms r);
  dro_writes : in_u64 (dr_writes r) /\ in_u64 (dr_write_merged r) /\ in_u64 (dr_write_sectors r);
  dro_more : str_mem nl (dr_more r) = false;
  dro_line : (String.length (disk_row_text r) < 511)%nat;
}.

Definition disk_row_values (r : disk_row) : list carg :=
  [CInt (dr_major r); CInt (dr_minor r); CStr (dr_name r); CInt (dr_reads r); CInt (dr_merged r);
   CInt (dr_read_sectors r); CInt (dr_read_ms r); CInt (dr_writes r); CInt (dr_write_merged r);
   CInt (dr_write_sectors r)].

Lemma scan_counter f (z : Z) t : in_u64 z ->
  sscanf_go (String " " (String "%" (String "l" (String "l" (String "u" f))))) SPlain
    (" " +:+ (pretty z +:+ (" " +:+ t))) = CInt z :: sscanf_go f SPlain (" " +:+ t).
Proof.
  intros Hz. rewrite blank_conversion by (done || by apply skip_ws_pretty). rewrite !at_long.
  by rewrite scan_u_gap.
Qed.

Lemma scan_disk_row r : disk_row_ok r ->
  sscanf "%d %d %s %llu %llu %llu %llu %llu %llu %llu" (disk_row_text r +:+ NL) = disk_row_values r.
Proof.
  intros [(A1 & _ & A2) (I1 & I2) (N1 & N2 & N3) (R1 & R2 & R3 & R4) (W1 & W2 & W3) _ _].
  unfold sscanf, disk_row_text. rewrite !str_app_assoc, at_percent.
  change ("" +:+ (dr_pad1 r +:+ ?x)) with (dr_pad1 r +:+ x).
  rewrite scan_d_gap by (done || by apply gap_ends).
  rewrite blank_conversion by (by apply A2 || by apply skip_ws_pretty). rewrite scan_d_gap by done.
  rewrite blank_conversion by (done || by apply skip_ws_word). rewrite scan_s_gap by (done || by left).
  by rewrite !scan_counter.
Qed.

Lemma disk_row_line r : disk_row_ok r -> str_mem nl (disk_row_text r) = false.
Proof.
  intros [(_ & A1 & (_ & _ & A2)) _ (N1 & _) _ _ Hm _]. unfold disk_row_text.
  rewrite !str_mem_app, A1, A2, Hm, !str_mem_pretty by done. by rewrite (no_space_mem (dr_name r) nl).
Qed.

(** The first row of a device. *)
Definition row_of (base : string) (rows : list disk_row) : option disk_row :=
  head (filter (fun r => dr_name r = base) rows).

Lemma diskstats_found base rows : Forall disk_row_ok rows ->
  diskstats_lines base ((fun x => x +:+ NL) <$> (disk_row_text <$> rows)) =
    Some ((fun r => (dr_reads r, dr_writes r, dr_read_sectors r, dr_write_sectors r)) <$> row_of base rows).
Proof.
  induction 1 as [|r rows Hr _ IH]; [done|]. rewrite !fmap_cons. cbn [diskstats_lines].
  rewrite scan_disk_row by done. pose proof (dro_name r Hr) as (_ & _ & Hl). cbn [disk_row_values name_fits].
  rewrite (proj2 (Nat.ltb_lt _ _)) by lia. cbn [negb]. unfold row_of in *. rewrite filter_cons.
  case_decide as Hd.
  - subst base. by rewrite streq_refl.
  - rewrite streq_ne by done. apply IH.
Qed.

Section Diskstats.
Context {W : Type} `{Files W} `{Clock W}.

(** C29. The counters of a device are those /proc/diskstats shows in its first
    row: for the rows the kernel writes, [monitor_get_device_stats] gives the
    reads and writes as they are and the sectors of 512 bytes as bytes modulo
    2^64, with the time of the reading, for the device named with or without
    its directory; a device without a row, and a file that cannot be read,
    give -1 and no counters. *)
Theorem diskstats_roundtrip device rows (w : W) :
  Forall disk_row_ok rows ->
  (fopen_r DISKSTATS_PATH w = Some (str_concat ((fun x => x +:+ NL) <$> (disk_row_text <$> rows))) ->
   monitor_get_device_stats device w =
     match row_of (base_name device) rows with
     | None => Some ((-1, mk_stats (str_take 63 device) 0 0 0 0 d0 d0 0 0), w)
     | Some r =>
         Some ((0, mk_stats (str_take 63 device) (dr_reads r) (dr_writes r) (dr_read_sectors r * 512 mod 2 ^ 64)
                     (dr_write_sectors r * 512 mod 2 ^ 64) d0 d0 0 (time w).1), (time w).2)
     end) /\
  (fopen_r DISKSTATS_PATH w = None ->
   monitor_get_device_stats device w = Some ((-1, mk_stats (str_take 63 device) 0 0 0 0 d0 d0 0 0), w)).
Proof.
  intros Hr. unfold monitor_get_device_stats, parse_diskstats, bind, reads. split; [|by intros ->].
  intros E. rewrite E.
  rewrite fgets_chunks_lines, diskstats_found by
    (done || (apply Forall_fmap; eapply Forall_impl; [exact Hr|]; intros r Hok; split;
       [by apply disk_row_line|pose proof (dro_line r Hok); unfold compose; lia])).
  destruct (row_of (base_name device) rows) as [r|]; [|done]. cbn. unfold call, ret. by destruct (time w).
Qed.
End Diskstats.

(** ** Examples *)

(** What getfacl prints for a file whose mask restricts one of its users; the
    first line is a warning. *)
Definition tab : string := String "009" "".
Definition file_acl : list acl_line :=
  [OtherLine "getfacl: Removing leading '/' from absolute path names"; OtherLine "# file: srv/data";
   OtherLine "# owner: root"; OtherLine "# group: root"; OwnerUser "rwx"; NamedUser "alice" "r-x";
   NamedUser "bob" ("rwx" +:+ tab +:+ tab +:+ tab +:+ "#effective:r-x"); OtherLine "group::r-x";
   OtherLine "group:staff:rw-"; OtherLine "mask::r-x"; OtherLine "other::---"; OtherLine "default:user:carol:rwx";
   OtherLine ""].
Definition acl_machine : sim :=
  sim_put_nodes (sim_put_answers blank {[ getfacl_cmd "/srv/data" := (getfacl_text file_acl, 0) ]})
    {["/srv/data" := KOther]}.

Lemma acl_roundtrip_witness :
  acl_get "/srv/data" 8 acl_machine =
    Some ((SUCCESS, [mk_acl "alice" "r-x"; mk_acl "bob" ("rwx" +:+ tab +:+ tab +:+ tab +:+ "#effectiv")]),
          logged (getfacl_cmd "/srv/data") acl_machine).
Proof.
  refine (proj2 (proj2 (acl_roundtrip "/srv/data" 8 acl_machine (logged (getfacl_cmd "/srv/data") acl_machine)
    SUCCESS (getfacl_text file_acl) _)) file_acl _ _ _ _).
  - vm_compute. reflexivity.
  - reflexivity.
  - reflexivity.
  - reflexivity.
  - repeat constructor; simpl; lia || done.
Defined.

(** A swap file and a partition. *)
Definition swap_titles : string := "Filename" +:+ tab +:+ "Type" +:+ tab +:+ "Size" +:+ tab +:+ "Used" +:+ tab +:+ "Priority".
Definition two_areas : list swap_row :=
  [mk_swap_row "/swapfile" "file" 2097148 0 (-2) "                               " (tab +:+ tab) (tab +:+ tab) (tab +:+ tab);
   mk_swap_row "/dev/sda2" "partition" 999420 512 (-3) "                               " tab (tab +:+ tab) (tab +:+ tab)].
Definition swaps_text : string := str_concat ((fun x => x +:+ NL) <$> (swap_titles :: (swap_row_text <$> two_areas))).
Definition swaps_machine : sim := sim_put_files blank {["/proc/swaps" := swaps_text]}.

Lemma swaps_roundtrip_witness :
  swap_list 8 swaps_machine =
    Some ((SUCCESS, [mk_swap "/swapfile" "file" (Some 2097148) (Some 0) (-2) 1;
                     mk_swap "/dev/sda2" "partition" (Some 999420) (Some 512) (-3) 1]), swaps_machine).
Proof.
  refine (proj1 (swaps_roundtrip 8 swap_titles two_areas swaps_machine _ _ _) _).
  - reflexivity.
  - vm_compute. lia.
  - repeat constructor; vm_compute; try discriminate; lia.
  - reflexivity.
Defined.

Definition two_disks : list disk_row :=
  [mk_disk_row "   " 8 "       " 0 "sda" 120 3 4096 50 60 7 2048 "9 0 30 59 0 0 0 0 1 2";
   mk_disk_row "   " 8 "       " 1 "sda1" 20 0 512 5 6 0 64 "1 0 3 6 0 0 0 0 0 0"].
Definition disks_machine : sim :=
  sim_put_files blank {[DISKSTATS_PATH := str_concat ((fun x => x +:+ NL) <$> (disk_row_text <$> two_disks))]}.

Lemma diskstats_roundtrip_witness :
  monitor_get_device_stats "/dev/sda1" disks_machine =
    Some ((0, mk_stats "/dev/sda1" 20 6 262144 32768 d0 d0 0 1000), (time disks_machine).2).
Proof.
  refine (proj1 (diskstats_roundtrip "/dev/sda1" two_disks disks_machine _) _).
  - repeat constructor; vm_compute; try discriminate; lia.
  - reflexivity.
Defined.
