(* ===== verification/DaemonMain.v ===== *)
(** * src/daemon_main.c: the daemon program

    The start-up sequence, the main loop and the orderly end of the daemon,
    composed from the daemon framework, the IPC server and the monitor, with
    the parts of src/daemon.c that set up the process.  Each component keeps
    its own variables; they share one outside world. *)

From stdpp Require Import base list gmap strings pretty.
From Stdlib Require Import Ascii ZArith Lia.
From S2P Require Import Prelude CString CFormat Sys Daemon DaemonAsync Ipc Backup Fs Monitor.

(** Process set-up: the parent, sessions, the working directory, the file mode
    mask, descriptors, signal handlers and resource limits. *)
Class Session (W : Type) := {
  getppid : W -> Z;
  setsid : W -> Z * W;
  chdir : string -> W -> Z * W;
  umask : Z -> W -> W;
  open_rdwr : string -> W -> Z * W;
  dup2 : Z -> Z -> W -> Z * W;
  sigaction : Z -> W -> Z * W;
  ignore_signal : Z -> W -> W;
  setrlimit : Z -> Z * Z -> W -> Z * W;
}.

Definition SIGPIPE : Z := 13.
Definition RLIMIT_NOFILE : Z := 7.
Definition RLIMIT_CORE : Z := 4.

(** ** src/daemon.c, process set-up *)

Section Setup.
Context {W : Type} `{Procs W} `{Net W} `{Session W}.

Definition daemon_init : M W ctl :=
  let! pp := reads getppid in
  if pp =? 1 then ret (Ret 0)
  else
    let! p1 := call fork in
    if p1 <? 0 then ret (Ret (-1))
    else if 0 <? p1 then ret (Exit 0)
    else
      let! sid := call setsid in
      if sid <? 0 then ret (Ret (-1))
      else
        let! p2 := call fork in
        if p2 <? 0 then ret (Ret (-1))
        else if 0 <? p2 then ret (Exit 0)
        else
          let! c := call (chdir "/") in
          if c <? 0 then ret (Ret (-1))
          else
            (fun w => Some (tt, close 2 (close 1 (close 0 (umask 0 w))))) ;;!
            let! f := call (open_rdwr "/dev/null") in
            if negb (f =? 0) then ret (Ret (-1))
            else
              let! o := call (dup2 f 1) in
              if negb (o =? 1) then ret (Ret (-1))
              else
                let! e := call (dup2 f 2) in
                if negb (e =? 2) then ret (Ret (-1)) else ret (Ret 0).

(** The handlers are installed in order, up to the first failure. *)
Fixpoint install (sigs : list Z) : M W Z :=
  match sigs with
  | [] => ret 0
  | s :: rest => let! r := call (sigaction s) in if r =? -1 then ret (-1) else install rest
  end.

Definition daemon_setup_signals : M W Z :=
  let! r := install [SIGTERM; SIGINT; SIGHUP; SIGCHLD; SIGUSR1] in
  if r =? 0 then (fun w => Some (0, ignore_signal SIGPIPE w)) else ret r.

Definition daemon_set_resource_limits : M W Z :=
  let! r := call (setrlimit RLIMIT_NOFILE (1024, 2048)) in
  if r <? 0 then ret (-1)
  else
    let! c := call (setrlimit RLIMIT_CORE (0, 0)) in
    if c <? 0 then ret (-1) else ret 0.
End Setup.

(** ** Options *)

(** What [getopt_long] returns for each option, in order. *)
Inductive opt := OptForeground | OptPidfile (path : string) | OptHelp | OptVersion | OptUnknown.

(** The text of [print_usage(program_name)]. *)
Definition print_usage (program_name : string) : string :=
  sprintf ("Usage: %s [OPTIONS]" +:+ NL) [CStr program_name] +:+
  str_concat ((fun l => l +:+ NL) <$>
    ["Storage Manager Daemon"; "";
     "Options:";
     "  -f, --foreground    Run in foreground (don't daemonize)";
     "  -p, --pidfile PATH  Specify PID file path";
     "  -h, --help          Show this help message";
     "  -v, --version       Show version information";
     "";
     "Signals:";
     "  SIGTERM/SIGINT      Graceful shutdown";
     "  SIGHUP              Reload configuration";
     "  SIGUSR1             Dump status";
     ""]).

(** The loop over the options: an exit code, or the two settings. *)
Fixpoint parse_options (foreground : bool) (pidfile : option string) (opts : list opt)
    : Z + (bool * option string) :=
  match opts with
  | [] => inr (foreground, pidfile)
  | OptForeground :: rest => parse_options true pidfile rest
  | OptPidfile p :: rest => parse_options foreground (Some p) rest
  | OptHelp :: _ => inl 0
  | OptVersion :: _ => inl 0
  | OptUnknown :: _ => inl 1
  end.

(** ** State *)

(** The variables of the three components, whether the IPC thread was
    created, the local [loop_count], and the world.  The worlds stored inside
    the components are not used: each call starts from [world]. *)
Record prog (W : Type) := mk_prog {
  p_daemon : daemon W;
  p_ipc : ipc W;
  p_mon : monitor W;
  ipc_thread : bool;
  loop_count : Z;
  world : W;
}.
Arguments mk_prog {W}.
Arguments p_daemon {W}.
Arguments p_ipc {W}.
Arguments p_mon {W}.
Arguments ipc_thread {W}.
Arguments loop_count {W}.
Arguments world {W}.

Definition prog_start {W} (w : W) : prog W :=
  mk_prog (daemon_start w) (ipc_start w) (monitor_start w) false 0 w.

(** How the start-up ends: [main] returns, the process exits (it was a
    parent), or the main loop is entered. *)
Inductive started := Done (code : Z) | Gone (code : Z) | Looping.
(** How a turn of the loop ends: another turn, the end of the loop, or the end
    of a child that ran a worker. *)
Inductive turn := Again | Leave | ChildDone (code : Z).

Section Main.
Context {W : Type} `{Shell W} `{Files W} `{Clock W} `{Procs W} `{Net W} `{Db W} `{HistDb W} `{Session W}.

Definition in_daemon {A} (c : M (daemon W) A) : M (prog W) A :=
  fun s => match c (set_os (p_daemon s) (world s)) with
           | Some (a, d) => Some (a, mk_prog d (p_ipc s) (p_mon s) (ipc_thread s) (loop_count s) (os d))
           | None => None
           end.
Definition in_ipc {A} (c : M (ipc W) A) : M (prog W) A :=
  fun s => match c (set_net (p_ipc s) (world s)) with
           | Some (a, i) => Some (a, mk_prog (p_daemon s) i (p_mon s) (ipc_thread s) (loop_count s) (net i))
           | None => None
           end.
Definition in_mon {A} (c : M (monitor W) A) : M (prog W) A :=
  fun s => match c (set_mos (p_mon s) (world s)) with
           | Some (a, m) => Some (a, mk_prog (p_daemon s) (p_ipc s) m (ipc_thread s) (loop_count s) (mos m))
           | None => None
           end.
Definition in_sys {A} (c : M W A) : M (prog W) A :=
  fun s => match c (world s) with
           | Some (a, w) => Some (a, mk_prog (p_daemon s) (p_ipc s) (p_mon s) (ipc_thread s) (loop_count s) w)
           | None => None
           end.

(** [cleanup()] *)
Definition cleanup : M (prog W) unit := in_ipc ipc_server_cleanup.

(** [handle_signal_simple], which no code installs. *)
Definition handle_signal_simple : M (prog W) ctl := cleanup ;;! ret (Exit 0).

(** The body of the IPC thread; [false] when the fuel ran out first. *)
Definition ipc_server_thread (fuel : nat) : M (prog W) bool := in_ipc (ipc_server_run fuel).

(** The worker the loop starts. *)
Definition test_worker : M (daemon W) unit := sys (fun w => (tt, sleep 3 w)).

(** ** Start-up *)

Definition fail : M (prog W) started := cleanup ;;! ret (Done 1).

(** From the PID file to the IPC thread. *)
Definition start_service (pidfile : option string) : M (prog W) started :=
  let! r := in_daemon (daemon_create_pidfile pidfile) in
  if r <? 0 then fail
  else
    let! sg := in_sys daemon_setup_signals in
    if sg <? 0 then in_daemon (daemon_remove_pidfile pidfile) ;;! fail
    else
      in_sys (fun w => Some (tt, ignore_signal SIGPIPE w)) ;;!
      in_sys daemon_set_resource_limits ;;!
      let! ok := in_sys (call pthread_create) in
      if negb ok then fail
      else (fun s => Some (Looping, mk_prog (p_daemon s) (p_ipc s) (p_mon s) true (loop_count s) (world s))).

(** [main] up to its loop. *)
Definition main_start (opts : list opt) : M (prog W) started :=
  match parse_options false None opts with
  | inl code => ret (Done code)
  | inr (foreground, pidfile) =>
      let! root := in_sys (reads is_root) in
      if negb root then ret (Done 1)
      else
        let! r1 := in_ipc (ipc_server_init IPC_SOCKET_PATH) in
        if negb (r1 =? 0) then ret (Done 1)
        else
          let! r2 := in_mon monitor_init in
          if negb (r2 =? 0) then fail
          else
            let! r3 := in_mon (monitor_start_continuous 5) in
            if negb (r3 =? 0) then fail
            else if foreground then start_service pidfile
            else
              let! r4 := in_sys daemon_init in
              match r4 with
              | Exit code => ret (Gone code)
              | Ret code => if code <? 0 then fail else start_service pidfile
              end
  end.

(** ** Main loop *)

(** Every thirtieth turn, with fewer than three live workers, one is
    started. *)
Definition spawn_test (active : Z) : M (prog W) ctl :=
  fun s =>
    if (Z.rem (loop_count s) 30 =? 0) && (active <? 3) then
      (let! ok := in_sys (call (malloc 4)) in
       if ok then in_daemon (daemon_spawn_worker test_worker) else ret (Ret 0)) s
    else Some (Ret 0, s).

(** [sleep(1); loop_count++;] *)
Definition next_turn : M (prog W) turn :=
  in_sys (fun w => Some (tt, sleep 1 w)) ;;!
  (fun s => (guard_ub (loop_count s <? 2 ^ 31 - 1) ;;!
             (fun s => Some (Again, mk_prog (p_daemon s) (p_ipc s) (p_mon s) (ipc_thread s)
                                      (loop_count s + 1) (world s)))) s).

(** One evaluation of the loop's condition and body.  The local array
    [worker_list] is only written. *)
Definition main_turn : M (prog W) turn :=
  fun s =>
    if daemon_running (p_daemon s) =? 0 then Some (Leave, s)
    else
      ((fun s => (if negb (reload_config (p_daemon s) =? 0)
                  then in_daemon daemon_reload_config ;;! ret tt else ret tt) s) ;;!
       let! al := in_daemon (daemon_monitor_workers (Some (replicate MAX_WORKERS zero_worker))
                               (Z.of_nat MAX_WORKERS)) in
       let! sp := spawn_test al.1 in
       match sp with Exit code => ret (ChildDone code) | Ret _ => next_turn end) s.

(** ** End *)

(** After the loop; [pthread_join] waits for the IPC thread.  The signals that
    [daemon_shutdown] sends, and others, are handled while it runs: [schedule]
    says which handlers run, and what changes outside, before each of its
    accesses, [fuel] bounds the children its last loop collects.  Besides the
    exit code the processes it signalled are given; the daemon belongs to the
    process group that [kill(0, SIGKILL)] ends, and then returns nothing. *)
Definition main_finish (fuel : nat) (schedule : list (list (event W))) (pidfile : option string) :
    M (prog W) (option Z * list (Z * Z)) :=
  in_ipc ipc_server_stop ;;!
  in_sys (fun w => Some (tt, pthread_join w)) ;;!
  let! uk := in_daemon (run schedule (shutdown_code fuel)) in
  if bool_decide ((0, SIGKILL) ∈ uk.2) then ret (None, uk.2)
  else
    in_daemon (daemon_remove_pidfile pidfile) ;;!
    cleanup ;;! ret (Some 0, uk.2).
End Main.
