(* ===== verification/DaemonMainProps.v ===== *)
(** * Theorems about src/daemon_main.c: the components together *)

From stdpp Require Import base list gmap strings pretty relations.
From Stdlib Require Import Ascii ZArith Lia.
From S2P Require Import Prelude CString CFormat CFloat Sys Daemon Ipc SimNet IpcProps Backup Fs Monitor DaemonMain.

#[local] Opaque snprintf sprintf.

(** The same descriptors are open. *)
Definition same_open {W} `{Net W} (w w' : W) : Prop := forall q, is_open q w' = is_open q w.

(** Processes, waiting, the allocator and the database are documented to leave
    the program's own descriptors as they are between calls. *)
Class ProgLaws (W : Type) `{Procs W} `{Net W} `{Db W} `{HistDb W} := {
  fork_open : forall w : W, same_open w (fork w).2;
  waitpid_open : forall w : W, same_open w (waitpid w).2;
  kill_open : forall p s (w : W), same_open w (kill p s w).2;
  sleep_open : forall n (w : W), same_open w (sleep n w);
  malloc_open : forall n (w : W), same_open w (malloc n w).2;
  insert_open : forall r (w : W), same_open w (h_insert r w).2;
}.

Section Keeps.
Context {W : Type} `{Shell W} `{Files W} `{Clock W} `{Procs W} `{Net W} `{!NetLaws W} `{Db W} `{HistDb W}
  `{!ProgLaws W}.

Lemma same_open_trans (w1 w2 w3 : W) : same_open w1 w2 -> same_open w2 w3 -> same_open w1 w3.
Proof. intros O1 O2 q. by rewrite O2, O1. Qed.

(** A computation of the daemon that leaves [daemon_running] and the open
    descriptors alone. *)
Definition keeps {A} (c : M (daemon W) A) : Prop :=
  forall d a d', c d = Some (a, d') -> daemon_running d' = daemon_running d /\ same_open (os d) (os d').

Lemma keeps_ret {A} (a : A) : keeps (ret a).
Proof. by intros d b d' [= <- <-]. Qed.
Lemma keeps_bind {A B} (c : M (daemon W) A) (k : A -> M (daemon W) B) :
  keeps c -> (forall a, keeps (k a)) -> keeps (bind c k).
Proof.
  intros Hc Hk d b d' (a & d1 & E1 & E2)%bind_Some.
  destruct (Hc _ _ _ E1) as [R1 O1]. destruct (Hk a _ _ _ E2) as [R2 O2].
  split; [congruence|]. by eapply same_open_trans.
Qed.
Lemma keeps_sys {A} (f : W -> A * W) : (forall w, same_open w (f w).2) -> keeps (sys f).
Proof.
  intros Hf d a d'. unfold sys. pose proof (Hf (os d)) as Ho. destruct (f (os d)) as [x w].
  by intros [= <- <-].
Qed.
Lemma keeps_get i : keeps (get_worker i).
Proof. intros d a d'. unfold get_worker. destruct (workers d !! i); [|done]. by intros [= <- <-]. Qed.
Lemma keeps_put i x : keeps (put_worker i x).
Proof. intros d a d'. unfold put_worker. case_match; [|done]. by intros [= <- <-]. Qed.
Lemma keeps_guard b : keeps (guard_ub b).
Proof. intros d a d'. unfold guard_ub, ret, ub. case_match; [|done]. by intros [= <- <-]. Qed.
Lemma keeps_foldM {A S} (f : S -> A -> M (daemon W) S) l : (forall s x, keeps (f s x)) ->
  forall acc, keeps (foldM f acc l).
Proof.
  intros Hf. induction l as [|x l IH]; intros acc; simpl; [apply keeps_ret|]. by apply keeps_bind.
Qed.

#[local] Hint Resolve keeps_ret keeps_bind keeps_sys keeps_get keeps_put keeps_guard keeps_foldM : sys.
#[local] Hint Resolve fork_open waitpid_open kill_open sleep_open time_open : sys.

Ltac keep :=
  repeat first [ apply keeps_ret | apply keeps_get | apply keeps_put | apply keeps_guard
               | apply keeps_bind; [|intros] | apply keeps_sys; intros; eauto with sys; fail
               | progress case_match ].

Lemma keeps_monitor l c : keeps (daemon_monitor_workers l c).
Proof.
  intros d a d' E. revert E. apply keeps_foldM. intros [active listed] i. unfold monitor_slot. keep.
Qed.

Lemma keeps_mark p st : keeps (mark_ended p st).
Proof.
  intros d a d' E. unfold mark_ended in E. destruct (find_idx _ _) as [i|].
  - revert E. apply keeps_bind; [apply keeps_get|intros; apply keeps_put].
  - case_match; [by injection E as <- <-|done].
Qed.

Lemma keeps_reap fuel : keeps (reap_loop fuel).
Proof. induction fuel as [|n IH]; simpl; keep; [apply keeps_mark|apply IH]. Qed.

Lemma keeps_worker : keeps test_worker.
Proof. apply keeps_sys. intros w. apply sleep_open. Qed.

Lemma keeps_spawn f : keeps f -> keeps (daemon_spawn_worker f).
Proof.
  intros Hf d a d' E. unfold daemon_spawn_worker in E. case_match; [by injection E as <- <-|].
  revert E. apply keeps_bind; [apply keeps_sys, fork_open|]. intros p. keep; [done| |].
  - apply keeps_sys. intros w q. apply time_open.
  - intros e b e' [= <- <-]. done.
Qed.

(** Of the signals only SIGTERM and SIGINT change [daemon_running]. *)
Lemma signal_keeps sig : sig <> SIGTERM -> sig <> SIGINT -> keeps (daemon_signal_handler sig).
Proof.
  intros N1 N2. unfold daemon_signal_handler. apply Z.eqb_neq in N1, N2. rewrite N1, N2. cbn [orb].
  repeat case_match.
  - by intros d a d' [= <- <-].
  - intros d a d' E. unfold daemon_reap_zombies in E. revert E.
    apply keeps_bind; [apply keeps_reap|intros; apply keeps_ret].
  - intros d a d' E. revert E. apply keeps_foldM. intros u i. keep.
  - apply keeps_ret.
Qed.

Lemma signal_open sig d u d' : daemon_signal_handler sig d = Some (u, d') -> same_open (os d) (os d').
Proof.
  intros E. destruct (decide (sig = SIGTERM)) as [->|N1]; [by injection E as <- <-|].
  destruct (decide (sig = SIGINT)) as [->|N2]; [by injection E as <- <-|].
  by apply (signal_keeps sig N1 N2) in E as [_ ?].
Qed.

Lemma keeps_reload : keeps daemon_reload_config.
Proof. by intros d a d' [= <- <-]. Qed.

(** A turn of the monitoring thread, when it is defined. *)
Definition mkeeps {A} (c : M (monitor W) A) : Prop :=
  forall m a m', c m = Some (a, m') -> same_open (mos m) (mos m').

Lemma mkeeps_bind {A B} (c : M (monitor W) A) (k : A -> M (monitor W) B) :
  mkeeps c -> (forall a, mkeeps (k a)) -> mkeeps (bind c k).
Proof.
  intros Hc Hk m b m' (a & m1 & E1 & E2)%bind_Some. eapply same_open_trans; [by eapply Hc|by eapply Hk].
Qed.
Lemma mkeeps_ret {A} (a : A) : mkeeps (ret a).
Proof. by intros m b m' [= <- <-]. Qed.
Lemma mkeeps_call {A} (f : W -> A * W) : (forall w, same_open w (f w).2) -> mkeeps (mon_os (call f)).
Proof.
  intros Hf m a m'. unfold mon_os, call. pose proof (Hf (mos m)) as Ho. destruct (f (mos m)) as [x w].
  by intros [= <- <-].
Qed.

Lemma mkeeps_stats device : mkeeps (mon_os (monitor_get_device_stats device)).
Proof.
  intros m a m' E. unfold mon_os in E. destruct (monitor_get_device_stats device (mos m)) as [[x w]|] eqn:Es; [|done].
  injection E as <- <-. simpl. unfold monitor_get_device_stats in Es.
  apply bind_Some in Es as (r & w1 & E1 & E2). unfold parse_diskstats in E1.
  assert (w1 = mos m) as ->.
  { apply bind_Some in E1 as (fp & w2 & [= <- <-] & E1). unfold ret, ub in E1.
    destruct (fopen_r DISKSTATS_PATH (mos m)); [|by injection E1 as _ <-].
    destruct (diskstats_lines _ _); [by injection E1 as _ <-|done]. }
  destruct r as [[[[rd wr] rs] ws]|]; [|by injection E2 as <- <-].
  apply bind_Some in E2 as (now & w3 & E2 & [= <- <-]). unfold call in E2.
  pose proof (fun q => time_open q (mos m)) as Ht. destruct (time (mos m)) as [t w4]. simpl in Ht.
  by injection E2 as <- <-.
Qed.

Lemma mkeeps_turn device : mkeeps (monitor_turn device).
Proof.
  intros m a m' E. unfold monitor_turn in E. case_match; [by injection E as <- <-|]. revert E.
  apply mkeeps_bind.
  - unfold monitor_get_current_performance. apply mkeeps_bind; [apply mkeeps_stats|]. intros [r curr].
    case_match; [apply mkeeps_ret|]. apply mkeeps_bind; [apply mkeeps_call; intros w q; apply time_open|].
    intros t. apply mkeeps_bind; [by intros ? ? ? [= <- <-]|]. intros [pst pt].
    apply mkeeps_bind; [|intros ms; apply mkeeps_bind; [by intros ? ? ? [= <- <-]|intros; apply mkeeps_ret]].
    repeat case_match; try apply mkeeps_ret. apply mkeeps_bind; [|intros; apply mkeeps_ret].
    intros m1 u m2. unfold guard_ub, ret, ub. case_match; [|done]. by intros [= <- <-].
  - intros [r s]. apply mkeeps_bind; [|intros; apply mkeeps_bind; [|intros; apply mkeeps_ret]].
    + case_match; [|apply mkeeps_ret]. apply mkeeps_bind; [|intros; apply mkeeps_ret].
      unfold monitor_save_sample, monitor_track_performance. apply mkeeps_bind.
      { intros m1 p m2. unfold get_mdb. by case_match; intros [= <- <-]. }
      intros []; repeat case_match; try apply mkeeps_ret; try done.
      apply mkeeps_bind; [apply mkeeps_call, insert_open|intros; apply mkeeps_ret].
    + intros m1 u m2 [= <- <-]. simpl. apply sleep_open.
Qed.
End Keeps.

(** ** The whole program *)

Section System.
Context {W : Type} `{Shell W} `{Files W} `{Clock W} `{Procs W} `{Net W} `{!NetLaws W} `{Db W} `{HistDb W}
  `{!ProgLaws W}.

(** The worker table is well formed with [n] slots handed out, the IPC server
    accounts for its descriptors in the shared world, the loop counter is [k]
    and [daemon_running] is [v]. *)
Definition at_prog (base : Z -> bool) (sfd n k v : Z) (s : prog W) : Prop :=
  wf_at n (p_daemon s) /\ server_ok base sfd false (set_net (p_ipc s) (world s)) /\
  loop_count s = k /\ daemon_running (p_daemon s) = v.
Definition prog_ok (base : Z -> bool) (sfd : Z) (s : prog W) : Prop :=
  exists n k v, at_prog base sfd n k v s.

Lemma wf_at_os n (d : daemon W) (w : W) : wf_at n d -> wf_at n (set_os d w).
Proof. intros [[] ?]. by split. Qed.

Lemma server_ok_world base sfd (i : ipc W) (w w' : W) :
  same_open w w' -> server_ok base sfd false (set_net i w) -> server_ok base sfd false (set_net i w').
Proof.
  intros Ho (n & cs & ? & ? & ? & ? & ? & Ht). exists n, cs. unfold at_, at2. simpl in *.
  split_and!; try done. by eapply table_wf_net.
Qed.

(** A daemon operation in the program. *)
Lemma in_daemon_triple {A} base sfd n k v (c : M (daemon W) A) :
  triple (wf_at n) c (fun _ => wf_at n) -> keeps c ->
  triple (at_prog base sfd n k v) (in_daemon c) (fun _ => at_prog base sfd n k v).
Proof.
  intros Hc Hk s (Hd & Hi & Hl & Hv).
  destruct (Hc _ (wf_at_os n _ (world s) Hd)) as (a & d & E & Hd'). unfold in_daemon. rewrite E.
  eexists _, _. split; [done|]. destruct (Hk _ _ _ E) as [Hr Ho].
  split; [done|]. split; [by eapply server_ok_world|]. split; [done|]. simpl. by rewrite Hr.
Qed.

Lemma in_sys_triple {A} base sfd n k v (f : W -> A * W) :
  (forall w, same_open w (f w).2) ->
  triple (at_prog base sfd n k v) (in_sys (call f)) (fun _ => at_prog base sfd n k v).
Proof.
  intros Hf s (Hd & Hi & Hl & Hv). unfold in_sys, call. pose proof (Hf (world s)) as Ho.
  destruct (f (world s)) as [a w]. eexists _, _. split; [done|].
  split; [done|]. split; [by eapply server_ok_world|]. by split.
Qed.

Lemma serve_triple base sfd n k v :
  triple (at_prog base sfd n k v) (in_ipc serve_once) (fun _ => at_prog base sfd n k v).
Proof.
  intros s (Hd & Hi & Hl & Hv). destruct (ok_serve_once base sfd _ Hi) as (u & i & E & Hi').
  unfold in_ipc. rewrite E. eexists _, _. split; [done|]. split; [done|]. split; [by destruct i|]. by split.
Qed.

(** Starting a worker hands out at most one slot; the child leaves. *)
Lemma spawn_triple base sfd n k v :
  triple (at_prog base sfd n k v) (in_daemon (daemon_spawn_worker test_worker))
    (fun r s => r = Exit 0 \/ exists m, at_prog base sfd m k v s).
Proof.
  intros s (Hd & Hi & Hl & Hv). pose proof (wf_at_os n _ (world s) Hd) as Hd1.
  destruct (spawn_safe n test_worker _ Hd1) as [[r d] E].
  { intros d. unfold test_worker, sys. by eexists _, _. }
  unfold in_daemon. rewrite E. eexists _, _. split; [done|].
  destruct (keeps_spawn _ keeps_worker _ _ _ E) as [Hr Ho].
  destruct (spawn_spec _ _ _ _ _ Hd1 E) as [[_ Hw]|[[_ Hw]|?]]; [right|right|by left].
  - exists (n + 1). split; [done|]. split; [by eapply server_ok_world|]. split; [done|]. simpl. by rewrite Hr.
  - exists n. split; [done|]. split; [by eapply server_ok_world|]. split; [done|]. simpl. by rewrite Hr.
Qed.

Lemma spawn_test_triple base sfd n k v active :
  triple (at_prog base sfd n k v) (spawn_test active)
    (fun r s => r = Exit 0 \/ exists m, at_prog base sfd m k v s).
Proof.
  intros s Hs. unfold spawn_test. case_match; [|exists (Ret 0), s; eauto].
  refine (triple_bind (at_prog base sfd n k v) _ _ (fun _ => at_prog base sfd n k v) _ _ _ s Hs).
  - apply in_sys_triple. intros w. apply malloc_open.
  - intros []; [apply spawn_triple|]. apply triple_ret. eauto.
Qed.

Lemma next_turn_triple base sfd n k v :
  k < 2 ^ 31 - 1 -> triple (at_prog base sfd n k v) next_turn (fun t => at_prog base sfd n (k + 1) v).
Proof.
  intros Hk s (Hd & Hi & Hl & Hv). unfold next_turn, bind, in_sys. simpl.
  rewrite (proj2 (Z.ltb_lt (loop_count s) (2 ^ 31 - 1))) by lia.
  eexists _, _. split; [done|]. split; [done|]. split; [|split; simpl; [lia|done]].
  eapply server_ok_world; [apply sleep_open|done].
Qed.

(** A turn of the main loop: defined, and everything stays in order, except in
    a child, which ends. *)
Lemma main_turn_triple base sfd n k v :
  k < 2 ^ 31 - 1 ->
  triple (at_prog base sfd n k v) main_turn
    (fun t s => (exists c, t = ChildDone c) \/ exists m k', at_prog base sfd m k' v s).
Proof.
  intros Hk s Hs. unfold main_turn. destruct (daemon_running (p_daemon s) =? 0).
  { eexists _, _. split; [done|]. right. eauto. }
  refine (triple_bind (at_prog base sfd n k v) _ _ (fun _ => at_prog base sfd n k v) _ _ _ s Hs).
  - intros s1 Hs1. destruct (negb _).
    + refine (triple_bind (at_prog base sfd n k v) _ _ (fun _ => at_prog base sfd n k v) _ _ _ s1 Hs1);
        [|intros; by apply triple_ret].
      apply in_daemon_triple; [|apply keeps_reload]. intros d [[] ?]. eexists _, _. by split.
    + by eexists _, _.
  - intros u. eapply triple_bind.
    + apply in_daemon_triple; [apply wf_at_monitor|apply keeps_monitor].
      unfold fits. rewrite length_replicate. lia.
    + intros [active listed]. eapply triple_bind; [apply spawn_test_triple|]. intros [c|c].
      * intros s2 [?|[m Hm]]; [done|]. destruct (next_turn_triple base sfd m k v Hk s2 Hm) as (t & s3 & E & Ht).
        exists t, s3. split; [done|]. right. eauto.
      * intros s2 _. eexists _, _. split; [done|]. left. eauto.
Qed.

Lemma in_daemon_count {A} (c : M (daemon W) A) s a s' :
  in_daemon c s = Some (a, s') -> loop_count s' = loop_count s.
Proof. unfold in_daemon. case_match; [|done]. case_match. by intros [= <- <-]. Qed.
Lemma in_sys_count {A} (c : M W A) s a s' : in_sys c s = Some (a, s') -> loop_count s' = loop_count s.
Proof. unfold in_sys. case_match; [|done]. case_match. by intros [= <- <-]. Qed.

Lemma spawn_test_count active s r s' : spawn_test active s = Some (r, s') -> loop_count s' = loop_count s.
Proof.
  unfold spawn_test. case_match; [|by intros [= <- <-]].
  intros (ok & s1 & E1%in_sys_count & E2)%bind_Some. destruct ok.
  - apply in_daemon_count in E2. congruence.
  - by injection E2 as <- <-.
Qed.

(** A turn that goes on stayed below the limit of the counter. *)
Lemma main_turn_bound (s s' : prog W) : main_turn s = Some (Again, s') -> loop_count s < 2 ^ 31 - 1.
Proof.
  unfold main_turn. case_match; [done|]. intros (u & s1 & E1 & E)%bind_Some.
  apply bind_Some in E as ([active l] & s2 & E2%in_daemon_count & E).
  apply bind_Some in E as (sp & s3 & E3%spawn_test_count & E).
  assert (loop_count s1 = loop_count s) as Hc.
  { destruct (negb (reload_config (p_daemon s) =? 0)); [|by injection E1 as <- <-].
    apply bind_Some in E1 as (r & s4 & E4%in_daemon_count & [= <- <-]). done. }
  destruct sp as [c|c]; [|done]. apply bind_Some in E as (u2 & s5 & E5%in_sys_count & E).
  unfold bind, guard_ub in E. destruct (Z.ltb_spec (loop_count s5) (2 ^ 31 - 1)); [lia|done].
Qed.

(** One event of the running daemon: a turn of its main loop, of the IPC
    thread while the server runs, or of the monitoring thread; a signal,
    delivered between turns; or the outside world moving on. *)
Inductive sys_step : prog W -> prog W -> Prop :=
  | st_turn s s' : main_turn s = Some (Again, s') -> sys_step s s'
  | st_ipc s s' : ipc_thread s = true -> Ipc.running (p_ipc s) <> 0 ->
      in_ipc serve_once s = Some (tt, s') -> sys_step s s'
  | st_monitor s s' b : in_mon (monitor_turn "sda") s = Some (b, s') -> sys_step s s'
  | st_signal sig s s' : in_daemon (daemon_signal_handler sig) s = Some (tt, s') -> sys_step s s'
  | st_world s w : same_open (world s) w ->
      sys_step s (mk_prog (p_daemon s) (p_ipc s) (p_mon s) (ipc_thread s) (loop_count s) w).

Lemma signal_step base sfd n k v sig s s' :
  at_prog base sfd n k v s -> in_daemon (daemon_signal_handler sig) s = Some (tt, s') ->
  exists v', at_prog base sfd n k v' s' /\ (v' = v \/ sig = SIGTERM \/ sig = SIGINT).
Proof.
  intros (Hd & Hi & Hl & Hv) E. unfold in_daemon in E.
  destruct (wf_at_signal n sig _ (wf_at_os n _ (world s) Hd)) as (u & d & Ed & Hd').
  rewrite Ed in E. injection E as _ <-.
  exists (daemon_running d). split.
  - split; [done|]. split; [|by split]. eapply server_ok_world; [|done].
    exact (signal_open sig _ _ _ Ed).
  - destruct (decide (sig = SIGTERM)) as [?|N1]; [auto|]. destruct (decide (sig = SIGINT)) as [?|N2]; [auto|].
    left. destruct (signal_keeps sig N1 N2 _ _ _ Ed) as [Hr _]. by rewrite Hr.
Qed.

Lemma sys_step_ok base sfd n k v s s' : at_prog base sfd n k v s -> sys_step s s' ->
  exists n' k' v', at_prog base sfd n' k' v' s' /\
    (v' = v \/ exists sig, (sig = SIGTERM \/ sig = SIGINT) /\
       in_daemon (daemon_signal_handler sig) s = Some (tt, s')).
Proof.
  intros Hs Hstep. destruct Hstep as [s s' E|s s' _ _ E|s s' b E|sig s s' E|s w Ho].
  - assert (k < 2 ^ 31 - 1) as Hk.
    { destruct Hs as (_ & _ & <- & _). by apply (main_turn_bound s s'). }
    destruct (main_turn_triple base sfd n k v Hk s Hs) as (t & s2 & E2 & Ht).
    rewrite E in E2. injection E2 as <- <-. destruct Ht as [[c ?]|(m & k' & Hm)]; [done|].
    exists m, k', v. auto.
  - destruct (serve_triple base sfd n k v s Hs) as (u & s2 & E2 & Ht). rewrite E in E2.
    injection E2 as <- <-. exists n, k, v. auto.
  - destruct Hs as (Hd & Hi & Hl & Hv). unfold in_mon in E.
    destruct (monitor_turn "sda" (set_mos (p_mon s) (world s))) as [[x m]|] eqn:Em; [|done].
    injection E as <- <-. exists n, k, v. split; [|auto]. split; [done|]. split; [|by split].
    eapply server_ok_world; [|done]. exact (mkeeps_turn "sda" _ _ _ Em).
  - destruct (signal_step base sfd n k v sig s s' Hs E) as (v' & Hs' & Hv'). exists n, k, v'.
    split; [done|]. destruct Hv' as [?|?]; [auto|]. right. eauto.
  - destruct Hs as (Hd & Hi & Hl & Hv). exists n, k, v. split; [|auto]. split; [done|]. split; [|by split].
    by eapply server_ok_world.
Qed.

(** C7. The components keep each other's promises: from a state in which the
    worker table and the IPC server are in order, in every run of main-loop
    turns, IPC turns, monitoring turns, signals and outside moves, both stay
    in order; every signal handler and the next IPC turn are defined, and so
    is the next turn of the main loop as long as its counter does not
    overflow.  And [daemon_running] is cleared by SIGTERM and SIGINT only: no
    IPC turn, a shutdown request included, ends the main loop. *)
Theorem system_invariant base sfd (s s' : prog W) :
  prog_ok base sfd s -> rtc sys_step s s' ->
  prog_ok base sfd s' /\ is_Some (in_ipc serve_once s') /\
  (forall sig, is_Some (in_daemon (daemon_signal_handler sig) s')) /\
  (loop_count s' < 2 ^ 31 - 1 -> is_Some (main_turn s')) /\
  (forall s2, sys_step s' s2 -> daemon_running (p_daemon s') <> 0 -> daemon_running (p_daemon s2) = 0 ->
     exists sig, (sig = SIGTERM \/ sig = SIGINT) /\ in_daemon (daemon_signal_handler sig) s' = Some (tt, s2)).
Proof.
  intros Hs Hr. assert (prog_ok base sfd s') as (n & k & v & Hs').
  { induction Hr as [|s s1 s2 Hstep Hr IH]; [done|]. apply IH. destruct Hs as (n & k & v & Hs).
    destruct (sys_step_ok base sfd n k v s s1 Hs Hstep) as (n' & k' & v' & ? & _). by exists n', k', v'. }
  split; [by exists n, k, v|]. split; [|split; [|split]].
  - by destruct (serve_triple base sfd n k v s' Hs') as (? & ? & -> & _).
  - intros sig. unfold in_daemon.
    destruct (wf_at_signal n sig _ (wf_at_os n _ (world s') (proj1 Hs'))) as (u & d & -> & _). by eexists.
  - intros Hk. destruct Hs' as (Hd & Hi & Hl & Hv). subst k.
    destruct (main_turn_triple base sfd n _ v Hk s' (conj Hd (conj Hi (conj eq_refl Hv)))) as (? & ? & -> & _).
    by eexists.
  - intros s2 Hstep Hne Hz. destruct (sys_step_ok base sfd n k v s' s2 Hs' Hstep) as (n' & k' & v' & Hs2 & Hv').
    destruct Hs' as (_ & _ & _ & Hv). destruct Hs2 as (_ & _ & _ & Hv2).
    destruct Hv' as [->|?]; [congruence|done].
Qed.
End System.

(** ** A daemon that just started *)

#[global] Instance net_procs : Procs netsim := {
  getpid _ := 100; fork w := (200, w); waitpid w := (None, w); kill _ _ w := (0, w); sleep _ w := w;
  zombies _ := 0%nat; running _ _ := false;
}.
#[global] Instance net_db : Db netsim := {
  sqlite_open _ w := (true, w); sqlite_schema w := (true, w); sqlite_close w := w;
  db_insert _ w := w; db_select _ := None; db_find _ _ := None; db_delete _ w := w;
  malloc _ w := (true, w); pthread_create w := (true, w); pthread_join w := w; rows _ := [];
}.
(** An open database has a descriptor. *)
#[global] Instance net_hist : HistDb netsim := {
  h_open _ w := (true, (ns_new w).2); h_schema w := (true, w); h_close w := w;
  h_insert _ w := (true, w); h_select _ _ _ _ := Some []; h_delete_before _ w := (true, w);
  opendir _ _ := true;
}.
#[global] Instance net_prog_laws : ProgLaws netsim.
Proof. by split. Qed.

Definition fresh_daemon : prog netsim :=
  mk_prog (daemon_start quiet) booted (monitor_start quiet) true 0 (net booted).

#[local] Opaque booted quiet.

Lemma set_net_same {W} `{Net W} (i : ipc W) : set_net i (net i) = i.
Proof. by destruct i. Qed.

Lemma fresh_daemon_ok : prog_ok std_fds 3 fresh_daemon.
Proof.
  exists 0, 0, 1. split; [apply start_wf|]. split; [|by split]. unfold fresh_daemon. cbn [p_ipc world].
  rewrite set_net_same. exists 0, (clients booted). exact booted_ok.
Qed.

(** The same after a turn of the main loop, which starts a worker, and a turn
    of the server. *)
Definition first_turn : prog netsim :=
  match main_turn fresh_daemon with Some (_, s) => s | None => fresh_daemon end.
Definition first_served : prog netsim :=
  match in_ipc serve_once first_turn with Some (_, s) => s | None => first_turn end.

Lemma system_invariant_witness :
  worker_count (p_daemon first_served) = 1 /\
  prog_ok std_fds 3 first_served /\ is_Some (in_ipc serve_once first_served) /\
  (forall sig, is_Some (in_daemon (daemon_signal_handler sig) first_served)) /\
  (loop_count first_served < 2 ^ 31 - 1 -> is_Some (main_turn first_served)) /\
  (forall s2, sys_step first_served s2 -> daemon_running (p_daemon first_served) <> 0 ->
     daemon_running (p_daemon s2) = 0 ->
     exists sig, (sig = SIGTERM \/ sig = SIGINT) /\
       in_daemon (daemon_signal_handler sig) first_served = Some (tt, s2)).
Proof.
  split; [vm_compute; reflexivity|].
  apply (system_invariant std_fds 3 fresh_daemon); [exact fresh_daemon_ok|].
  apply (rtc_l _ _ first_turn); [apply st_turn; vm_compute; reflexivity|].
  apply rtc_once, st_ipc; [vm_compute; reflexivity|vm_compute; discriminate|vm_compute; reflexivity].
Defined.
