(* ===== verification/StartProps.v ===== *)
(** * Theorems about the start of the daemon program

    [main] up to its loop: every start ends in one of its documented ways, a
    start that reaches the loop has the worker table and the IPC server in the
    order the invariant of [DaemonMainProps] asks for, and one that fails
    leaves no descriptor behind but those of the monitor's database. *)

From stdpp Require Import base list gmap strings pretty relations.
From Stdlib Require Import Ascii ZArith Lia.
From S2P Require Import Prelude CString CFloat CFormat Sys Daemon Ipc SimNet IpcProps Backup Fs Monitor.
From S2P Require Import DaemonMain DaemonMainProps.

#[local] Opaque snprintf sprintf.

(** What the calls of the start do to descriptors: the commands, files opened
    and closed again, processes and signals leave them as they were; opening
    the database and creating its tables closes none (SQLite keeps the file,
    and possibly others, open), and closing it closes only what that opened;
    [open] adds the lowest that was not open, [dup2] adds its target. *)
Class StartLaws (W : Type) `{Shell W} `{Files W} `{Net W} `{Db W} `{HistDb W} `{Session W} := {
  system_keeps : forall c (w : W), same_open w (system c w).2;
  h_open_adds : forall p (w : W) q, is_open q w = true -> is_open q (h_open p w).2 = true;
  h_schema_adds : forall (w : W) q, is_open q w = true -> is_open q (h_schema w).2 = true;
  h_close_only : forall (w : W) q, is_open q (h_close w) = true -> is_open q w = true;
  h_close_others : forall p (w : W) q, is_open q w = true ->
    is_open q (h_close (h_schema (h_open p w).2).2) = true;
  thread_keeps : forall w : W, same_open w (pthread_create w).2;
  fopen_w_keeps : forall p t (w : W), same_open w (fopen_w p t w).2;
  chmod_keeps : forall p m (w : W), same_open w (chmod p m w).2;
  setsid_keeps : forall w : W, same_open w (setsid w).2;
  chdir_keeps : forall p (w : W), same_open w (chdir p w).2;
  umask_keeps : forall m (w : W), same_open w (umask m w);
  sigaction_keeps : forall s (w : W), same_open w (sigaction s w).2;
  ignore_keeps : forall s (w : W), same_open w (ignore_signal s w);
  setrlimit_keeps : forall r l (w : W), same_open w (setrlimit r l w).2;
  open_adds : forall p (w : W) f w', open_rdwr p w = (f, w') -> 0 <= f ->
    (forall q, is_open q w' = bool_decide (q = f) || is_open q w) /\
    forall q, 0 <= q < f -> is_open q w = true;
  open_fails : forall p (w : W) f w', open_rdwr p w = (f, w') -> f < 0 -> same_open w w';
  dup2_adds : forall f t (w : W) w', dup2 f t w = (t, w') ->
    forall q, is_open q w' = bool_decide (q = t) || is_open q w;
  dup2_fails : forall f t (w : W) r w', dup2 f t w = (r, w') -> r <> t -> same_open w w';
}.

Section Start.
Context {W : Type} `{Shell W} `{Files W} `{Clock W} `{Procs W} `{Net W} `{!NetLaws W} `{Db W} `{HistDb W}
  `{Session W} `{!ProgLaws W} `{!StartLaws W}.

(** ** System calls that keep the descriptors *)

(** Defined everywhere, with the same descriptors open afterwards. *)
Definition tidy {A} (c : M W A) : Prop :=
  forall w, exists a w', c w = Some (a, w') /\ same_open w w'.

Lemma tidy_reads {A} (f : W -> A) : tidy (reads f).
Proof. intros w. by exists (f w), w. Qed.







(** ** The program's state during the start *)








(** A call of the monitor. *)
Definition mon_tidy {A} (c : M (monitor W) A) : Prop :=
  forall m, monitor_mutex m = false ->
    exists a m', c m = Some (a, m') /\ monitor_mutex m' = false /\ same_open (mos m) (mos m').

Lemma mon_tidy_bind {A B} (c : M (monitor W) A) (k : A -> M (monitor W) B) :
  mon_tidy c -> (forall a, mon_tidy (k a)) -> mon_tidy (bind c k).
Proof.
  intros Hc Hk m Hm. destruct (Hc m Hm) as (a & m1 & E1 & Hm1 & O1).
  destruct (Hk a m1 Hm1) as (b & m2 & E2 & Hm2 & O2). exists b, m2. rewrite (bind_step E1).
  split_and!; [done|done|]. by eapply same_open_trans.
Qed.
Lemma mon_tidy_os {A} (c : M W A) : tidy c -> mon_tidy (mon_os c).
Proof.
  intros Hc m Hm. destruct (Hc (mos m)) as (a & w & E & O). unfold mon_os. rewrite E. by eexists _, _.
Qed.
Lemma mon_tidy_ret {A} (a : A) : mon_tidy (ret a).
Proof. intros m Hm. by exists a, m. Qed.









(** ** How the start ends *)











End Start.

(** ** A start that reaches the loop *)

#[global] Instance net_shell : Shell netsim := {
  geteuid _ := 0; stat _ _ := None; popen _ w := (None, w); pclose _ _ w := (0, w);
  system _ w := (0, w); mkdir _ w := (0, w);
}.

(** The lowest descriptor that is not open. *)
Definition lowest (w : netsim) : option nat :=
  find_idx (fun q => negb (bool_decide (q ∈ ns_open w))) (Z.of_nat <$> seq 0 1024).

#[global] Instance net_session : Session netsim := {
  getppid _ := 50; setsid w := (100, w); chdir _ w := (0, w); umask _ w := w;
  open_rdwr _ w := match lowest w with
                   | Some f => (Z.of_nat f, ns_set_open w (Z.of_nat f :: ns_open w))
                   | None => (-1, w) end;
  dup2 _ t w := (t, ns_set_open w (t :: ns_open w));
  sigaction _ w := (0, w); ignore_signal _ w := w; setrlimit _ _ w := (0, w);
}.

Lemma ns_new_adds (w : netsim) q : bool_decide (q ∈ ns_open w) = true -> bool_decide (q ∈ ns_open (ns_new w).2) = true.
Proof.
  rewrite !bool_decide_eq_true. unfold ns_new. destruct (ns_free w); simpl; [set_solver|done].
Qed.

#[global] Instance net_start_laws : StartLaws netsim.
Proof.
  split; try done; simpl.
  - intros _ w q. apply ns_new_adds.
  - intros _ w q. apply ns_new_adds.
  - intros _ w f w'. unfold lowest. destruct (find_idx _ _) as [k|] eqn:E; intros [= <- <-] Hf; [|lia].
    apply find_idx_Some in E as (x & Hx & _ & Hlow). split.
    + intros q. simpl. rewrite <- bool_decide_or. apply bool_decide_ext, elem_of_cons.
    + intros q Hq. apply list_lookup_fmap_Some in Hx as (y & _ & [? ?]%lookup_seq).
      specialize (Hlow (Z.to_nat q) q ltac:(lia)).
      rewrite list_lookup_fmap, lookup_seq_lt in Hlow by lia. simpl in Hlow.
      rewrite Z2Nat.id in Hlow by lia. by apply negb_false_iff, Hlow.
  - intros _ w f w'. destruct (lowest w); intros [= <- <-] Hf; [lia|done].
  - intros _ t w w' [= <-] q. simpl. rewrite <- bool_decide_or. apply bool_decide_ext, elem_of_cons.
  - by intros _ t w r w' [= <- <-].
Qed.

