(* ===== verification/FinishProps.v ===== *)
(** * Theorems about the end of the daemon program

    From the signal that asks the daemon to stop to the return of [main]: the
    loop is left, every worker is asked to end and then forced to, the PID file
    and the sockets are removed, and the descriptors are those from before the
    start.  The signals the shutdown itself causes are handled while it runs. *)

From stdpp Require Import base list gmap strings pretty relations.
From Stdlib Require Import Ascii ZArith Lia.
From S2P Require Import Prelude CString CFloat CFormat Sys Daemon DaemonProps DaemonAsync Ipc SimNet IpcProps Backup Fs.
From S2P Require Import Monitor DaemonMain DaemonMainProps.

#[local] Opaque snprintf sprintf.

(** Documented behaviour of the calls of the end: none of them starts a
    process or creates a file; a child [waitpid] reports has ended; waiting for
    a thread leaves the descriptors as they are; an [unlink] that succeeds, or
    finds no file, leaves none. *)
Class FinishLaws (W : Type) `{Files W} `{Procs W} `{Net W} `{Db W} := {
  waitpid_ended : forall (w : W) p st w', waitpid w = (Some (p, st), w') -> Sys.running p w' = false;
  join_open : forall w : W, same_open w (pthread_join w);
  join_mono : forall q (w : W), Sys.running q (pthread_join w) = true -> Sys.running q w = true;
  close_mono : forall f q (w : W), Sys.running q (close f w) = true -> Sys.running q w = true;
  shm_unlink_mono : forall q (w : W), Sys.running q (shm_unlink w) = true -> Sys.running q w = true;
  sem_close_mono : forall q (w : W), Sys.running q (sem_close w) = true -> Sys.running q w = true;
  close_absent : forall f p (w : W), fopen_r p w = None -> fopen_r p (close f w) = None;
  shm_unlink_absent : forall p (w : W), fopen_r p w = None -> fopen_r p (shm_unlink w) = None;
  sem_close_absent : forall p (w : W), fopen_r p w = None -> fopen_r p (sem_close w) = None;
  unlink_absent : forall q p (w : W), fopen_r p w = None -> fopen_r p (unlink q w).2 = None;
  unlink_removes : forall p (w : W), (unlink p w).1 = 0 \/ (unlink p w).1 = ENOENT ->
    fopen_r p (unlink p w).2 = None;
}.

Section Finish.
Context {W : Type} `{Shell W} `{Files W} `{Clock W} `{Procs W} `{!ProcsLaws W} `{Net W} `{!NetLaws W} `{Db W}
  `{HistDb W} `{!ProgLaws W} `{!FinishLaws W}.

(** ** Steps that only close and remove *)

(** No process is started, no file appears. *)
Definition tidied (w w' : W) : Prop :=
  no_restart w w' /\ forall p, fopen_r p w = None -> fopen_r p w' = None.

Lemma tidied_refl w : tidied w w.
Proof. split; [by intros q|done]. Qed.
Lemma tidied_trans w1 w2 w3 : tidied w1 w2 -> tidied w2 w3 -> tidied w1 w3.
Proof. intros [R1 F1] [R2 F2]. split; [intros q Hq; auto|auto]. Qed.

Definition ipc_tidies {A} (c : M (ipc W) A) : Prop :=
  forall s a s', c s = Some (a, s') -> tidied (net s) (net s').

Lemma ipc_tidies_bind {A B} (c : M (ipc W) A) (k : A -> M (ipc W) B) :
  ipc_tidies c -> (forall a, ipc_tidies (k a)) -> ipc_tidies (bind c k).
Proof.
  intros Hc Hk s b s' (a & s1 & E1 & E2)%bind_Some. eapply tidied_trans; [by eapply Hc|by eapply Hk].
Qed.
Lemma ipc_tidies_ret {A} (a : A) : ipc_tidies (ret a).
Proof. intros s b s' [= _ <-]. apply tidied_refl. Qed.
Lemma ipc_tidies_gets {A} (f : ipc W -> A) : ipc_tidies (gets f).
Proof. intros s b s' [= _ <-]. apply tidied_refl. Qed.
Lemma ipc_tidies_modify f : (forall s, net (f s) = net s) -> ipc_tidies (modify f).
Proof. intros Hf s b s' [= _ <-]. rewrite Hf. apply tidied_refl. Qed.
Lemma ipc_tidies_sysv f : (forall w, tidied w (f w)) -> ipc_tidies (sysv f).
Proof. intros Hf s b s' [= _ <-]. apply Hf. Qed.
Lemma ipc_tidies_unlink p : ipc_tidies (sysc (unlink p)).
Proof.
  intros s b s'. unfold sysc. destruct (unlink p (net s)) as [e w] eqn:E. intros [= _ <-]. simpl.
  change w with (e, w).2. rewrite <- E. split; [intros q; apply unlink_mono|intros q; apply unlink_absent].
Qed.

Lemma tidied_close f (w : W) : tidied w (close f w).
Proof. split; [intros q; apply close_mono|intros p; apply close_absent]. Qed.

Lemma ipc_tidies_slot i : ipc_tidies (cleanup_slot i).
Proof.
  apply ipc_tidies_bind.
  - intros s c s'. unfold get_client. case_match; [|done]. intros [= _ <-]. apply tidied_refl.
  - intros c. case_match; [|apply ipc_tidies_ret]. apply ipc_tidies_bind; [apply ipc_tidies_sysv, tidied_close|].
    intros _ s u s'. unfold put_client. case_match; [|done]. intros [= _ <-]. apply tidied_refl.
Qed.

Lemma ipc_tidies_slots l : ipc_tidies (forM cleanup_slot l).
Proof.
  unfold forM. generalize tt at 1 as acc. induction l as [|i l IH]; intros acc; [apply ipc_tidies_ret|].
  apply ipc_tidies_bind; [apply ipc_tidies_slot|]. intros. apply IH.
Qed.

Lemma ipc_tidies_cleanup : ipc_tidies ipc_server_cleanup.
Proof.
  unfold ipc_server_cleanup, ipc_shm_cleanup, ipc_sem_cleanup.
  repeat first
    [ apply ipc_tidies_slots | apply ipc_tidies_ret | apply ipc_tidies_gets | apply ipc_tidies_unlink
    | apply ipc_tidies_modify; done | apply ipc_tidies_sysv, tidied_close
    | apply ipc_tidies_bind; [|intros] | progress case_match ].
  - intros s u s'. unfold lock. case_match; [done|]. intros [= _ <-]. apply tidied_refl.
  - apply ipc_tidies_sysv. intros w. split; [intros q; apply shm_unlink_mono|intros p; apply shm_unlink_absent].
  - apply ipc_tidies_sysv. intros w. split; [intros q; apply sem_close_mono|intros p; apply sem_close_absent].
Qed.

(** ** What happens during the shutdown *)

(** Processes may end and nothing is opened or closed. *)
Definition steps (d d' : daemon W) : Prop := no_restart (os d) (os d') /\ same_open (os d) (os d').

(** The handlers and the outside: besides, a slot of the worker table keeps its
    pid or its process has ended. *)
Definition moved (d d' : daemon W) : Prop :=
  worker_count d' = worker_count d /\ steps d d' /\
  forall (i : nat) x, workers d !! i = Some x -> exists y, workers d' !! i = Some y /\
    (Daemon.pid y = Daemon.pid x \/ (0 < Daemon.pid x -> Sys.running (Daemon.pid x) (os d') = false)).

Lemma ended_later q (w w' : W) : no_restart w w' -> Sys.running q w = false -> Sys.running q w' = false.
Proof. intros Hn Hq. destruct (Sys.running q w') eqn:R; [|done]. apply Hn in R. congruence. Qed.

#[global] Instance steps_preorder : PreOrder steps.
Proof.
  split; [by intros d; split; [intros q|]|].
  intros d1 d2 d3 [R1 O1] [R2 O2]. split; [intros q Hq; auto|]. by eapply same_open_trans.
Qed.

Lemma steps_same d d' : os d' = os d -> steps d d'.
Proof. intros E. unfold steps. rewrite E. by split; [intros q|]. Qed.

#[global] Instance moved_preorder : PreOrder moved.
Proof.
  split.
  - intros d. split; [done|]. split; [done|]. intros i x Hx. exists x. auto.
  - intros d1 d2 d3 (C1 & S1 & P1) (C2 & S2 & P2). split; [congruence|]. split; [by rewrite S1|].
    intros i x Hx. destruct (P1 i x Hx) as (y & Hy & Hxy). destruct (P2 i y Hy) as (z & Hz & Hyz).
    exists z. split; [done|]. destruct Hxy as [E|Hr]; [rewrite <- E; exact Hyz|].
    right. intros Hp. by eapply ended_later; [apply S2|apply Hr].
Qed.

(** Only the world moves. *)
Lemma moved_os d d' : workers d' = workers d -> worker_count d' = worker_count d -> steps d d' -> moved d d'.
Proof. intros Hw Hc Hs. split; [done|]. split; [done|]. intros i x Hx. exists x. rewrite Hw. auto. Qed.

Lemma steps_waitpid d : steps d (set_os d (waitpid (os d)).2).
Proof. split; [intros q; apply waitpid_mono|apply waitpid_open]. Qed.

(** Marking the slot of a child that has ended. *)
Lemma mark_moved p st d u d' :
  Sys.running p (os d) = false -> mark_ended p st d = Some (u, d') -> moved d d'.
Proof.
  intros Hp E. unfold mark_ended in E. destruct (find_idx _ _) as [i|] eqn:F.
  - apply find_idx_Some in F as (x & Hx & Hpx%Z.eqb_eq & _). apply lookup_take_Some in Hx as [Hx _].
    unfold bind, get_worker in E. rewrite Hx in E. apply put_same in E as (Hi & Hc & Ho & Hj).
    split; [done|]. split; [by apply steps_same|]. intros j y Hy. destruct (decide (i = j)) as [<-|Hne].
    + eexists. split; [exact Hi|]. right. intros _. rewrite Ho. by simplify_eq.
    + exists y. split; [by rewrite Hj|by left].
  - case_match; [|done]. by injection E as _ <-.
Qed.

Lemma reap_moved fuel d b d' : reap_loop fuel d = Some (b, d') -> moved d d'.
Proof.
  revert d. induction fuel as [|fuel IH]; intros d; simpl; [by intros [= _ <-]|].
  pose proof (waitpid_ended (os d)) as Hl. pose proof (steps_waitpid d) as Hs.
  unfold bind at 1, sys. destruct (waitpid (os d)) as [[[p st]|] w]; simpl in Hs;
    [|intros [= _ <-]; by apply moved_os].
  destruct (0 <? p); [|intros [= _ <-]; by apply moved_os].
  intros (u & d1 & E1 & E2)%bind_Some. apply IH in E2. apply mark_moved in E1; [|by eapply Hl].
  transitivity (set_os d w); [by apply moved_os|]. by rewrite E1.
Qed.

Lemma handler_moved sig d u d' : daemon_signal_handler sig d = Some (u, d') -> moved d d'.
Proof.
  unfold daemon_signal_handler. repeat case_match; try (intros [= _ <-]; apply moved_os; [done|done|by apply steps_same]).
  - unfold daemon_reap_zombies. intros (b & d1 & E1 & [= _ <-])%bind_Some. by eapply reap_moved.
  - intros E. assert (forall l (acc : unit), foldM (fun _ i => get_worker i ;;! ret tt) acc l d = Some (u, d') -> d' = d)
      as Hl; [|by rewrite (Hl _ _ E)].
    clear E. induction l as [|i l IH]; intros acc; simpl; [by intros [= _ <-]|].
    intros (a & d1 & (x & d2 & E1 & [= _ <-])%bind_Some & E2)%bind_Some.
    unfold get_worker in E1. case_match; [|done]. injection E1 as _ <-. by eapply IH.
Qed.

(** A schedule whose outside moves only end processes. *)
Fixpoint plausible (evs : list (event W)) (d : daemon W) : Prop :=
  match evs with
  | [] => True
  | ev :: evs =>
      match ev with Outside w => steps d (set_os d w) | Sig _ => True end /\
      forall u d', deliver ev d = Some (u, d') -> plausible evs d'
  end.

Fixpoint fair {A} (schedule : list (list (event W))) (c : code W A) (d : daemon W) : Prop :=
  match c with
  | DaemonAsync.Done _ => True
  | Act c k =>
      plausible (default [] (head schedule)) d /\
      forall u d1 b d2, forM deliver (default [] (head schedule)) d = Some (u, d1) -> c d1 = Some (b, d2) ->
        fair (tail schedule) (k b) d2
  | Kill p sig k =>
      plausible (default [] (head schedule)) d /\
      forall u d1 b d2, forM deliver (default [] (head schedule)) d = Some (u, d1) ->
        sys (kill p sig) d1 = Some (b, d2) -> fair (tail schedule) (k b) d2
  end.

Lemma deliver_moved evs d u d' : plausible evs d -> forM deliver evs d = Some (u, d') -> moved d d'.
Proof.
  unfold forM. generalize tt at 1 as acc. intros acc. revert acc d.
  induction evs as [|ev evs IH]; intros acc d; simpl; [by intros _ [= _ <-]|].
  intros [Hev Hp] (a & d1 & E1 & E2)%bind_Some. transitivity d1.
  - destruct ev as [sig|w]; [by eapply handler_moved|]. injection E1 as _ <-. by apply moved_os.
  - eapply IH; [by eapply Hp|exact E2].
Qed.

(** A schedule of signals. *)
Lemma fair_signals {A} (schedule : list (list (event W))) (c : code W A) d :
  Forall (Forall (fun ev => exists sig, ev = Sig sig)) schedule -> fair schedule c d.
Proof.
  assert (forall evs d, Forall (fun ev : event W => exists sig, ev = Sig sig) evs -> plausible evs d) as Hp.
  { intros evs d0 He. revert d0. induction He as [|ev evs [sig ->] He IH]; intros d0; [done|]. split; auto. }
  revert schedule d. induction c as [a|B c k IH|p sig k IH]; intros schedule d Hs; simpl; [done| |];
    (split; [by apply Hp; destruct Hs|]); intros; apply IH; by destruct Hs.
Qed.

(** [after c Q d ks]: however the shutdown is interrupted, when [c] ends it
    ends in [Q]; [ks] are the processes signalled so far. *)
Fixpoint after {A} (c : code W A) (Q : A -> daemon W -> list (Z * Z) -> Prop) d ks : Prop :=
  match c with
  | DaemonAsync.Done a => Q a d ks
  | Act c k => forall d1 b d2, moved d d1 -> c d1 = Some (b, d2) -> after (k b) Q d2 ks
  | Kill p sig k => forall d1, moved d d1 ->
      after (k (kill p sig (os d1)).1) Q (set_os d1 (kill p sig (os d1)).2) (ks ++ [(p, sig)])
  end.

Lemma after_sound {A} (c : code W A) Q schedule d ks a ks' d' :
  fair schedule c d -> after c Q d ks -> run schedule c d = Some ((a, ks'), d') -> Q a d' (ks ++ ks').
Proof.
  revert schedule d ks ks'. induction c as [b|B c k IH|p sig k IH]; intros schedule d ks ks' Hf Ha; simpl.
  - intros [= -> <- <-]. by rewrite app_nil_r.
  - destruct Hf as [Hp Hf]. intros (u & d1 & E1 & (b & d2 & E2 & E3)%bind_Some)%bind_Some.
    eapply IH; [by eapply Hf| |exact E3]. eapply Ha; [|exact E2]. by eapply deliver_moved.
  - destruct Hf as [Hp Hf]. intros (u & d1 & E1 & (r & d2 & E2 & (ak & d3 & E3 & E4)%bind_Some)%bind_Some)%bind_Some.
    injection E4 as <- <- <-. destruct ak as [a ks2]. simpl.
    replace (ks ++ (p, sig) :: ks2) with ((ks ++ [(p, sig)]) ++ ks2) by by rewrite <- app_assoc.
    pose proof E2 as E2'. rewrite sys_eq in E2'. injection E2' as <- <-.
    eapply IH; [by eapply Hf| |exact E3]. apply Ha. by eapply deliver_moved.
Qed.

Lemma after_bind {A B} (c : code W A) (k : A -> code W B) Q d ks :
  after c (fun a => after (k a) Q) d ks -> after (cbind c k) Q d ks.
Proof. revert d ks. induction c as [a|C c k' IH|p sig k' IH]; intros d ks; simpl; [done| |]; eauto. Qed.

(** ** The workers *)

Section Workers.
(** The table and the world when the shutdown starts. *)
Context (xs : list worker_t) (n : Z) (w0 : W).

Definition slot_of (i : nat) (x : worker_t) : Prop :=
  (i < Z.to_nat n)%nat /\ xs !! i = Some x /\ 0 < Daemon.pid x.

(** Every worker is still in its slot, or has ended. *)
Definition tracked (d : daemon W) : Prop :=
  worker_count d = n /\ same_open w0 (os d) /\
  forall i x, slot_of i x -> exists y, workers d !! i = Some y /\
    (Daemon.pid y = Daemon.pid x \/ Sys.running (Daemon.pid x) (os d) = false).

(** The worker of slot [i] has ended or was sent [sig], unless the group of the
    daemon was killed. *)
Definition served (sig : Z) (i : nat) (d : daemon W) (ks : list (Z * Z)) : Prop :=
  forall x, slot_of i x -> Sys.running (Daemon.pid x) (os d) = false \/ (Daemon.pid x, sig) ∈ ks \/ (0, SIGKILL) ∈ ks.

Lemma tracked_moved d d' : moved d d' -> tracked d -> tracked d'.
Proof.
  intros (C & [R O] & P) (Hn & Ho & Ht). split; [congruence|]. split; [by eapply same_open_trans|].
  intros i x Hx. destruct (Ht i x Hx) as (y & Hy & Hxy). destruct (P i y Hy) as (z & Hz & Hyz).
  exists z. split; [done|]. destruct Hxy as [E|E]; [|right; by eapply ended_later].
  destruct Hyz as [?|Hr]; [left; congruence|right]. rewrite <- E. apply Hr. rewrite E. apply Hx.
Qed.

Lemma tracked_kill p sig d : tracked d -> tracked (set_os d (kill p sig (os d)).2).
Proof.
  apply tracked_moved, moved_os; [done|done|]. split; [intros q; apply kill_mono|apply kill_open].
Qed.

Lemma served_later sig i d ks d' ks' :
  no_restart (os d) (os d') -> ks ⊆ ks' -> served sig i d ks -> served sig i d' ks'.
Proof.
  intros Hr Hk Hs x Hx. destruct (Hs x Hx) as [E|[E|E]]; [left; by eapply ended_later|right..]; auto.
Qed.

(** A body that serves the slots it is called with serves all of them. *)
Definition serves (sig : Z) (body : nat -> code W unit) : Prop :=
  forall i d ks Q, tracked d -> (i < Z.to_nat n)%nat ->
    (forall d' ks', tracked d' -> no_restart (os d) (os d') -> ks ⊆ ks' -> served sig i d' ks' -> Q tt d' ks') ->
    after (body i) Q d ks.

Lemma after_count (k : Z -> code W unit) Q d ks :
  tracked d -> (forall d1, moved d d1 -> tracked d1 -> after (k n) Q d1 ks) -> after (Act rd_count k) Q d ks.
Proof.
  intros Hd Hk d1 b d2 Hm [= <- <-]. pose proof (tracked_moved _ _ Hm Hd) as Hd1.
  rewrite (proj1 Hd1). by apply Hk.
Qed.

Lemma each_served sig body left : serves sig body -> forall i d ks Q,
  tracked d -> (Z.to_nat n <= i + left)%nat ->
  (forall d' ks', tracked d' -> no_restart (os d) (os d') -> ks ⊆ ks' ->
     (forall j, (i <= j)%nat -> served sig j d' ks') -> Q tt d' ks') ->
  after (each_slot body left i) Q d ks.
Proof.
  intros Hb. induction left as [|left IH]; intros i d ks Q Hd Hi HQ; cbn [each_slot];
    (apply after_count; [done|]; intros d1 Hm Hd1; pose proof Hm as (_ & [R1 _] & _)).
  - rewrite (proj2 (Z.ltb_ge _ _)) by lia. apply HQ; [done|done|done|]. intros j Hj x [? _]. lia.
  - destruct (Z.ltb_spec (Z.of_nat i) n) as [Hlt|Hge].
    2: { apply HQ; [done|done|done|]. intros j Hj x [? _]. lia. }
    apply after_bind, Hb; [done|lia|]. intros d2 ks2 Hd2 R2 K2 S2.
    apply IH; [done|lia|]. intros d3 ks3 Hd3 R3 K3 S3. apply HQ; [done| |by etransitivity|].
    + intros q Hq. auto.
    + intros j Hj. destruct (decide (j = i)) as [->|]; [by eapply served_later|apply S3; lia].
Qed.

(** Reading the pid of a slot. *)
Lemma after_pid i (k : Z -> code W unit) Q d ks :
  tracked d ->
  (forall d1 y, moved d d1 -> tracked d1 -> workers d1 !! i = Some y -> after (k (Daemon.pid y)) Q d1 ks) ->
  after (Act (rd_pid i) k) Q d ks.
Proof.
  intros Hd Hk d1 b d2 Hm E. unfold rd_pid, bind, get_worker in E.
  destruct (workers d1 !! i) as [y|] eqn:Hy; [|done]. injection E as <- <-.
  apply Hk; [done|by eapply tracked_moved|done].
Qed.

(** A slot whose pid is not the worker's any more is served. *)
Lemma served_gone sig i d ks y : tracked d -> workers d !! i = Some y -> ~ 0 < Daemon.pid y -> served sig i d ks.
Proof.
  intros (_ & _ & Ht) Hy Hp x Hx. destruct (Ht i x Hx) as (z & Hz & [E|E]); [|by left].
  simplify_eq. destruct Hx as (_ & _ & ?). lia.
Qed.

Lemma terminate_serves : serves SIGTERM terminate_code.
Proof.
  intros i d ks Q Hd Hi HQ. apply after_pid; [done|]. intros d1 y (_ & [R1 _] & _) Hd1 Hy.
  destruct (Z.ltb_spec 0 (Daemon.pid y)) as [Hp|Hp].
  2: { apply HQ; [done|done|done|]. eapply served_gone; [done|done|lia]. }
  apply after_pid; [done|]. intros d2 z (_ & [R2 _] & _) Hd2 Hz d3 Hm3. pose proof Hm3 as (_ & [R3 _] & P3).
  pose proof (tracked_moved _ _ Hm3 Hd2) as Hd3. simpl. apply HQ; [by apply tracked_kill| | |].
  - intros q Hq%kill_mono. auto.
  - set_solver.
  - intros x Hx. destruct (proj2 (proj2 Hd2) i x Hx) as (z' & Hz' & [E|E]); simplify_eq.
    + right. left. rewrite <- E. set_solver.
    + left. eapply ended_later; [|exact E]. intros q Hq%kill_mono. auto.
Qed.

Lemma force_serves : serves SIGKILL force_code.
Proof.
  intros i d ks Q Hd Hi HQ. apply after_pid; [done|]. intros d1 y (_ & [R1 _] & _) Hd1 Hy.
  destruct (Z.ltb_spec 0 (Daemon.pid y)) as [Hp|Hp].
  2: { apply HQ; [done|done|done|]. eapply served_gone; [done|done|lia]. }
  apply after_pid; [done|]. intros d2 z (_ & [R2 _] & _) Hd2 Hz d3 Hm3. pose proof Hm3 as (_ & [R3 _] & _).
  pose proof (tracked_moved _ _ Hm3 Hd2) as Hd3. pose proof (kill_probe (Daemon.pid z) (os d3)) as Hsame.
  pose proof (kill_probe_running (Daemon.pid z) (os d3)) as Hprobe.
  destruct (kill (Daemon.pid z) 0 (os d3)) as [r w]. simpl in Hsame, Hprobe |- *. subst w.
  destruct (Z.eqb_spec r 0) as [->|Hr].
  - apply after_pid; [done|]. intros d4 u (_ & [R4 _] & _) Hd4 Hu d5 Hm5. pose proof Hm5 as (_ & [R5 _] & _).
    pose proof (tracked_moved _ _ Hm5 Hd4) as Hd5. simpl. apply HQ; [by apply tracked_kill| | |].
    + intros q Hq%kill_mono. apply R1, R2, R3. by apply R4, R5.
    + set_solver.
    + intros x Hx. destruct (proj2 (proj2 Hd4) i x Hx) as (u' & Hu' & [E|E]); simplify_eq.
      * right. left. rewrite <- E. set_solver.
      * left. eapply ended_later; [|exact E]. intros q Hq%kill_mono. auto.
  - apply HQ; [done| |set_solver|]; [simpl; intros q Hq; auto|].
    intros x Hx. left. simpl. destruct (proj2 (proj2 Hd2) i x Hx) as (z' & Hz' & [E|E]); simplify_eq.
    + rewrite <- E. destruct (Sys.running (Daemon.pid z) (os d3)); [|done]. by specialize (Hprobe eq_refl).
    + by eapply ended_later.
Qed.

(** Collecting the children at the end changes only the table. *)
Lemma after_act {A B} (c : M (daemon W) B) (k : B -> code W A) Q d ks :
  (forall d1 b d2, c d1 = Some (b, d2) -> steps d1 d2) ->
  (forall b d', steps d d' -> after (k b) Q d' ks) -> after (Act c k) Q d ks.
Proof. intros Hc Hk d1 b d2 (_ & Hs & _) E. apply Hk. by rewrite Hs, (Hc _ _ _ E). Qed.

Lemma update_steps i f d b d' : update i f d = Some (b, d') -> steps d d'.
Proof.
  unfold update, get_worker, bind. destruct (workers d !! i); [|done]. intros E.
  apply put_same in E as (_ & _ & Ho & _). by apply steps_same.
Qed.

Lemma find_after p st left : forall i Q d ks,
  (forall d', steps d d' -> Q tt d' ks) -> after (find_code p st left i) Q d ks.
Proof.
  assert (forall (d1 d2 : daemon W) (b : Z), rd_count d1 = Some (b, d2) -> steps d1 d2) as Hc
    by by intros d1 d2 b [= _ <-].
  induction left as [|left IH]; intros i Q d ks HQ; cbn [find_code];
    (apply after_act; [intros; by eapply Hc|]; intros n1 d1 S1); (destruct (_ <? n1); [|by apply HQ]).
  - by intros d2 b d3 _.
  - apply after_act.
    { intros d2 b d3 (x & d4 & E1 & [= _ <-])%bind_Some. unfold get_worker in E1. case_match; [|done].
      by injection E1 as _ <-. }
    intros q d2 S2. destruct (q =? p).
    + apply after_act; [intros; by eapply update_steps|]. intros u d3 S3.
      apply after_act; [intros; by eapply update_steps|]. intros u' d4 S4. apply HQ. by rewrite S1, S2, S3.
    + apply IH. intros d3 S3. apply HQ. by rewrite S1, S2.
Qed.

Lemma reap_after fuel : forall Q d ks,
  (forall b d', steps d d' -> Q b d' ks) -> after (reap_code fuel) Q d ks.
Proof.
  induction fuel as [|fuel IH]; intros Q d ks HQ; cbn [reap_code]; [by apply HQ|].
  apply after_act.
  { intros d1 b d2. rewrite sys_eq. intros [= _ <-]. apply steps_waitpid. }
  intros [[p st]|] d1 S1; [|by apply HQ]. destruct (0 <? p); [|by apply HQ].
  apply after_bind, find_after. intros d2 S2. apply IH. intros b d3 S3. apply HQ. by rewrite S1, S2.
Qed.
End Workers.

(** ** The end of the program *)

Lemma keeps_unlink p : keeps (sys (unlink p)).
Proof. apply keeps_sys. intros w q. apply unlink_open. Qed.
Lemma keeps_remove path : keeps (daemon_remove_pidfile path).
Proof.
  apply keeps_bind; [apply keeps_unlink|]. intros e. apply keeps_bind; [|intros; apply keeps_ret].
  case_match; [|apply keeps_ret]. apply keeps_bind; [apply keeps_unlink|intros; apply keeps_ret].
Qed.
(** Removing the PID file: processes stay stopped, and the file is gone when
    [unlink] allowed it. *)
Lemma remove_spec path (d : daemon W) : exists d', daemon_remove_pidfile path d = Some (0, d') /\
  workers d' = workers d /\ worker_count d' = worker_count d /\ no_restart (os d) (os d') /\
  same_open (os d) (os d') /\
  ((unlink (pid_path path) (os d)).1 = 0 \/ (unlink (pid_path path) (os d)).1 = ENOENT ->
     fopen_r (pid_path path) (os d') = None).
Proof.
  assert (exists d', daemon_remove_pidfile path d = Some (0, d') /\ workers d' = workers d /\
    worker_count d' = worker_count d /\
    ((unlink (pid_path path) (os d)).1 = 0 \/ (unlink (pid_path path) (os d)).1 = ENOENT ->
       os d' = (unlink (pid_path path) (os d)).2)) as (d' & E & Hw & Hc & Ho).
  { unfold daemon_remove_pidfile, bind. rewrite sys_eq.
    destruct (negb _ && _) eqn:Hn; [rewrite sys_eq|]; eexists; (split; [done|]); (split; [done|]);
      (split; [done|]); [|done].
    intros He. apply andb_true_iff in Hn as [N0%negb_true_iff%Z.eqb_neq N2%negb_true_iff%Z.eqb_neq]. tauto. }
  exists d'. split; [done|]. split; [done|]. split; [done|]. split; [by eapply remove_os|].
  split; [by apply (keeps_remove _ _ _ _ E)|]. intros He. rewrite (Ho He). by apply unlink_removes.
Qed.


Lemma shutdown_after xs n w0 fuel Q d ks :
  tracked xs n w0 d -> n <= Z.of_nat MAX_WORKERS ->
  (forall d' ks', same_open w0 (os d') -> no_restart (os d) (os d') ->
     (forall j, served xs n SIGTERM j d' ks' /\ served xs n SIGKILL j d' ks') -> Q tt d' ks') ->
  after (shutdown_code fuel) Q d ks.
Proof.
  intros Hd Hn HQ. unfold shutdown_code.
  apply after_bind, (each_served xs n w0 SIGTERM); [apply terminate_serves|done|lia|].
  intros d1 ks1 Hd1 R1 K1 T1. intros d2 [] d3 Hm2 [= <-]. pose proof Hm2 as (_ & [R2 _] & _).
  assert (tracked xs n w0 (set_os d2 (sleep 2 (os d2)))) as Hd3.
  { eapply tracked_moved; [|by eapply tracked_moved]. apply moved_os; [done|done|].
    split; [intros q; apply sleep_mono|apply sleep_open]. }
  apply after_bind, (each_served xs n w0 SIGKILL); [apply force_serves|done|lia|].
  intros d4 ks4 Hd4 R4 K4 T4. apply after_bind, reap_after. intros b d5 [R5 O5].
  apply after_act.
  { intros e1 r e2 E. split; [by eapply remove_os|by apply (keeps_remove _ _ _ _ E)]. }
  intros r d6 [R6 O6].
  assert (no_restart (os d4) (os d6)) as R46 by (intros q Hq; auto).
  assert (no_restart (os d1) (os d6)) as R16 by (intros q Hq; by apply R2, (sleep_mono 2), R4, R46).
  apply HQ; [|intros q Hq; auto|].
  - eapply same_open_trans; [|exact O6]. eapply same_open_trans; [apply Hd4|exact O5].
  - intros j. split; [by eapply served_later; [exact R16|exact K4|apply T1; lia]|].
    eapply served_later; [exact R46|reflexivity|apply T4; lia].
Qed.

(** Each worker of [s] has ended in the world [w], or was first asked to end
    and then killed. *)
Definition workers_stopped (s : prog W) (ks : list (Z * Z)) (w : W) : Prop :=
  forall (i : nat) x, (i < Z.to_nat (worker_count (p_daemon s)))%nat -> workers (p_daemon s) !! i = Some x ->
    0 < Daemon.pid x ->
    Sys.running (Daemon.pid x) w = false \/ ((Daemon.pid x, SIGTERM) ∈ ks /\ (Daemon.pid x, SIGKILL) ∈ ks).

(** The end of the daemon's own code under a schedule of events. *)
Lemma shutdown_outcome n fuel schedule s (w : W) :
  wf_at n (p_daemon s) -> fair schedule (shutdown_code fuel) (set_os (p_daemon s) w) ->
  exists ks d', run schedule (shutdown_code fuel) (set_os (p_daemon s) w) = Some ((tt, ks), d') /\
    Forall (may_kill false) ks /\ (Forall (Forall (allowed true)) schedule -> Forall (may_kill true) ks) /\
    same_open w (os d') /\ no_restart w (os d') /\ ((0, SIGKILL) ∉ ks -> workers_stopped s ks (os d')).
Proof.
  intros Hd Hf. pose proof (wf_table n _ (wf_at_os n _ w Hd)) as Ht.
  destruct (wpc_sound false _ _ schedule _ (allowed_any schedule) (shutdown_wpc false n fuel _ Ht))
    as ([] & ks & d' & E & _ & Hk). exists ks, d'. split; [done|]. split; [done|]. split.
  { intros Hs. destruct (wpc_sound true _ _ schedule _ Hs (shutdown_wpc true n fuel _ Ht))
      as (u & ks2 & d2 & E2 & _ & Hk2). congruence. }
  pose proof Hd as [Hwf Hn]. destruct Ht as (_ & _ & Hb & _).
  assert (tracked (workers (p_daemon s)) n w (set_os (p_daemon s) w)) as Htr.
  { split; [done|]. split; [done|]. intros i x (_ & Hx & _). exists x. auto. }
  pose proof (after_sound (shutdown_code fuel)
    (fun _ d2 ks2 => same_open w (os d2) /\ no_restart w (os d2) /\
       forall j, served (workers (p_daemon s)) n SIGTERM j d2 ks2 /\ served (workers (p_daemon s)) n SIGKILL j d2 ks2)
    schedule (set_os (p_daemon s) w) [] tt ks d' Hf) as Ha. simpl in Ha.
  destruct Ha as (Ho & Hr & Hs); [|exact E|].
  { eapply shutdown_after; [exact Htr|lia|]. intros d2 ks2 O2 R2 S2. done. }
  split; [done|]. split; [done|]. intros Hno i x Hi Hx Hp.
  assert (slot_of (workers (p_daemon s)) n i x) as Hsl by (split; [by rewrite <- Hn|done]).
  destruct (Hs i) as [H1s H2s]. destruct (H1s x Hsl) as [?|[?|?]]; [by left| |done].
  destruct (H2s x Hsl) as [?|[?|?]]; [by left|by right|done].
Qed.

(** What the end leaves behind. *)
Definition finished (base : Z -> bool) (pidfile : option string) (ks : list (Z * Z)) (s s' : prog W) : Prop :=
  (forall q, is_open q (world s') = base q) /\
  active_fds (clients (p_ipc s')) = [] /\ Ipc.running (p_ipc s') = 0 /\
  workers_stopped s ks (world s') /\
  ((forall w : W, (unlink (pid_path pidfile) w).1 = 0 \/ (unlink (pid_path pidfile) w).1 = ENOENT) ->
     fopen_r (pid_path pidfile) (world s') = None).

Lemma in_daemon_step {A} (c : M (daemon W) A) s a d :
  c (set_os (p_daemon s) (world s)) = Some (a, d) ->
  in_daemon c s = Some (a, mk_prog d (p_ipc s) (p_mon s) (ipc_thread s) (loop_count s) (os d)).
Proof. intros E. unfold in_daemon. by rewrite E. Qed.
Lemma in_ipc_step {A} (c : M (ipc W) A) s a i :
  c (set_net (p_ipc s) (world s)) = Some (a, i) ->
  in_ipc c s = Some (a, mk_prog (p_daemon s) i (p_mon s) (ipc_thread s) (loop_count s) (net i)).
Proof. intros E. unfold in_ipc. by rewrite E. Qed.


Lemma stopped_later s ks w w' : no_restart w w' -> workers_stopped s ks w -> workers_stopped s ks w'.
Proof. intros Hn Hs i x Hi Hx Hp. destruct (Hs i x Hi Hx Hp); [left; by eapply ended_later|by right]. Qed.

(** The state in which [daemon_shutdown] starts. *)
Definition joined (s : prog W) : daemon W := set_os (p_daemon s) (pthread_join (world s)).

Lemma main_finish_spec base sfd n k v fuel schedule pidfile (s : prog W) :
  at_prog base sfd n k v s -> fair schedule (shutdown_code fuel) (joined s) ->
  exists r ks s', main_finish fuel schedule pidfile s = Some ((r, ks), s') /\
    Forall (may_kill false) ks /\ (Forall (Forall (allowed true)) schedule -> Forall (may_kill true) ks) /\
    if bool_decide ((0, SIGKILL) ∈ ks) then r = None else r = Some 0 /\ finished base pidfile ks s s'.
Proof.
  intros (Hd & Hi & _) Hf. set (w1 := pthread_join (world s)). set (i1 := set_run (set_net (p_ipc s) (world s)) 0).
  assert (server_ok base sfd false (set_net i1 w1)) as Hi1.
  { assert (server_ok base sfd false (set_net (p_ipc s) w1)) as (m & cs & Hat)
      by (eapply server_ok_world; [apply join_open|exact Hi]).
    exists m, cs. exact Hat. }
  destruct (shutdown_outcome n fuel schedule s w1 Hd Hf) as (ks & d1 & E1 & Hk & Hk' & O1 & R1 & Hstop).
  set (prog_at d i w := mk_prog d i (p_mon s) (ipc_thread s) (loop_count s) w).
  assert (in_ipc ipc_server_stop s = Some (0, prog_at (p_daemon s) i1 (world s))) as Ea by done.
  assert (in_sys (fun w => Some (tt, pthread_join w)) (prog_at (p_daemon s) i1 (world s)) =
    Some (tt, prog_at (p_daemon s) i1 w1)) as Eb by done.
  unfold main_finish. rewrite (bind_step Ea), (bind_step Eb).
  rewrite (bind_step (in_daemon_step _ (prog_at (p_daemon s) i1 w1) _ _ E1)). cbn [snd].
  case_bool_decide as Hself.
  { exists None, ks. eexists. split; [done|]. split; [done|]. split; [done|]. by rewrite bool_decide_eq_true_2. }
  destruct (remove_spec pidfile (set_os d1 (os d1))) as (d2 & E2 & _ & _ & R2 & O2 & F2). simpl in R2, O2, F2.
  assert (server_ok base sfd false (set_net i1 (os d2))) as (m & cs & Hi2).
  { eapply server_ok_world; [|exact Hi1]. by eapply same_open_trans. }
  destruct (cleanup_defined base sfd false m cs _ eq_refl Hi2) as (i3 & E3 & Hrun & _ & Hact & Hopen).
  destruct (ipc_tidies_cleanup _ _ _ E3) as [R3 F3]. simpl in R3, F3.
  rewrite (bind_step (in_daemon_step _ (prog_at d1 i1 (os d1)) _ _ E2)).
  exists (Some 0), ks, (prog_at d2 i3 (net i3)). split.
  { by rewrite (bind_step (in_ipc_step _ (prog_at d2 i1 (os d2)) _ _ E3)). }
  split; [done|]. split; [done|]. rewrite bool_decide_eq_false_2 by done. split; [done|].
  split_and!; [done..| |]; simpl.
  - eapply stopped_later; [|by apply Hstop]. intros q Hq. by apply R2, R3.
  - intros Hu. by apply F3, F2.
Qed.

(** Once the flag is cleared it stays so. *)
Lemma stays_stopped base sfd s s' : prog_ok base sfd s -> daemon_running (p_daemon s) = 0 -> rtc sys_step s s' ->
  prog_ok base sfd s' /\ daemon_running (p_daemon s') = 0.
Proof.
  intros Hs Hz Hr. induction Hr as [|s s1 s2 Hstep Hr IH]; [done|]. destruct Hs as (n & k & v & Hs).
  destruct (sys_step_ok base sfd n k v s s1 Hs Hstep) as (n' & k' & v' & Hs1 & Hv).
  apply IH; [by exists n', k', v'|]. destruct Hs as (_ & _ & _ & <-). destruct Hs1 as (_ & _ & _ & Hv1).
  destruct Hv as [->|(sig & Hsig & E)]; [congruence|].
  unfold in_daemon in E. destruct Hsig as [-> | ->]; injection E as <-; done.
Qed.

(** C11. Stopping the daemon works: after SIGTERM or SIGINT, whatever turns,
    signals and outside moves still happen, the main loop is left at its next
    test, and the end of [main] is defined, also when handlers run, and
    processes end, between any two accesses of [daemon_shutdown].  It signals
    no negative pid, and only positive ones when no SIGCHLD arrives meanwhile.
    Unless it kills its own process group ([kill(0, SIGKILL)], after a worker
    is reaped between a test and a [kill]), [main] returns 0; then every worker
    has ended or was asked to with SIGTERM and killed with SIGKILL, every
    client and the listening socket are closed so that exactly the descriptors
    from before the start of the server are open, and the PID file is gone
    when the system let it be removed. *)
Theorem graceful_shutdown base sfd sig fuel schedule pidfile (s s0 s' : prog W) :
  prog_ok base sfd s -> sig = SIGTERM \/ sig = SIGINT ->
  in_daemon (daemon_signal_handler sig) s = Some (tt, s0) -> rtc sys_step s0 s' ->
  fair schedule (shutdown_code fuel) (joined s') ->
  main_turn s' = Some (Leave, s') /\
  exists r ks s2, main_finish fuel schedule pidfile s' = Some ((r, ks), s2) /\
    Forall (may_kill false) ks /\ (Forall (Forall (allowed true)) schedule -> Forall (may_kill true) ks) /\
    if bool_decide ((0, SIGKILL) ∈ ks) then r = None else r = Some 0 /\ finished base pidfile ks s' s2.
Proof.
  intros (n & k & v & Hs) Hsig E Hr Hf.
  destruct (signal_step base sfd n k v sig s s0 Hs E) as (v0 & Hs0 & _).
  assert (daemon_running (p_daemon s0) = 0) as Hz
    by (unfold in_daemon in E; destruct Hsig as [-> | ->]; by injection E as <-).
  destruct (stays_stopped base sfd s0 s') as [(n' & k' & v' & Hs') Hz']; [by exists n, k, v0|done|done|].
  split; [unfold main_turn; by rewrite Hz'|]. by eapply main_finish_spec.
Qed.
End Finish.

(** ** A daemon with a worker and a client that is asked to stop *)

(** A host: the network of [SimNet], files, processes and ended children. *)
Record host := mk_host {
  h_net : netsim;
  h_files : gmap string string;
  h_procs : list Z;
  h_ended : list (Z * Z);
}.
Definition put_net (h : host) (n : netsim) : host := mk_host n (h_files h) (h_procs h) (h_ended h).
Definition lift {A} (f : netsim -> A * netsim) (h : host) : A * host :=
  ((f (h_net h)).1, put_net h (f (h_net h)).2).

#[global] Instance host_net : Net host := {
  socket := lift socket; sock_bind c p := lift (sock_bind c p); listen c := lift (listen c);
  connect c p := lift (connect c p); accept c := lift (accept c); select l := lift (select l);
  sock_read c n := lift (sock_read c n); sock_write c b := lift (sock_write c b);
  close c h := put_net h (close c (h_net h)); shm_open := lift shm_open; ftruncate c := lift (ftruncate c);
  mmap := lift mmap; shm_unlink h := h; sem_open := lift sem_open; sem_close h := h;
  sem_wait := lift sem_wait; sem_post := lift sem_post; ftok h := ftok (h_net h); msgget k := lift (msgget k);
  msgsnd q t j := lift (msgsnd q t j); msgrcv q b := lift (msgrcv q b);
  msgctl_rmid q h := put_net h (msgctl_rmid q (h_net h)); is_open q h := is_open q (h_net h); mq q h := mq q (h_net h);
}.
#[global] Instance host_clock : Clock host := { time := lift time; localtime t h := localtime t (h_net h) }.
#[global] Instance host_files : Files host := {
  fopen_r p h := h_files h !! p;
  fopen_w p t h := (true, mk_host (h_net h) (<[p := t]> (h_files h)) (h_procs h) (h_ended h));
  fopen_a _ _ h := (false, h);
  unlink p h := match h_files h !! p with
                | Some _ => (0, mk_host (h_net h) (delete p (h_files h)) (h_procs h) (h_ended h))
                | None => (ENOENT, h) end;
  chmod _ _ h := (0, h);
}.
#[global] Instance host_shell : Shell host := {
  geteuid _ := 0; stat _ _ := None; popen _ h := (None, h); pclose _ _ h := (0, h);
  system _ h := (0, h); mkdir _ h := (0, h);
}.
Definition end_proc (p st : Z) (h : host) : host :=
  mk_host (h_net h) (h_files h) (filter (fun q => q <> p) (h_procs h)) (h_ended h ++ [(p, st)]).
(** A process that is signalled ends. *)
#[global] Instance host_procs : Procs host := {
  getpid _ := 100;
  fork h := (200, mk_host (h_net h) (h_files h) (200 :: h_procs h) (h_ended h));
  waitpid h := match h_ended h with
               | (p, st) :: es =>
                   if 0 <? p then
                     (Some (p, st), mk_host (h_net h) (h_files h) (filter (fun q => q <> p) (h_procs h)) es)
                   else (None, h)
               | [] => (None, h) end;
  kill p s h := if s =? 0 then (if bool_decide (p ∈ h_procs h) then 0 else ESRCH, h)
                else if bool_decide (p ∈ h_procs h) then (0, end_proc p s h) else (ESRCH, h);
  sleep _ h := h; zombies h := length (h_ended h); running p h := bool_decide (p ∈ h_procs h);
}.
#[global] Instance host_db : Db host := {
  sqlite_open _ w := (true, w); sqlite_schema w := (true, w); sqlite_close w := w;
  db_insert _ w := w; db_select _ := None; db_find _ _ := None; db_delete _ w := w;
  malloc _ w := (true, w); pthread_create w := (true, w); pthread_join w := w; rows _ := [];
}.
#[global] Instance host_hist : HistDb host := {
  h_open _ w := (true, w); h_schema w := (true, w); h_close w := w;
  h_insert _ w := (true, w); h_select _ _ _ _ := Some []; h_delete_before _ w := (true, w);
  opendir _ _ := true;
}.

#[global] Instance host_net_laws : NetLaws host.
Proof.
  split; simpl.
  - intros s w c w' [= <- <-]. exact (accept_fresh s (h_net w) _ _ (surjective_pairing _)).
  - intros s w c w' [= <- <-]. exact (accept_fail s (h_net w) _ _ (surjective_pairing _)).
  - intros w c w' [= <- <-]. exact (socket_fresh (h_net w) _ _ (surjective_pairing _)).
  - intros w c w' [= <- <-]. exact (socket_fail (h_net w) _ _ (surjective_pairing _)).
  - intros w c w' [= <- <-]. exact (shm_open_fresh (h_net w) _ _ (surjective_pairing _)).
  - intros w c w' [= <- <-]. exact (shm_open_fail (h_net w) _ _ (surjective_pairing _)).
  - intros c p q w. exact (bind_open c p q (h_net w)).
  - intros c q w. exact (listen_open c q (h_net w)).
  - intros c q w. exact (ftruncate_open c q (h_net w)).
  - intros q w. exact (mmap_open q (h_net w)).
  - intros q w. exact (sem_open_open q (h_net w)).
  - intros c q w. exact (close_open c q (h_net w)).
  - intros l q w. exact (select_open l q (h_net w)).
  - intros l w r w' [= E _]. eapply (select_sub l (h_net w)). rewrite <- E. apply surjective_pairing.
  - intros c n q w. exact (read_open c n q (h_net w)).
  - intros c b q w. exact (write_open c b q (h_net w)).
  - intros q w. exact (time_open q (h_net w)).
  - intros p q w. by destruct (h_files w !! p).
  - done.
  - done.
  - intros q t j w r w' [= <- <-]. exact (msgsnd_ok q t j (h_net w) _ _ (surjective_pairing _)).
  - intros q t j w. exact (msgsnd_type q t j (h_net w)).
  - intros q b w j w'. unfold lift. simpl. destruct (ns_queue (h_net w)); intros; by simplify_eq/=.
Qed.
#[global] Instance host_prog_laws : ProgLaws host.
Proof. split; simpl; try done; intros; repeat case_match; done. Qed.

Lemma end_proc_procs p st q h : q ∈ h_procs (end_proc p st h) <-> q ∈ h_procs h /\ q <> p.
Proof. simpl. rewrite list_elem_of_filter. tauto. Qed.

#[global] Instance host_procs_laws : ProcsLaws host.
Proof.
  split; simpl.
  - intros w p st w'. destruct (h_ended w) as [|[q s] es]; [done|].
    destruct (Z.ltb_spec 0 q); intros; simplify_eq/=. lia.
  - done.
  - intros p w Hp. by rewrite Hp.
  - intros p w. destruct (bool_decide (p ∈ h_procs w)) eqn:Hp; simpl; [|done].
    apply bool_decide_eq_false. rewrite list_elem_of_filter. tauto.
  - intros p s q w. destruct (s =? 0); [done|]. destruct (bool_decide (p ∈ h_procs w)); simpl; [|done].
    rewrite !bool_decide_eq_true, list_elem_of_filter. tauto.
  - done.
  - intros q w. destruct (h_ended w) as [|[p st] es]; [done|]. destruct (0 <? p); [simpl|done].
    rewrite !bool_decide_eq_true, list_elem_of_filter. tauto.
  - intros f q w. by case_match.
Qed.
#[global] Instance host_finish_laws : FinishLaws host.
Proof.
  split; simpl; try done.
  - intros w p st w'. destruct (h_ended w) as [|[q s] es]; [done|]. destruct (0 <? q); intros; simplify_eq/=.
    apply bool_decide_eq_false. rewrite list_elem_of_filter. tauto.
  - intros q p w Hp. destruct (h_files w !! q) eqn:E; [simpl|done]. rewrite lookup_delete. by case_decide.
  - intros p w _. destruct (h_files w !! p) eqn:E; [simpl; by rewrite lookup_delete_eq|done].
Qed.

(** A client waits at the socket, the PID file exists. *)
Definition host_start : host :=
  mk_host (ns_set_backlog quiet [status_request]) {["/run/sm.pid" := "100"]} [] [].
Definition run_of {S A} (c : M S A) (s : S) : S := match c s with Some (_, s') => s' | None => s end.
Definition host_ipc : ipc host := run_of (ipc_server_init IPC_SOCKET_PATH) (ipc_start host_start).
Definition host_daemon : prog host :=
  mk_prog (daemon_start host_start) host_ipc (monitor_start host_start) true 0 (net host_ipc).
(** A turn of the main loop starts a worker, a turn of the server accepts the
    client; then SIGTERM arrives. *)
Definition host_worker : prog host := run_of main_turn host_daemon.
Definition host_busy : prog host := run_of (in_ipc serve_once) host_worker.
Definition host_asked : prog host := run_of (in_daemon (daemon_signal_handler SIGTERM)) host_busy.
(** The worker's SIGCHLD arrives during the sleep. *)
Definition worker_ends : list (list (event host)) := [[]; []; []; []; [Sig SIGCHLD]].

Definition host_fds (q : Z) : bool := is_open q host_start.

Lemma host_daemon_ok : at_prog host_fds 3 0 0 1 host_daemon.
Proof.
  assert (ipc_server_init IPC_SOCKET_PATH (ipc_start host_start) = Some (0, host_ipc)) as E
    by (vm_compute; reflexivity).
  split; [apply start_wf|]. split; [|by split]. unfold host_daemon. cbn [p_ipc world].
  rewrite set_net_same. destruct (init_cases _ _ _ _ E) as [(_ & _ & Hs)|[? _]]; [|done].
  replace 3 with (server_fd host_ipc) by (vm_compute; reflexivity). exact Hs.
Qed.

Lemma host_busy_ok : prog_ok host_fds 3 host_busy.
Proof.
  assert (main_turn host_daemon = Some (Again, host_worker)) as E1 by (vm_compute; reflexivity).
  assert (in_ipc serve_once host_worker = Some (tt, host_busy)) as E2 by (vm_compute; reflexivity).
  destruct (sys_step_ok host_fds 3 0 0 1 host_daemon host_worker host_daemon_ok) as (n & k & v & Hw & _);
    [by apply st_turn|].
  destruct (sys_step_ok host_fds 3 n k v host_worker host_busy Hw) as (n' & k' & v' & Hb & _);
    [apply st_ipc; [vm_compute; reflexivity|vm_compute; discriminate|exact E2]|].
  by exists n', k', v'.
Qed.

Lemma graceful_shutdown_witness :
  (active_fds (clients (p_ipc host_asked)) = [5] /\ Daemon.pid <$> head (workers (p_daemon host_asked)) = Some 200 /\
   fopen_r "/run/sm.pid" (world host_asked) = Some "100" /\
   fst <$> main_finish 5 worker_ends (Some "/run/sm.pid") host_asked = Some (Some 0, [(200, SIGTERM)])) /\
  main_turn host_asked = Some (Leave, host_asked) /\
  exists r ks s2, main_finish 5 worker_ends (Some "/run/sm.pid") host_asked = Some ((r, ks), s2) /\
    Forall (may_kill false) ks /\ (Forall (Forall (allowed true)) worker_ends -> Forall (may_kill true) ks) /\
    if bool_decide ((0, SIGKILL) ∈ ks) then r = None
    else r = Some 0 /\ finished host_fds (Some "/run/sm.pid") ks host_asked s2.
Proof.
  split; [vm_compute; auto|].
  apply (graceful_shutdown host_fds 3 SIGTERM 5 worker_ends (Some "/run/sm.pid") host_busy host_asked host_asked).
  - exact host_busy_ok.
  - left. reflexivity.
  - vm_compute. reflexivity.
  - apply rtc_refl.
  - apply fair_signals. repeat constructor. by exists SIGCHLD.
Defined.
